(* ===== verification/_CoqProject ===== *)
-Q . S2P
Prelude.v
Topic.v
Utility.v
Mqtt.v
Parser.v
ParserFacts.v
Serialiser.v
SerialiserFacts.v
ParserSpec.v
ParserTyped.v
RoundTrip.v
Substree.v
Tokenise.v
SubstreeFacts.v
SubAddFacts.v
SubTheorems.v
UtHash.v
UtTable.v
UtTableFacts.v
UtTableSpec.v
UtSort.v
UtSortFacts.v
UtSortSpec.v
Broker.v
Handler.v
EventIO.v
Startup.v
BrokerInv.v
OutputFacts.v
InputFacts.v
InputSpec.v
HandlerFacts.v
HandlerSafe.v
HandlerSpec.v
ReaderSafe.v
OutputSpec.v
LoopSpec.v
LoopSafe.v
Delivery.v
System.v
Relay.v
Atomic.v
EventSpec.v
Scenarios.v
Bench.v
BenchFacts.v
Epsub.v
EpsubFacts.v
EpsubSpec.v
EpsubLive.v
EpsubOpen.v
EpsubRun.v
EpsubErrors.v
Eppub.v
EppubFacts.v
EppubMessage.v
Printing.v
PrintingFacts.v
Probes.v
Samples.v
CodecWitnesses.v
TreeWitnesses.v
BrokerWitnesses.v
SubWitnesses.v
PubWitnesses.v
StartWitnesses.v
TableWitnesses.v
PrintWitnesses.v
SystemWitnesses.v
