(* ===== verification/Prelude.v ===== *)
(** * muMQ, an MQTT broker: a verification library

    muMQ is a multicore MQTT 3.1.1 broker in C.  Each event loop waits for
    events on its sockets, reads packets from them byte by byte, parses them,
    and lets a command handler act: register the client, store a subscription
    in a tree of topic levels, or walk that tree and queue a PUBLISH for each
    subscriber.  After the events of a round the loop sends what is queued for
    its clients.  Beside the broker there are two load generators on
    libmosquitto, one that subscribes and one that publishes.  This library is
    a shallow embedding of that code with the theorems that say what it does.

    ** The model

    A piece of C is a function of type [M S A]: from a state of type [S] to
    [Ok] with a result and a state, to [Fault] (undefined behaviour such as a
    read of uninitialised or freed memory, a division by zero or an overflow
    of [int], a failed assertion, a wait that never ends), or to [NoFuel], the answer
    of a loop whose bound was too small.  Integers are [Z], wrapped where the C
    type wraps ([u8], [u16], [u32], [u64], [s8], [s32]).  A pointer into a
    block is the part of the block from there on ([ptr]), so that a read past
    the end is a fault; [malloc] consults the field [al_fail] of the allocator
    [alloc] and can fail at any call.  [wp] is the weakest precondition, with a
    second postcondition for faults, and [preserves] the invariance of a
    property; the lemmas about both are the calculus of all proofs.

    The broker is built on the sockets of the kernel or, with the macro MTCP, on
    the mTCP library.  The macro and the constants of epoll are a class,
    [Platform], and with the number of loops, which [main] computes, the class
    [Build]; [BuildOk] is what is known of a build.  The definitions use them
    where the code has [#if MTCP] or one of these numbers, and the theorems on
    the loop and the threads hold for every build.  Where no build is given,
    [kernel_build] is meant.  What the two builds differ in: the numbers of
    sockets, of the process or of a loop ([max_fd]), the part of the table of
    clients that a loop has ([base_of]), which events end a connection, and
    what the start does.

    ** The parts of the program and their files

    - utility.c: [Utility], the two topic validators.
    - mqtt.h, mqtt.c: [Mqtt] (messages, [mqtt_parser_command],
      [free_mqtt_msg]), [Parser] ([mqtt_parser_execute], one definition per
      case of its switch), [Serialiser] ([mqtt_serialiser_size],
      [mqtt_serialiser_write]).
    - substree.c, substree.h: [Substree], the tokeniser, [mqtt3_sub_add] and
      [mqtt3_sub_tree_process].  The tree uses the clients only through the
      class [ClientStore] (identifier, subscription flag, node list), whose
      laws [ClientStoreLaws] the table of [Broker] satisfies.
    - uthash.h: [UtTable], the hash table with its hash function, buckets and
      their expansion: [HASH_ADD_PTR], [HASH_DEL], [HASH_FIND_PTR], [HASH_COUNT]
      and the integrity check [HASH_FSCK]; [UtSort], the operations the broker
      does not use, as [HASH_SRT], [HASH_SELECT] and the other hash functions;
      [UtHash], the view of the table that the event loop has, which is the
      application-order list with its head, tail and count.
    - client.h, broker.h, config.h, broker.c: [Broker], the client record, the
      builds, the state [broker] (allocator, tree, lock, clients), [init_tree] (what
      [init_database] does last), [clean_context], [add_client].
    - hand_mqtt.c: [Handler], [publish_msg], [ack_msg], [handle_mqtt_command].
    - event_io.c, and [remove_client] of broker.c: [EventIO], [loop_read],
      [accept_connection], the sending loop, [loop_run].  The state [world] is
      the broker, the [epollop] of the loop, and the operating system: scripts
      of what [recv], [send] and [accept] answer, and the trace of what was
      sent, watched and closed.
    - run of broker.c, the other way round: [System], the event loops as threads
      on one broker.  A [thread] has its [epollop], its part of the operating
      system and the place in its loop where it is ([phase]); [step_thread]
      runs [handle_event] for one event or [send_client] for one client, and
      [move] says which steps the system allows.  [Atomic] cuts the sending for
      a client into the steps between which other threads can get its
      [sending_lock] ([sending_step]).
    - main, init_mTCP, init_database, SignalHandler, start_server, run_worker and
      run of broker.c; init_event_io, get_listen_sock and the helpers on sockets and epoll of event_io.c:
      [Startup].  Its state [host] is the allocator, a script of the answers
      of the calls of the system and of mTCP, the list of these calls and that of
      the answers they got, and the number of loops.  Among the calls are those
      that make locks, but not those on the attributes of threads.  What [EventIO] takes
      for granted of the helpers (that a socket is watched, or closed) is here
      the sequence of their system calls.
    - getsockop.c, tools/util/cpu.c: [Probes], the program that prints the
      options of a socket, and the functions that count the processors and bind
      a thread to one.
    - utility.c, mqtt.c, substree.c again: [Printing], the log, [print_hex], the
      dump of a message and the printing of the tree; the state is what has
      been printed.
    - tools/epsub.c, tools/eppub.c: [Bench] has what the two programs share
      (arguments, division of the connections among the threads, names, time
      stamps, and libmosquitto, epoll and the clock as scripts with a trace),
      [Epsub] and [Eppub] the rest, each function under its name: callbacks,
      contexts, connections, statistics, [thread_round] (one evaluation of the
      loop of RunMain), [main].  The connections are a store of records under
      their addresses, so that a use after [free] is a fault.

    ** The theorems

    - Topics ([Topic], [Utility], [Tokenise]): the specification of levels,
      valid filters and matching, taken from the MQTT standard; the validators
      decide it on terminated strings, and the tokeniser computes it.
    - Parser ([ParserFacts], [ParserSpec], [ParserTyped]): it terminates, reads
      inside the payload (but for SUBSCRIBE), each kind of payload parses into
      the fields it was made of, and what it leaves of any payload is well
      typed.
    - Serialiser ([SerialiserFacts]): it fills exactly the buffer of the computed
      size with the encoding of the message.  [RoundTrip] puts the two together.
    - Tree ([SubstreeFacts], [SubAddFacts], [SubTheorems]): abstractly the tree
      is a map from filters to leaves; adding changes it at one filter, a
      search finds exactly the leaves of the matching filters; failures of
      memory leave it alone.
    - Table of clients ([UtHash]): the linked structure represents a list, to
      which adding appends and from which deleting removes.  The whole table
      ([UtTableFacts], [UtTableSpec]) refines that view, keeps every element
      in the bucket of its hash, passes its own check, and a lookup finds what
      is there as long as keys do not change.  The merge sort in place is a
      stable sort ([UtSortFacts] on lists, [UtSortSpec] on the table), which also
      has replacing and iterating.
    - Commands ([HandlerFacts], [HandlerSpec]): result, answer and effect of every
      command on every branch.
    - Input and output ([InputFacts], [InputSpec], [OutputFacts], [OutputSpec]): a
      packet is read the same however it is cut; queued packets are sent in
      order and whole if the socket never blocks; what happens when it does.
    - Loop ([BrokerInv], [LoopSpec], [EventSpec], [Scenarios]): the invariant of the
      clients, kept by every command and every round; connections coming and
      going; whole runs computed on concrete scripts.
    - Safety of the whole ([HandlerSafe], [ReaderSafe], [LoopSafe]): commands on any
      message, the reader on any bytes, and the loop on any events the system
      may report return, or read past a payload, and keep the invariants.  They
      are asked to give the kernel's loops no connection while there are 32200
      clients ([overfull]): that case, which mTCP has too few sockets for
      ([mtcp_never_overfull]), loses the table and ends in a fault
      ([full_table_crashes]).
    - From socket to sockets ([Delivery]): one round of the loop reads a
      publication and sends it to every subscriber, and the pass over the clients
      sends to each what is queued for it; they compose the theorems on the
      reader, the parser, the commands, the tree and the output.
    - Several loops ([System], [Relay], [Atomic]): the invariants hold under every
      interleaving of the threads' steps; a thread left alone makes the round
      that [loop_round] describes; a publication that one loop reads is sent by
      the loop of each subscriber, behind what was on its way before, whatever
      the threads do in between; and to threads that queue packets the sending
      for a client is atomic, so that it may be one step.  On the kernel no
      client is in two tables because the system gives no descriptor twice; on
      mTCP, where two loops may have sockets of one number, because each has its
      own part of the clients.
    - Printing ([PrintingFacts]): the tree is printed with a line for every
      node, the dump of a parsed message stays inside the payload, and
      [print_hex] overflows its buffer above a length that is computed.
    - Start ([Startup]): which sockets, locks and threads there are after it, and
      after each failure, in both builds, by the answers of the calls; the loops it starts run in a build that
      satisfies [BuildOk] ([cores_ok]).
    - Probes ([Probes]): what is printed, and of which options; that binding a
      thread stays inside its set of processors on up to eight of them only.
    - Load generators: the shares and identifiers of the connections
      ([BenchFacts]); statistics ([EpsubFacts]); what a round of a thread does
      to its connections, abstractly a map from connections to the messages
      they wait for ([EpsubSpec], [EpsubLive]), the opening rounds
      ([EpsubOpen]) and, from these, whole runs of epsub ([EpsubRun]); its errors
      ([EpsubErrors]); what eppub publishes ([EppubFacts], [EppubMessage]).
    - [Samples], [CodecWitnesses], [TreeWitnesses], [BrokerWitnesses],
      [SubWitnesses], [PubWitnesses], [StartWitnesses], [TableWitnesses],
      [PrintWitnesses], [SystemWitnesses]: for each theorem with hypotheses an input at which they
      hold.

    ** Fuel

    Recursion is structural where the code walks a list, a string or the tree.
    The other loops carry fuel: [parser_fuel] is 12, one more than the longest
    path through the parser's states ([parser_safe] shows it is enough);
    [length_fuel] is 5, the digits of a 32-bit length
    ([serialiser_write_correct]); [digits_fuel] is 5, since the fifth digit is
    refused ([packet_read_any_cut], [long_length_refused]); [parse_fuel] is 1,
    since the parser never asks to be called again; [payload_fuel] and
    [send_fuel] exceed the number of answers left in the scripts
    ([packet_read_any_cut], [send_client_safe]); the pass over the clients has
    the size of the table ([send_all_visits]).  In the load generators
    [connect_fuel] is one more than the connections a thread has left to open
    ([program_opens]); [show_fuel] is 10, the digits of a 32-bit integer.  A
    walk along a chain of the hash table has one more than the count of its
    bucket ([HASH_ADD_PTR_refines], [HASH_FIND_PTR_correct]).  The runs of
    the merge sort double, so that [sort_fuel], 33 passes, is enough for a
    table of less than 2^32 elements ([HASH_SRT_correct]).  The table ends
    the process when memory runs out; its operations then answer [false].

    ** Threads

    [EventIO] is one event loop of the broker, [System] any number of them.  A
    step of a thread, the handling of one event or the sending for one client,
    is atomic there; the steps are interleaved in any order.  The code takes
    its locks for shorter sections.  For the sending [Atomic] shows that what
    other threads queue in between makes no difference; in the handling of an
    event nothing is interleaved between two sections.  Inside a step a lock that
    is not given back shows as the fault [Deadlock] of the next one to take it.
    The threads of a load generator share its counters: a run is given by a
    schedule, a list of rounds of threads and interrupts in any order, and the
    theorems hold for all the schedules they describe.  A round is atomic in
    it, and all threads are created before the first.

    ** What is not modelled

    The mTCP library, libmosquitto and the system themselves, whose functions
    are scripts (mosquitto.h is a header of the second); interleavings finer than
    those above; [free], and so leaks and double frees, in the broker; the
    texts of the log; the Bloom filter and the emitting of keys in uthash.h, which
    are not compiled; [mtcp_getsockopt] after an
    error event, whose answer is logged only; the text that the load generators
    print, of which the numbers are kept, and their binding of threads to
    processors. *)

From stdpp Require Export base list numbers option gmap.
From Stdlib Require Export ZArith Lia.

#[global] Open Scope Z_scope.
#[global] Set Default Goal Selector "!".

Declare Scope mumq_scope.
Delimit Scope mumq_scope with mumq.
#[global] Open Scope mumq_scope.

(** ** Outcomes

    What running a piece of C can lead to: a value, a fault (an execution the
    C standard or POSIX gives no meaning to, or one that blocks for ever), or,
    for a loop run with bounded fuel, no answer yet. *)

Inductive fault : Type :=
| NullDeref
| OutOfBounds
| Uninitialised
| Deadlock
| UseAfterFree
| DivByZero
| Overflow
| Aborted.

Inductive outcome (A : Type) : Type :=
| Ok (a : A)
| Fault (f : fault)
| NoFuel.
Arguments Ok {A} a.
Arguments Fault {A} f.
Arguments NoFuel {A}.

#[export] Instance fault_eq_dec : EqDecision fault.
Proof. solve_decision. Defined.

Definition obind {A B} (m : outcome A) (f : A -> outcome B) : outcome B :=
  match m with Ok a => f a | Fault x => Fault x | NoFuel => NoFuel end.

Notation "'let?' x ':=' m 'in' k" := (obind m (fun x => k))
  (at level 10, x pattern, m at level 100, k at level 200)
  : mumq_scope.

(** ** Stateful computations

    [M S A] threads a state of type [S]; [let* x := m in k] and [m ;;; k] run
    [m] and then [k]. *)

Definition M (S A : Type) : Type := S -> outcome (A * S).

Definition ret {S A} (a : A) : M S A := fun s => Ok (a, s).
Definition bind {S A B} (m : M S A) (f : A -> M S B) : M S B := fun s =>
  match m s with
  | Ok (a, s') => f a s'
  | Fault x => Fault x
  | NoFuel => NoFuel
  end.

Notation "'let*' x ':=' m 'in' k" := (bind m (fun x => k))
  (at level 10, x pattern, m at level 100, k at level 200)
  : mumq_scope.
Notation "m ';;;' k" := (bind m (fun _ => k))
  (at level 100, k at level 200, right associativity) : mumq_scope.

Definition fail {S A} (f : fault) : M S A := fun _ => Fault f.
Definition gets {S A} (f : S -> A) : M S A := fun s => Ok (f s, s).
Definition modify {S} (f : S -> S) : M S unit := fun s => Ok (tt, f s).
Definition lift {S A} (m : outcome A) : M S A := fun s =>
  match m with Ok a => Ok (a, s) | Fault x => Fault x | NoFuel => NoFuel end.

Arguments ret {S A} a s /.
Arguments bind {S A B} m f s /.
Arguments fail {S A} f s /.
Arguments gets {S A} f s /.
Arguments modify {S} f s /.
Arguments lift {S A} m s /.

(** Run a computation on a part of the state. *)
Definition zoom {S T A} (get : S -> T) (put : T -> S -> S) (m : M T A) : M S A :=
  fun s =>
    match m (get s) with
    | Ok (a, t) => Ok (a, put t s)
    | Fault x => Fault x
    | NoFuel => NoFuel
    end.

Arguments zoom {S T A} get put m s /.

(** Run one computation per element of a list, in order. *)
Fixpoint iter {S A} (f : A -> M S unit) (l : list A) : M S unit :=
  match l with
  | [] => ret tt
  | x :: l' => f x ;;; iter f l'
  end.

Lemma bind_eq {S A B} (m1 m2 : M S A) (k1 k2 : A -> M S B) s :
  m1 s = m2 s -> (forall a s', k1 a s' = k2 a s') -> bind m1 k1 s = bind m2 k2 s.
Proof. intros Hm Hk. unfold bind. rewrite Hm. by destruct (m2 s) as [[a s']| |]. Qed.

Lemma bind_ok {S A B} (m : M S A) (k : A -> M S B) s a s' :
  m s = Ok (a, s') -> bind m k s = k a s'.
Proof. intros Hm. unfold bind. by rewrite Hm. Qed.

Lemma bind_inv {S A B} (m : M S A) (k : A -> M S B) s r :
  bind m k s = Ok r -> exists a s', m s = Ok (a, s') /\ k a s' = Ok r.
Proof. unfold bind. destruct (m s) as [[a s']| |]; [|done|done]. by exists a, s'. Qed.

Lemma iter_app {S A} (f : A -> M S unit) l1 l2 s :
  iter f (l1 ++ l2) s = (iter f l1 ;;; iter f l2) s.
Proof.
  revert s. induction l1 as [|x l1 IH]; intros s; [done|]. cbn.
  destruct (f x s) as [[? s']| |]; [|done|done]. by rewrite IH.
Qed.

(** ** Record update: [r <| field := value |>]

    A record type declares its eta-expansion once ([Eta]); the setter of a
    field is found from it. *)

Class Eta (R : Type) := eta : R -> R.
Class Update {R T : Type} (proj : R -> T) := update : T -> R -> R.
Arguments update {R T} proj {_} v r /.

Ltac find_setter R T proj :=
  exact (fun (v : T) (r : R) =>
    ltac:(let b := eval hnf in (@eta R _ r) in
          match b with
          | context C [proj r] => let b' := context C [v] in exact b'
          end)).
#[export] Hint Extern 1 (@Update ?R ?T ?proj) =>
  find_setter R T proj : typeclass_instances.

Notation "r <| f := v |>" := (update f v r)
  (at level 1, f constr at next level, v constr at level 99, left associativity) : mumq_scope.

Abbreviation zlen l := (Z.of_nat (length l)) (only parsing).

(** ** Machine integers *)

Definition wrap (w z : Z) : Z := z mod 2 ^ w.
Definition u8 (z : Z) : Z := wrap 8 z.
Definition u16 (z : Z) : Z := wrap 16 z.
Definition u32 (z : Z) : Z := wrap 32 z.
Definition u64 (z : Z) : Z := wrap 64 z.
(** two's complement *)
Definition signed (w z : Z) : Z := (z + 2 ^ (w - 1)) mod 2 ^ w - 2 ^ (w - 1).
Definition s8 (z : Z) : Z := signed 8 z.
Definition s32 (z : Z) : Z := signed 32 z.
Definition s64 (z : Z) : Z := signed 64 z.

Definition is_byte (b : Z) : Prop := 0 <= b < 256.
Definition bytes (l : list Z) : Prop := Forall is_byte l.

Lemma wrap_small w z : 0 <= z < 2 ^ w -> wrap w z = z.
Proof. apply Z.mod_small. Qed.
Lemma wrap_range w z : 0 <= w -> 0 <= wrap w z < 2 ^ w.
Proof. intros. apply Z.mod_pos_bound. lia. Qed.
Lemma signed_small w z : 0 < w -> - 2 ^ (w - 1) <= z < 2 ^ (w - 1) -> signed w z = z.
Proof.
  intros Hw Hz. unfold signed.
  assert (2 ^ w = 2 * 2 ^ (w - 1)).
  { rewrite <- Z.pow_succ_r by lia. f_equal. lia. }
  rewrite Z.mod_small; lia.
Qed.

Lemma u8_small z : 0 <= z < 256 -> u8 z = z.
Proof. apply (wrap_small 8). Qed.
Lemma u16_small z : 0 <= z < 65536 -> u16 z = z.
Proof. apply (wrap_small 16). Qed.
Lemma u32_small z : 0 <= z < 4294967296 -> u32 z = z.
Proof. apply (wrap_small 32). Qed.
Lemma u64_small z : 0 <= z < 18446744073709551616 -> u64 z = z.
Proof. apply (wrap_small 64). Qed.
Lemma u8_range z : 0 <= u8 z < 256.
Proof. apply (wrap_range 8). lia. Qed.
Lemma u32_range z : 0 <= u32 z < 4294967296.
Proof. apply (wrap_range 32). lia. Qed.
Lemma u64_range z : 0 <= u64 z < 18446744073709551616.
Proof. apply (wrap_range 64). lia. Qed.

(** ** Memory

    A C pointer into an allocation is modelled by the bytes from the place it
    points to up to the end of the allocation; the null pointer is [None]. *)

Definition ptr : Type := option (list Z).

Definition ptr_add (p : ptr) (off : Z) : ptr := drop (Z.to_nat off) <$> p.

(** [p[i]] *)
Definition load (p : ptr) (i : Z) : outcome Z :=
  match p with
  | None => Fault NullDeref
  | Some mem =>
      if i <? 0 then Fault OutOfBounds
      else match mem !! Z.to_nat i with
           | Some b => Ok b
           | None => Fault OutOfBounds
           end
  end.

(** The [n] bytes a [memcpy] from [p] reads; copying no bytes reads nothing. *)
Definition load_bytes (p : ptr) (n : Z) : outcome (list Z) :=
  if n <=? 0 then Ok []
  else match p with
       | None => Fault NullDeref
       | Some mem =>
           if Z.of_nat (length mem) <? n then Fault OutOfBounds
           else Ok (take (Z.to_nat n) mem)
       end.

(** The C string starting at the first byte of [mem]: the bytes before the
    first NUL, [None] when the allocation ends before one is found. *)
Fixpoint c_string (mem : list Z) : option (list Z) :=
  match mem with
  | [] => None
  | b :: mem' => if b =? 0 then Some [] else cons b <$> c_string mem'
  end.

Definition no_nul (s : list Z) : Prop := Forall (fun b => b <> 0) s.

Lemma c_string_app s rest : no_nul s -> c_string (s ++ 0 :: rest) = Some s.
Proof.
  induction 1 as [|b s Hb _ IH]; [done|]. cbn [c_string app].
  rewrite (proj2 (Z.eqb_neq b 0)) by done. by rewrite IH.
Qed.

Lemma c_string_no_nul mem s : c_string mem = Some s -> no_nul s.
Proof.
  revert s. induction mem as [|b mem IH]; intros s; cbn; [done|].
  destruct (Z.eqb_spec b 0) as [->|Hb]; intros Hs; simplify_eq; [constructor|].
  destruct (c_string mem) as [s'|]; simplify_eq/=. constructor; [done|]. by apply IH.
Qed.

Lemma load_some (mem : list Z) i b :
  0 <= i -> mem !! Z.to_nat i = Some b -> load (Some mem) i = Ok b.
Proof. intros Hi Hb. cbn. rewrite (proj2 (Z.ltb_ge i 0)) by lia. by rewrite Hb. Qed.

Lemma load_bytes_app (s rest : list Z) n :
  n = Z.of_nat (length s) -> load_bytes (Some (s ++ rest)) n = Ok s.
Proof.
  intros ->. unfold load_bytes. case_match eqn:E.
  - apply Z.leb_le in E. destruct s; [done|cbn [length] in E; lia].
  - rewrite length_app, (proj2 (Z.ltb_ge _ _)) by lia.
    rewrite Nat2Z.id. by rewrite take_app_length.
Qed.

(** ** Allocation

    [malloc] may fail: the [n]-th allocation of a run fails when the oracle
    [al_fail] says so.  Blocks are named by the number of their allocation. *)

Definition loc : Type := nat.
Record alloc : Type := { al_next : nat; al_fail : nat -> bool }.

#[export] Instance eta_alloc : Eta alloc := fun a =>
  {| al_next := al_next a; al_fail := al_fail a |}.

Definition malloc : M alloc (option loc) := fun a =>
  let a' := a <| al_next := S (al_next a) |> in
  Ok (if al_fail a (al_next a) then None else Some (al_next a), a').

(** An allocation whose result is dereferenced without a check. *)
Definition malloc_unchecked : M alloc loc :=
  let* p := malloc in
  match p with Some l => ret l | None => fail NullDeref end.

(** No allocation fails from now on. *)
Definition memory_available (a : alloc) : Prop :=
  forall n, (al_next a <= n)%nat -> al_fail a n = false.

Lemma malloc_available a :
  memory_available a ->
  malloc a = Ok (Some (al_next a), a <| al_next := S (al_next a) |>).
Proof. intros Ha. unfold malloc. by rewrite (Ha (al_next a)) by lia. Qed.

Lemma memory_available_next a n :
  memory_available a -> (al_next a <= n)%nat -> memory_available (a <| al_next := n |>).
Proof. intros Ha Hn m Hm. apply Ha. cbn in *. lia. Qed.

Create HintDb mumq.
#[export] Hint Resolve memory_available_next u8_range u32_range u64_range : mumq.

(** ** Reasoning about stateful computations

    [wp m Q E s]: run from [s], [m] returns with [Q] or faults with [E]; in
    either case it does not run out of fuel. *)

Definition wp {S A} (m : M S A) (Q : A -> S -> Prop) (E : fault -> Prop) (s : S) : Prop :=
  match m s with
  | Ok (a, s') => Q a s'
  | Fault f => E f
  | NoFuel => False
  end.

Definition no_fault : fault -> Prop := fun _ => False.

Section wp.
Context {S : Type}.
Implicit Types (s : S) (E : fault -> Prop).

Lemma wp_ret {A} (a : A) Q E s : Q a s -> wp (ret a) Q E s.
Proof. done. Qed.

Lemma wp_bind {A B} (m : M S A) (f : A -> M S B) Q E s :
  wp m (fun a s' => wp (f a) Q E s') E s -> wp (bind m f) Q E s.
Proof. unfold wp, bind. by destruct (m s) as [[a s']| |]. Qed.

Lemma wp_gets {A} (f : S -> A) Q E s : Q (f s) s -> wp (gets f) Q E s.
Proof. done. Qed.

Lemma wp_modify (f : S -> S) Q E s : Q tt (f s) -> wp (modify f) Q E s.
Proof. done. Qed.

Lemma wp_lift {A} (m : outcome A) a Q E s : m = Ok a -> Q a s -> wp (lift m) Q E s.
Proof. intros ->. done. Qed.

Lemma wp_fail {A} x (Q : A -> S -> Prop) E s : E x -> wp (fail x) Q E s.
Proof. done. Qed.

Lemma wp_conseq {A} (m : M S A) (Q Q' : A -> S -> Prop) (E E' : fault -> Prop) s :
  wp m Q E s -> (forall a s', Q a s' -> Q' a s') -> (forall f, E f -> E' f) ->
  wp m Q' E' s.
Proof. unfold wp. destruct (m s) as [[a s']| |]; auto. Qed.

Lemma wp_ok {A} (m : M S A) a s' Q E s : m s = Ok (a, s') -> Q a s' -> wp m Q E s.
Proof. unfold wp. by intros ->. Qed.

Lemma wp_elim {A} (m : M S A) Q s :
  wp m Q no_fault s -> exists a s', m s = Ok (a, s') /\ Q a s'.
Proof. unfold wp. destruct (m s) as [[a s']| |]; [eauto|done|done]. Qed.
End wp.

Lemma wp_fault {S A} (m : M S A) (f : fault) s :
  wp m (fun _ _ => False) (fun x => x = f) s -> m s = Fault f.
Proof. unfold wp. destruct (m s) as [[a s']|x|]; [done|by intros ->|done]. Qed.

Lemma wp_zoom {S T A} (get : S -> T) put (m : M T A) (Q : A -> S -> Prop) E s :
  wp m (fun a t => Q a (put t s)) E (get s) -> wp (zoom get put m) Q E s.
Proof. unfold wp, zoom. by destruct (m (get s)) as [[a t]| |]. Qed.

Lemma wp_malloc_unchecked (a : alloc) (Q : loc -> alloc -> Prop) (E : fault -> Prop) :
  Q (al_next a) (a <| al_next := S (al_next a) |>) ->
  (al_fail a (al_next a) = true -> E NullDeref) ->
  wp malloc_unchecked Q E a.
Proof.
  unfold wp, malloc_unchecked, malloc, bind. destruct (al_fail a (al_next a)); cbn; auto.
Qed.

(** Apply the rule for the head of the computation. *)
Ltac wp_rule :=
  lazymatch goal with
  | |- wp (bind _ _) _ _ _ => apply wp_bind
  | |- wp (ret _) _ _ _ => apply wp_ret
  | |- wp (gets _) _ _ _ => apply wp_gets
  | |- wp (modify _) _ _ _ => apply wp_modify
  | |- wp (fail _) _ _ _ => apply wp_fail
  | |- wp (zoom _ _ _) _ _ _ => apply wp_zoom
  | |- wp (if ?b then _ else _) _ _ _ => let H := fresh "Hb" in destruct b eqn:H
  end.
Ltac wp_run := repeat (wp_rule; cbv beta).

(** [lia] after turning the boolean comparisons of the code into propositions. *)
Ltac blia :=
  rewrite ?andb_true_iff, ?andb_false_iff, ?orb_true_iff, ?orb_false_iff,
    ?Z.ltb_lt, ?Z.ltb_ge, ?Z.leb_le, ?Z.leb_gt, ?Z.eqb_eq, ?Z.eqb_neq in *; lia.

(** A property of small integers by checking each of them. *)
Definition check_below (n : nat) (P : Z -> bool) : bool :=
  forallb (fun k => P (Z.of_nat k)) (seq 0 n).

Lemma check_below_correct n P :
  check_below n P = true -> forall z, 0 <= z < Z.of_nat n -> P z = true.
Proof.
  unfold check_below. rewrite forallb_forall. intros H z Hz.
  rewrite <- (Z2Nat.id z) by lia. apply H, in_seq. lia.
Qed.

(** ** The allocator over time *)

Definition alloc_le (a a' : alloc) : Prop :=
  al_fail a' = al_fail a /\ (al_next a <= al_next a')%nat.

#[export] Instance alloc_le_preorder : PreOrder alloc_le.
Proof.
  split.
  - intros a. split; [done|lia].
  - intros a b c [H1 ?] [H2 ?]. split; [congruence|lia].
Qed.

Lemma alloc_le_available a a' : alloc_le a a' -> memory_available a -> memory_available a'.
Proof. intros [Hf Hn] Ha n Hle. rewrite Hf. apply Ha. lia. Qed.

Lemma alloc_le_bump a : alloc_le a (a <| al_next := S (al_next a) |>).
Proof. split; cbn; [done|lia]. Qed.

#[export] Hint Resolve alloc_le_available alloc_le_bump : mumq.

Lemma wp_malloc (a : alloc) (Q : option loc -> alloc -> Prop) (E : fault -> Prop) :
  (forall a', alloc_le a a' -> Q (Some (al_next a)) a') ->
  (forall a', alloc_le a a' -> ~ memory_available a -> Q None a') ->
  wp malloc Q E a.
Proof.
  intros HS HN. unfold wp, malloc. destruct (al_fail a (al_next a)) eqn:Hf.
  - apply HN; [apply alloc_le_bump|]. intros Ha. by rewrite Ha in Hf by lia.
  - apply HS, alloc_le_bump.
Qed.

(** ** Invariants

    [preserves P m]: when [m] returns, it returns in a state with [P] if it
    started in one. *)

Definition preserves {S A} (P : S -> Prop) (m : M S A) : Prop :=
  forall s a s', P s -> m s = Ok (a, s') -> P s'.

Lemma wp_preserves {S A} (P : S -> Prop) (m : M S A) Q E s :
  preserves P m -> P s -> wp m Q E s -> wp m (fun a s' => Q a s' /\ P s') E s.
Proof.
  intros Hm Hs. unfold wp. destruct (m s) as [[a s']| |] eqn:Em; [|done|done].
  split; [done|]. by eapply Hm.
Qed.

Section preserves.
Context {S : Type} (P : S -> Prop).

Lemma preserves_ret {A} (a : A) : preserves P (ret a).
Proof. intros s b s' Hs [= _ <-]. done. Qed.
Lemma preserves_gets {A} (f : S -> A) : preserves P (gets f).
Proof. intros s b s' Hs [= _ <-]. done. Qed.
Lemma preserves_fail {A} f : preserves P (fail f : M S A).
Proof. intros s b s' Hs. discriminate. Qed.
Lemma preserves_lift {A} (m : outcome A) : preserves P (lift m).
Proof. intros s b s' Hs. unfold lift. destruct m; [|done|done]. by intros [= _ <-]. Qed.
Lemma preserves_modify (f : S -> S) : (forall s, P s -> P (f s)) -> preserves P (modify f).
Proof. intros Hf s b s' Hs [= _ <-]. by apply Hf. Qed.

(** The continuation may rely on what the first part returns. *)
Lemma preserves_bind_with {A B} (R : A -> Prop) (m : M S A) (f : A -> M S B) :
  preserves P m -> (forall s a s', m s = Ok (a, s') -> R a) ->
  (forall a, R a -> preserves P (f a)) -> preserves P (bind m f).
Proof.
  intros Hm HR Hf s b s' Hs. unfold bind. destruct (m s) as [[a s1]| |] eqn:E; [|done|done].
  intros Hrun. eapply Hf; [by eapply HR|by eapply Hm|exact Hrun].
Qed.
(** The same, for what holds in the states with [P]. *)
Lemma preserves_bind_in {A B} (R : A -> Prop) (m : M S A) (f : A -> M S B) :
  preserves P m -> (forall s a s', P s -> m s = Ok (a, s') -> R a) ->
  (forall a, R a -> preserves P (f a)) -> preserves P (bind m f).
Proof.
  intros Hm HR Hf s b s' Hs. unfold bind. destruct (m s) as [[a s1]| |] eqn:E; [|done|done].
  intros Hrun. eapply Hf; [by eapply HR|by eapply Hm|exact Hrun].
Qed.
Lemma preserves_bind {A B} (m : M S A) (f : A -> M S B) :
  preserves P m -> (forall a, preserves P (f a)) -> preserves P (bind m f).
Proof. intros Hm Hf. by apply (preserves_bind_with (fun _ => True)). Qed.

Lemma preserves_iter {A} (f : A -> M S unit) l :
  (forall x, preserves P (f x)) -> preserves P (iter f l).
Proof.
  intros Hf. induction l as [|x l IH]; cbn [iter]; [apply preserves_ret|].
  by apply preserves_bind.
Qed.

Lemma preserves_zoom {T A} (get : S -> T) (put : T -> S -> S) (m : M T A) :
  (forall t s, P s -> P (put t s)) -> preserves P (zoom get put m).
Proof.
  intros Hp s a s' Hs. unfold zoom. destruct (m (get s)) as [[b t]| |]; [|done|done].
  intros [= _ <-]. by apply Hp.
Qed.
End preserves.

(** Go through the structure of a computation. *)
Ltac preserves_rule :=
  lazymatch goal with
  | |- preserves _ (bind _ _) => apply preserves_bind; [|intros ?]
  | |- preserves _ (ret _) => apply preserves_ret
  | |- preserves _ (gets _) => apply preserves_gets
  | |- preserves _ (fail _) => apply preserves_fail
  | |- preserves _ (lift _) => apply preserves_lift
  | |- preserves _ (match ?x with _ => _ end) => destruct x
  end.
Ltac preserves_tac := repeat first [preserves_rule | assumption | solve [auto with mumq]].
