(* ===== verification/Topic.v ===== *)
(** * Topic names and topic filters: the vocabulary of the specifications

    Nothing here is code of the broker: this file holds the characters the
    sources compare with, the reference notions of the MQTT standard (levels,
    valid names and filters, matching) that the theorems of [Utility] and
    [Substree] relate the code to, and the lemmas about them. *)

From S2P Require Import Prelude.

Definition SLASH : Z := 47.   (* '/' *)
Definition PLUS : Z := 43.    (* '+' *)
Definition HASH : Z := 35.    (* '#' *)
Definition DOLLAR : Z := 36.  (* '$' *)

Abbreviation level := (list Z) (only parsing).

(** ** Levels *)

(** The levels of a topic: the maximal runs of characters without a slash. *)
Fixpoint levels (s : list Z) : list level :=
  match s with
  | [] => [[]]
  | c :: s' =>
      if c =? SLASH then [] :: levels s'
      else match levels s' with
           | l :: ls => (c :: l) :: ls
           | [] => [[c]]
           end
  end.

Fixpoint join (ls : list level) : list Z :=
  match ls with
  | [] => []
  | [l] => l
  | l :: ls' => l ++ SLASH :: join ls'
  end.

Lemma levels_cons s : exists l ls, levels s = l :: ls.
Proof.
  induction s as [|c s (l & ls & IH)]; cbn; [eauto|].
  case_match; [eauto|]. rewrite IH. eauto.
Qed.

Lemma levels_not_nil s : levels s <> [].
Proof. destruct (levels_cons s) as (l & ls & ->). done. Qed.

Lemma join_levels s : join (levels s) = s.
Proof.
  induction s as [|c s IH]; [done|]. cbn [levels].
  destruct (levels_cons s) as (l & ls & Hs). rewrite Hs in *.
  destruct (Z.eqb_spec c SLASH) as [->|_].
  - change (SLASH :: join (l :: ls) = SLASH :: s). by rewrite IH.
  - rewrite <- IH. by destruct ls.
Qed.

Lemma levels_inj s1 s2 : levels s1 = levels s2 -> s1 = s2.
Proof. intros E. rewrite <- (join_levels s1), E. apply join_levels. Qed.

(** A run without a slash in front of a slash, or at the end, is a level. *)
Lemma levels_app_slash l s :
  Forall (fun c => c <> SLASH) l -> levels (l ++ SLASH :: s) = l :: levels s.
Proof.
  induction 1 as [|c l Hc _ IH]; [done|]. cbn [app levels].
  rewrite (proj2 (Z.eqb_neq c SLASH)) by done. by rewrite IH.
Qed.

Lemma levels_single l : Forall (fun c => c <> SLASH) l -> levels l = [l].
Proof.
  induction 1 as [|c l Hc _ IH]; [done|]. cbn [levels].
  rewrite (proj2 (Z.eqb_neq c SLASH)) by done. by rewrite IH.
Qed.

Lemma levels_no_slash s : Forall (Forall (fun c => c <> SLASH)) (levels s).
Proof.
  induction s as [|c s IH]; cbn [levels]; [repeat constructor|].
  destruct (Z.eqb_spec c SLASH).
  - by constructor.
  - destruct (levels s); [repeat constructor; done|].
    apply Forall_cons in IH as [??]. repeat constructor; done.
Qed.

(** ** Valid names and filters *)

Definition is_wildcard (c : Z) : bool := (c =? PLUS) || (c =? HASH).
Definition wildcard_free (l : level) : bool := forallb (fun c => negb (is_wildcard c)) l.

(** A filter (MQTT 3.1.1, 4.7.1): [+] alone in its level, [#] alone in the
    last one, and no wildcard elsewhere. *)
Fixpoint valid_filter_levels (ls : list level) : bool :=
  match ls with
  | [] => true
  | [l] => wildcard_free l || bool_decide (l = [PLUS]) || bool_decide (l = [HASH])
  | l :: ls' =>
      (wildcard_free l || bool_decide (l = [PLUS])) && valid_filter_levels ls'
  end.

Definition max_topic_len : Z := 65535.
Definition fits (s : list Z) : bool := Z.of_nat (length s) <=? max_topic_len.
Definition valid_filter (s : list Z) : bool := valid_filter_levels (levels s) && fits s.
Definition valid_topic (s : list Z) : bool := wildcard_free s && fits s.

(** ** Tokens and matching

    The broker puts every topic that does not start with [$] below one empty
    level, so that a leading wildcard does not match the [$] topics. *)

Definition tokens (s : list Z) : list level :=
  match s with
  | c :: _ => if c =? DOLLAR then levels s else [] :: levels s
  | [] => [] :: levels s
  end.

(** [matches f t]: the filter levels [f] match the topic levels [t]. *)
Fixpoint matches (f t : list level) : bool :=
  match f, t with
  | [], [] => true
  | [l], [] => bool_decide (l = [HASH])
  | l :: f', t0 :: t' =>
      if bool_decide (l = [HASH]) && bool_decide (f' = []) then true
      else (bool_decide (l = t0) || bool_decide (l = [PLUS])) && matches f' t'
  | _, _ => false
  end.

Lemma tokens_cases s :
  (exists s' l ls, s = DOLLAR :: s' /\ levels s = (DOLLAR :: l) :: ls /\ tokens s = levels s)
  \/ tokens s = [] :: levels s.
Proof.
  destruct s as [|c s]; [by right|]. cbn [tokens].
  destruct (Z.eqb_spec c DOLLAR) as [->|_]; [left|by right].
  destruct (levels_cons s) as (l & ls & E). exists s, l, ls. cbn [levels].
  rewrite E. done.
Qed.

Lemma tokens_not_nil s : tokens s <> [].
Proof. destruct (tokens_cases s) as [(? & ? & ? & _ & E & ->)| ->]; [by rewrite E|done]. Qed.

Lemma tokens_inj s1 s2 : tokens s1 = tokens s2 -> s1 = s2.
Proof.
  intros E. apply levels_inj.
  destruct (tokens_cases s1) as [(? & ? & ? & _ & E1 & T1)|T1],
    (tokens_cases s2) as [(? & ? & ? & _ & E2 & T2)|T2]; congruence.
Qed.
