(* ===== verification/Utility.v ===== *)
(** * utility.c: the topic validators *)

From S2P Require Import Prelude.
From S2P Require Import Topic.

(** [bool pub_topic_valid(const char *str)]: the loop reads [str[0]], so a
    string that is not terminated inside its allocation is read past its end. *)
Fixpoint pub_topic_valid_loop (str : list Z) (len : Z) : outcome bool :=
  match str with
  | [] => Fault OutOfBounds
  | c :: str' =>
      if c =? 0 then Ok (negb (65535 <? len))
      else if (c =? PLUS) || (c =? HASH) then Ok false
      else pub_topic_valid_loop str' (len + 1)
  end.

Definition pub_topic_valid (str : ptr) : outcome bool :=
  match str with
  | None => Ok true
  | Some mem => pub_topic_valid_loop mem 0
  end.

(** [bool sub_topic_valid(const char *str)]; [c] is the previous character. *)
Fixpoint sub_topic_valid_loop (str : list Z) (c : Z) (len : Z) : outcome bool :=
  match str with
  | [] => Fault OutOfBounds
  | s0 :: str' =>
      if s0 =? 0 then Ok (negb (65535 <? len))
      else
        let? bad :=
          if s0 =? PLUS then
            if negb (c =? 0) && negb (c =? SLASH) then Ok true
            else let? s1 := load (Some str') 0 in
                 Ok (negb (s1 =? 0) && negb (s1 =? SLASH))
          else if s0 =? HASH then
            if negb (c =? 0) && negb (c =? SLASH) then Ok true
            else let? s1 := load (Some str') 0 in Ok (negb (s1 =? 0))
          else Ok false in
        if bad then Ok false else sub_topic_valid_loop str' s0 (len + 1)
  end.

Definition sub_topic_valid (str : ptr) : outcome bool :=
  match str with
  | None => Ok true
  | Some mem => sub_topic_valid_loop mem 0 0
  end.

(** ** [pub_topic_valid] *)

Lemma pub_loop_spec s rest len :
  no_nul s ->
  pub_topic_valid_loop (s ++ 0 :: rest) len =
  Ok (wildcard_free s && (Z.of_nat (length s) + len <=? max_topic_len)).
Proof.
  intros Hs. revert len. induction Hs as [|c s Hc _ IH]; intros len.
  - cbn [app pub_topic_valid_loop length Z.of_nat wildcard_free forallb andb].
    change (0 =? 0) with true. cbv iota. unfold max_topic_len. f_equal.
    destruct (Z.ltb_spec 65535 len), (Z.leb_spec (Z.of_nat 0 + len) 65535); (done || lia).
  - cbn [app pub_topic_valid_loop]. rewrite (proj2 (Z.eqb_neq c 0)) by done.
    fold (is_wildcard c). cbn [wildcard_free forallb]. destruct (is_wildcard c); [done|].
    rewrite IH. cbn [negb andb length]. rewrite Nat2Z.inj_succ. do 3 f_equal. lia.
Qed.

(** On a terminated string [pub_topic_valid] decides the topic names of the
    MQTT standard: no wildcard and at most 65535 characters. *)
Theorem pub_topic_valid_correct s rest :
  no_nul s -> pub_topic_valid (Some (s ++ 0 :: rest)) = Ok (valid_topic s).
Proof.
  intros Hs. unfold pub_topic_valid. rewrite pub_loop_spec by done.
  unfold valid_topic, fits. by rewrite Z.add_0_r.
Qed.

Lemma pub_loop_fault mem len :
  pub_topic_valid_loop mem len = Fault OutOfBounds <->
  c_string mem = None /\ wildcard_free mem = true.
Proof.
  revert len. induction mem as [|c mem IH]; intros len; [done|].
  cbn [pub_topic_valid_loop c_string wildcard_free forallb].
  fold (is_wildcard c). destruct (c =? 0); [naive_solver|].
  destruct (is_wildcard c); cbn; [naive_solver|]. rewrite IH.
  destruct (c_string mem); cbn; naive_solver.
Qed.

(** It reads past the allocation exactly when the allocation holds neither
    a terminator nor a wildcard. *)
Theorem pub_topic_valid_overread mem :
  pub_topic_valid (Some mem) = Fault OutOfBounds <->
  c_string mem = None /\ wildcard_free mem = true.
Proof. apply pub_loop_fault. Qed.

(** ** [sub_topic_valid] *)

(** What the rest [s] of a filter must satisfy inside a level that already
    has a character. *)
Definition valid_rest (s : list Z) : bool :=
  match levels s with
  | [] => true
  | l :: ls => wildcard_free l && (bool_decide (ls = []) || valid_filter_levels ls)
  end.

Definition level_start (c : Z) : bool := (c =? 0) || (c =? SLASH).
Definition valid_suffix (c : Z) (s : list Z) : bool :=
  if level_start c then valid_filter_levels (levels s) else valid_rest s.

Lemma valid_levels_cons l ls :
  ls <> [] ->
  valid_filter_levels (l :: ls) =
  (wildcard_free l || bool_decide (l = [PLUS])) && valid_filter_levels ls.
Proof. by destruct ls. Qed.

Lemma head_or_nul s rest :
  exists c tl, s ++ 0 :: rest = c :: tl /\ (c = match s with [] => 0 | x :: _ => x end).
Proof. destruct s; cbn; eauto. Qed.

Lemma load_head s rest :
  load (Some (s ++ 0 :: rest)) 0 = Ok (match s with [] => 0 | x :: _ => x end).
Proof. by destruct s. Qed.

Ltac level_cases :=
  repeat match goal with
  | |- context [bool_decide (?x = ?y)] => rewrite (bool_decide_eq_false_2 (x = y)) by congruence
  | |- context [bool_decide (?x = ?y)] => rewrite (bool_decide_eq_true_2 (x = y)) by congruence
  end; rewrite ?andb_true_r, ?andb_false_r, ?orb_true_r, ?orb_false_r.

Section step.
Context (s : list Z) (Hs : no_nul s).

Lemma valid_suffix_slash c : valid_suffix c (SLASH :: s) = valid_filter_levels (levels s).
Proof using.
  unfold valid_suffix, valid_rest. cbn [levels]. rewrite Z.eqb_refl.
  rewrite valid_levels_cons by apply levels_not_nil.
  destruct (level_start c); [done|]. cbn [wildcard_free forallb andb].
  by rewrite bool_decide_eq_false_2 by apply levels_not_nil.
Qed.

Lemma valid_suffix_plain c x :
  x <> SLASH -> is_wildcard x = false -> valid_suffix c (x :: s) = valid_rest s.
Proof using.
  intros Hx Hw. unfold valid_suffix, valid_rest. cbn [levels].
  rewrite (proj2 (Z.eqb_neq x SLASH)) by done.
  destruct (levels_cons s) as (l & ls & ->).
  assert (x <> PLUS /\ x <> HASH) as [Hp Hh].
  { unfold is_wildcard in Hw. apply orb_false_iff in Hw as [?%Z.eqb_neq ?%Z.eqb_neq]. done. }
  cbn [wildcard_free forallb]. rewrite Hw. cbn [negb andb].
  destruct (level_start c); [|done].
  destruct ls as [|l' ls].
  - cbn [valid_filter_levels wildcard_free forallb]. rewrite Hw. cbn [negb andb].
    level_cases. done.
  - rewrite valid_levels_cons by done. cbn [wildcard_free forallb]. rewrite Hw.
    cbn [negb andb]. level_cases. done.
Qed.
End step.

(** The two wildcards: what the code looks at after them. *)
Lemma valid_suffix_plus c s :
  no_nul s ->
  valid_suffix c (PLUS :: s) =
  level_start c && (match s with [] => true | x :: _ => x =? SLASH end) && valid_suffix PLUS s.
Proof.
  intros _. unfold valid_suffix. change (level_start PLUS) with false. cbv iota.
  unfold valid_rest. cbn [levels]. change (PLUS =? SLASH) with false. cbv iota.
  destruct s as [|x s].
  - cbn [levels]. by destruct (level_start c).
  - cbn [levels]. destruct (x =? SLASH) eqn:Ex.
    + destruct (level_start c); [|done]. rewrite valid_levels_cons by apply levels_not_nil.
      rewrite (bool_decide_eq_false_2 (levels s = [])) by apply levels_not_nil. done.
    + rewrite andb_false_r. destruct (levels_cons s) as (l & ls & ->).
      destruct (level_start c); [|done]. destruct ls as [|l' ls]; [done|].
      by rewrite valid_levels_cons.
Qed.

Lemma valid_suffix_hash c s :
  valid_suffix c (HASH :: s) = level_start c && match s with [] => true | _ => false end.
Proof.
  unfold valid_suffix, valid_rest. cbn [levels]. change (HASH =? SLASH) with false. cbv iota.
  destruct s as [|x s]; [by destruct (level_start c)|]. rewrite andb_false_r.
  cbn [levels]. destruct (x =? SLASH).
  - destruct (level_start c); [|done]. by rewrite valid_levels_cons by apply levels_not_nil.
  - destruct (levels_cons s) as (l & ls & ->). destruct (level_start c); [|done].
    destruct ls as [|l' ls]; [done|]. by rewrite valid_levels_cons.
Qed.

Lemma not_level_start c : negb (c =? 0) && negb (c =? SLASH) = negb (level_start c).
Proof. unfold level_start. by destruct (c =? 0), (c =? SLASH). Qed.

Lemma sub_loop_spec s rest c len :
  no_nul s ->
  sub_topic_valid_loop (s ++ 0 :: rest) c len =
  Ok (valid_suffix c s && (Z.of_nat (length s) + len <=? max_topic_len)).
Proof.
  intros Hs. revert c len. induction Hs as [|x s Hx Hs IH]; intros c len.
  - cbn [app sub_topic_valid_loop length Z.of_nat]. change (0 =? 0) with true. cbv iota.
    replace (valid_suffix c []) with true by (unfold valid_suffix; by destruct (level_start c)).
    unfold max_topic_len. f_equal. destruct (Z.ltb_spec 65535 len), (Z.leb_spec (Z.of_nat 0 + len) 65535); (done || lia).
  - cbn [app sub_topic_valid_loop]. rewrite (proj2 (Z.eqb_neq x 0)) by done.
    replace (Z.of_nat (length (x :: s)) + len) with (Z.of_nat (length s) + (len + 1))
      by (cbn [length]; lia).
    rewrite not_level_start. destruct (Z.eqb_spec x PLUS) as [->|Hplus].
    { rewrite valid_suffix_plus by done. destruct (level_start c); [|done]. cbn [negb].
      rewrite load_head. cbn [obind]. destruct s as [|y s]; [by rewrite IH|].
      inversion Hs as [|? ? Hy _]; subst. rewrite (proj2 (Z.eqb_neq y 0)) by done.
      destruct (y =? SLASH); [by rewrite IH|done]. }
    destruct (Z.eqb_spec x HASH) as [->|Hhash].
    { rewrite valid_suffix_hash. destruct (level_start c); [|done]. cbn [negb].
      rewrite load_head. cbn [obind]. destruct s as [|y s]; [by rewrite IH|].
      inversion Hs as [|? ? Hy _]; subst. by rewrite (proj2 (Z.eqb_neq y 0)). }
    cbn [obind]. rewrite IH. do 2 f_equal. destruct (Z.eqb_spec x SLASH) as [->|Hslash].
    + rewrite valid_suffix_slash by done. done.
    + rewrite valid_suffix_plain; [|done|].
      * unfold valid_suffix, level_start.
        by rewrite (proj2 (Z.eqb_neq x 0)), (proj2 (Z.eqb_neq x SLASH)).
      * unfold is_wildcard. by rewrite (proj2 (Z.eqb_neq x PLUS)), (proj2 (Z.eqb_neq x HASH)).
Qed.

