(* ===== verification/Mqtt.v ===== *)
(** * mqtt.h: messages, parser state and return codes; the fixed header byte

    The C union [mqtt_message_u] is a record here with one field per member.
    Every member starts with the common fields, so these occur once; the other
    members overlap in memory, but each function reads only the member that
    [common.type] selects, and the type of a message is set once, before any
    member is written, on memory that is all zero. *)

From S2P Require Import Prelude.

(** ** enums *)

Definition MQTT_TYPE_CONNECT : Z := 1.
Definition MQTT_TYPE_CONNACK : Z := 2.
Definition MQTT_TYPE_PUBLISH : Z := 3.
Definition MQTT_TYPE_SUBSCRIBE : Z := 8.
Definition MQTT_TYPE_SUBACK : Z := 9.
Definition MQTT_TYPE_UNSUBSCRIBE : Z := 10.
Definition MQTT_TYPE_UNSUBACK : Z := 11.
Definition MQTT_TYPE_PINGREQ : Z := 12.
Definition MQTT_TYPE_PINGRESP : Z := 13.
Definition MQTT_TYPE_DISCONNECT : Z := 14.

Inductive mqtt_error : Type :=
| MQTT_ERROR_NONE
| MQTT_ERROR_PARSER_INVALID_STATE
| MQTT_ERROR_PARSER_INVALID_REMAINING_LENGTH
| MQTT_ERROR_PARSER_INVALID_MESSAGE_ID
| MQTT_ERROR_SERIALISER_INVALID_MESSAGE_ID.

Inductive mqtt_parser_rc : Type :=
| MQTT_PARSER_RC_ERROR
| MQTT_PARSER_RC_CONTINUE
| MQTT_PARSER_RC_INCOMPLETE
| MQTT_PARSER_RC_MORE_READ
| MQTT_PARSER_RC_DONE
| MQTT_PARSER_RC_WANT_MEMORY.

Inductive mqtt_serialiser_rc : Type :=
| MQTT_SERIALISER_RC_ERROR
| MQTT_SERIALISER_RC_SUCCESS.

Inductive mqtt_parser_state : Type :=
| MQTT_PARSER_STATE_INITIAL
| MQTT_PARSER_STATE_REMAINING_LENGTH
| MQTT_PARSER_STATE_VARIABLE_HEADER
| MQTT_PARSER_STATE_CONNECT
| MQTT_PARSER_STATE_CONNECT_PROTOCOL_NAME
| MQTT_PARSER_STATE_CONNECT_PROTOCOL_VERSION
| MQTT_PARSER_STATE_CONNECT_FLAGS
| MQTT_PARSER_STATE_CONNECT_KEEP_ALIVE
| MQTT_PARSER_STATE_CONNECT_CLIENT_IDENTIFIER
| MQTT_PARSER_STATE_CONNECT_WILL_TOPIC
| MQTT_PARSER_STATE_CONNECT_WILL_MESSAGE
| MQTT_PARSER_STATE_CONNECT_USERNAME
| MQTT_PARSER_STATE_CONNECT_PASSWORD
| MQTT_PARSER_STATE_CONNACK
| MQTT_PARSER_STATE_PUBLISH
| MQTT_PARSER_STATE_PUBLISH_TOPIC_NAME
| MQTT_PARSER_STATE_PUBLISH_MESSAGE_ID
| MQTT_PARSER_STATE_PUBLISH_MESSAGE
| MQTT_PARSER_STATE_PUBACK
| MQTT_PARSER_STATE_PUBREC
| MQTT_PARSER_STATE_PUBREL
| MQTT_PARSER_STATE_PUBCOMP
| MQTT_PARSER_STATE_SUBSCRIBE
| MQTT_PARSER_STATE_SUBSCRIBE_TOPIC_NAME
| MQTT_PARSER_STATE_PINGREQ.

#[export] Instance mqtt_parser_rc_eq_dec : EqDecision mqtt_parser_rc.
Proof. solve_decision. Defined.
#[export] Instance mqtt_parser_state_eq_dec : EqDecision mqtt_parser_state.
Proof. solve_decision. Defined.

(** ** structs *)

(** [struct mqtt_buffer_s] *)
Record mqtt_buffer : Type := { b_length : Z; b_data : ptr }.
Definition buffer0 : mqtt_buffer := {| b_length := 0; b_data := None |}.

(** [struct mqtt_topicpair_s]: a malloc'ed pair starts uninitialised, and its
    [next] is always NULL. *)
Record mqtt_topicpair : Type := { tp_name : option mqtt_buffer; tp_qos : option Z }.

Record connect_flags : Type := {
  username_follows : Z; password_follows : Z; will_retain : Z;
  will_qos : Z; will : Z; clean_session : Z }.
Definition connect_flags0 : connect_flags := {|
  username_follows := 0; password_follows := 0; will_retain := 0;
  will_qos := 0; will := 0; clean_session := 0 |}.

Record connect_msg : Type := {
  protocol_name : mqtt_buffer; protocol_version : Z; flags : connect_flags;
  keep_alive : Z; client_id : mqtt_buffer; will_topic : mqtt_buffer;
  will_message : mqtt_buffer; username : mqtt_buffer; password : mqtt_buffer }.
Definition connect0 : connect_msg := {|
  protocol_name := buffer0; protocol_version := 0; flags := connect_flags0;
  keep_alive := 0; client_id := buffer0; will_topic := buffer0;
  will_message := buffer0; username := buffer0; password := buffer0 |}.

Record connack_msg : Type := { ca_unused : Z; ca_return_code : Z }.
Record publish_msg_t : Type := {
  topic_name : mqtt_buffer; pub_message_id : Z; content : mqtt_buffer }.
Record subscribe_msg : Type := { sub_message_id : Z; topics : option mqtt_topicpair }.
Record suback_msg : Type := { sa_message_id : Z; sa_return_code : Z }.

(** [union mqtt_message_u] *)
Record mqtt_message : Type := {
  retain : Z; qos : Z; dup : Z; type : Z; m_length : Z;
  connect : connect_msg; connack : connack_msg; publish : publish_msg_t;
  subscribe : subscribe_msg; suback : suback_msg }.

(** [memset(message, 0, sizeof(mqtt_message_t))] *)
Definition message0 : mqtt_message := {|
  retain := 0; qos := 0; dup := 0; type := 0; m_length := 0;
  connect := connect0; connack := {| ca_unused := 0; ca_return_code := 0 |};
  publish := {| topic_name := buffer0; pub_message_id := 0; content := buffer0 |};
  subscribe := {| sub_message_id := 0; topics := None |};
  suback := {| sa_message_id := 0; sa_return_code := 0 |} |}.

(** [struct mqtt_parser_s]: [rc], [buffer_pending], [buffer],
    [buffer_length] and [pay_length] are never used. *)
Record mqtt_parser : Type := { p_state : mqtt_parser_state; p_error : mqtt_error }.
(** [memset(&parser, 0, sizeof(mqtt_parser_t))] *)
Definition parser0 : mqtt_parser :=
  {| p_state := MQTT_PARSER_STATE_INITIAL; p_error := MQTT_ERROR_NONE |}.

#[export] Instance eta_flags : Eta connect_flags := fun r =>
  Build_connect_flags (username_follows r) (password_follows r) (will_retain r)
    (will_qos r) (will r) (clean_session r).
#[export] Instance eta_connect : Eta connect_msg := fun r =>
  Build_connect_msg (protocol_name r) (protocol_version r) (flags r) (keep_alive r)
    (client_id r) (will_topic r) (will_message r) (username r) (password r).
#[export] Instance eta_publish : Eta publish_msg_t := fun r =>
  Build_publish_msg_t (topic_name r) (pub_message_id r) (content r).
#[export] Instance eta_subscribe : Eta subscribe_msg := fun r =>
  Build_subscribe_msg (sub_message_id r) (topics r).
#[export] Instance eta_message : Eta mqtt_message := fun r =>
  Build_mqtt_message (retain r) (qos r) (dup r) (type r) (m_length r)
    (connect r) (connack r) (publish r) (subscribe r) (suback r).
#[export] Instance eta_parser : Eta mqtt_parser := fun r =>
  Build_mqtt_parser (p_state r) (p_error r).

(** ** Operations *)

(** [void mqtt_message_init(mqtt_message_t** message)]: the result of
    [malloc] is passed to [memset] unchecked. *)
Definition mqtt_message_init : M alloc mqtt_message :=
  malloc_unchecked ;;; ret message0.

(** [void mqtt_parser_command(mqtt_message_t* message, uint8_t data)] *)
Definition mqtt_parser_command (message : mqtt_message) (data : Z) : mqtt_message :=
  message
    <| retain := Z.land (Z.shiftr data 0) 1 |>
    <| qos := Z.land (Z.shiftr data 1) 3 |>
    <| dup := Z.land (Z.shiftr data 3) 1 |>
    <| type := Z.land (Z.shiftr data 4) 15 |>.

(** [void free_mqtt_msg(mqtt_message_t **msg)]: the pointer is NULL after. *)
Definition free_mqtt_msg (msg : option mqtt_message) : option mqtt_message := None.
