(* ===== verification/Parser.v ===== *)
(** * mqtt.c: [mqtt_parser_execute], the parser of variable header and payload

    The [do { switch (parser->state) ... } while (1)] loop: one definition per
    case of the switch, each a computation on the parser, the message and the
    read offset that either returns a code or breaks out of the switch to go
    round again. *)

From S2P Require Import Prelude.
From S2P Require Import Mqtt.

(** What the function reads and writes through its pointer arguments. *)
Record pstate : Type := {
  ps_parser : mqtt_parser;
  ps_message : mqtt_message;
  ps_nread : Z;
  ps_alloc : alloc }.
#[export] Instance eta_pstate : Eta pstate := fun s =>
  Build_pstate (ps_parser s) (ps_message s) (ps_nread s) (ps_alloc s).

(** [None]: the case ends with [break]. *)
Definition case_result : Type := option mqtt_parser_rc.

Definition break : M pstate case_result := ret None.
Definition return_rc (rc : mqtt_parser_rc) : M pstate case_result := ret (Some rc).
Definition set_state (st : mqtt_parser_state) : M pstate unit :=
  modify (fun s => s <| ps_parser := (ps_parser s) <| p_state := st |> |>).
Definition set_error (e : mqtt_error) : M pstate unit :=
  modify (fun s => s <| ps_parser := (ps_parser s) <| p_error := e |> |>).
Definition set_message (f : mqtt_message -> mqtt_message) : M pstate unit :=
  modify (fun s => s <| ps_message := f (ps_message s) |>).
Definition advance (n : Z) : M pstate unit :=
  modify (fun s => s <| ps_nread := u64 (ps_nread s + n) |>).
Definition in_connect (f : connect_msg -> connect_msg) (m : mqtt_message) : mqtt_message :=
  m <| connect := f (connect m) |>.
Definition in_publish (f : publish_msg_t -> publish_msg_t) (m : mqtt_message) : mqtt_message :=
  m <| publish := f (publish m) |>.
Definition in_subscribe (f : subscribe_msg -> subscribe_msg) (m : mqtt_message) : mqtt_message :=
  m <| subscribe := f (subscribe m) |>.

(** [message->subscribe.topics->name = b], [... ->qos = q] *)
Definition set_topic_name (b : mqtt_buffer) : mqtt_message -> mqtt_message :=
  in_subscribe (fun c =>
    c <| topics := (fun p => {| tp_name := Some b; tp_qos := tp_qos p |}) <$> topics c |>).
Definition set_topic_qos (q : Z) : mqtt_message -> mqtt_message :=
  in_subscribe (fun c =>
    c <| topics := (fun p => {| tp_name := tp_name p; tp_qos := Some q |}) <$> topics c |>).

Section parser.
(** [uint8_t* data, size_t len] *)
Context (data : ptr) (len : Z).

(** [len - *nread], a [size_t] *)
Definition available : M pstate Z := gets (fun s => u64 (len - ps_nread s)).
(** [data[*nread + i]] *)
Definition data_at (i : Z) : M pstate Z :=
  let* n := gets ps_nread in lift (load data (n + i)).

(** [READ_STRING(info)]: [None] is the early return INCOMPLETE. *)
Definition READ_STRING : M pstate (option mqtt_buffer) :=
  let* avail := available in
  if avail <? 2 then ret None
  else
    let* hi := data_at 0 in
    let* lo := data_at 1 in
    let str_length := hi * 256 + lo in
    let* nread := gets ps_nread in
    if u64 (len - nread - 2) <? str_length then ret None
    else
      advance (2 + str_length) ;;;
      ret (Some {| b_length := str_length; b_data := ptr_add data (nread + 2) |}).

(** [READ_MESSAGE(info, str_len)] *)
Definition READ_MESSAGE (str_len : Z) : M pstate (option mqtt_buffer) :=
  let* avail := available in
  if avail <? 0 then ret None
  else if avail <? str_len then ret None
  else
    let* nread := gets ps_nread in
    advance str_len ;;;
    ret (Some {| b_length := str_len; b_data := ptr_add data nread |}).

(** [READ_STRING(field)] as a statement, then [k]. *)
Definition read_field (put : mqtt_buffer -> mqtt_message -> mqtt_message)
    (k : M pstate case_result) : M pstate case_result :=
  let* r := READ_STRING in
  match r with
  | None => return_rc MQTT_PARSER_RC_INCOMPLETE
  | Some b => set_message (put b) ;;; k
  end.

(** [if ((len - *nread) < n) return MQTT_PARSER_RC_INCOMPLETE;] *)
Definition need (n : Z) (k : M pstate case_result) : M pstate case_result :=
  let* avail := available in
  if avail <? n then return_rc MQTT_PARSER_RC_INCOMPLETE else k.

(** [(data[*nread] << 8) + data[*nread + 1]] *)
Definition read_u16 : M pstate Z :=
  let* hi := data_at 0 in
  let* lo := data_at 1 in
  ret (Z.shiftl hi 8 + lo).

Definition parse_initial : M pstate case_result :=
  let* m := gets ps_message in
  if type m =? MQTT_TYPE_CONNECT then set_state MQTT_PARSER_STATE_CONNECT ;;; break
  else if type m =? MQTT_TYPE_CONNACK then set_state MQTT_PARSER_STATE_CONNACK ;;; break
  else if type m =? MQTT_TYPE_PUBLISH then set_state MQTT_PARSER_STATE_PUBLISH ;;; break
  else if type m =? MQTT_TYPE_SUBSCRIBE then set_state MQTT_PARSER_STATE_SUBSCRIBE ;;; break
  else if type m =? MQTT_TYPE_PINGREQ then
    set_state MQTT_PARSER_STATE_INITIAL ;;; return_rc MQTT_PARSER_RC_DONE
  else if type m =? MQTT_TYPE_DISCONNECT then
    set_state MQTT_PARSER_STATE_INITIAL ;;; return_rc MQTT_PARSER_RC_DONE
  else
    set_error MQTT_ERROR_PARSER_INVALID_MESSAGE_ID ;;; return_rc MQTT_PARSER_RC_ERROR.

Definition parse_variable_header : M pstate case_result :=
  let* m := gets ps_message in
  if type m =? MQTT_TYPE_CONNECT
  then set_state MQTT_PARSER_STATE_CONNECT_PROTOCOL_NAME ;;; break
  else break.

Definition parse_protocol_name : M pstate case_result :=
  read_field (fun b => in_connect (fun c => c <| protocol_name := b |>))
    (set_state MQTT_PARSER_STATE_CONNECT_PROTOCOL_VERSION ;;; break).

Definition parse_protocol_version : M pstate case_result :=
  need 1 (
    let* b := data_at 0 in
    set_message (in_connect (fun c => c <| protocol_version := b |>)) ;;;
    advance 1 ;;;
    set_state MQTT_PARSER_STATE_CONNECT_FLAGS ;;; break).

Definition flags_of_byte (b : Z) : connect_flags := {|
  username_follows := Z.land (Z.shiftr b 7) 1;
  password_follows := Z.land (Z.shiftr b 6) 1;
  will_retain := Z.land (Z.shiftr b 5) 1;
  will_qos := Z.land (Z.shiftr b 4) 2;
  will := Z.land (Z.shiftr b 2) 1;
  clean_session := Z.land (Z.shiftr b 1) 1 |}.

Definition parse_flags : M pstate case_result :=
  need 1 (
    let* b := data_at 0 in
    set_message (in_connect (fun c => c <| flags := flags_of_byte b |>)) ;;;
    advance 1 ;;;
    set_state MQTT_PARSER_STATE_CONNECT_KEEP_ALIVE ;;; break).

Definition parse_keep_alive : M pstate case_result :=
  need 2 (
    let* v := read_u16 in
    set_message (in_connect (fun c => c <| keep_alive := u16 v |>)) ;;;
    advance 2 ;;;
    set_state MQTT_PARSER_STATE_CONNECT_CLIENT_IDENTIFIER ;;; break).

Definition parse_client_identifier : M pstate case_result :=
  read_field (fun b => in_connect (fun c => c <| client_id := b |>))
    (set_state MQTT_PARSER_STATE_CONNECT_WILL_TOPIC ;;; break).

(** [if (cond) { READ_STRING(field) }] and then [k] *)
Definition optional_field (cond : connect_flags -> Z)
    (put : mqtt_buffer -> connect_msg -> connect_msg)
    (k : M pstate case_result) : M pstate case_result :=
  let* m := gets ps_message in
  if cond (flags (connect m)) =? 0 then k
  else read_field (fun b => in_connect (put b)) k.

Definition parse_will_topic : M pstate case_result :=
  optional_field will (fun b c => c <| will_topic := b |>)
    (set_state MQTT_PARSER_STATE_CONNECT_WILL_MESSAGE ;;; break).

Definition parse_will_message : M pstate case_result :=
  optional_field will (fun b c => c <| will_message := b |>)
    (set_state MQTT_PARSER_STATE_CONNECT_USERNAME ;;; break).

Definition parse_username : M pstate case_result :=
  optional_field username_follows (fun b c => c <| username := b |>)
    (set_state MQTT_PARSER_STATE_CONNECT_PASSWORD ;;; break).

Definition parse_password : M pstate case_result :=
  optional_field password_follows (fun b c => c <| password := b |>)
    (set_state MQTT_PARSER_STATE_INITIAL ;;; return_rc MQTT_PARSER_RC_DONE).

Definition parse_connack : M pstate case_result :=
  need 2 (
    let* b0 := data_at 0 in
    let* b1 := data_at 1 in
    set_message (fun m => m <| connack := {| ca_unused := b0; ca_return_code := b1 |} |>) ;;;
    advance 2 ;;;
    set_state MQTT_PARSER_STATE_INITIAL ;;; return_rc MQTT_PARSER_RC_DONE).

Definition parse_publish_topic_name : M pstate case_result :=
  read_field (fun b => in_publish (fun p => p <| topic_name := b |>))
    (set_state MQTT_PARSER_STATE_PUBLISH_MESSAGE_ID ;;; break).

(** [message->common.qos > 0 && message->common.qos < 3] *)
Definition has_message_id (m : mqtt_message) : bool := (0 <? qos m) && (qos m <? 3).

Definition parse_publish_message_id : M pstate case_result :=
  need 2 (
    set_message (in_publish (fun p => p <| pub_message_id := 0 |>)) ;;;
    let* m := gets ps_message in
    (if has_message_id m then
       let* v := read_u16 in
       set_message (in_publish (fun p => p <| pub_message_id := u16 v |>)) ;;;
       advance 2
     else ret tt) ;;;
    set_state MQTT_PARSER_STATE_PUBLISH_MESSAGE ;;; break).

Definition parse_publish_message : M pstate case_result :=
  let* m := gets ps_message in
  let msg_len := u32 (m_length m - b_length (topic_name (publish m)) - 2) in
  let msg_len := if has_message_id m then u32 (msg_len - 2) else msg_len in
  let* r := READ_MESSAGE msg_len in
  match r with
  | None => return_rc MQTT_PARSER_RC_INCOMPLETE
  | Some b =>
      set_message (in_publish (fun p => p <| content := b |>)) ;;;
      set_state MQTT_PARSER_STATE_INITIAL ;;; return_rc MQTT_PARSER_RC_DONE
  end.

Definition parse_subscribe : M pstate case_result :=
  need 2 (
    let* v := read_u16 in
    set_message (in_subscribe (fun c => c <| sub_message_id := u16 v |>)) ;;;
    advance 2 ;;;
    set_state MQTT_PARSER_STATE_SUBSCRIBE_TOPIC_NAME ;;; break).

(** The QoS byte is read without a bounds check. *)
Definition parse_topic_qos : M pstate case_result :=
  let* q := data_at 0 in
  set_message (set_topic_qos q) ;;;
  advance 1 ;;;
  set_state MQTT_PARSER_STATE_INITIAL ;;; return_rc MQTT_PARSER_RC_DONE.

(** The pair is malloc'ed when there is none. *)
Definition parse_subscribe_topic_name : M pstate case_result :=
  let* m := gets ps_message in
  (match topics (subscribe m) with
   | None =>
       zoom ps_alloc (fun a s => s <| ps_alloc := a |>) malloc_unchecked ;;;
       set_message (in_subscribe (fun c =>
         c <| topics := Some {| tp_name := None; tp_qos := None |} |>))
   | Some _ => ret tt
   end) ;;;
  read_field set_topic_name parse_topic_qos.

Definition parse_default : M pstate case_result :=
  set_error MQTT_ERROR_PARSER_INVALID_STATE ;;; return_rc MQTT_PARSER_RC_ERROR.

(** [switch (parser->state)] *)
Definition parser_case (st : mqtt_parser_state) : M pstate case_result :=
  match st with
  | MQTT_PARSER_STATE_INITIAL => parse_initial
  | MQTT_PARSER_STATE_VARIABLE_HEADER => parse_variable_header
  | MQTT_PARSER_STATE_CONNECT => set_state MQTT_PARSER_STATE_CONNECT_PROTOCOL_NAME ;;; break
  | MQTT_PARSER_STATE_CONNECT_PROTOCOL_NAME => parse_protocol_name
  | MQTT_PARSER_STATE_CONNECT_PROTOCOL_VERSION => parse_protocol_version
  | MQTT_PARSER_STATE_CONNECT_FLAGS => parse_flags
  | MQTT_PARSER_STATE_CONNECT_KEEP_ALIVE => parse_keep_alive
  | MQTT_PARSER_STATE_CONNECT_CLIENT_IDENTIFIER => parse_client_identifier
  | MQTT_PARSER_STATE_CONNECT_WILL_TOPIC => parse_will_topic
  | MQTT_PARSER_STATE_CONNECT_WILL_MESSAGE => parse_will_message
  | MQTT_PARSER_STATE_CONNECT_USERNAME => parse_username
  | MQTT_PARSER_STATE_CONNECT_PASSWORD => parse_password
  | MQTT_PARSER_STATE_CONNACK => parse_connack
  | MQTT_PARSER_STATE_PUBLISH => set_state MQTT_PARSER_STATE_PUBLISH_TOPIC_NAME ;;; break
  | MQTT_PARSER_STATE_PUBLISH_TOPIC_NAME => parse_publish_topic_name
  | MQTT_PARSER_STATE_PUBLISH_MESSAGE_ID => parse_publish_message_id
  | MQTT_PARSER_STATE_PUBLISH_MESSAGE => parse_publish_message
  | MQTT_PARSER_STATE_SUBSCRIBE => parse_subscribe
  | MQTT_PARSER_STATE_SUBSCRIBE_TOPIC_NAME => parse_subscribe_topic_name
  | _ => parse_default
  end.

Definition parser_step : M pstate case_result :=
  let* st := gets (fun s => p_state (ps_parser s)) in parser_case st.

(** [do { ... } while (1)], with fuel for the rounds. *)
Fixpoint parser_loop (fuel : nat) : M pstate mqtt_parser_rc :=
  match fuel with
  | O => fun _ => NoFuel
  | S fuel' =>
      let* r := parser_step in
      match r with
      | Some rc => ret rc
      | None => parser_loop fuel'
      end
  end.
End parser.

(** Twelve rounds are enough ([parser_terminates]). *)
Definition parser_fuel : nat := 12.
Definition mqtt_parser_execute (data : ptr) (len : Z) : M pstate mqtt_parser_rc :=
  parser_loop data len parser_fuel.
