(* ===== verification/ParserFacts.v ===== *)
(** * The parser: termination, memory safety, return codes *)

From S2P Require Import Prelude.
From S2P Require Import Mqtt.
From S2P Require Import Parser.

Abbreviation state_of s := (p_state (ps_parser s)) (only parsing).
Abbreviation type_of s := (type (ps_message s)) (only parsing).

(** ** Progress measure *)

Definition rank (st : mqtt_parser_state) : nat :=
  match st with
  | MQTT_PARSER_STATE_INITIAL => 12
  | MQTT_PARSER_STATE_CONNECT => 10
  | MQTT_PARSER_STATE_CONNECT_PROTOCOL_NAME => 9
  | MQTT_PARSER_STATE_CONNECT_PROTOCOL_VERSION => 8
  | MQTT_PARSER_STATE_CONNECT_FLAGS => 7
  | MQTT_PARSER_STATE_CONNECT_KEEP_ALIVE => 6
  | MQTT_PARSER_STATE_CONNECT_CLIENT_IDENTIFIER => 5
  | MQTT_PARSER_STATE_CONNECT_WILL_TOPIC => 4
  | MQTT_PARSER_STATE_CONNECT_WILL_MESSAGE => 3
  | MQTT_PARSER_STATE_CONNECT_USERNAME => 2
  | MQTT_PARSER_STATE_PUBLISH => 4
  | MQTT_PARSER_STATE_PUBLISH_TOPIC_NAME => 3
  | MQTT_PARSER_STATE_PUBLISH_MESSAGE_ID => 2
  | MQTT_PARSER_STATE_SUBSCRIBE => 2
  | _ => 1
  end.

(** The states the loop goes through: [VARIABLE_HEADER] is never entered, and
    the SUBSCRIBE cases are reached by SUBSCRIBE messages only. *)
Definition state_ok (st : mqtt_parser_state) (ty : Z) : Prop :=
  st <> MQTT_PARSER_STATE_VARIABLE_HEADER /\
  (st = MQTT_PARSER_STATE_SUBSCRIBE \/ st = MQTT_PARSER_STATE_SUBSCRIBE_TOPIC_NAME ->
   ty = MQTT_TYPE_SUBSCRIBE).

(** The block [data] points to has [len] bytes. *)
Definition block (data : ptr) (len : Z) : Prop :=
  match data with
  | None => len = 0
  | Some mem => len = Z.of_nat (length mem) /\ bytes mem
  end.

Definition final_rc (rc : mqtt_parser_rc) : Prop :=
  rc = MQTT_PARSER_RC_ERROR \/ rc = MQTT_PARSER_RC_INCOMPLETE \/ rc = MQTT_PARSER_RC_DONE.

(** Faults a SUBSCRIBE message can cause: the unchecked read of the QoS byte,
    the unchecked allocation of the topic pair. *)
Definition subscribe_fault (s0 : pstate) (f : fault) : Prop :=
  type_of s0 = MQTT_TYPE_SUBSCRIBE /\
  (f = OutOfBounds \/ (f = NullDeref /\ ~ memory_available (ps_alloc s0))).

Section safety.
Context (data : ptr) (len : Z).
Context (Hdata : block data len) (Hlen : len < 2 ^ 32).

Definition in_range (s : pstate) : Prop := 0 <= ps_nread s <= len.

Lemma load_block i : 0 <= i < len -> exists b, load data i = Ok b /\ is_byte b.
Proof using Hdata Hlen.
  intros Hi. destruct data as [mem|]; cbn [block] in Hdata; [|lia].
  destruct Hdata as [-> Hmem].
  destruct (lookup_lt_is_Some_2 mem (Z.to_nat i)) as [b Hb]; [lia|].
  exists b. split; [apply load_some; [lia|done]|]. by eapply Forall_lookup_1 in Hb.
Qed.

Lemma available_eq s : in_range s -> u64 (len - ps_nread s) = len - ps_nread s.
Proof using Hdata Hlen. unfold in_range. intros. apply u64_small. lia. Qed.

Lemma wp_data_at i Q E s :
  in_range s -> 0 <= i -> ps_nread s + i < len ->
  (forall b, is_byte b -> load data (ps_nread s + i) = Ok b -> Q b s) ->
  wp (data_at data i) Q E s.
Proof using Hdata Hlen.
  unfold in_range. intros Hs Hi Hlt HQ. unfold data_at. wp_run.
  destruct (load_block (ps_nread s + i)) as (b & Hb & ?); [lia|].
  eapply wp_lift; eauto.
Qed.

Lemma wp_advance n Q E s :
  in_range s -> 0 <= n -> ps_nread s + n <= len ->
  Q tt (s <| ps_nread := ps_nread s + n |>) -> wp (advance n) Q E s.
Proof using Hdata Hlen.
  unfold in_range. intros ??? HQ. unfold advance. wp_run. by rewrite u64_small by lia.
Qed.

Lemma wp_READ_STRING Q E s :
  in_range s ->
  Q None s ->
  (forall b, 0 <= b_length b -> ps_nread s + 2 + b_length b <= len ->
     b_data b = ptr_add data (ps_nread s + 2) ->
     Q (Some b) (s <| ps_nread := ps_nread s + (2 + b_length b) |>)) ->
  wp (READ_STRING data len) Q E s.
Proof using Hdata Hlen.
  intros Hs HN HS. unfold READ_STRING, available. wp_run; [done|].
  pose proof Hs as Hs'. unfold in_range in Hs'. rewrite available_eq in Hb by done.
  apply Z.ltb_ge in Hb.
  apply wp_data_at; [done|lia|lia|]. intros hi Hhi _. wp_run.
  apply wp_data_at; [done|lia|lia|]. intros lo Hlo _. wp_run; [done|].
  unfold is_byte in *. rewrite u64_small in Hb0 by lia. apply Z.ltb_ge in Hb0.
  apply wp_advance; [done|lia|lia|]. wp_run. apply (HS {| b_length := _; b_data := _ |});
    cbn [b_length]; [lia|lia|done].
Qed.

Lemma wp_READ_MESSAGE n Q E s :
  in_range s -> 0 <= n ->
  Q None s ->
  (ps_nread s + n <= len ->
     Q (Some {| b_length := n; b_data := ptr_add data (ps_nread s) |})
       (s <| ps_nread := ps_nread s + n |>)) ->
  wp (READ_MESSAGE data len n) Q E s.
Proof using Hdata Hlen.
  intros Hs Hn HN HS. unfold READ_MESSAGE, available. wp_run; [done|done|].
  pose proof Hs as Hs'. unfold in_range in Hs'. rewrite available_eq in Hb0 by done.
  apply Z.ltb_ge in Hb0. apply wp_advance; [done|lia|lia|]. wp_run. apply HS. lia.
Qed.

(** What one round of the loop guarantees. *)
Definition step_post (s0 : pstate) (r : case_result) (s : pstate) : Prop :=
  in_range s /\ type_of s = type_of s0 /\
  match r with
  | None => state_ok (state_of s) (type_of s0) /\
      (rank (state_of s) < rank (state_of s0))%nat /\ ps_alloc s = ps_alloc s0
  | Some rc => final_rc rc
  end.

Lemma wp_read_field s0 put k s :
  in_range s -> type_of s = type_of s0 ->
  (forall b m, type (put b m) = type m) ->
  (forall s', in_range s' -> 2 <= ps_nread s' ->
     ps_parser s' = ps_parser s -> ps_alloc s' = ps_alloc s ->
     type_of s' = type_of s0 -> wp k (step_post s0) (subscribe_fault s0) s') ->
  wp (read_field data len put k) (step_post s0) (subscribe_fault s0) s.
Proof using Hdata Hlen.
  intros Hs Ht Hput Hk. unfold read_field. wp_run. apply wp_READ_STRING; [done| |].
  - wp_run. split_and!; [done|done|]. right. by left.
  - intros b ???. unfold set_message. wp_run.
    apply Hk; [unfold in_range in *; cbn; lia|unfold in_range in *; cbn; lia|done|done|].
    cbn. by rewrite Hput.
Qed.

Lemma wp_optional_field s0 cond put k s :
  in_range s -> type_of s = type_of s0 ->
  (forall s', in_range s' -> ps_parser s' = ps_parser s -> ps_alloc s' = ps_alloc s ->
     type_of s' = type_of s0 -> wp k (step_post s0) (subscribe_fault s0) s') ->
  wp (optional_field data len cond put k) (step_post s0) (subscribe_fault s0) s.
Proof using Hdata Hlen.
  intros Hs Ht Hk. unfold optional_field. wp_run; [by apply Hk|].
  apply wp_read_field; auto.
Qed.

Lemma wp_need s0 n k s :
  in_range s -> type_of s = type_of s0 ->
  (ps_nread s + n <= len -> wp k (step_post s0) (subscribe_fault s0) s) ->
  wp (need len n k) (step_post s0) (subscribe_fault s0) s.
Proof using Hdata Hlen.
  intros Hs Ht Hk. unfold need, available. wp_run.
  - split_and!; [done|done|]. right. by left.
  - rewrite available_eq in Hb by done. apply Z.ltb_ge in Hb. apply Hk. lia.
Qed.

Lemma wp_read_u16 Q E s :
  in_range s -> ps_nread s + 2 <= len -> (forall v, Q v s) ->
  wp (read_u16 data) Q E s.
Proof using Hdata Hlen.
  intros Hs H2 HQ. unfold read_u16. wp_run.
  apply wp_data_at; [done|lia|lia|]. intros b0 _ _. wp_run.
  apply wp_data_at; [done|lia|lia|]. intros b1 _ _. wp_run. apply HQ.
Qed.

(** Close a case that has reached its [break] or [return]. *)
Ltac finish_case :=
  repeat match goal with
  | H : type_of ?s = _ |- context [type_of ?s] => rewrite H
  end;
  unfold step_post, final_rc; cbn;
  repeat match goal with H : _ = _ |- context [state_of _] => rewrite H end;
  split_and!; cbn;
  first [ done | lia | assumption | congruence | solve [auto]
        | unfold in_range in *; cbn in *; lia
        | split; [congruence | intros [?|?]; (congruence || auto)] ].

(** Run a case up to its end, through the field readers. *)
Ltac run_case :=
  unfold set_state, set_error, set_message, break, return_rc;
  repeat first
    [ progress wp_run
    | apply wp_read_field; [assumption|reflexivity|reflexivity|intros ?s ?Hs _ ?Hp ?Ha ?Ht]
    | apply wp_optional_field; [assumption|reflexivity|intros ?s ?Hs ?Hp ?Ha ?Ht]
    | apply wp_need; [assumption|reflexivity|intros ?Hn]
    | apply wp_data_at; [assumption|lia|lia|intros ?b _ _]
    | apply wp_read_u16; [assumption|lia|intros ?v]
    | apply wp_advance; [unfold in_range in *; cbn in *; lia|lia|cbn; lia|] ].

Lemma wp_parse_publish_message s :
  in_range s -> state_of s = MQTT_PARSER_STATE_PUBLISH_MESSAGE ->
  wp (parse_publish_message data len) (step_post s) (subscribe_fault s) s.
Proof using Hdata Hlen.
  intros Hs Est. unfold parse_publish_message. run_case.
  match goal with |- wp (READ_MESSAGE _ _ ?n) _ _ _ =>
    assert (0 <= n) by (case_match;
      match goal with |- 0 <= u32 ?z => pose proof (u32_range z); lia end);
    generalize dependent n; intros k Hk
  end.
  apply wp_READ_MESSAGE; [done|done| |intros ?]; run_case; finish_case.
Qed.

Lemma wp_parse_publish_message_id s :
  in_range s -> state_of s = MQTT_PARSER_STATE_PUBLISH_MESSAGE_ID ->
  wp (parse_publish_message_id data len) (step_post s) (subscribe_fault s) s.
Proof using Hdata Hlen.
  intros Hs Est. unfold parse_publish_message_id. run_case.
  - apply wp_read_u16; [exact Hs|cbn; lia|]. intros v. run_case. finish_case.
  - finish_case.
Qed.

Lemma wp_topic_pair_tail s0 s :
  in_range s -> type_of s = type_of s0 -> type_of s0 = MQTT_TYPE_SUBSCRIBE ->
  wp (read_field data len set_topic_name (parse_topic_qos data))
     (step_post s0) (subscribe_fault s0) s.
Proof using Hdata Hlen.
  intros Hs Ht Hty. apply wp_read_field; [done|done|done|].
  intros s' Hs' Hpos Hp Ha Ht'. apply wp_bind.
  pose proof Hs' as Hr. unfold in_range in Hr.
  destruct (decide (ps_nread s' = len)) as [Hend|Hend].
  - unfold wp, data_at, gets, lift, bind. rewrite Hend, Z.add_0_r.
    replace (load data len) with (@Fault Z OutOfBounds); [split; auto|].
    destruct data as [mem|]; cbn in Hdata; [|lia]. destruct Hdata as [-> _]. cbn.
    rewrite (proj2 (Z.ltb_ge _ _)) by lia. by rewrite Nat2Z.id, lookup_ge_None_2.
  - apply wp_data_at; [done|lia|lia|]. intros q _ _. run_case.
    unfold set_message. run_case.
    unfold step_post, final_rc; cbn. split_and!; [|done|auto].
    unfold in_range in *; cbn in *; lia.
Qed.

Lemma wp_parse_subscribe_topic_name s :
  in_range s -> type_of s = MQTT_TYPE_SUBSCRIBE ->
  wp (parse_subscribe_topic_name data len) (step_post s) (subscribe_fault s) s.
Proof using Hdata Hlen.
  intros Hs Hty. unfold parse_subscribe_topic_name. wp_run.
  - wp_run. apply wp_topic_pair_tail; [exact Hs|reflexivity|exact Hty].
  - wp_run. apply wp_malloc_unchecked.
    + unfold set_message. wp_run. apply wp_topic_pair_tail; [exact Hs|reflexivity|exact Hty].
    + intros Hf. split; [done|]. right. split; [done|]. intros Ha.
      specialize (Ha (al_next (ps_alloc s))). rewrite Ha in Hf by lia. discriminate Hf.
Qed.

Lemma wp_parser_case s :
  in_range s -> state_ok (state_of s) (type_of s) ->
  wp (parser_case data len (state_of s)) (step_post s) (subscribe_fault s) s.
Proof using Hdata Hlen.
  intros Hs Hok. destruct (state_of s) eqn:Est; cbn [parser_case];
    try (unfold parse_default; run_case; finish_case).
  all: try (destruct Hok; done).
  all: try (apply wp_parse_subscribe_topic_name; [done|]; destruct Hok as [_ Hok]; auto; fail).
  all: try (by apply wp_parse_publish_message).
  all: try (unfold parse_initial, parse_protocol_name, parse_protocol_version, parse_flags,
    parse_keep_alive, parse_client_identifier, parse_will_topic, parse_will_message,
    parse_username, parse_password, parse_connack, parse_publish_topic_name;
    run_case; rewrite ?Z.eqb_eq in *; finish_case).
  - by apply wp_parse_publish_message_id.
  - destruct Hok as [_ Hty]. unfold parse_subscribe. run_case. finish_case.
Qed.

(** The loop returns with the fuel of the measure. *)
Lemma wp_parser_loop fuel s :
  in_range s -> state_ok (state_of s) (type_of s) ->
  (rank (state_of s) <= fuel)%nat ->
  wp (parser_loop data len fuel)
     (fun rc s' => in_range s' /\ type_of s' = type_of s /\ final_rc rc)
     (subscribe_fault s) s.
Proof using Hdata Hlen.
  revert s. induction fuel as [|fuel IH]; intros s Hs Hok Hr.
  { destruct (state_of s); cbn in Hr; lia. }
  cbn [parser_loop]. apply wp_bind. unfold parser_step. apply wp_bind, wp_gets.
  eapply wp_conseq; [by apply wp_parser_case| |auto]. cbv beta.
  intros [rc|] s' (Hs' & Ht & Hpost); [by apply wp_ret|].
  destruct Hpost as (Hok' & Hrank & Ha).
  eapply wp_conseq; [apply IH; [done|by rewrite Ht|lia]| |]; cbv beta.
  - intros rc s'' (? & Ht' & ?). by rewrite Ht'.
  - intros f. unfold subscribe_fault. by rewrite Ht, Ha.
Qed.
End safety.

(** C15: started in the INITIAL state on the whole payload block, the parser
    returns (the round bound is enough), reads inside the block, leaves the
    offset inside it and answers ERROR, INCOMPLETE or DONE; the only faults are
    those of SUBSCRIBE messages. *)
Theorem parser_safe data len s :
  block data len -> len < 2 ^ 32 ->
  p_state (ps_parser s) = MQTT_PARSER_STATE_INITIAL -> ps_nread s = 0 ->
  wp (mqtt_parser_execute data len)
     (fun rc s' => 0 <= ps_nread s' <= len /\
        type (ps_message s') = type (ps_message s) /\ final_rc rc)
     (subscribe_fault s) s.
Proof.
  intros Hd Hl Hi Hn. apply wp_parser_loop; [done|done| | |].
  - unfold in_range. rewrite Hn. destruct data; cbn in Hd; lia.
  - rewrite Hi. split; [done|]. by intros [?|?].
  - rewrite Hi. cbn. unfold parser_fuel. lia.
Qed.

(** In state VARIABLE_HEADER a message that is not a CONNECT keeps the loop
    going for ever: no number of rounds is enough. *)
Theorem parser_variable_header_diverges data len fuel s :
  p_state (ps_parser s) = MQTT_PARSER_STATE_VARIABLE_HEADER ->
  type (ps_message s) <> MQTT_TYPE_CONNECT ->
  parser_loop data len fuel s = NoFuel.
Proof.
  intros Hst Hty. induction fuel as [|fuel IH]; [done|].
  cbn [parser_loop]. unfold bind, parser_step, bind, gets. rewrite Hst.
  cbn [parser_case]. unfold parse_variable_header, bind, gets.
  rewrite (proj2 (Z.eqb_neq _ _) Hty). exact IH.
Qed.
