(* ===== verification/Serialiser.v ===== *)
(** * mqtt.c: [mqtt_serialiser_size] and [mqtt_serialiser_write] *)

From S2P Require Import Prelude.
From S2P Require Import Mqtt.

(** ** Size *)

(** The bytes of the remaining-length field the size allows for. *)
Definition length_field_size (length : Z) : Z :=
  if length <=? 127 then 1
  else if length <=? 16383 then 2
  else if length <=? 2097151 then 3
  else if length <=? 268435455 then 4
  else 0.

(** [if (flag) { len += extra; }] *)
Definition when (flag extra : Z) : Z := if flag =? 0 then 0 else extra.

Definition mqtt_serialiser_size (message : mqtt_message) : Z :=
  let len := 1 + length_field_size (m_length message) in
  if type message =? MQTT_TYPE_PUBLISH then
    u64 (len + 2 + b_length (topic_name (publish message))
             + b_length (content (publish message)))
  else if type message =? MQTT_TYPE_SUBACK then len + 3
  else if type message =? MQTT_TYPE_CONNECT then
    let c := connect message in
    u64 (len + 8 + b_length (protocol_name c) + b_length (client_id c)
         + when (username_follows (flags c)) (2 + b_length (username c))
         + when (password_follows (flags c)) (2 + b_length (password c))
         + when (will (flags c)) (4 + b_length (will_topic c) + b_length (will_message c)))
  else if type message =? MQTT_TYPE_CONNACK then len + 2
  else len.

(** ** Write *)

(** [uint8_t *buffer], allocated with a known size, and [offset]. *)
Record wstate : Type := { w_buffer : list Z; w_offset : Z }.
#[export] Instance eta_wstate : Eta wstate := fun s =>
  Build_wstate (w_buffer s) (w_offset s).

(** [buffer[i] = v;] *)
Definition store (i v : Z) : M wstate unit := fun s =>
  if (0 <=? i) && (i <? Z.of_nat (length (w_buffer s)))
  then Ok (tt, s <| w_buffer := <[Z.to_nat i := u8 v]> (w_buffer s) |>)
  else Fault OutOfBounds.

(** [buffer[offset++] = v;] *)
Definition put_byte (v : Z) : M wstate unit :=
  let* off := gets w_offset in
  store off v ;;;
  modify (fun s => s <| w_offset := u32 (off + 1) |>).

(** The stores of a [memcpy] to [&buffer[i]]. *)
Fixpoint store_bytes (i : Z) (l : list Z) : M wstate unit :=
  match l with
  | [] => ret tt
  | v :: l' => store i v ;;; store_bytes (i + 1) l'
  end.

(** [memcpy(&(buffer[offset]), b.data, b.length);] *)
Definition copy_buffer (b : mqtt_buffer) : M wstate unit :=
  let* l := lift (load_bytes (b_data b) (b_length b)) in
  let* off := gets w_offset in
  store_bytes off l.

(** [WRITE_STRING(name)]: the high byte of the length is [length / 0xff]. *)
Definition WRITE_STRING (name : mqtt_buffer) : M wstate unit :=
  put_byte (b_length name / 255) ;;;
  put_byte (Z.land (b_length name) 255) ;;;
  copy_buffer name ;;;
  modify (fun s => s <| w_offset := u32 (w_offset s + b_length name) |>).

(** The [do { ... } while (remaining_length > 0)] loop, with fuel. *)
Fixpoint write_length (fuel : nat) (remaining_length : Z) : M wstate unit :=
  match fuel with
  | O => fun _ => NoFuel
  | S fuel' =>
      let digit := remaining_length mod 128 in
      let remaining_length := remaining_length / 128 in
      put_byte (if 0 <? remaining_length then Z.lor digit 128 else digit) ;;;
      if 0 <? remaining_length then write_length fuel' remaining_length else ret tt
  end.

(** A 32-bit length has five digits in base 128 ([write_length_spec]). *)
Definition length_fuel : nat := 5.

Definition write_flags (f : connect_flags) : Z :=
  Z.shiftl (username_follows f) 7 + Z.shiftl (password_follows f) 6
  + Z.shiftl (will_retain f) 5 + Z.shiftl (will_qos f) 3 + Z.shiftl (will f) 2
  + Z.shiftl (clean_session f) 1.

(** [if (flag) { stmt; }] *)
Definition write_if (flag : Z) (stmt : M wstate unit) : M wstate unit :=
  if flag =? 0 then ret tt else stmt.

Definition write_connect (c : connect_msg) : M wstate unit :=
  WRITE_STRING (protocol_name c) ;;;
  put_byte (protocol_version c) ;;;
  put_byte (write_flags (flags c)) ;;;
  put_byte (Z.shiftr (keep_alive c) 8) ;;;
  put_byte (Z.land (keep_alive c) 255) ;;;
  WRITE_STRING (client_id c) ;;;
  write_if (will (flags c))
    (WRITE_STRING (will_topic c) ;;; WRITE_STRING (will_message c)) ;;;
  write_if (username_follows (flags c)) (WRITE_STRING (username c)) ;;;
  write_if (password_follows (flags c)) (WRITE_STRING (password c)).

Definition header_byte (m : mqtt_message) : Z :=
  retain m + Z.shiftl (qos m) 1 + Z.shiftl (dup m) 3 + Z.shiftl (type m) 4.

Definition serialise (message : mqtt_message) : M wstate mqtt_serialiser_rc :=
  put_byte (header_byte message) ;;;
  write_length length_fuel (m_length message) ;;;
  if type message =? MQTT_TYPE_PUBLISH then
    WRITE_STRING (topic_name (publish message)) ;;;
    copy_buffer (content (publish message)) ;;;
    ret MQTT_SERIALISER_RC_SUCCESS
  else if type message =? MQTT_TYPE_SUBACK then
    put_byte (Z.shiftr (sa_message_id (suback message)) 8) ;;;
    put_byte (Z.land (sa_message_id (suback message)) 255) ;;;
    put_byte (sa_return_code (suback message)) ;;;
    ret MQTT_SERIALISER_RC_SUCCESS
  else if type message =? MQTT_TYPE_CONNECT then
    write_connect (connect message) ;;; ret MQTT_SERIALISER_RC_SUCCESS
  else if type message =? MQTT_TYPE_CONNACK then
    put_byte (ca_unused (connack message)) ;;;
    put_byte (ca_return_code (connack message)) ;;;
    ret MQTT_SERIALISER_RC_SUCCESS
  else ret MQTT_SERIALISER_RC_ERROR.

(** [mqtt_serialiser_write(message, buffer, len)]: the return code and the
    buffer after; [len] is not used. *)
Definition mqtt_serialiser_write (message : mqtt_message) (buffer : list Z) (len : Z)
    : outcome (mqtt_serialiser_rc * list Z) :=
  match serialise message {| w_buffer := buffer; w_offset := 0 |} with
  | Ok (rc, s) => Ok (rc, w_buffer s)
  | Fault f => Fault f
  | NoFuel => NoFuel
  end.
