(* ===== verification/SerialiserFacts.v ===== *)
(** * The serialiser: the bytes it writes, and that they fit *)

From S2P Require Import Prelude.
From S2P Require Import Mqtt.
From S2P Require Import Serialiser.

(** ** The encoding as a list of bytes *)

Fixpoint encode_digits (fuel : nat) (n : Z) : list Z :=
  match fuel with
  | O => []
  | S fuel' =>
      if 0 <? n / 128 then Z.lor (n mod 128) 128 :: encode_digits fuel' (n / 128)
      else [n mod 128]
  end.
Definition encode_length (n : Z) : list Z := encode_digits length_fuel n.

Definition buffer_bytes (b : mqtt_buffer) : list Z :=
  match load_bytes (b_data b) (b_length b) with Ok l => l | _ => [] end.

(** The pointer of the buffer covers its length. *)
Definition valid_buffer (b : mqtt_buffer) : Prop :=
  b_length b = Z.of_nat (length (buffer_bytes b)) /\ bytes (buffer_bytes b) /\
  load_bytes (b_data b) (b_length b) = Ok (buffer_bytes b).

(** The two bytes [WRITE_STRING] writes in front of a string. *)
Definition c_prefix (n : Z) : list Z := [u8 (n / 255); u8 (Z.land n 255)].
Definition c_field (b : mqtt_buffer) : list Z := c_prefix (b_length b) ++ buffer_bytes b.
Definition encode_if (flag : Z) (l : list Z) : list Z := if flag =? 0 then [] else l.

Definition encode_connect (c : connect_msg) : list Z :=
  c_field (protocol_name c) ++ [u8 (protocol_version c)] ++ [u8 (write_flags (flags c))]
  ++ [u8 (Z.shiftr (keep_alive c) 8)] ++ [u8 (Z.land (keep_alive c) 255)]
  ++ c_field (client_id c)
  ++ encode_if (will (flags c)) (c_field (will_topic c) ++ c_field (will_message c))
  ++ encode_if (username_follows (flags c)) (c_field (username c))
  ++ encode_if (password_follows (flags c)) (c_field (password c)).

Definition encode_body (m : mqtt_message) : list Z :=
  if type m =? MQTT_TYPE_PUBLISH then
    c_field (topic_name (publish m)) ++ buffer_bytes (content (publish m))
  else if type m =? MQTT_TYPE_SUBACK then
    [u8 (Z.shiftr (sa_message_id (suback m)) 8)] ++
    [u8 (Z.land (sa_message_id (suback m)) 255)] ++ [u8 (sa_return_code (suback m))]
  else if type m =? MQTT_TYPE_CONNECT then encode_connect (connect m)
  else if type m =? MQTT_TYPE_CONNACK then
    [u8 (ca_unused (connack m))] ++ [u8 (ca_return_code (connack m))]
  else [].

Definition encode (m : mqtt_message) : list Z :=
  [u8 (header_byte m)] ++ encode_length (m_length m) ++ encode_body m.

Definition write_rc (m : mqtt_message) : mqtt_serialiser_rc :=
  if (type m =? MQTT_TYPE_PUBLISH) || (type m =? MQTT_TYPE_SUBACK)
     || (type m =? MQTT_TYPE_CONNECT) || (type m =? MQTT_TYPE_CONNACK)
  then MQTT_SERIALISER_RC_SUCCESS else MQTT_SERIALISER_RC_ERROR.

(** The buffers of the member selected by the type are valid. *)
Definition message_ok (m : mqtt_message) : Prop :=
  0 <= m_length m <= 268435455 /\
  (type m = MQTT_TYPE_PUBLISH ->
     valid_buffer (topic_name (publish m)) /\ valid_buffer (content (publish m))) /\
  (type m = MQTT_TYPE_CONNECT ->
     Forall valid_buffer [protocol_name (connect m); client_id (connect m);
       will_topic (connect m); will_message (connect m);
       username (connect m); password (connect m)]) /\
  Z.of_nat (length (encode m)) < 2 ^ 32.

(** ** Writing in sequence *)

Abbreviation wlen l := (Z.of_nat (length l)) (only parsing).

(** [m] writes [out] at the offset and moves it past; the rest of the buffer
    is as before. *)
Definition writes {A} (m : M wstate A) (a : A) (out : list Z) : Prop :=
  forall pre hole, (length out <= length hole)%nat -> wlen pre + wlen out < 2 ^ 32 ->
  m {| w_buffer := pre ++ hole; w_offset := wlen pre |} =
  Ok (a, {| w_buffer := pre ++ out ++ drop (length out) hole;
            w_offset := wlen pre + wlen out |}).

(** The same without the final offset. *)
Definition fills {A} (m : M wstate A) (a : A) (out : list Z) : Prop :=
  forall pre hole, (length out <= length hole)%nat -> wlen pre + wlen out < 2 ^ 32 ->
  exists off,
  m {| w_buffer := pre ++ hole; w_offset := wlen pre |} =
  Ok (a, {| w_buffer := pre ++ out ++ drop (length out) hole; w_offset := off |}).

Lemma writes_fills {A} (m : M wstate A) a out : writes m a out -> fills m a out.
Proof. intros H pre hole ??. eexists. by apply H. Qed.

Lemma writes_ret {A} (a : A) : writes (ret a) a [].
Proof. intros pre hole _ _. cbn. by rewrite Z.add_0_r. Qed.

Lemma writes_bind {A B} (m : M wstate A) (f : A -> M wstate B) a b o1 o2 :
  writes m a o1 -> writes (f a) b o2 -> writes (bind m f) b (o1 ++ o2).
Proof.
  intros H1 H2 pre hole Hlen Hb. rewrite length_app in *. cbn.
  rewrite H1 by lia. specialize (H2 (pre ++ o1) (drop (length o1) hole)).
  rewrite length_app, length_drop, Nat2Z.inj_add, <- app_assoc, drop_drop in H2.
  rewrite H2 by lia. rewrite Nat2Z.inj_add, <- !app_assoc, Z.add_assoc. done.
Qed.

Lemma fills_bind {A B} (m : M wstate A) (f : A -> M wstate B) a b o1 o2 :
  writes m a o1 -> fills (f a) b o2 -> fills (bind m f) b (o1 ++ o2).
Proof.
  intros H1 H2 pre hole Hlen Hb. rewrite length_app in *. cbn.
  rewrite H1 by lia. specialize (H2 (pre ++ o1) (drop (length o1) hole)).
  rewrite length_app, length_drop, Nat2Z.inj_add, <- app_assoc, drop_drop in H2.
  destruct H2 as [off ->]; [lia|lia|]. exists off. by rewrite <- !app_assoc.
Qed.

Lemma store_app pre x hole v off :
  store (wlen pre) v {| w_buffer := pre ++ x :: hole; w_offset := off |} =
  Ok (tt, {| w_buffer := pre ++ u8 v :: hole; w_offset := off |}).
Proof.
  unfold store. cbn [w_buffer]. rewrite length_app. cbn [length].
  rewrite (proj2 (Z.leb_le _ _)), (proj2 (Z.ltb_lt _ _)) by lia. cbn.
  rewrite Nat2Z.id, insert_app_r_alt by lia. by rewrite Nat.sub_diag.
Qed.

Lemma writes_put_byte v : writes (put_byte v) tt [u8 v].
Proof.
  intros pre [|x hole] Hlen Hb; cbn in Hlen; [lia|].
  unfold put_byte, bind, gets, modify. cbn [w_offset]. rewrite store_app. cbn.
  rewrite u32_small; [done|]. cbn in Hb. lia.
Qed.

Lemma store_bytes_app l pre hole off :
  bytes l -> (length l <= length hole)%nat ->
  store_bytes (wlen pre) l {| w_buffer := pre ++ hole; w_offset := off |} =
  Ok (tt, {| w_buffer := pre ++ l ++ drop (length l) hole; w_offset := off |}).
Proof.
  intros Hl. revert pre hole. induction Hl as [|b l Hb _ IH]; intros pre hole Hlen; [done|].
  destruct hole as [|x hole]; cbn in Hlen; [lia|].
  cbn [store_bytes]. unfold bind. rewrite store_app, u8_small by done.
  specialize (IH (pre ++ [b]) hole). rewrite length_app, Nat2Z.inj_add, <- app_assoc in IH.
  cbn [app length] in IH. change (Z.of_nat 1) with 1 in IH.
  rewrite IH by lia. by rewrite <- app_assoc.
Qed.

Lemma fills_copy_buffer b : valid_buffer b -> fills (copy_buffer b) tt (buffer_bytes b).
Proof.
  intros (_ & Hb & Hload) pre hole Hlen _. exists (wlen pre).
  unfold copy_buffer, bind, lift, gets. rewrite Hload. cbn [w_offset].
  by apply store_bytes_app.
Qed.

Lemma writes_copy_and_move b :
  valid_buffer b ->
  writes (copy_buffer b ;;; modify (fun s => s <| w_offset := u32 (w_offset s + b_length b) |>))
    tt (buffer_bytes b).
Proof.
  intros (Hlen & Hb & Hload) pre hole Hl Hlt.
  unfold copy_buffer, bind, lift, gets, modify. rewrite Hload. cbn [w_offset].
  rewrite store_bytes_app by done. cbn. by rewrite Hlen, u32_small by lia.
Qed.

Lemma writes_WRITE_STRING b : valid_buffer b -> writes (WRITE_STRING b) tt (c_field b).
Proof.
  intros Hb. unfold WRITE_STRING, c_field, c_prefix.
  apply (writes_bind _ _ tt _ [_] (_ :: _)); [apply writes_put_byte|].
  apply (writes_bind _ _ tt _ [_] _); [apply writes_put_byte|].
  by apply writes_copy_and_move.
Qed.

Lemma writes_if flag m out :
  writes m tt out -> writes (write_if flag m) tt (encode_if flag out).
Proof.
  intros H. unfold write_if, encode_if. destruct (flag =? 0); [apply writes_ret|done].
Qed.

Lemma lor_128 d : 0 <= d < 128 -> Z.lor d 128 = d + 128.
Proof.
  intros Hd. rewrite <- Z.lxor_lor, <- Z.add_nocarry_lxor; [done| |].
  all: apply Z.bits_inj'; intros n Hn; rewrite Z.land_spec, Z.bits_0;
    change 128 with (2 ^ 7); rewrite Z.pow2_bits_eqb by lia;
    destruct (Z.eqb_spec 7 n) as [<-|]; rewrite ?andb_false_r, ?andb_true_r; [|done];
    apply Z.bits_above_log2; [lia|]; destruct (Z.eq_dec d 0) as [->|]; [done|];
    apply Z.log2_lt_pow2; lia.
Qed.

(** ** The remaining-length field *)

Lemma writes_byte v : 0 <= v < 256 -> writes (put_byte v) tt [v].
Proof. intros Hv. rewrite <- (u8_small v) at 2 by done. apply writes_put_byte. Qed.

Lemma digit_range n : 0 <= n mod 128 < 128.
Proof. by apply Z.mod_pos_bound. Qed.

Lemma digit_more_range n : 0 <= Z.lor (n mod 128) 128 < 256.
Proof. pose proof (digit_range n). rewrite lor_128; lia. Qed.

Lemma more_digits n k : 0 <= n -> 0 < k -> (0 <? n / k) = (k <=? n).
Proof.
  intros Hn Hk. destruct (Z.leb_spec k n).
  - apply Z.ltb_lt, Z.div_str_pos. lia.
  - rewrite Z.div_small by lia. done.
Qed.

Lemma writes_length fuel n :
  0 <= n < 128 ^ Z.of_nat fuel -> (0 < fuel)%nat ->
  writes (write_length fuel n) tt (encode_digits fuel n).
Proof.
  revert n. induction fuel as [|fuel IH]; intros n Hn Hf; [lia|].
  cbn [write_length encode_digits]. destruct (Z.ltb_spec 0 (n / 128)) as [Hmore|Hend].
  - apply (writes_bind _ _ tt _ [_] _).
    + apply writes_byte, digit_more_range.
    + rewrite Nat2Z.inj_succ, Z.pow_succ_r in Hn by lia.
      assert (0 < fuel)%nat.
      { destruct fuel; [|lia]. cbn in Hn. rewrite Z.div_small in Hmore by lia. lia. }
      apply IH; [|done]. split; [lia|]. apply Z.div_lt_upper_bound; lia.
  - apply (writes_bind _ _ tt _ [_] []); [|apply writes_ret].
    apply writes_byte. pose proof (digit_range n). lia.
Qed.

Lemma length_encode_length n :
  0 <= n <= 268435455 -> wlen (encode_length n) = length_field_size n.
Proof.
  intros Hn. unfold encode_length, length_fuel, length_field_size. cbn [encode_digits].
  rewrite !Z.div_div by lia. cbn [Z.mul Pos.mul]. rewrite !more_digits by lia.
  repeat case_match; cbn [length]; lia.
Qed.

(** ** The whole message *)

Lemma fills_body m :
  message_ok m ->
  fills (if type m =? MQTT_TYPE_PUBLISH then
           WRITE_STRING (topic_name (publish m)) ;;;
           copy_buffer (content (publish m)) ;;;
           ret MQTT_SERIALISER_RC_SUCCESS
         else if type m =? MQTT_TYPE_SUBACK then
           put_byte (Z.shiftr (sa_message_id (suback m)) 8) ;;;
           put_byte (Z.land (sa_message_id (suback m)) 255) ;;;
           put_byte (sa_return_code (suback m)) ;;;
           ret MQTT_SERIALISER_RC_SUCCESS
         else if type m =? MQTT_TYPE_CONNECT then
           write_connect (connect m) ;;; ret MQTT_SERIALISER_RC_SUCCESS
         else if type m =? MQTT_TYPE_CONNACK then
           put_byte (ca_unused (connack m)) ;;;
           put_byte (ca_return_code (connack m)) ;;;
           ret MQTT_SERIALISER_RC_SUCCESS
         else ret MQTT_SERIALISER_RC_ERROR) (write_rc m) (encode_body m).
Proof.
  intros (_ & Hpub & Hcon & _). unfold write_rc, encode_body.
  destruct (Z.eqb_spec (type m) MQTT_TYPE_PUBLISH) as [Ht|_].
  { destruct (Hpub Ht) as [Ht1 Ht2]. apply (fills_bind _ _ tt); [by apply writes_WRITE_STRING|].
    intros pre hole Hl Hb. destruct (fills_copy_buffer _ Ht2 pre hole Hl Hb) as [off E].
    exists off. cbn. by rewrite E. }
  destruct (type m =? MQTT_TYPE_SUBACK).
  { apply writes_fills.
    do 2 (apply (writes_bind _ _ tt _ [_]); [apply writes_put_byte|]).
    apply (writes_bind _ _ tt _ [_] []); [apply writes_put_byte|apply writes_ret]. }
  destruct (Z.eqb_spec (type m) MQTT_TYPE_CONNECT) as [Ht|_].
  { apply writes_fills. rewrite <- (app_nil_r (encode_connect _)).
    apply (writes_bind _ _ tt); [|apply writes_ret]. specialize (Hcon Ht).
    repeat (apply Forall_cons in Hcon as [? Hcon]).
    unfold write_connect, encode_connect.
    repeat (apply (writes_bind _ _ tt);
      [first [by apply writes_WRITE_STRING | apply writes_put_byte | apply writes_if] | ]).
    all: first [by apply writes_WRITE_STRING | by apply writes_if, writes_WRITE_STRING]. }
  destruct (type m =? MQTT_TYPE_CONNACK); apply writes_fills; [|apply writes_ret].
  apply (writes_bind _ _ tt _ [_]); [apply writes_put_byte|].
  apply (writes_bind _ _ tt _ [_] []); [apply writes_put_byte|apply writes_ret].
Qed.

Lemma length_c_field b : valid_buffer b -> wlen (c_field b) = 2 + b_length b.
Proof. intros (Hl & _). unfold c_field, c_prefix. cbn [app length]. lia. Qed.

Lemma length_encode_if flag l : wlen (encode_if flag l) = when flag (wlen l).
Proof. unfold encode_if, when. by destruct (flag =? 0). Qed.

Lemma length_encode_connect c :
  Forall valid_buffer [protocol_name c; client_id c; will_topic c; will_message c;
    username c; password c] ->
  wlen (encode_connect c) =
  8 + b_length (protocol_name c) + b_length (client_id c)
  + when (username_follows (flags c)) (2 + b_length (username c))
  + when (password_follows (flags c)) (2 + b_length (password c))
  + when (will (flags c)) (4 + b_length (will_topic c) + b_length (will_message c)).
Proof.
  intros Hc. repeat (apply Forall_cons in Hc as [? Hc]).
  unfold encode_connect. rewrite !length_app, !Nat2Z.inj_add, !length_encode_if.
  rewrite !length_app, !Nat2Z.inj_add, !length_c_field by done. cbn [length].
  unfold when. repeat case_match; lia.
Qed.

Lemma size_encode m :
  message_ok m -> mqtt_serialiser_size m = wlen (encode m).
Proof.
  intros (Hlen & Hpub & Hcon & Hbound). revert Hbound. unfold encode, encode_body.
  rewrite !length_app, !Nat2Z.inj_add, length_encode_length by done.
  change (Z.of_nat (length [u8 (header_byte m)])) with 1.
  unfold mqtt_serialiser_size. cbv zeta.
  assert (0 <= length_field_size (m_length m)).
  { unfold length_field_size. repeat case_match; lia. }
  destruct (Z.eqb_spec (type m) MQTT_TYPE_PUBLISH) as [Ht|_].
  { destruct (Hpub Ht) as [Ht1 Ht2]. rewrite length_app, Nat2Z.inj_add, length_c_field by done.
    destruct Ht1 as (Hl1 & _), Ht2 as (Hl2 & _). intros ?. rewrite u64_small; lia. }
  destruct (type m =? MQTT_TYPE_SUBACK); [cbn [app length]; lia|].
  destruct (Z.eqb_spec (type m) MQTT_TYPE_CONNECT) as [Ht|_].
  { rewrite length_encode_connect by auto. specialize (Hcon Ht).
    repeat (apply Forall_cons in Hcon as [(? & _) Hcon]).
    intros ?. rewrite u64_small; [lia|]. unfold when in *. repeat case_match; lia. }
  destruct (type m =? MQTT_TYPE_CONNACK); cbn [app length]; lia.
Qed.

(** [mqtt_serialiser_size] is the number of bytes the message is encoded
    in, so the [size_t] additions do not wrap. *)
Theorem serialiser_size_correct m :
  message_ok m -> mqtt_serialiser_size m = wlen (encode m).
Proof. apply size_encode. Qed.

Lemma write_encode m buffer :
  message_ok m -> Z.of_nat (length buffer) = mqtt_serialiser_size m ->
  mqtt_serialiser_write m buffer (mqtt_serialiser_size m) = Ok (write_rc m, encode m).
Proof.
  intros Hm Hbuf. pose proof (size_encode m Hm) as Hsize.
  pose proof Hm as (Hlen & _ & _ & Hbound).
  assert (Hf : fills (serialise m) (write_rc m) (encode m)).
  { unfold serialise, encode. apply (fills_bind _ _ tt); [apply writes_put_byte|].
    apply (fills_bind _ _ tt); [|by apply fills_body].
    apply writes_length; [|unfold length_fuel; lia].
    change (128 ^ Z.of_nat length_fuel) with 34359738368. lia. }
  destruct (Hf [] buffer) as [off E]; [lia|cbn [length]; lia|].
  unfold mqtt_serialiser_write. cbn [app length] in E. change (Z.of_nat 0) with 0 in E. rewrite E. cbn [w_buffer].
  rewrite drop_ge by lia. by rewrite app_nil_r.
Qed.

(** C17: on a buffer of [mqtt_serialiser_size] bytes, whatever it holds,
    [mqtt_serialiser_write] stays inside and leaves exactly the encoding; for
    the types it has no case for (PINGRESP) it answers ERROR with the two
    header bytes written. *)
Theorem serialiser_write_correct m buffer :
  message_ok m -> Z.of_nat (length buffer) = mqtt_serialiser_size m ->
  mqtt_serialiser_write m buffer (mqtt_serialiser_size m) = Ok (write_rc m, encode m).
Proof. apply write_encode. Qed.

(** ** The length prefix of strings *)

Definition enc16 (n : Z) : list Z := [n / 256; n mod 256].

Lemma c_prefix_iff n :
  0 <= n < 65536 -> (c_prefix n = enc16 n <-> n / 256 + n mod 256 < 255).
Proof.
  intros Hn. unfold c_prefix, enc16.
  change 255 with (Z.ones 8) at 2. rewrite Z.land_ones by lia. change (2 ^ 8) with 256.
  rewrite (u8_small (n mod 256)) by (apply Z.mod_pos_bound; lia).
  assert (Hdiv : n / 255 = n / 256 + (n / 256 + n mod 256) / 255).
  { rewrite (Z.div_mod n 256) at 1 by lia.
    replace (256 * (n / 256) + n mod 256) with (n / 256 + n mod 256 + n / 256 * 255) by lia.
    rewrite Z.div_add by lia. lia. }
  pose proof (Z.mod_pos_bound n 256 ltac:(lia)).
  assert (0 <= n / 256 < 256).
  { split; [apply Z.div_pos; lia|apply Z.div_lt_upper_bound; lia]. }
  rewrite Hdiv. split.
  - intros E. destruct (Z.lt_ge_cases (n / 256 + n mod 256) 255) as [|Hge]; [done|].
    assert (1 <= (n / 256 + n mod 256) / 255 <= 2).
    { split; [apply Z.div_le_lower_bound; lia|].
      apply Z.lt_succ_r, Z.div_lt_upper_bound; lia. }
    injection E as E. unfold u8, wrap in E. change (2 ^ 8) with 256 in E.
    destruct (Z.lt_ge_cases (n / 256 + (n / 256 + n mod 256) / 255) 256).
    + rewrite Z.mod_small in E; lia.
    + rewrite <- (Z.mod_unique (n / 256 + (n / 256 + n mod 256) / 255) 256 1
        (n / 256 + (n / 256 + n mod 256) / 255 - 256)) in E; lia.
  - intros Hlt. rewrite (Z.div_small (n / 256 + n mod 256)) by lia.
    rewrite Z.add_0_r, u8_small; done.
Qed.

Lemma c_prefix_short n : 0 <= n < 255 -> c_prefix n = enc16 n.
Proof.
  intros Hn. apply c_prefix_iff; [lia|].
  rewrite Z.div_small, Z.mod_small; lia.
Qed.

(** [WRITE_STRING] writes two length bytes and the string, and moves past
    them; the length bytes (the high one is [length / 0xff]) are the big-endian
    length exactly when its two bytes add up to less than 255: right for every
    string shorter than 255 bytes, wrong for one of 255. *)
Theorem WRITE_STRING_prefix b :
  valid_buffer b -> b_length b < 65536 ->
  writes (WRITE_STRING b) tt (c_prefix (b_length b) ++ buffer_bytes b) /\
  (c_prefix (b_length b) = enc16 (b_length b) <->
   b_length b / 256 + b_length b mod 256 < 255).
Proof.
  intros Hb Hl. split; [by apply writes_WRITE_STRING|]. apply c_prefix_iff.
  destruct Hb as [Hb _]. lia.
Qed.
