(* ===== verification/ParserSpec.v ===== *)
(** * The parser: what it makes of the payloads of the protocol

    Each theorem runs [mqtt_parser_execute] from the INITIAL state on a payload
    given by its fields, and says which message comes out. *)

From S2P Require Import Prelude.
From S2P Require Import Mqtt.
From S2P Require Import Parser.
From S2P Require Import Serialiser.
From S2P Require Import SerialiserFacts.

(** A string field: two length bytes, high byte first, and the characters. *)
Definition enc_str (s : list Z) : list Z := enc16 (wlen s) ++ s.
Definition str_ok (s : list Z) : Prop := wlen s < 65536.

Lemma enc16_value n : 0 <= n -> n / 256 * 256 + n mod 256 = n.
Proof. intros. pose proof (Z.div_mod n 256 ltac:(lia)). lia. Qed.

(** A string field as the parser stores it: a pointer into the payload. *)
Definition str_at (s rest : list Z) : mqtt_buffer :=
  {| b_length := wlen s; b_data := Some (s ++ rest) |}.

Lemma str_at_bytes s rest : buffer_bytes (str_at s rest) = s.
Proof. unfold buffer_bytes, str_at. cbn [b_data b_length]. by rewrite load_bytes_app. Qed.

Section cursor.
Context (mem : list Z) (Hmem : wlen mem < 2 ^ 32).
Abbreviation len := (wlen mem).

(** The unread part of the payload at offset [n] is [rest]. *)
Definition at_rest (n : Z) (rest : list Z) : Prop :=
  0 <= n /\ drop (Z.to_nat n) mem = rest /\ n + wlen rest = len.

Lemma at_rest_start : at_rest 0 mem.
Proof using. split_and!; [lia|done|lia]. Qed.

Lemma at_rest_app n a rest : at_rest n (a ++ rest) -> at_rest (n + wlen a) rest.
Proof using.
  intros (Hn & Hd & Hl). rewrite length_app in Hl. split_and!; [lia| |lia].
  rewrite Z2Nat.inj_add, Nat2Z.id by lia. rewrite <- drop_drop, Hd.
  by rewrite drop_app_length.
Qed.

Lemma at_rest_lookup n rest i :
  at_rest n rest -> 0 <= i -> mem !! Z.to_nat (n + i) = rest !! Z.to_nat i.
Proof using.
  intros (Hn & <- & _) Hi. rewrite lookup_drop. f_equal. lia.
Qed.

Lemma wp_data_at_rest i b rest (Q : Z -> pstate -> Prop) E s :
  at_rest (ps_nread s) rest -> 0 <= i -> rest !! Z.to_nat i = Some b ->
  Q b s -> wp (data_at (Some mem) i) Q E s.
Proof using.
  intros Hr Hi Hb HQ. unfold data_at. wp_run. apply (wp_lift _ b); [|done].
  pose proof Hr as (? & _). apply load_some; [lia|]. by rewrite (at_rest_lookup _ rest).
Qed.

Lemma available_rest n rest : at_rest n rest -> u64 (len - n) = wlen rest.
Proof using Hmem. intros (? & _ & ?). rewrite u64_small; lia. Qed.

Lemma wp_advance_rest k rest Q E s :
  at_rest (ps_nread s) rest -> 0 <= k <= wlen rest ->
  Q tt (s <| ps_nread := ps_nread s + k |>) -> wp (advance k) Q E s.
Proof using Hmem.
  intros (? & _ & ?) Hk HQ. unfold advance. wp_run. by rewrite u64_small by lia.
Qed.

Lemma wp_READ_STRING_rest str rest Q E s :
  at_rest (ps_nread s) (enc_str str ++ rest) -> str_ok str ->
  Q (Some (str_at str rest)) (s <| ps_nread := ps_nread s + wlen (enc_str str) |>) ->
  wp (READ_STRING (Some mem) len) Q E s.
Proof using Hmem.
  intros Hr Hok HQ. unfold str_ok in Hok. unfold READ_STRING, available. wp_run.
  { rewrite (available_rest _ _ Hr), length_app in Hb. unfold enc_str, enc16 in Hb.
    cbn [app length] in Hb. blia. }
  pose proof (enc16_value (wlen str) ltac:(lia)) as Hval.
  eapply wp_data_at_rest; [exact Hr|lia|reflexivity|]. wp_run.
  eapply wp_data_at_rest; [exact Hr|lia|reflexivity|]. cbv zeta. rewrite Hval.
  pose proof Hr as (Hn & Hd & Hl). rewrite length_app in Hl.
  assert (He : wlen (enc_str str) = 2 + wlen str) by (cbn [enc_str enc16 app length]; lia).
  wp_run. { rewrite u64_small in Hb0; blia. }
  eapply wp_advance_rest; [exact Hr|rewrite length_app; lia|]. wp_run.
  replace (ptr_add (Some mem) (ps_nread s + 2)) with (b_data (str_at str rest)).
  { by rewrite <- He. }
  cbn. f_equal. rewrite Z2Nat.inj_add, <- drop_drop, Hd by lia. done.
Qed.

Lemma wp_READ_STRING_short rest Q E s :
  at_rest (ps_nread s) rest -> wlen rest < 2 -> Q None s ->
  wp (READ_STRING (Some mem) len) Q E s.
Proof using Hmem.
  intros Hr Hs HQ. unfold READ_STRING, available. wp_run; [done|].
  rewrite (available_rest _ _ Hr) in Hb. blia.
Qed.

Lemma wp_need_rest n rest k Q E s :
  at_rest (ps_nread s) rest ->
  (if wlen rest <? n then Q (Some MQTT_PARSER_RC_INCOMPLETE) s else wp k Q E s) ->
  wp (need len n k) Q E s.
Proof using Hmem.
  intros Hr HQ. unfold need, available, return_rc. apply wp_bind, wp_gets.
  rewrite (available_rest _ _ Hr). by destruct (wlen rest <? n); [apply wp_ret|].
Qed.

Lemma wp_read_u16_rest v rest Q E s :
  at_rest (ps_nread s) (enc16 v ++ rest) -> 0 <= v ->
  Q v s -> wp (read_u16 (Some mem)) Q E s.
Proof using.
  intros Hr Hv HQ. unfold read_u16. wp_run.
  eapply wp_data_at_rest; [exact Hr|lia|reflexivity|]. wp_run.
  eapply wp_data_at_rest; [exact Hr|lia|reflexivity|]. wp_run.
  rewrite Z.shiftl_mul_pow2 by lia. change (2 ^ 8) with 256. by rewrite enc16_value.
Qed.

(** One more round of the loop. *)
Lemma wp_round fuel Q E s :
  wp (parser_case (Some mem) len (p_state (ps_parser s)))
     (fun r s' => match r with
                  | Some rc => Q rc s'
                  | None => wp (parser_loop (Some mem) len fuel) Q E s'
                  end) E s ->
  wp (parser_loop (Some mem) len (S fuel)) Q E s.
Proof using.
  intros H. cbn [parser_loop]. apply wp_bind. unfold parser_step. apply wp_bind, wp_gets.
  eapply wp_conseq; [exact H| |auto]. by intros [rc|] s' HQ.
Qed.
End cursor.

Ltac norm_state :=
  cbn [ps_parser ps_message ps_nread ps_alloc p_state p_error update].
Ltac run_ops :=
  unfold set_state, set_error, set_message, break, return_rc;
  repeat (wp_rule; cbv beta; norm_state).
Ltac next_round := apply wp_round; norm_state; cbn [parser_case].

(** The state [loop_read] starts the parser in. *)
Definition start (m : mqtt_message) (e : mqtt_error) (a : alloc) : pstate := {|
  ps_parser := {| p_state := MQTT_PARSER_STATE_INITIAL; p_error := e |};
  ps_message := m; ps_nread := 0; ps_alloc := a |}.

(** The state after a complete parse that ends in message [m]. *)
Definition done_with (m : mqtt_message) (e : mqtt_error) (n : Z) (a : alloc) : pstate := {|
  ps_parser := {| p_state := MQTT_PARSER_STATE_INITIAL; p_error := e |};
  ps_message := m; ps_nread := n; ps_alloc := a |}.

Lemma execute_ok data len s rc s' :
  wp (mqtt_parser_execute data len) (fun r t => r = rc /\ t = s') no_fault s ->
  mqtt_parser_execute data len s = Ok (rc, s').
Proof. intros H. by apply wp_elim in H as (? & ? & -> & -> & ->). Qed.

(** ** SUBSCRIBE *)

Definition subscribed (m : mqtt_message) (mid : Z) (topic rest : list Z) (q : Z) : mqtt_message :=
  m <| subscribe := {| sub_message_id := mid;
         topics := Some {| tp_name := Some (str_at topic (q :: rest)); tp_qos := Some q |} |} |>.

Lemma parser_first_round mem fuel m e a Q E st :
  (type m = MQTT_TYPE_SUBSCRIBE /\ st = MQTT_PARSER_STATE_SUBSCRIBE) \/
  (type m = MQTT_TYPE_PUBLISH /\ st = MQTT_PARSER_STATE_PUBLISH) \/
  (type m = MQTT_TYPE_CONNECT /\ st = MQTT_PARSER_STATE_CONNECT) ->
  wp (parser_loop (Some mem) (wlen mem) fuel) Q E
     {| ps_parser := {| p_state := st; p_error := e |}; ps_message := m;
        ps_nread := 0; ps_alloc := a |} ->
  wp (parser_loop (Some mem) (wlen mem) (S fuel)) Q E (start m e a).
Proof.
  intros Ht H. unfold start. next_round. unfold parse_initial. apply wp_bind, wp_gets.
  cbn [ps_message]. destruct Ht as [[-> ->]|[[-> ->]|[-> ->]]]; run_ops; try discriminate; exact H.
Qed.

Section subscribe.
Context (m : mqtt_message) (e : mqtt_error) (a : alloc) (mid : Z) (topic : list Z).
Context (Hty : type m = MQTT_TYPE_SUBSCRIBE) (Hno : topics (subscribe m) = None).
Context (Hmid : 0 <= mid < 65536) (Htopic : str_ok topic) (Ha : memory_available a).

(** Up to the QoS byte. *)
Lemma subscribe_prefix tail Q E :
  let mem := enc16 mid ++ enc_str topic ++ tail in
  wlen mem < 2 ^ 32 ->
  (forall s, s = {| ps_parser := {| p_state := MQTT_PARSER_STATE_SUBSCRIBE_TOPIC_NAME; p_error := e |};
       ps_message := m <| subscribe := {| sub_message_id := mid;
         topics := Some {| tp_name := Some (str_at topic tail); tp_qos := None |} |} |>;
       ps_nread := 4 + wlen topic; ps_alloc := a <| al_next := S (al_next a) |> |} ->
     wp (parse_topic_qos (Some mem))
        (fun r s' => match r with Some rc => Q rc s' | None => False end) E s) ->
  wp (mqtt_parser_execute (Some mem) (wlen mem)) Q E (start m e a).
Proof using Hty Hno Hmid Htopic Ha.
  intros mem Hlen HQ. unfold mqtt_parser_execute, parser_fuel.
  apply (parser_first_round _ _ _ _ _ _ _ MQTT_PARSER_STATE_SUBSCRIBE); [by left|].
  pose proof (at_rest_start mem) as H0.
  next_round. unfold parse_subscribe.
  eapply wp_need_rest; [done|exact H0|].
  rewrite (proj2 (Z.ltb_ge _ _)) by (unfold mem; rewrite length_app; cbn [length enc16]; lia).
  run_ops. eapply wp_read_u16_rest; [exact H0|lia|]. wp_run.
  eapply wp_advance_rest; [done|exact H0|unfold mem; rewrite length_app; cbn [length enc16]; lia|].
  apply at_rest_app in H0. run_ops. next_round. unfold parse_subscribe_topic_name.
  apply wp_bind, wp_gets. cbn [ps_message in_subscribe update subscribe topics].
  rewrite Hno. apply wp_bind, wp_bind, wp_zoom. cbn [ps_alloc].
  unfold malloc_unchecked. unfold wp at 1. unfold bind at 1.
  rewrite malloc_available by done. cbn [ret]. run_ops.
  unfold read_field. apply wp_bind. eapply wp_READ_STRING_rest; [done|exact H0|done|].
  run_ops. eapply wp_conseq; [apply HQ| |auto].
  - cbn. rewrite u16_small by lia. f_equal. lia.
  - by intros [rc|] s' Hr.
Qed.

Lemma subscribe_at_end tail :
  let mem := enc16 mid ++ enc_str topic ++ tail in at_rest mem (4 + wlen topic) tail.
Proof using.
  intros mem. pose proof (at_rest_start mem) as H0. do 2 apply at_rest_app in H0.
  replace (4 + wlen topic) with (0 + wlen (enc16 mid) + wlen (enc_str topic)); [done|].
  cbn [enc_str enc16 app length]. lia.
Qed.

(** A SUBSCRIBE payload with a packet identifier, a topic filter and a
    QoS byte parses into exactly these; what follows is ignored (one topic
    per request). *)
Theorem parser_subscribe q rest :
  let mem := enc16 mid ++ enc_str topic ++ q :: rest in
  wlen mem < 2 ^ 32 ->
  mqtt_parser_execute (Some mem) (wlen mem) (start m e a) =
  Ok (MQTT_PARSER_RC_DONE,
      done_with (subscribed m mid topic rest q) e (5 + wlen topic)
        (a <| al_next := S (al_next a) |>)).
Proof using Hty Hno Hmid Htopic Ha.
  intros mem Hlen. apply execute_ok, subscribe_prefix; [done|]. intros s ->.
  pose proof (subscribe_at_end (q :: rest)) as Hr. fold mem in Hr.
  apply wp_bind. eapply wp_data_at_rest; [exact Hr|done|done|]. run_ops.
  eapply wp_advance_rest; [done|exact Hr|cbn [length]; lia|]. run_ops. cbn.
  split; [done|]. unfold done_with, subscribed. cbn. f_equal. lia.
Qed.

(** When the filter ends the payload, the QoS byte is read past the end
    of the payload block. *)
Theorem parser_subscribe_overread :
  let mem := enc16 mid ++ enc_str topic in
  wlen mem < 2 ^ 32 ->
  mqtt_parser_execute (Some mem) (wlen mem) (start m e a) = Fault OutOfBounds.
Proof using Hty Hno Hmid Htopic Ha.
  intros mem Hlen. unfold mem in *. rewrite <- (app_nil_r (enc_str topic)) in *.
  pose proof (subscribe_at_end []) as Hr.
  assert (H : wp (mqtt_parser_execute (Some (enc16 mid ++ enc_str topic ++ []))
      (wlen (enc16 mid ++ enc_str topic ++ []))) (fun _ _ => False)
      (fun f => f = OutOfBounds) (start m e a)).
  { apply subscribe_prefix; [done|]. intros s ->. unfold wp, parse_topic_qos, data_at, bind, gets, lift.
    cbn [ps_nread]. unfold load. rewrite (proj2 (Z.ltb_ge _ _)) by lia.
    by rewrite (at_rest_lookup _ _ [] 0 Hr). }
  unfold wp in H. destruct (mqtt_parser_execute _ _ _) as [[]| |]; by subst.
Qed.
End subscribe.

(** ** PUBLISH *)

Lemma wp_READ_MESSAGE_rest mem rest (Q : option mqtt_buffer -> pstate -> Prop) E s :
  wlen mem < 2 ^ 32 -> at_rest mem (ps_nread s) rest ->
  Q (Some (str_at rest [])) (s <| ps_nread := ps_nread s + wlen rest |>) ->
  wp (READ_MESSAGE (Some mem) (wlen mem) (wlen rest)) Q E s.
Proof.
  intros Hm Hr HQ. unfold READ_MESSAGE, available. wp_run.
  - rewrite (available_rest mem Hm _ _ Hr) in Hb. blia.
  - rewrite (available_rest mem Hm _ _ Hr) in Hb0. blia.
  - eapply wp_advance_rest; [done|exact Hr|lia|]. wp_run. unfold str_at in HQ.
    rewrite app_nil_r in HQ. unfold ptr_add. cbn [fmap option_fmap option_map].
    destruct Hr as (_ & -> & _). exact HQ.
Qed.

Definition published (m : mqtt_message) (topic after : list Z) (mid : Z) (body : list Z)
    : mqtt_message :=
  m <| publish := {| topic_name := str_at topic after; pub_message_id := mid;
                     content := str_at body [] |} |>.

Lemma has_message_id_in_publish f m : has_message_id (in_publish f m) = has_message_id m.
Proof. done. Qed.

Section publish.
Context (m : mqtt_message) (e : mqtt_error) (a : alloc) (topic : list Z).
Context (Hty : type m = MQTT_TYPE_PUBLISH) (Htopic : str_ok topic).

(** Up to the packet identifier. *)
Lemma publish_prefix after Q E :
  let mem := enc_str topic ++ after in
  wlen mem < 2 ^ 32 ->
  wp (parse_publish_message_id (Some mem) (wlen mem))
     (fun r s' => match r with
                  | Some rc => Q rc s'
                  | None => wp (parser_loop (Some mem) (wlen mem) 8) Q E s'
                  end) E
     {| ps_parser := {| p_state := MQTT_PARSER_STATE_PUBLISH_MESSAGE_ID; p_error := e |};
        ps_message := in_publish (fun p => p <| topic_name := str_at topic after |>) m;
        ps_nread := wlen (enc_str topic); ps_alloc := a |} ->
  wp (mqtt_parser_execute (Some mem) (wlen mem)) Q E (start m e a).
Proof using Hty Htopic.
  intros mem Hlen HQ. unfold mqtt_parser_execute, parser_fuel.
  apply (parser_first_round _ _ _ _ _ _ _ MQTT_PARSER_STATE_PUBLISH); [auto|].
  next_round. run_ops. next_round. unfold parse_publish_topic_name, read_field.
  apply wp_bind. eapply wp_READ_STRING_rest; [done|apply at_rest_start|done|].
  run_ops. next_round. exact HQ.
Qed.

Lemma publish_parses body :
  let mem := enc_str topic ++ body in
  wlen mem < 2 ^ 32 -> m_length m = wlen mem -> has_message_id m = false ->
  2 <= wlen body ->
  mqtt_parser_execute (Some mem) (wlen mem) (start m e a) =
  Ok (MQTT_PARSER_RC_DONE, done_with (published m topic body 0 body) e (wlen mem) a).
Proof using Hty Htopic.
  intros mem Hlen Hml Hq Hbody. apply execute_ok, publish_prefix; [done|].
  fold mem. pose proof (at_rest_start mem) as Hr. apply at_rest_app in Hr.
  unfold parse_publish_message_id. eapply wp_need_rest; [done|exact Hr|].
  rewrite (proj2 (Z.ltb_ge _ _)) by lia. run_ops. { by rewrite !has_message_id_in_publish, Hq in Hb. }
  next_round. unfold parse_publish_message. run_ops.
  cbn [in_publish update publish topic_name str_at b_length m_length].
  rewrite !has_message_id_in_publish, Hq, Hml. unfold mem at 3. rewrite length_app. unfold enc_str at 1.
  replace (u32 _) with (wlen body) by (rewrite u32_small; unfold mem in *;
    rewrite !length_app in *; cbn [enc_str enc16 app length] in *; lia).
  eapply wp_READ_MESSAGE_rest; [done|exact Hr|]. run_ops. split; [done|].
  unfold done_with, published. cbn. f_equal. unfold mem. rewrite length_app. lia.
Qed.

(** A PUBLISH of QoS 0 whose content has at least two bytes parses into
    its topic and content. *)
Theorem parser_publish body :
  let mem := enc_str topic ++ body in
  wlen mem < 2 ^ 32 -> m_length m = wlen mem -> has_message_id m = false ->
  2 <= wlen body ->
  mqtt_parser_execute (Some mem) (wlen mem) (start m e a) =
  Ok (MQTT_PARSER_RC_DONE, done_with (published m topic body 0 body) e (wlen mem) a).
Proof using Hty Htopic. apply publish_parses. Qed.

(** A PUBLISH of QoS 0 whose content has fewer than two bytes, which the
    protocol allows, is answered INCOMPLETE. *)
Theorem parser_publish_short body :
  let mem := enc_str topic ++ body in
  wlen mem < 2 ^ 32 -> wlen body < 2 ->
  exists s, mqtt_parser_execute (Some mem) (wlen mem) (start m e a) =
  Ok (MQTT_PARSER_RC_INCOMPLETE, s).
Proof using Hty Htopic.
  intros mem Hlen Hbody.
  assert (H : wp (mqtt_parser_execute (Some mem) (wlen mem))
    (fun rc _ => rc = MQTT_PARSER_RC_INCOMPLETE) no_fault (start m e a)).
  { apply publish_prefix; [done|]. fold mem.
    pose proof (at_rest_start mem) as Hr. apply at_rest_app in Hr.
    unfold parse_publish_message_id. eapply wp_need_rest; [done|exact Hr|].
    by rewrite (proj2 (Z.ltb_lt _ _)) by lia. }
  apply wp_elim in H as (rc & s & E & ->). by exists s.
Qed.

(** With QoS 1 or 2 the packet identifier is read too, and any content
    is accepted. *)
Theorem parser_publish_qos mid body :
  let mem := enc_str topic ++ enc16 mid ++ body in
  wlen mem < 2 ^ 32 -> m_length m = wlen mem -> has_message_id m = true ->
  0 <= mid < 65536 ->
  mqtt_parser_execute (Some mem) (wlen mem) (start m e a) =
  Ok (MQTT_PARSER_RC_DONE,
      done_with (published m topic (enc16 mid ++ body) mid body) e (wlen mem) a).
Proof using Hty Htopic.
  intros mem Hlen Hml Hq Hmid. apply execute_ok, publish_prefix; [done|].
  fold mem. pose proof (at_rest_start mem) as Hr. apply at_rest_app in Hr.
  unfold parse_publish_message_id. eapply wp_need_rest; [done|exact Hr|].
  rewrite (proj2 (Z.ltb_ge _ _)) by (rewrite length_app; cbn [enc16 length]; lia).
  run_ops. 2: { by rewrite !has_message_id_in_publish, Hq in Hb. }
  eapply wp_read_u16_rest; [exact Hr|lia|]. run_ops.
  eapply wp_advance_rest; [done|exact Hr|rewrite length_app; cbn [enc16 length]; lia|].
  apply at_rest_app in Hr. run_ops.
  next_round. unfold parse_publish_message. run_ops.
  cbn [in_publish update publish topic_name str_at b_length m_length].
  rewrite !has_message_id_in_publish, Hq, Hml. 
  replace (u32 _) with (wlen body) by (rewrite (u32_small (_ - _ - 2)), u32_small; unfold mem in *;
    rewrite !length_app in *; cbn [enc_str enc16 app length] in *; lia).
  eapply wp_READ_MESSAGE_rest; [done|exact Hr|]. run_ops. split; [done|].
  unfold done_with, published. cbn. rewrite u16_small by done. f_equal.
  unfold mem. rewrite !length_app. cbn [enc16 length]. lia.
Qed.
End publish.

(** ** CONNECT *)

Record connect_fields : Type := {
  cf_protocol_name : list Z; cf_version : Z; cf_flags : Z; cf_keep_alive : Z;
  cf_client_id : list Z; cf_will_topic : list Z; cf_will_message : list Z;
  cf_username : list Z; cf_password : list Z }.

Definition fields_ok (f : connect_fields) : Prop :=
  Forall str_ok [cf_protocol_name f; cf_client_id f; cf_will_topic f; cf_will_message f;
    cf_username f; cf_password f] /\ 0 <= cf_keep_alive f < 65536.

(** The variable header and payload of a CONNECT packet (MQTT 3.1.1, 3.1). *)
Definition enc_connect (f : connect_fields) : list Z :=
  let fl := flags_of_byte (cf_flags f) in
  enc_str (cf_protocol_name f) ++ [cf_version f] ++ [cf_flags f] ++ enc16 (cf_keep_alive f)
  ++ enc_str (cf_client_id f)
  ++ encode_if (will fl) (enc_str (cf_will_topic f))
  ++ encode_if (will fl) (enc_str (cf_will_message f))
  ++ encode_if (username_follows fl) (enc_str (cf_username f))
  ++ encode_if (password_follows fl) (enc_str (cf_password f)).

(** What a parsed CONNECT holds, the strings by their characters. *)
Definition connect_holds (c : connect_msg) (f : connect_fields) : Prop :=
  let fl := flags_of_byte (cf_flags f) in
  buffer_bytes (protocol_name c) = cf_protocol_name f /\
  protocol_version c = cf_version f /\ flags c = fl /\ keep_alive c = cf_keep_alive f /\
  buffer_bytes (client_id c) = cf_client_id f /\
  buffer_bytes (will_topic c) = encode_if (will fl) (cf_will_topic f) /\
  buffer_bytes (will_message c) = encode_if (will fl) (cf_will_message f) /\
  buffer_bytes (username c) = encode_if (username_follows fl) (cf_username f) /\
  buffer_bytes (password c) = encode_if (password_follows fl) (cf_password f).

Section connect.
Context (mem : list Z) (Hmem : wlen mem < 2 ^ 32).

Lemma wp_read_field_rest put k str rest (Q : case_result -> pstate -> Prop) E s :
  at_rest mem (ps_nread s) (enc_str str ++ rest) -> str_ok str ->
  (at_rest mem (ps_nread s + wlen (enc_str str)) rest ->
   wp k Q E (s <| ps_nread := ps_nread s + wlen (enc_str str) |>
               <| ps_message := put (str_at str rest) (ps_message s) |>)) ->
  wp (read_field (Some mem) (wlen mem) put k) Q E s.
Proof using Hmem.
  intros Hr Hok Hk. unfold read_field. apply wp_bind.
  eapply wp_READ_STRING_rest; [done|exact Hr|done|].
  unfold set_message. wp_run. apply Hk. by apply at_rest_app in Hr.
Qed.

Lemma wp_need_byte_rest b rest k (Q : case_result -> pstate -> Prop) E s :
  at_rest mem (ps_nread s) ([b] ++ rest) ->
  (at_rest mem (ps_nread s + 1) rest -> wp (k b) Q E s) ->
  wp (need (wlen mem) 1 (let* v := data_at (Some mem) 0 in k v)) Q E s.
Proof using Hmem.
  intros Hr Hk. eapply wp_need_rest; [done|exact Hr|].
  rewrite (proj2 (Z.ltb_ge _ _)) by (cbn [app length]; lia).
  apply wp_bind. eapply wp_data_at_rest; [exact Hr|lia|reflexivity|].
  apply Hk. by apply (at_rest_app mem _ [b]) in Hr.
Qed.
End connect.

(** The four optional fields, from state CONNECT_WILL_TOPIC on. *)
Section connect_tail.
Context (mem : list Z) (Hmem : wlen mem < 2 ^ 32).
Context (m : mqtt_message) (e : mqtt_error) (a : alloc).

Definition in_state (st : mqtt_parser_state) (c : connect_msg) (n : Z) : pstate := {|
  ps_parser := {| p_state := st; p_error := e |};
  ps_message := m <| connect := c |>; ps_nread := n; ps_alloc := a |}.

Definition opt_put (flag : Z) (put : mqtt_buffer -> connect_msg -> connect_msg)
    (b : mqtt_buffer) (c : connect_msg) : connect_msg :=
  if flag =? 0 then c else put b c.

Lemma wp_optional_rest cond put k str rest fl st c n (Q : case_result -> pstate -> Prop) E :
  flags c = fl ->
  at_rest mem n (encode_if (cond fl) (enc_str str) ++ rest) -> str_ok str ->
  (forall n', at_rest mem n' rest ->
     wp k Q E (in_state st (opt_put (cond fl) put (str_at str rest) c) n')) ->
  wp (optional_field (Some mem) (wlen mem) cond put k) Q E (in_state st c n).
Proof using Hmem.
  intros Hfl Hr Hok Hk. unfold optional_field. apply wp_bind, wp_gets.
  cbn [in_state ps_message connect update]. rewrite Hfl.
  unfold encode_if in Hr. unfold opt_put in Hk. destruct (cond fl =? 0); [by apply Hk|].
  eapply wp_read_field_rest; [done|exact Hr|done|]. intros Hr'. exact (Hk _ Hr').
Qed.

Lemma opt_put_flags flag put b c :
  (forall b c, flags (put b c) = flags c) -> flags (opt_put flag put b c) = flags c.
Proof using. intros H. unfold opt_put. by destruct (flag =? 0). Qed.

Lemma connect_tail fl wt wm un pw c n fuel (Q : mqtt_parser_rc -> pstate -> Prop) E :
  flags c = fl -> Forall str_ok [wt; wm; un; pw] ->
  Forall (fun b => buffer_bytes b = []) [will_topic c; will_message c; username c; password c] ->
  at_rest mem n (encode_if (will fl) (enc_str wt) ++ encode_if (will fl) (enc_str wm)
    ++ encode_if (username_follows fl) (enc_str un)
    ++ encode_if (password_follows fl) (enc_str pw)) ->
  (forall c', 
     protocol_name c' = protocol_name c -> protocol_version c' = protocol_version c ->
     flags c' = fl -> keep_alive c' = keep_alive c -> client_id c' = client_id c ->
     buffer_bytes (will_topic c') = encode_if (will fl) wt ->
     buffer_bytes (will_message c') = encode_if (will fl) wm ->
     buffer_bytes (username c') = encode_if (username_follows fl) un ->
     buffer_bytes (password c') = encode_if (password_follows fl) pw ->
     Q MQTT_PARSER_RC_DONE (in_state MQTT_PARSER_STATE_INITIAL c' (wlen mem))) ->
  wp (parser_loop (Some mem) (wlen mem) (S (S (S (S fuel))))) Q E
     (in_state MQTT_PARSER_STATE_CONNECT_WILL_TOPIC c n).
Proof using Hmem.
  intros Hfl Hok Hc Hr HQ.
  repeat (apply Forall_cons in Hok as [? Hok]). repeat (apply Forall_cons in Hc as [? Hc]).
  rewrite <- (app_nil_r (encode_if (password_follows fl) _)) in Hr.
  apply wp_round. cbn [in_state p_state ps_parser parser_case]. unfold parse_will_topic.
  eapply wp_optional_rest; [exact Hfl|exact Hr|done|]. intros n1 Hr1.
  set (c1 := opt_put _ _ _ c). run_ops.
  apply wp_round. cbn [in_state p_state ps_parser parser_case update]. unfold parse_will_message.
  eapply (wp_optional_rest _ _ _ _ _ fl MQTT_PARSER_STATE_CONNECT_WILL_MESSAGE c1);
    [by unfold c1; rewrite opt_put_flags|exact Hr1|done|].
  intros n2 Hr2. set (c2 := opt_put _ _ _ c1). run_ops.
  apply wp_round. cbn [in_state p_state ps_parser parser_case update]. unfold parse_username.
  eapply (wp_optional_rest _ _ _ _ _ fl MQTT_PARSER_STATE_CONNECT_USERNAME c2);
    [by unfold c2, c1; rewrite !opt_put_flags|exact Hr2|done|].
  intros n3 Hr3. set (c3 := opt_put _ _ _ c2). run_ops.
  apply wp_round. cbn [in_state p_state ps_parser parser_case update]. unfold parse_password.
  eapply (wp_optional_rest _ _ _ _ _ fl MQTT_PARSER_STATE_CONNECT_PASSWORD c3);
    [by unfold c3, c2, c1; rewrite !opt_put_flags|exact Hr3|done|].
  intros n4 (_ & _ & Hn4). set (c4 := opt_put _ _ _ c3). run_ops.
  replace n4 with (wlen mem) by (cbn in Hn4; lia).
  apply (HQ c4); unfold c4, c3, c2, c1, opt_put, encode_if;
    repeat case_match; cbn; rewrite ?str_at_bytes; done.
Qed.
End connect_tail.

Lemma connect_parses m e a f :
  let mem := enc_connect f in
  type m = MQTT_TYPE_CONNECT -> connect m = connect0 -> fields_ok f ->
  wlen mem < 2 ^ 32 ->
  exists c, connect_holds c f /\
  mqtt_parser_execute (Some mem) (wlen mem) (start m e a) =
  Ok (MQTT_PARSER_RC_DONE, done_with (m <| connect := c |>) e (wlen mem) a).
Proof.
  intros mem Hty Hc0 [Hstr Hka] Hlen.
  repeat (apply Forall_cons in Hstr as [? Hstr]). clear Hstr.
  assert (HW : wp (mqtt_parser_execute (Some mem) (wlen mem))
    (fun rc s => rc = MQTT_PARSER_RC_DONE /\ exists c, connect_holds c f /\
       s = done_with (m <| connect := c |>) e (wlen mem) a) no_fault (start m e a)).
  2: { apply wp_elim in HW as (rc & s & E & -> & c & Hc & ->). eauto. }
  unfold mqtt_parser_execute, parser_fuel.
  apply (parser_first_round _ _ _ _ _ _ _ MQTT_PARSER_STATE_CONNECT); [auto|].
  next_round. run_ops. pose proof (at_rest_start mem) as Hr.
  unfold mem in Hr at 2. unfold enc_connect in Hr.
  next_round. unfold parse_protocol_name. eapply wp_read_field_rest; [done|exact Hr|done|].
  clear Hr. norm_state. intros Hr. run_ops.
  next_round. unfold parse_protocol_version. eapply wp_need_byte_rest; [done|exact Hr|].
  norm_state. intros Hr1. run_ops.
  eapply wp_advance_rest; [done|exact Hr|cbn [app length]; lia|]. clear Hr. run_ops.
  next_round. unfold parse_flags. eapply wp_need_byte_rest; [done|exact Hr1|].
  norm_state. intros Hr. run_ops.
  eapply wp_advance_rest; [done|exact Hr1|cbn [app length]; lia|]. clear Hr1. run_ops.
  next_round. unfold parse_keep_alive. eapply wp_need_rest; [done|exact Hr|].
  rewrite (proj2 (Z.ltb_ge _ _)) by (rewrite length_app; cbn [enc16 length]; lia).
  run_ops. eapply wp_read_u16_rest; [exact Hr|lia|]. run_ops.
  eapply wp_advance_rest; [done|exact Hr|rewrite length_app; cbn [enc16 length]; lia|].
  apply at_rest_app in Hr. run_ops.
  next_round. unfold parse_client_identifier. eapply wp_read_field_rest; [done|exact Hr|done|].
  clear Hr. norm_state. intros Hr. run_ops.
  apply (connect_tail mem Hlen m e a (flags_of_byte (cf_flags f)) (cf_will_topic f)
    (cf_will_message f) (cf_username f) (cf_password f)
    {| protocol_name := str_at (cf_protocol_name f) _; protocol_version := cf_version f;
       flags := flags_of_byte (cf_flags f); keep_alive := u16 (cf_keep_alive f);
       client_id := str_at (cf_client_id f) _; will_topic := will_topic (connect m);
       will_message := will_message (connect m); username := username (connect m);
       password := password (connect m) |}).
  - done.
  - repeat constructor; done.
  - rewrite Hc0. repeat constructor.
  - exact Hr.
  - intros c Hpn Hpv Hfl Hk Hcid ????. split; [done|]. exists c. split; [|done].
    unfold connect_holds. rewrite Hpn, Hpv, Hfl, Hk, Hcid. cbn.
    rewrite !str_at_bytes, u16_small by done. done.
Qed.

(** A CONNECT payload parses into the fields it was made of, whatever the
    flags byte. *)
Theorem parser_connect m e a f :
  let mem := enc_connect f in
  type m = MQTT_TYPE_CONNECT -> connect m = connect0 -> fields_ok f ->
  wlen mem < 2 ^ 32 ->
  exists c, connect_holds c f /\
  mqtt_parser_execute (Some mem) (wlen mem) (start m e a) =
  Ok (MQTT_PARSER_RC_DONE, done_with (m <| connect := c |>) e (wlen mem) a).
Proof. apply connect_parses. Qed.
