(* ===== verification/ParserTyped.v ===== *)
(** * The parser: its messages are well typed

    What [mqtt_parser_execute] leaves in a message, whatever the payload:
    buffers that lie in the payload block, and numbers that fit the bit fields
    and integers of the structs of mqtt.h. *)

From S2P Require Import Prelude.
From S2P Require Import Mqtt.
From S2P Require Import Parser.
From S2P Require Import ParserFacts.
From S2P Require Import SerialiserFacts.

(** ** Types *)

Definition is_bit (z : Z) : Prop := z = 0 \/ z = 1.
Definition is_u16 (z : Z) : Prop := 0 <= z < 65536.

Lemma u16_type z : is_u16 (u16 z).
Proof. apply (wrap_range 16). lia. Qed.

(** [will_qos] is the other field of two bits; the parser reads one of them. *)
Definition flags_typed (f : connect_flags) : Prop :=
  Forall is_bit [username_follows f; password_follows f; will_retain f; will f; clean_session f] /\
  (will_qos f = 0 \/ will_qos f = 2).

Lemma flags_of_byte_typed b : flags_typed (flags_of_byte b).
Proof.
  assert (H1 : forall z, is_bit (Z.land z 1)).
  { intros z. change 1 with (Z.ones 1). rewrite Z.land_ones by lia. unfold is_bit.
    pose proof (Z.mod_pos_bound z (2 ^ 1)). lia. }
  split; [repeat (apply Forall_cons_2; [apply H1|]); constructor|]. unfold flags_of_byte. cbn [will_qos].
  change 2 with (Z.shiftl 1 1). rewrite <- (Z.land_comm (Z.shiftl 1 1)).
  set (z := Z.shiftr b 4). assert (E : Z.land (Z.shiftl 1 1) z = Z.shiftl (Z.land 1 (Z.shiftr z 1)) 1).
  { apply Z.bits_inj'. intros i Hi. rewrite Z.land_spec, !Z.shiftl_spec by done.
    destruct (Z.lt_ge_cases i 1); [by rewrite !(Z.testbit_neg_r _ (i - 1)) by lia|].
    rewrite Z.land_spec, Z.shiftr_spec by lia. by replace (i - 1 + 1) with i by lia. }
  rewrite E, Z.land_comm. destruct (H1 (Z.shiftr z 1)) as [-> | ->]; [by left|by right].
Qed.

Section typed.
Context (data : ptr) (len : Z).

(** A buffer as [memset] leaves it, or one in the block. *)
Definition field (b : mqtt_buffer) : Prop :=
  b = buffer0 \/
  exists off, 0 <= off /\ 0 <= b_length b /\ off + b_length b <= len /\ b_data b = ptr_add data off.

Record connect_typed (c : connect_msg) : Prop := {
  connect_buffers : Forall field [protocol_name c; client_id c; will_topic c; will_message c;
                                 username c; password c];
  connect_version : is_byte (protocol_version c);
  connect_flags_ok : flags_typed (flags c);
  connect_keep_alive : is_u16 (keep_alive c) }.

Record publish_typed (p : publish_msg_t) : Prop := {
  publish_topic : field (topic_name p);
  publish_content : field (content p);
  publish_id : is_u16 (pub_message_id p) }.

Definition pair_typed (p : mqtt_topicpair) : Prop :=
  from_option field True (tp_name p) /\ from_option is_byte True (tp_qos p).

Record subscribe_typed (c : subscribe_msg) : Prop := {
  subscribe_id : is_u16 (sub_message_id c);
  subscribe_pair : from_option pair_typed True (topics c) }.

Record typed (m : mqtt_message) : Prop := {
  typed_connect : connect_typed (connect m);
  typed_connack : is_byte (ca_unused (connack m)) /\ is_byte (ca_return_code (connack m));
  typed_publish : publish_typed (publish m);
  typed_subscribe : subscribe_typed (subscribe m) }.

(** What a message of its type needs when the parser is done: a PUBLISH has
    its topic and its content one after the other, a SUBSCRIBE has a filter and
    a QoS. *)
Definition message_complete (m : mqtt_message) : Prop :=
  (type m = MQTT_TYPE_PUBLISH ->
     2 + b_length (topic_name (publish m)) + b_length (content (publish m)) <= len) /\
  (type m = MQTT_TYPE_SUBSCRIBE ->
     exists b q, topics (subscribe m) = Some {| tp_name := Some b; tp_qos := Some q |}).

Lemma field0 : field buffer0.
Proof using. by left. Qed.

Lemma field_valid b : block data len -> len < 2 ^ 32 -> field b -> valid_buffer b.
Proof using.
  intros Hb _ [->|(off & Ho & Hl & Hle & Hd)]; [by split_and!; [..|constructor|]|].
  destruct data as [mem|]; cbn [block] in Hb.
  - destruct Hb as [Hlen Hmem]. cbn in Hd.
    assert (Hload : load_bytes (b_data b) (b_length b) =
      Ok (take (Z.to_nat (b_length b)) (drop (Z.to_nat off) mem))).
    { unfold load_bytes. rewrite Hd. destruct (Z.leb_spec (b_length b) 0).
      - by replace (Z.to_nat (b_length b)) with 0%nat by lia.
      - rewrite (proj2 (Z.ltb_ge _ _)); [done|]. rewrite length_drop. lia. }
    unfold valid_buffer, buffer_bytes. rewrite Hload. split_and!; [|by apply Forall_take, Forall_drop|done].
    rewrite length_take, length_drop. lia.
  - assert (b_length b = 0) as E by lia. unfold valid_buffer, buffer_bytes, load_bytes. rewrite E.
    by split_and!; [..|constructor|].
Qed.
End typed.

(** A message nothing has been read into but its header. *)
Definition header_only (m : mqtt_message) : Prop :=
  connect m = connect0 /\ connack m = connack message0 /\ publish m = publish message0 /\
  subscribe m = subscribe message0.

Lemma header_only_typed data len m : header_only m -> typed data len m.
Proof.
  intros (H1 & H2 & H3 & H4). destruct m; cbn in *; subst.
  assert (Hf : field data len buffer0) by apply field0.
  split; cbn; split; cbn; unfold is_byte, is_u16; try lia; try done.
  - by repeat constructor.
  - split; [repeat constructor|by left].
Qed.

(** ** Every case of the switch keeps them *)

(** The states belong to the types they are reached for, and between topic
    and content of a PUBLISH the offset is past the topic. *)
Definition state_type (st : mqtt_parser_state) (m : mqtt_message) (nread : Z) : Prop :=
  match st with
  | MQTT_PARSER_STATE_VARIABLE_HEADER => False
  | MQTT_PARSER_STATE_CONNECT | MQTT_PARSER_STATE_CONNECT_PROTOCOL_NAME
  | MQTT_PARSER_STATE_CONNECT_PROTOCOL_VERSION | MQTT_PARSER_STATE_CONNECT_FLAGS
  | MQTT_PARSER_STATE_CONNECT_KEEP_ALIVE | MQTT_PARSER_STATE_CONNECT_CLIENT_IDENTIFIER
  | MQTT_PARSER_STATE_CONNECT_WILL_TOPIC | MQTT_PARSER_STATE_CONNECT_WILL_MESSAGE
  | MQTT_PARSER_STATE_CONNECT_USERNAME | MQTT_PARSER_STATE_CONNECT_PASSWORD =>
      type m = MQTT_TYPE_CONNECT
  | MQTT_PARSER_STATE_CONNACK => type m = MQTT_TYPE_CONNACK
  | MQTT_PARSER_STATE_PUBLISH | MQTT_PARSER_STATE_PUBLISH_TOPIC_NAME => type m = MQTT_TYPE_PUBLISH
  | MQTT_PARSER_STATE_PUBLISH_MESSAGE_ID | MQTT_PARSER_STATE_PUBLISH_MESSAGE =>
      type m = MQTT_TYPE_PUBLISH /\ 2 + b_length (topic_name (publish m)) <= nread
  | MQTT_PARSER_STATE_SUBSCRIBE | MQTT_PARSER_STATE_SUBSCRIBE_TOPIC_NAME =>
      type m = MQTT_TYPE_SUBSCRIBE
  | _ => True
  end.

#[local] Arguments in_connect : simpl never.
#[local] Arguments in_publish : simpl never.
#[local] Arguments in_subscribe : simpl never.

Section cases.
Context (data : ptr) (len : Z).
Context (Hdata : block data len) (Hlen : len < 2 ^ 32).

Record tstate (s : pstate) : Prop := {
  ts_range : in_range len s;
  ts_typed : typed data len (ps_message s);
  ts_state : state_type (state_of s) (ps_message s) (ps_nread s) }.

(** What a case of the switch leaves. *)
Definition typed_post (r : case_result) (s : pstate) : Prop :=
  match r with
  | None => tstate s
  | Some rc => typed data len (ps_message s) /\
      (rc = MQTT_PARSER_RC_DONE -> message_complete len (ps_message s))
  end.

Abbreviation case_typed k s := (wp k typed_post (fun _ => True) s) (only parsing).

Lemma typed_stop rc s :
  rc <> MQTT_PARSER_RC_DONE -> typed data len (ps_message s) -> typed_post (Some rc) s.
Proof using. by split. Qed.

Lemma typed_need n k s :
  in_range len s -> typed data len (ps_message s) ->
  (ps_nread s + n <= len -> case_typed k s) -> case_typed (need len n k) s.
Proof using Hdata Hlen.
  intros Hs Ht Hk. unfold need, available. wp_run; [by apply typed_stop|].
  rewrite (available_eq data len Hdata Hlen) in Hb by done. apply Z.ltb_ge in Hb. apply Hk. lia.
Qed.

Lemma typed_read_field put k s :
  in_range len s -> typed data len (ps_message s) ->
  (forall b, field data len b -> 0 <= b_length b -> ps_nread s + 2 + b_length b <= len ->
     case_typed k (s <| ps_nread := ps_nread s + (2 + b_length b) |>
                     <| ps_message := put b (ps_message s) |>)) ->
  case_typed (read_field data len put k) s.
Proof using Hdata Hlen.
  intros Hs Ht Hk. unfold read_field. apply wp_bind.
  apply (wp_READ_STRING data len Hdata Hlen); [done|by apply typed_stop|].
  intros b Hb Hle Hd. unfold set_message. apply wp_bind, wp_modify. apply Hk; [|done|lia].
  right. exists (ps_nread s + 2). unfold in_range in Hs. split_and!; [lia|done|lia|done].
Qed.

Lemma typed_optional_field cond put k s :
  in_range len s -> typed data len (ps_message s) -> case_typed k s ->
  (forall b, field data len b -> 0 <= b_length b -> ps_nread s + 2 + b_length b <= len ->
     case_typed k (s <| ps_nread := ps_nread s + (2 + b_length b) |>
                     <| ps_message := in_connect (put b) (ps_message s) |>)) ->
  case_typed (optional_field data len cond put k) s.
Proof using Hdata Hlen.
  intros Hs Ht Hk Hf. unfold optional_field. wp_run; [done|]. by apply typed_read_field.
Qed.

Lemma typed_read_u16 (Q : Z -> pstate -> Prop) E s :
  in_range len s -> ps_nread s + 2 <= len -> (forall v, Q v s) ->
  wp (read_u16 data) Q E s.
Proof using Hdata Hlen. apply (wp_read_u16 data len Hdata Hlen). Qed.

(** Changing one of the members of the union *)
Lemma typed_in_connect f m :
  (connect_typed data len (connect m) -> connect_typed data len (f (connect m))) ->
  typed data len m -> typed data len (in_connect f m).
Proof using. intros Hf []. split; cbn; auto. Qed.
Lemma typed_in_publish f m :
  (publish_typed data len (publish m) -> publish_typed data len (f (publish m))) ->
  typed data len m -> typed data len (in_publish f m).
Proof using. intros Hf []. split; cbn; auto. Qed.
Lemma typed_in_subscribe f m :
  (subscribe_typed data len (subscribe m) -> subscribe_typed data len (f (subscribe m))) ->
  typed data len m -> typed data len (in_subscribe f m).
Proof using. intros Hf []. split; cbn; auto. Qed.

(** The buffers of a CONNECT *)
Lemma connect_typed_fields c c' :
  Forall (field data len) [protocol_name c'; client_id c'; will_topic c'; will_message c';
                           username c'; password c'] ->
  protocol_version c' = protocol_version c -> flags c' = flags c -> keep_alive c' = keep_alive c ->
  connect_typed data len c -> connect_typed data len c'.
Proof using. intros Hf H1 H2 H3 []. split; congruence. Qed.

Ltac typed_message :=
  first [ assumption
        | apply typed_in_connect; [|typed_message]; intros Hct;
          first [ destruct Hct as [Hfs ? ? ?]; repeat apply Forall_cons in Hfs as [? Hfs];
                  by (split; cbn; auto using flags_of_byte_typed, u16_type;
                      repeat (apply Forall_cons_2; [assumption|]); constructor) ]
        | apply typed_in_publish; [|typed_message]; intros [];
          by (split; cbn; auto using u16_type)
        | apply typed_in_subscribe; [|typed_message]; intros [];
          by (split; cbn; auto using u16_type) ].

Ltac in_block := unfold in_range in *; cbn in *; lia.

(** Run a case up to its end. *)
Ltac run_typed :=
  unfold set_state, set_error, set_message, break, return_rc;
  repeat first
    [ progress wp_run
    | apply typed_read_field; [in_block|cbn; typed_message|intros ?b ?Hb ?Hb0 ?Hle]
    | apply typed_optional_field; [in_block|cbn; typed_message| |intros ?b ?Hb ?Hb0 ?Hle]
    | apply typed_need; [in_block|cbn; typed_message|intros ?Hn]
    | apply (wp_data_at data len Hdata Hlen); [in_block|lia|in_block|intros ?b ?Hb _]
    | apply typed_read_u16; [in_block|in_block|intros ?v]
    | apply (wp_advance data len Hdata Hlen); [in_block|lia|in_block|] ].

Ltac show_message := unfold set_topic_qos, set_topic_name, in_connect, in_publish, in_subscribe; cbn.

Ltac wrong_type :=
  show_message; intros ?Hty';
  match goal with H : type ?m = _, H' : type ?m = _ |- _ => rewrite H in H'; discriminate H' end.

Ltac end_typed :=
  cbn; rewrite ?Z.eqb_eq in *; first
    [ apply typed_stop; [discriminate|cbn; typed_message]
    | split; [in_block|cbn; typed_message|show_message; unfold in_range in *; try done; try lia]
    | split; [cbn; typed_message|intros _; split; wrong_type] ].

Lemma typed_publish_message s :
  tstate s -> state_of s = MQTT_PARSER_STATE_PUBLISH_MESSAGE ->
  case_typed (parse_publish_message data len) s.
Proof using All.
  intros [Hr Ht Hst] Est. rewrite Est in Hst. destruct Hst as [Hty Hst].
  unfold parse_publish_message. run_typed.
  match goal with |- wp (READ_MESSAGE _ _ ?n) _ _ _ =>
    assert (0 <= n) by (case_match;
      match goal with |- 0 <= u32 ?z => pose proof (u32_range z); lia end);
    generalize dependent n; intros k Hk
  end.
  apply (wp_READ_MESSAGE data len Hdata Hlen); [done|done|run_typed; end_typed|intros Hle].
  run_typed. split; [|intros _; split].
  - cbn. apply typed_in_publish; [|done]. intros []. split; cbn; [done| |done].
    right. exists (ps_nread s). unfold in_range in Hr. cbn. split_and!; [lia|lia|lia|done].
  - intros _. unfold in_publish. cbn. lia.
  - wrong_type.
Qed.

Lemma typed_subscribe_pair s p :
  in_range len s -> typed data len (ps_message s) -> type_of s = MQTT_TYPE_SUBSCRIBE ->
  topics (subscribe (ps_message s)) = Some p ->
  case_typed (read_field data len set_topic_name (parse_topic_qos data)) s.
Proof using All.
  intros Hr Ht Hty Hp. assert (Hpair : pair_typed data len p).
  { destruct Ht as [_ _ _ [_ Hs]]. by rewrite Hp in Hs. }
  apply typed_read_field; [done|done|]. intros b Hb Hb0 Hle. unfold parse_topic_qos.
  apply wp_bind. unfold data_at. apply wp_bind, wp_gets. cbn.
  set (off := ps_nread s + (2 + b_length b) + 0). unfold in_range in Hr.
  assert (Hq : (exists f, load data off = Fault f) \/ (exists q, load data off = Ok q /\ is_byte q /\ off < len)).
  { destruct data as [mem|]; cbn [block] in Hdata; [|left; by eexists]. destruct Hdata as [Hl Hmem].
    destruct (mem !! Z.to_nat off) as [q|] eqn:E.
    - right. exists q. split_and!; [apply load_some; [lia|done]|by eapply Forall_lookup_1 in Hmem|].
      apply lookup_lt_Some in E. lia.
    - left. exists OutOfBounds. unfold load. rewrite E. by case_match. }
  destruct Hq as [[f ->]|(q & Eq & Hbq & Hlt)]; [done|]. eapply wp_lift; [exact Eq|].
  unfold set_message. run_typed.
  assert (Hnew : forall m, topics (subscribe m) = Some p ->
    topics (subscribe (set_topic_qos q (set_topic_name b m))) =
    Some {| tp_name := Some b; tp_qos := Some q |}).
  { intros m Hm. unfold set_topic_qos, set_topic_name, in_subscribe. cbn. by rewrite Hm. }
  split; [|intros _; split].
  - change (typed data len (set_topic_qos q (set_topic_name b (ps_message s)))).
    destruct Ht as [H1 H2 H3 [H4 H5]]. split; [done|done|done|]. split; [done|].
    by rewrite (Hnew _ Hp).
  - wrong_type.
  - intros _. exists b, q. exact (Hnew _ Hp).
Qed.

Lemma typed_subscribe_topic_name s :
  tstate s -> state_of s = MQTT_PARSER_STATE_SUBSCRIBE_TOPIC_NAME ->
  case_typed (parse_subscribe_topic_name data len) s.
Proof using All.
  intros [Hr Ht Hst] Est. rewrite Est in Hst. cbn in Hst. unfold parse_subscribe_topic_name.
  apply wp_bind, wp_gets, wp_bind. destruct (topics (subscribe (ps_message s))) as [p|] eqn:Ep.
  { apply wp_ret. by eapply typed_subscribe_pair. }
  apply wp_bind, wp_zoom, wp_malloc_unchecked; [|done]. unfold set_message. apply wp_modify.
  eapply typed_subscribe_pair; [done| |done|reflexivity]. cbn.
  apply typed_in_subscribe; [|done]. intros [H1 _]. by split.
Qed.

Lemma typed_connack_case s :
  tstate s -> state_of s = MQTT_PARSER_STATE_CONNACK -> case_typed (parse_connack data len) s.
Proof using All.
  intros [Hr Ht Hst] Est. rewrite Est in Hst. cbn in Hst. unfold parse_connack. run_typed.
  split; [|intros _; split; wrong_type]. cbn. by destruct Ht.
Qed.

Lemma typed_case s :
  tstate s -> case_typed (parser_case data len (state_of s)) s.
Proof using All.
  intros Hs. pose proof Hs as [Hr Ht Hst]. destruct (state_of s) eqn:Est; cbn [parser_case].
  all: unfold parse_initial, parse_default, parse_protocol_name, parse_protocol_version, parse_flags,
    parse_keep_alive, parse_client_identifier, parse_will_topic, parse_will_message,
    parse_username, parse_password, parse_publish_topic_name, parse_publish_message_id,
    parse_subscribe; cbn in Hst; try (run_typed; end_typed; fail).
  - done.
  - by apply typed_connack_case.
  - by apply typed_publish_message.
  - by apply typed_subscribe_topic_name.
Qed.

Lemma typed_loop fuel s rc s' :
  tstate s -> parser_loop data len fuel s = Ok (rc, s') -> typed_post (Some rc) s'.
Proof using All.
  revert s. induction fuel as [|fuel IH]; intros s Hs; [done|]. cbn [parser_loop].
  pose proof (typed_case s Hs) as Hc. unfold parser_step, bind, gets, wp in *.
  destruct (parser_case data len (state_of s) s) as [[[rc'|] s1]| |]; [|by apply IH|done|done].
  by intros [= <- <-].
Qed.
End cases.

Lemma parser_run_typed data len s :
  block data len -> len < 2 ^ 32 ->
  p_state (ps_parser s) = MQTT_PARSER_STATE_INITIAL -> ps_nread s = 0 -> header_only (ps_message s) ->
  wp (mqtt_parser_execute data len)
     (fun rc s' => typed data len (ps_message s') /\ final_rc rc /\
        type (ps_message s') = type (ps_message s) /\
        (rc = MQTT_PARSER_RC_DONE -> message_complete len (ps_message s')))
     (subscribe_fault s) s.
Proof.
  intros Hd Hl Hi Hn Hm. assert (Hr : in_range len s).
  { unfold in_range. rewrite Hn. destruct data; cbn in Hd; lia. }
  assert (Hts : tstate data len s).
  { split; [done|by apply header_only_typed|]. by rewrite Hi. }
  pose proof (wp_parser_loop data len Hd Hl parser_fuel s Hr) as Hw.
  rewrite Hi in Hw. unfold mqtt_parser_execute, wp in *.
  destruct (parser_loop data len parser_fuel s) as [[rc s']| |] eqn:E.
  - destruct Hw as (_ & Hty & Hrc); [by split; [|intros [?|?]]|cbn; unfold parser_fuel; lia|].
    destruct (typed_loop data len Hd Hl parser_fuel s rc s' Hts E). by split_and!.
  - apply Hw; [by split; [|intros [?|?]]|cbn; unfold parser_fuel; lia].
  - apply Hw; [by split; [|intros [?|?]]|cbn; unfold parser_fuel; lia].
Qed.

(** C16: whatever the payload block holds, the parser, started on a message of
    which only the header has been read, leaves a message that is well typed:
    every buffer lies in the block, and every number fits its field; and when
    it reports that it is done the message is complete. *)
Theorem parser_typed data len s :
  block data len -> len < 2 ^ 32 ->
  p_state (ps_parser s) = MQTT_PARSER_STATE_INITIAL -> ps_nread s = 0 -> header_only (ps_message s) ->
  wp (mqtt_parser_execute data len)
     (fun rc s' => typed data len (ps_message s') /\ final_rc rc /\
        type (ps_message s') = type (ps_message s) /\
        (rc = MQTT_PARSER_RC_DONE -> message_complete len (ps_message s')))
     (subscribe_fault s) s.
Proof. apply parser_run_typed. Qed.
