(* ===== verification/RoundTrip.v ===== *)
(** * Round trips between the serialiser and the parser *)

From S2P Require Import Prelude.
From S2P Require Import Mqtt.
From S2P Require Import Parser.
From S2P Require Import Serialiser.
From S2P Require Import SerialiserFacts.
From S2P Require Import ParserSpec.

(** ** The fixed header byte *)

Definition header_ok (m : mqtt_message) : Prop :=
  0 <= retain m < 2 /\ 0 <= qos m < 4 /\ 0 <= dup m < 2 /\ 0 <= type m < 16.

Definition header_value (r q d t : Z) : Z :=
  u8 (r + Z.shiftl q 1 + Z.shiftl d 3 + Z.shiftl t 4).

Definition header_check (r q d t : Z) : bool :=
  let m := mqtt_parser_command message0 (header_value r q d t) in
  (retain m =? r) && (qos m =? q) && (dup m =? d) && (type m =? t).

Lemma header_check_all r q d t :
  0 <= r < 2 -> 0 <= q < 4 -> 0 <= d < 2 -> 0 <= t < 16 -> header_check r q d t = true.
Proof.
  intros Hr Hq Hd Ht.
  assert (H : check_below 2 (fun r => check_below 4 (fun q => check_below 2 (fun d =>
    check_below 16 (header_check r q d)))) = true) by (vm_compute; reflexivity).
  eapply check_below_correct in H; [|exact Hr]. eapply check_below_correct in H; [|exact Hq].
  eapply check_below_correct in H; [|exact Hd]. by eapply check_below_correct in H.
Qed.

(** The header byte the serialiser writes is decoded by
    [mqtt_parser_command] into the same type and flags. *)
Theorem header_roundtrip m m0 :
  header_ok m ->
  let m' := mqtt_parser_command m0 (u8 (header_byte m)) in
  retain m' = retain m /\ qos m' = qos m /\ dup m' = dup m /\ type m' = type m.
Proof.
  intros (Hr & Hq & Hd & Ht).
  pose proof (header_check_all (retain m) (qos m) (dup m) (type m) Hr Hq Hd Ht) as H.
  unfold header_check in H. rewrite !andb_true_iff, !Z.eqb_eq in H.
  destruct H as [[[? ?] ?] ?]. done.
Qed.

(** ** The CONNECT flags *)

Definition bit (z : Z) : Prop := 0 <= z < 2.
Definition flags_ok (f : connect_flags) : Prop :=
  bit (username_follows f) /\ bit (password_follows f) /\ bit (will_retain f) /\
  0 <= will_qos f < 3 /\ bit (will f) /\ bit (clean_session f).

(** What the parser makes of the flags byte of [f]. *)
Definition parsed_flags (f : connect_flags) : connect_flags :=
  f <| will_qos := 2 * will_retain f |>.

#[export] Instance connect_flags_eq_dec : EqDecision connect_flags.
Proof. solve_decision. Defined.

Definition flags_check (u p r q w c : Z) : bool :=
  let f := Build_connect_flags u p r q w c in
  bool_decide (flags_of_byte (u8 (write_flags f)) = parsed_flags f).

Lemma flags_check_all u p r q w c :
  bit u -> bit p -> bit r -> 0 <= q < 3 -> bit w -> bit c -> flags_check u p r q w c = true.
Proof.
  intros Hu Hp Hr Hq Hw Hc.
  assert (H : check_below 2 (fun u => check_below 2 (fun p => check_below 2 (fun r =>
    check_below 3 (fun q => check_below 2 (fun w => check_below 2 (flags_check u p r q w))))))
    = true) by (vm_compute; reflexivity).
  eapply check_below_correct in H; [|exact Hu]. eapply check_below_correct in H; [|exact Hp].
  eapply check_below_correct in H; [|exact Hr]. eapply check_below_correct in H; [|exact Hq].
  eapply check_below_correct in H; [|exact Hw]. by eapply check_below_correct in H.
Qed.

Lemma flags_roundtrip f :
  flags_ok f -> flags_of_byte (u8 (write_flags f)) = parsed_flags f.
Proof.
  intros (Hu & Hp & Hr & Hq & Hw & Hc). destruct f as [u p r q w c].
  pose proof (flags_check_all u p r q w c Hu Hp Hr Hq Hw Hc) as H.
  by apply bool_decide_eq_true in H.
Qed.

(** Reading back the CONNECT flags byte the serialiser writes gives every
    flag but the will QoS: the parser answers twice the will-retain bit,
    whatever QoS was written. *)
Theorem connect_flags_roundtrip f :
  flags_ok f -> flags_of_byte (u8 (write_flags f)) = parsed_flags f.
Proof. apply flags_roundtrip. Qed.

(** ** Strings *)

Definition short (b : mqtt_buffer) : Prop := valid_buffer b /\ b_length b < 255.

Lemma c_field_short b : short b -> c_field b = enc_str (buffer_bytes b).
Proof.
  intros [(Hl & _) Hs]. unfold c_field, enc_str. rewrite c_prefix_short by lia. by rewrite Hl.
Qed.

Lemma short_str_ok b : short b -> str_ok (buffer_bytes b).
Proof. intros [(Hl & _) Hs]. unfold str_ok. lia. Qed.

(** ** PUBLISH *)

(** The message [publish_msg] builds: QoS 0, topic and content. *)
Definition publish_message (topic body : mqtt_buffer) : mqtt_message :=
  message0 <| type := MQTT_TYPE_PUBLISH |>
    <| m_length := 2 + b_length topic + b_length body |>
    <| publish := {| topic_name := topic; pub_message_id := 0; content := body |} |>.

(** C20: a PUBLISH of QoS 0 with a topic of fewer than 255 bytes and a content of
    at least two, serialised and parsed again, has the same topic and content.
    (With a topic of 255 bytes, or a shorter content, it is not read back:
    [publish_255_unreadable], [parser_publish_short].) *)
Theorem publish_roundtrip topic body m e a :
  let out := encode_body (publish_message topic body) in
  short topic -> valid_buffer body -> 2 <= b_length body -> wlen out < 2 ^ 32 ->
  type m = MQTT_TYPE_PUBLISH -> qos m = 0 -> m_length m = wlen out ->
  exists m', mqtt_parser_execute (Some out) (wlen out) (start m e a) =
    Ok (MQTT_PARSER_RC_DONE, done_with m' e (wlen out) a) /\
  buffer_bytes (topic_name (publish m')) = buffer_bytes topic /\
  buffer_bytes (content (publish m')) = buffer_bytes body.
Proof.
  intros out Ht (Hl & _) Hb Hout Hty Hq Hlen.
  assert (E : out = enc_str (buffer_bytes topic) ++ buffer_bytes body).
  { change out with (c_field topic ++ buffer_bytes body). by rewrite c_field_short. }
  clearbody out. subst out. eexists. split.
  - apply publish_parses; [done|by apply short_str_ok|done|done|by unfold has_message_id; rewrite Hq|lia].
  - split; apply str_at_bytes.
Qed.

(** The broker does not read back what it writes for a topic of 255 bytes:
    with fewer than 256 bytes of content, parsing ends INCOMPLETE. *)
Theorem publish_255_unreadable topic body m e a :
  let out := encode_body (publish_message topic body) in
  valid_buffer topic -> b_length topic = 255 -> valid_buffer body -> b_length body < 256 ->
  type m = MQTT_TYPE_PUBLISH ->
  exists s, mqtt_parser_execute (Some out) (wlen out) (start m e a) =
    Ok (MQTT_PARSER_RC_INCOMPLETE, s).
Proof.
  intros out (Ht & _) H255 (Hb & _) Hbody Hty.
  assert (E : out = [1; 255] ++ buffer_bytes topic ++ buffer_bytes body).
  { change out with (c_field topic ++ buffer_bytes body). unfold c_field. by rewrite H255. }
  assert (Hlen : wlen out < 600) by (rewrite E, !length_app; cbn [length]; lia).
  assert (HW : wp (mqtt_parser_execute (Some out) (wlen out))
    (fun rc _ => rc = MQTT_PARSER_RC_INCOMPLETE) no_fault (start m e a)).
  2: { apply wp_elim in HW as (rc & s & -> & ->). by exists s. }
  unfold mqtt_parser_execute, parser_fuel.
  apply (parser_first_round _ _ _ _ _ _ _ MQTT_PARSER_STATE_PUBLISH); [auto|].
  next_round. run_ops. next_round. unfold parse_publish_topic_name, read_field, READ_STRING, available.
  pose proof (at_rest_start out) as Hr. rewrite E in Hr at 2.
  run_ops; [done|].
  eapply wp_data_at_rest; [exact Hr|lia|reflexivity|]. run_ops.
  eapply wp_data_at_rest; [exact Hr|lia|reflexivity|]. run_ops; [done|].
  exfalso. revert Hb1. rewrite u64_small; rewrite E, !length_app in *; cbn [length] in *; [|lia].
  rewrite Z.ltb_ge. lia.
Qed.

(** ** CONNECT *)

(** The fields a CONNECT message stands for. *)
Definition fields_of (c : connect_msg) : connect_fields := {|
  cf_protocol_name := buffer_bytes (protocol_name c);
  cf_version := u8 (protocol_version c); cf_flags := u8 (write_flags (flags c));
  cf_keep_alive := keep_alive c; cf_client_id := buffer_bytes (client_id c);
  cf_will_topic := buffer_bytes (will_topic c);
  cf_will_message := buffer_bytes (will_message c);
  cf_username := buffer_bytes (username c); cf_password := buffer_bytes (password c) |}.

Definition connect_ok (c : connect_msg) : Prop :=
  Forall short [protocol_name c; client_id c; will_topic c; will_message c;
    username c; password c] /\ 0 <= keep_alive c < 65536 /\ flags_ok (flags c).

Lemma enc16_bytes n :
  0 <= n < 65536 -> [u8 (Z.shiftr n 8)] ++ [u8 (Z.land n 255)] = enc16 n.
Proof.
  intros Hn. unfold enc16. rewrite Z.shiftr_div_pow2 by lia.
  change 255 with (Z.ones 8). rewrite Z.land_ones by lia. change (2 ^ 8) with 256.
  assert (0 <= n / 256 < 256).
  { split; [apply Z.div_pos; lia|apply Z.div_lt_upper_bound; lia]. }
  pose proof (Z.mod_pos_bound n 256 ltac:(lia)). by rewrite !u8_small by lia.
Qed.

Lemma encode_if_app flag l1 l2 : encode_if flag (l1 ++ l2) = encode_if flag l1 ++ encode_if flag l2.
Proof. unfold encode_if. by destruct (flag =? 0). Qed.

Lemma encode_connect_fields c : connect_ok c -> encode_connect c = enc_connect (fields_of c).
Proof.
  intros (Hs & Hka & Hfl). repeat (apply Forall_cons in Hs as [? Hs]).
  unfold encode_connect, enc_connect, fields_of. cbn [cf_protocol_name cf_version cf_flags
    cf_keep_alive cf_client_id cf_will_topic cf_will_message cf_username cf_password].
  rewrite flags_roundtrip by done. rewrite !c_field_short by done.
  rewrite encode_if_app, <- !app_assoc. rewrite <- (enc16_bytes (keep_alive c)) by done.
  by rewrite <- app_assoc.
Qed.

(** C19: a CONNECT whose strings are all shorter than 255 bytes, whose keep-alive
    has 16 bits and whose flags are in range, serialised and parsed again, has
    the same strings and keep-alive, those that its flags announce, and the same
    flags, but for the will QoS, of which [parsed_flags] says what is left.
    (A longer string is written with a wrong prefix: [WRITE_STRING_prefix].) *)
Theorem connect_roundtrip c m e a :
  let out := encode_connect c in
  connect_ok c -> type m = MQTT_TYPE_CONNECT -> connect m = connect0 -> wlen out < 2 ^ 32 ->
  exists c', mqtt_parser_execute (Some out) (wlen out) (start m e a) =
    Ok (MQTT_PARSER_RC_DONE, done_with (m <| connect := c' |>) e (wlen out) a) /\
  connect_holds c' (fields_of c) /\ flags c' = parsed_flags (flags c).
Proof.
  intros out Hok Hty Hc0 Hout. pose proof (encode_connect_fields c Hok) as E. fold out in E.
  clearbody out. subst out. destruct Hok as (Hs & Hka & Hfl).
  destruct (connect_parses m e a (fields_of c)) as (c' & Hc' & ->); [done|done| |done|].
  { split; [|done]. repeat (apply Forall_cons in Hs as [? Hs]).
    repeat constructor; by apply short_str_ok. }
  exists c'. split_and!; [done|done|]. destruct Hc' as (_ & _ & -> & _).
  by apply flags_roundtrip.
Qed.
