(* ===== verification/Substree.v ===== *)
(** * substree.c: tokeniser, subscription tree, search

    A [struct subhier] is a tree node with the list of its children (the
    [children]/[next] chain) and of its leaves (the [subs]/[next] chain); its
    address identifies it where the code stores a pointer to it
    ([context->subs]).  [parent] and [prev] are written but never read.
    [retained] is read by [mqtt3_sub_tree_print] only, and never set. *)

From S2P Require Import Prelude.
From S2P Require Import Topic.

(** ** The tokeniser *)

(** [strdup(s)] *)
Definition strdup (s : list Z) : M alloc (option (list Z)) :=
  let* p := malloc in
  ret (match p with Some _ => Some s | None => None end).

(** [_sub_topic_append(&tail, topics, topic)]: the token list after, [None] for
    the NULL result. *)
Definition _sub_topic_append (topics : list level) (topic : option level)
    : M alloc (option (list level)) :=
  match topic with
  | None => ret None
  | Some t =>
      let* p := malloc in
      ret (match p with Some _ => Some (topics ++ [t]) | None => None end)
  end.

(** [subtopic[i]], the terminating NUL included *)
Definition char_at (s : list Z) (i : nat) : Z := default 0 (s !! i).

(** [for (i = start; i < len+1; i++)], [n] iterations to go. *)
Fixpoint tokenise_loop (n : nat) (s : list Z) (i start : nat) (topics : list level)
    : M alloc (option (list level)) :=
  match n with
  | O => ret (Some topics)
  | S n' =>
      if (char_at s i =? SLASH) || (char_at s i =? 0) then
        let* topic := strdup (if Nat.eqb start i then [] else take (i - start) (drop start s)) in
        let* r := _sub_topic_append topics topic in
        match r with
        | None => ret None
        | Some topics' => tokenise_loop n' s (S i) (S i) topics'
        end
      else tokenise_loop n' s (S i) start topics
  end.

(** [_sub_topic_tokenise(subtopic, topics)]: [Some] for result 0, [None] for
    result 1, where the [cleanup] code has freed what was built. *)
Definition _sub_topic_tokenise (s : list Z) : M alloc (option (list level)) :=
  let* first :=
    if char_at s 0 =? DOLLAR then ret (Some [])
    else let* t := strdup [] in _sub_topic_append [] t in
  match first with
  | None => ret None
  | Some topics =>
      if char_at s 0 =? SLASH then
        let* t := strdup [] in
        let* r := _sub_topic_append topics t in
        match r with
        | None => ret None
        | Some topics' => tokenise_loop (length s) s 1 1 topics'
        end
      else tokenise_loop (S (length s)) s 0 0 topics
  end.

(** ** The tree *)

(** [struct subleaf]; [context] is the index of the client in
    [g_broker->clients]. *)
Record subleaf : Type := { sl_context : nat; sl_qos : Z }.

(** [struct subhier] *)
Inductive subhier : Type :=
| Subhier (addr : loc) (topic : level) (subs : list subleaf) (children : list subhier).

Definition sh_addr (h : subhier) : loc := let 'Subhier a _ _ _ := h in a.
Definition sh_topic (h : subhier) : level := let 'Subhier _ t _ _ := h in t.
Definition sh_subs (h : subhier) : list subleaf := let 'Subhier _ _ ls _ := h in ls.
Definition sh_children (h : subhier) : list subhier := let 'Subhier _ _ _ cs := h in cs.

Definition set_subs (ls : list subleaf) (h : subhier) : subhier :=
  let 'Subhier a t _ cs := h in Subhier a t ls cs.
Definition set_children (cs : list subhier) (h : subhier) : subhier :=
  let 'Subhier a t ls _ := h in Subhier a t ls cs.

(** ** What the tree needs of the clients *)

Class ClientStore (C : Type) := {
  cs_id : C -> nat -> list Z;              (* [context->id], as a C string *)
  cs_is_subscribe : C -> nat -> bool;      (* [context->is_subscribe] *)
  cs_subs : C -> nat -> list (option loc); (* [context->subs], [sub_count] entries *)
  cs_set_subs : nat -> list (option loc) -> C -> C }.

Class ClientStoreLaws (C : Type) `{ClientStore C} := {
  cs_id_set_subs c l s c' : cs_id (cs_set_subs c l s) c' = cs_id s c';
  cs_is_subscribe_set_subs c l s c' :
    cs_is_subscribe (cs_set_subs c l s) c' = cs_is_subscribe s c';
  cs_subs_set_subs c l s c' :
    cs_subs (cs_set_subs c l s) c' = if decide (c = c') then l else cs_subs s c' }.

Section substree.
Context {C : Type} `{ClientStore C}.

(** The part of the program's state the tree code works on: allocator,
    [bro->subs.children], the static [root_lock], the clients. *)
Record sstate : Type := {
  ss_alloc : alloc; ss_roots : list subhier; ss_locked : bool; ss_clients : C }.
#[export] Instance eta_sstate : Eta sstate := fun s =>
  Build_sstate (ss_alloc s) (ss_roots s) (ss_locked s) (ss_clients s).

Definition with_alloc {A} (m : M alloc A) : M sstate A :=
  zoom ss_alloc (fun a s => s <| ss_alloc := a |>) m.

(** The loop over [subhier->subs] that looks for a leaf of the same client
    id and sets its QoS: [None] when there is none. *)
Fixpoint update_leaf (cl : C) (context : nat) (qos : Z) (leaves : list subleaf)
    : option (list subleaf) :=
  match leaves with
  | [] => None
  | leaf :: leaves' =>
      if bool_decide (cs_id cl (sl_context leaf) = cs_id cl context)
      then Some ({| sl_context := sl_context leaf; sl_qos := qos |} :: leaves')
      else cons leaf <$> update_leaf cl context qos leaves'
  end.

(** [for (i = 0; i < context->sub_count; i++) if (!context->subs[i]) ...]:
    the entries with the first NULL one set, [None] when none is NULL. *)
Fixpoint fill_slot (p : loc) (slots : list (option loc)) : option (list (option loc)) :=
  match slots with
  | [] => None
  | None :: slots' => Some (Some p :: slots')
  | Some q :: slots' => cons (Some q) <$> fill_slot p slots'
  end.

(** [_sub_add] without tokens: the client becomes a leaf of the node. *)
Definition add_leaf (context : nat) (qos : Z) (h : subhier) : M sstate (Z * subhier) :=
  let* cl := gets ss_clients in
  match update_leaf cl context qos (sh_subs h) with
  | Some ls => ret (0, set_subs ls h)
  | None =>
      let* leaf := with_alloc malloc in
      match leaf with
      | None => ret (-2, h)
      | Some _ =>
          let set_slots l :=
            modify (fun s => s <| ss_clients := cs_set_subs context l (ss_clients s) |>) in
          let linked := set_subs (sh_subs h ++ [{| sl_context := context; sl_qos := qos |}]) h in
          match fill_slot (sh_addr h) (cs_subs cl context) with
          | Some slots => set_slots slots ;;; ret (0, linked)
          | None =>
              let* subs := with_alloc malloc in
              match subs with
              | None => ret (-2, h)
              | Some _ =>
                  set_slots (cs_subs cl context ++ [Some (sh_addr h)]) ;;; ret (0, linked)
              end
          end
      end
  end.

(** The loop over a [children]/[next] chain for a branch named [t]: the
    branches before it, the branch, the branches after it. *)
Fixpoint find_branch (t : level) (cs : list subhier)
    : option (list subhier * subhier * list subhier) :=
  match cs with
  | [] => None
  | b :: cs' =>
      if bool_decide (sh_topic b = t) then Some ([], b, cs')
      else match find_branch t cs' with
           | Some (pre, b', post) => Some (b :: pre, b', post)
           | None => None
           end
  end.

(** [_sub_add(bro, context, qos, subhier, tokens)]: the result code and the
    node after. *)
Fixpoint _sub_add (context : nat) (qos : Z) (h : subhier) (tokens : list level)
    : M sstate (Z * subhier) :=
  match tokens with
  | [] => add_leaf context qos h
  | t :: tokens' =>
      match find_branch t (sh_children h) with
      | Some (pre, branch, post) =>
          let* (rc, branch') := _sub_add context qos branch tokens' in
          ret (rc, set_children (pre ++ branch' :: post) h)
      | None =>
          let* p := with_alloc malloc in
          match p with
          | None => ret (-2, h)
          | Some addr =>
              let* topic := with_alloc (strdup t) in
              match topic with
              | None => ret (-2, h)
              | Some t' =>
                  let* (rc, branch') := _sub_add context qos (Subhier addr t' [] []) tokens' in
                  ret (rc, set_children (sh_children h ++ [branch']) h)
              end
          end
      end
  end.

(** [pthread_rwlock_wrlock(&root_lock)]: taking a lock that was left taken
    does not return. *)
Definition lock_root : M sstate unit :=
  let* l := gets ss_locked in
  if l then fail Deadlock else modify (fun s => s <| ss_locked := true |>).
Definition unlock_root : M sstate unit := modify (fun s => s <| ss_locked := false |>).
Definition set_roots (cs : list subhier) : M sstate unit :=
  modify (fun s => s <| ss_roots := cs |>).

(** [mqtt3_sub_add(bro, context, sub, qos, &bro->subs)]: the two early
    returns inside the critical section do not release the lock. *)
Definition mqtt3_sub_add (context : nat) (sub : list Z) (qos : Z) : M sstate Z :=
  let* toks := with_alloc (_sub_topic_tokenise sub) in
  match toks with
  | None => ret 1
  | Some [] => fail NullDeref
  | Some ((t :: _) as tokens) =>
      lock_root ;;;
      let* roots := gets ss_roots in
      let finish rc := unlock_root ;;; ret (if rc =? -1 then 0 else rc) in
      match find_branch t roots with
      | Some (pre, hier, post) =>
          let* (rc, hier') := _sub_add context qos hier tokens in
          set_roots (pre ++ hier' :: post) ;;;
          finish rc
      | None =>
          let* p := with_alloc malloc in
          match p with
          | None => ret (-2)
          | Some addr =>
              let* topic := with_alloc (strdup t) in
              match topic with
              | None => ret (-2)
              | Some t' =>
                  let* (rc, child') := _sub_add context qos (Subhier addr t' [] []) tokens in
                  set_roots (child' :: roots) ;;;
                  finish rc
              end
          end
      end
  end.

(** ** Search *)

Section search.
(** [callback(context, topic, payload, len)] with its last arguments *)
Context (callback : nat -> M sstate unit).

(** [_subs_process]: the loop over the leaves of a node (its result is not
    used). *)
Definition process_leaf (leaf : subleaf) : M sstate unit :=
  let* sub := gets (fun s => cs_is_subscribe (ss_clients s) (sl_context leaf)) in
  if sub then callback (sl_context leaf) else ret tt.
Definition _subs_process (h : subhier) : M sstate unit := iter process_leaf (sh_subs h).

(** [_sub_search] *)
Fixpoint _sub_search (h : subhier) (tokens : list level) {struct h} : M sstate unit :=
  let 'Subhier _ _ _ children := h in
  (fix branches (bs : list subhier) : M sstate unit :=
     match bs with
     | [] => ret tt
     | branch :: bs' =>
         let hash_case :=
           if bool_decide (sh_topic branch = [HASH]) && bool_decide (sh_children branch = [])
           then _subs_process branch else ret tt in
         (match tokens with
          | t :: tokens' =>
              if bool_decide (sh_topic branch = t) || bool_decide (sh_topic branch = [PLUS])
              then
                _sub_search branch tokens' ;;;
                match tokens' with [] => _subs_process branch | _ => ret tt end
              else hash_case
          | [] => hash_case
          end) ;;;
         branches bs'
     end) children.

(** The loop of [mqtt3_sub_tree_process] over [db->subs.children]. *)
Definition search_root (tokens : list level) (h : subhier) : M sstate unit :=
  match tokens with
  | [] => fail NullDeref
  | t :: _ => if bool_decide (sh_topic h = t) then _sub_search h tokens else ret tt
  end.

(** [mqtt3_sub_tree_process(db, context, topic, ..., callback)] *)
Definition mqtt3_sub_tree_process (topic : list Z) : M sstate Z :=
  let* toks := with_alloc (_sub_topic_tokenise topic) in
  match toks with
  | None => ret 1
  | Some tokens =>
      let* roots := gets ss_roots in
      iter (search_root tokens) roots ;;; ret 0
  end.
End search.
End substree.
Arguments sstate C : clear implicits.
