(* ===== verification/Tokenise.v ===== *)
(** * The tokeniser computes the token list of the specification *)

From S2P Require Import Prelude.
From S2P Require Import Topic.
From S2P Require Import Substree.

Lemma wp_strdup s a (Q : option (list Z) -> alloc -> Prop) (E : fault -> Prop) :
  (forall a', alloc_le a a' -> Q (Some s) a') ->
  (forall a', alloc_le a a' -> ~ memory_available a -> Q None a') ->
  wp (strdup s) Q E a.
Proof.
  intros HS HN. unfold strdup. wp_run. apply wp_malloc; intros; wp_run; auto.
Qed.

Lemma wp_sub_topic_append topics topic a (Q : option (list level) -> alloc -> Prop)
    (E : fault -> Prop) :
  (forall t a', topic = Some t -> alloc_le a a' -> Q (Some (topics ++ [t])) a') ->
  (forall a', alloc_le a a' -> topic = None \/ ~ memory_available a -> Q None a') ->
  wp (_sub_topic_append topics topic) Q E a.
Proof.
  intros HS HN. unfold _sub_topic_append. destruct topic as [t|]; wp_run.
  - apply wp_malloc; intros; wp_run; auto.
  - apply HN; auto. reflexivity.
Qed.

(** A copied token appended to the list. *)
Lemma wp_append_copy {A} topics t (k : option (list level) -> M alloc A)
    (Q : A -> alloc -> Prop) (E : fault -> Prop) a :
  (forall a', alloc_le a a' -> wp (k (Some (topics ++ [t]))) Q E a') ->
  (forall a', alloc_le a a' -> ~ memory_available a -> wp (k None) Q E a') ->
  wp (let* x := strdup t in let* r := _sub_topic_append topics x in k r) Q E a.
Proof.
  intros HS HN. wp_run. apply wp_strdup; intros a1 H1; [|intros Ha]; wp_run;
    apply wp_sub_topic_append.
  - intros t' a2 [= <-] H2. apply HS. by etrans.
  - intros a2 H2 [|Ha]; [done|]. apply HN; [by etrans|]. eauto with mumq.
  - done.
  - intros a2 H2 _. apply HN; [by etrans|done].
Qed.

(** The outcome of the tokeniser from allocator [a]: the tokens, or NULL when
    an allocation failed. *)
Definition tokenised (a : alloc) (toks : list level) (r : option (list level)) (a' : alloc) : Prop :=
  alloc_le a a' /\ (r = Some toks \/ (r = None /\ ~ memory_available a)).

Lemma tokenised_weaken a1 a2 toks r a' :
  alloc_le a1 a2 -> tokenised a2 toks r a' -> tokenised a1 toks r a'.
Proof.
  intros H12 [Hle Hr]. split; [by etrans|].
  destruct Hr as [|[? Hn]]; [auto|right]. eauto with mumq.
Qed.

Lemma tokenised_fail a toks a' :
  alloc_le a a' -> ~ memory_available a -> tokenised a toks None a'.
Proof. intros. split; auto. Qed.

Lemma no_slash_snoc (s : list Z) (i start : nat) :
  Forall (fun c => c <> SLASH) (take (i - start) (drop start s)) ->
  (start <= i < length s)%nat -> char_at s i <> SLASH ->
  Forall (fun c => c <> SLASH) (take (S i - start) (drop start s)).
Proof.
  intros Hf Hi Hc. replace (S i - start)%nat with (S (i - start)) by lia.
  unfold char_at in Hc. destruct (s !! i) as [c|] eqn:E.
  2: { apply lookup_ge_None_1 in E. lia. }
  rewrite (take_S_r _ _ c).
  - apply Forall_app. split; [done|]. by constructor.
  - rewrite lookup_drop. rewrite <- E. f_equal. lia.
Qed.

Section loop.
Context (s : list Z) (Hs : no_nul s).

Lemma char_at_end : char_at s (length s) = 0.
Proof using. unfold char_at. by rewrite lookup_ge_None_2. Qed.

Lemma char_at_inside i : (i < length s)%nat -> char_at s i <> 0.
Proof using Hs.
  intros Hi. unfold char_at. destruct (s !! i) as [c|] eqn:E.
  - exact (Forall_lookup_1 _ _ _ _ Hs E).
  - apply lookup_ge_None_1 in E. lia.
Qed.

(** [start..i) is the part of the current level already passed. *)
Lemma wp_tokenise_loop n i start topics a :
  (n + i = S (length s))%nat -> (start <= i)%nat -> (0 < n)%nat ->
  Forall (fun c => c <> SLASH) (take (i - start) (drop start s)) ->
  wp (tokenise_loop n s i start topics)
     (tokenised a (topics ++ levels (drop start s))) no_fault a.
Proof using Hs.
  revert i start topics a. induction n as [|n IH]; intros i start topics a Hn Hst Hpos Hf; [lia|].
  cbn [tokenise_loop].
  assert (Hcopy : (if Nat.eqb start i then [] else take (i - start) (drop start s)) =
                  take (i - start) (drop start s)).
  { destruct (Nat.eqb_spec start i) as [->|]; [by rewrite Nat.sub_diag|done]. }
  rewrite Hcopy. destruct (decide (i = length s)) as [->|Hi].
  - assert (n = 0)%nat as -> by lia. rewrite char_at_end.
    change ((0 =? SLASH) || (0 =? 0)) with true. cbv iota.
    apply wp_append_copy; intros a' Hle; [|intros Ha; wp_run; by apply tokenised_fail].
    + cbn [tokenise_loop]. wp_run. split; [done|left]. do 2 f_equal.
      rewrite take_ge in Hf |- * by (rewrite length_drop; lia). by rewrite levels_single.
  - assert (Hlt : (i < length s)%nat) by lia. pose proof (char_at_inside i Hlt) as Hnz.
    rewrite (proj2 (Z.eqb_neq (char_at s i) 0)) by done. rewrite orb_false_r.
    destruct (Z.eqb_spec (char_at s i) SLASH) as [Hsl|Hsl].
    + assert (Hdrop : drop start s = take (i - start) (drop start s) ++ SLASH :: drop (S i) s).
      { unfold char_at in Hsl. destruct (s !! i) as [c|] eqn:E; [|by cbn in Hsl].
        cbn in Hsl. subst c. apply drop_S in E.
        rewrite <- E. rewrite <- (take_drop (i - start) (drop start s)) at 1.
        f_equal. rewrite drop_drop. f_equal. lia. }
      apply wp_append_copy; intros a' Hle; [|intros Ha; wp_run; by apply tokenised_fail].
      eapply wp_conseq; [apply IH; [lia|lia|lia|]| |done].
      * rewrite Nat.sub_diag. constructor.
      * intros r a'' Hr. eapply tokenised_weaken; [done|].
        rewrite Hdrop, levels_app_slash by done. by rewrite <- app_assoc in Hr.
    + apply IH; [lia|lia|lia|]. by apply no_slash_snoc.
Qed.
End loop.

(** On every C string the tokeniser returns, either with the tokens of the
    specification or, only when an allocation failed, with result 1. *)
Lemma wp_tokenise s a :
  no_nul s -> wp (_sub_topic_tokenise s) (tokenised a (tokens s)) no_fault a.
Proof.
  intros Hs. unfold _sub_topic_tokenise.
  assert (Hrest : forall a1 topics, alloc_le a a1 ->
    topics ++ levels s = tokens s ->
    wp (if char_at s 0 =? SLASH then
          let* t := strdup [] in
          let* r := _sub_topic_append topics t in
          match r with
          | None => ret None
          | Some topics' => tokenise_loop (length s) s 1 1 topics'
          end
        else tokenise_loop (S (length s)) s 0 0 topics) (tokenised a (tokens s)) no_fault a1).
  { intros a1 topics H1 Htok. destruct (Z.eqb_spec (char_at s 0) SLASH) as [Hc|Hc].
    - destruct s as [|c s']; [done|]. cbn in Hc. subst c.
      apply wp_append_copy; intros a2 H2; [|intros Ha; wp_run; apply tokenised_fail; [by etrans|eauto with mumq]].
      eapply wp_conseq; [apply wp_tokenise_loop; [done|cbn [length]; lia|lia|cbn [length]; lia|constructor]| |done].
      intros r a3 Hr. eapply tokenised_weaken; [by etrans|]. rewrite <- Htok.
      cbn [levels]. rewrite Z.eqb_refl. by rewrite <- app_assoc in Hr.
    - eapply wp_conseq; [apply wp_tokenise_loop; [done|lia|lia|lia|constructor]| |done].
      intros r a3 Hr. eapply tokenised_weaken; [done|]. by rewrite <- Htok. }
  apply wp_bind. destruct (Z.eqb_spec (char_at s 0) DOLLAR) as [Hd|Hd].
  - apply wp_ret. apply Hrest; [done|]. destruct s as [|c s']; [done|].
    cbn in Hd. subst c. done.
  - apply wp_bind, wp_strdup; intros a1 H1; [|intros Ha]; apply wp_sub_topic_append.
    + intros t a2 [= <-] H2. cbn [app]. apply Hrest; [by etrans|].
      destruct s as [|c s']; [done|]. cbn in Hd. unfold tokens.
      by rewrite (proj2 (Z.eqb_neq c DOLLAR)).
    + intros a2 H2 [|Ha]; [done|]. wp_run. apply tokenised_fail; [by etrans|eauto with mumq].
    + done.
    + intros a2 H2 _. wp_run. apply tokenised_fail; [by etrans|done].
Qed.

(** C23: as long as memory lasts, the tokeniser splits any C string at its
    slashes into exactly the tokens of the specification. *)
Theorem tokenise_correct s a :
  no_nul s -> memory_available a ->
  exists a', _sub_topic_tokenise s a = Ok (Some (tokens s), a') /\ alloc_le a a'.
Proof.
  intros Hs Ha. destruct (wp_elim _ _ _ (wp_tokenise s a Hs)) as (r & a' & Hrun & Hle & Hr).
  exists a'. by destruct Hr as [->|[_ ?]].
Qed.
