(* ===== verification/SubstreeFacts.v ===== *)
(** * The subscription tree: search delivers to the matching filters *)

From S2P Require Import Prelude.
From S2P Require Import Topic.
From S2P Require Import Substree.
From S2P Require Import Tokenise.

(** ** Induction on trees *)

Lemma subhier_ind' (P : subhier -> Prop) :
  (forall a t ls cs, Forall P cs -> P (Subhier a t ls cs)) -> forall h, P h.
Proof.
  intros H. fix IH 1. intros [a t ls cs]. apply H.
  induction cs as [|c cs IHcs]; constructor; [apply IH|exact IHcs].
Qed.

(** ** The abstract view of a tree

    Every node below [h] is an entry: its path of topics and its leaves, in the
    order the search visits them. *)

Definition entry : Type := (list level * list subleaf)%type.

Fixpoint entries (h : subhier) : list entry :=
  flat_map (fun b =>
    map (fun e : entry => (sh_topic b :: fst e, snd e)) (entries b)
    ++ [([sh_topic b], sh_subs b)]) (sh_children h).

Definition branch_entries (b : subhier) : list entry :=
  map (fun e : entry => (sh_topic b :: fst e, snd e)) (entries b)
  ++ [([sh_topic b], sh_subs b)].

Lemma entries_unfold h : entries h = flat_map branch_entries (sh_children h).
Proof. by destruct h. Qed.

(** The leaves of the entries whose filter matches [tokens]. *)
Definition selected (tokens : list level) (es : list entry) : list subleaf :=
  flat_map snd (List.filter (fun e => matches (fst e) tokens) es).
Definition deliveries (h : subhier) (tokens : list level) : list subleaf :=
  selected tokens (entries h).

(** The leaves stored under a path. *)
Fixpoint branch (t : level) (cs : list subhier) : option subhier :=
  match cs with
  | [] => None
  | b :: cs' => if bool_decide (sh_topic b = t) then Some b else branch t cs'
  end.

Fixpoint leaves (h : subhier) (p : list level) : list subleaf :=
  match p with
  | [] => sh_subs h
  | t :: p' =>
      match branch t (sh_children h) with
      | Some b => leaves b p'
      | None => []
      end
  end.

(** ** Well-formed trees: siblings have distinct names, a [#] node has no
    children. *)
Inductive wf : subhier -> Prop :=
| wf_intro a t ls cs :
    NoDup (sh_topic <$> cs) -> Forall wf cs -> (t = [HASH] -> cs = []) ->
    wf (Subhier a t ls cs).

Lemma wf_inv h :
  wf h -> NoDup (sh_topic <$> sh_children h) /\ Forall wf (sh_children h) /\
  (sh_topic h = [HASH] -> sh_children h = []).
Proof. by inversion 1. Qed.

(** The list of root nodes: moreover no root is named by a wildcard. *)
Definition wf_roots (roots : list subhier) : Prop :=
  NoDup (sh_topic <$> roots) /\ Forall wf roots /\
  Forall (fun r => sh_topic r <> [PLUS] /\ sh_topic r <> [HASH]) roots.

Definition no_hash (tokens : list level) : Prop := Forall (fun t => t <> [HASH]) tokens.

(** ** Lists of leaves *)

Lemma selected_app tokens es1 es2 :
  selected tokens (es1 ++ es2) = selected tokens es1 ++ selected tokens es2.
Proof. unfold selected. by rewrite List.filter_app, flat_map_app. Qed.

Lemma matches_cons_plain l p t ts :
  l <> [HASH] ->
  matches (l :: p) (t :: ts) =
  (bool_decide (l = t) || bool_decide (l = [PLUS])) && matches p ts.
Proof.
  intros Hl. destruct p; cbn [matches];
    by rewrite (bool_decide_eq_false_2 (l = [HASH])) by done.
Qed.

Lemma matches_nil p : matches p [] = bool_decide (p = []) || bool_decide (p = [[HASH]]).
Proof.
  destruct p as [|l [|]]; cbn; repeat case_bool_decide; simplify_eq; done.
Qed.

Lemma selected_prefix_same l t ts es :
  l <> [HASH] -> l = t \/ l = [PLUS] ->
  selected (t :: ts) (map (fun e : entry => (l :: fst e, snd e)) es) = selected ts es.
Proof.
  intros Hl Ht. unfold selected. induction es as [|[p ls] es IH]; [done|].
  cbn [map List.filter fst]. rewrite matches_cons_plain by done.
  replace (bool_decide (l = t) || bool_decide (l = [PLUS])) with true.
  2: { destruct Ht; [rewrite (bool_decide_eq_true_2 (l = t)) by done|
         rewrite (bool_decide_eq_true_2 (l = [PLUS])) by done]; by rewrite ?orb_true_r. }
  cbn [andb]. destruct (matches p ts); cbn [flat_map snd]; by rewrite IH.
Qed.

Lemma selected_prefix_none l t ts es :
  l <> [HASH] -> l <> t -> l <> [PLUS] ->
  selected (t :: ts) (map (fun e : entry => (l :: fst e, snd e)) es) = [].
Proof.
  intros Hl Ht Hp. unfold selected. induction es as [|[p ls] es IH]; [done|].
  cbn [map List.filter fst]. rewrite matches_cons_plain by done.
  rewrite (bool_decide_eq_false_2 (l = t)), (bool_decide_eq_false_2 (l = [PLUS])) by done.
  exact IH.
Qed.

Lemma selected_nil_prefix l es :
  l <> [HASH] -> selected [] (map (fun e : entry => (l :: fst e, snd e)) es) = [].
Proof.
  intros Hl. unfold selected. induction es as [|[p ls] es IH]; [done|].
  cbn [map List.filter fst]. rewrite matches_nil, (bool_decide_eq_false_2 (_ = [])) by done.
  rewrite bool_decide_eq_false_2; [exact IH|]. by intros [= ->].
Qed.

Lemma selected_singleton tokens p ls :
  selected tokens [(p, ls)] = if matches p tokens then ls else [].
Proof.
  unfold selected. cbn [List.filter fst]. destruct (matches p tokens); [|done].
  cbn. apply app_nil_r.
Qed.

(** What a branch contributes: the case analysis of [_sub_search]. *)
Lemma selected_branch b tokens :
  wf b -> no_hash tokens ->
  selected tokens (branch_entries b) =
  match tokens with
  | t :: tokens' =>
      if bool_decide (sh_topic b = t) || bool_decide (sh_topic b = [PLUS])
      then deliveries b tokens' ++ match tokens' with [] => sh_subs b | _ => [] end
      else if bool_decide (sh_topic b = [HASH]) && bool_decide (sh_children b = [])
      then sh_subs b else []
  | [] =>
      if bool_decide (sh_topic b = [HASH]) && bool_decide (sh_children b = [])
      then sh_subs b else []
  end.
Proof.
  intros Hwf Hno. destruct (wf_inv b Hwf) as (_ & _ & Hhash).
  unfold branch_entries. rewrite selected_app, selected_singleton.
  destruct (decide (sh_topic b = [HASH])) as [Hh|Hh].
  - rewrite entries_unfold, (Hhash Hh), Hh. cbn [flat_map map]. change (selected tokens []) with (@nil subleaf).
    rewrite (bool_decide_eq_true_2 (@nil subhier = [])), (bool_decide_eq_true_2 ([HASH] = [HASH])) by done.
    destruct tokens as [|t ts]; [done|]. apply Forall_cons in Hno as [Ht _].
    rewrite (bool_decide_eq_false_2 ([HASH] = t)), (bool_decide_eq_false_2 ([HASH] = [PLUS])) by done.
    done.
  - rewrite (bool_decide_eq_false_2 (sh_topic b = [HASH])) by done. cbn [andb].
    destruct tokens as [|t ts].
    + rewrite selected_nil_prefix by done. rewrite matches_nil.
      rewrite (bool_decide_eq_false_2 (_ = [])) by done.
      rewrite bool_decide_eq_false_2; [done|]. congruence.
    + rewrite matches_cons_plain by done.
      destruct (bool_decide (sh_topic b = t) || bool_decide (sh_topic b = [PLUS])) eqn:E.
      * rewrite selected_prefix_same; [|done|by rewrite orb_true_iff, !bool_decide_eq_true in E].
        by destruct ts.
      * rewrite orb_false_iff, !bool_decide_eq_false in E.
        by rewrite selected_prefix_none by tauto.
Qed.

Section search.
Context {C : Type} `{ClientStore C} (callback : nat -> M (sstate C) unit).

(** On a well-formed tree, for a topic without a [#] level, the search
    calls back for the leaves of the nodes whose path matches, in the order
    of the entries, and for nothing else. *)
Lemma sub_search_delivers h tokens s :
  wf h -> no_hash tokens ->
  _sub_search callback h tokens s = iter (process_leaf callback) (deliveries h tokens) s.
Proof using.
  revert tokens s. induction h as [a t0 ls cs IH] using subhier_ind'.
  intros tokens s Hwf Hno. apply wf_inv in Hwf as (_ & Hcs & _). cbn [sh_children] in Hcs.
  unfold deliveries. rewrite entries_unfold. cbn [sh_children _sub_search]. revert s.
  induction cs as [|b cs IHcs]; intros s; [done|].
  apply Forall_cons in IH as [IHb IH]. apply Forall_cons in Hcs as [Hb Hcs].
  cbn [flat_map]. rewrite selected_app, selected_branch, iter_app by done.
  apply bind_eq; [|intros _ s'; by apply IHcs].
  destruct tokens as [|t ts]; [by case_match|].
  destruct (bool_decide (sh_topic b = t) || bool_decide (sh_topic b = [PLUS])); [|by destruct (bool_decide (sh_topic b = [HASH]) && _)].
  rewrite iter_app. apply Forall_cons in Hno as [_ Hno].
  apply bind_eq; [by apply IHb|]. intros _ s'. by destruct ts.
Qed.
End search.

(** ** Entries and paths *)

Lemma branch_some t cs b : branch t cs = Some b -> b ∈ cs /\ sh_topic b = t.
Proof.
  induction cs as [|c cs IH]; cbn; [done|]. case_bool_decide; intros E.
  - simplify_eq. split; [left|done].
  - destruct (IH E). split; [by right|done].
Qed.

Lemma branch_unique cs b :
  NoDup (sh_topic <$> cs) -> b ∈ cs -> branch (sh_topic b) cs = Some b.
Proof.
  induction cs as [|c cs IH]; intros Hnd Hb; [by apply elem_of_nil in Hb|].
  rewrite fmap_cons, NoDup_cons in Hnd. destruct Hnd as [Hc Hnd]. cbn.
  apply elem_of_cons in Hb as [->|Hb]; [by rewrite bool_decide_eq_true_2|].
  rewrite bool_decide_eq_false_2; [by apply IH|].
  intros E. apply Hc. rewrite E. by apply list_elem_of_fmap_2.
Qed.

(** An entry is what is stored under its path. *)
Lemma entry_leaves h p ls :
  wf h -> In (p, ls) (entries h) -> p <> [] /\ leaves h p = ls.
Proof.
  revert p ls. induction h as [a t0 ls0 cs IH] using subhier_ind'. intros p ls Hwf.
  apply wf_inv in Hwf as (Hnd & Hcs & _). cbn [sh_children] in *.
  rewrite entries_unfold. cbn [sh_children]. rewrite in_flat_map.
  intros (b & Hb & Hin). rewrite <- list_elem_of_In in Hb.
  rewrite Forall_forall in IH, Hcs. unfold branch_entries in Hin.
  apply in_app_or in Hin as [Hin|Hin].
  - apply in_map_iff in Hin as ([p' ls'] & [= <- <-] & Hin). cbn [fst snd].
    split; [done|]. cbn [leaves sh_children]. rewrite branch_unique by done.
    by apply (IH b Hb p' ls' (Hcs b Hb)).
  - destruct Hin as [[= <- <-]|[]]. split; [done|]. cbn [leaves sh_children].
    by rewrite branch_unique.
Qed.

Lemma leaves_entry h p x :
  x ∈ leaves h p -> p <> [] -> In (p, leaves h p) (entries h).
Proof.
  revert h. induction p as [|t p IH]; intros h Hx Hp; [done|].
  rewrite entries_unfold, in_flat_map. cbn [leaves] in *.
  destruct (branch t (sh_children h)) as [b|] eqn:Eb; [|by apply elem_of_nil in Hx].
  apply branch_some in Eb as [Hb <-]. exists b. rewrite <- list_elem_of_In. split; [done|].
  unfold branch_entries. apply in_or_app. destruct p as [|t' p']; [right; by left|left].
  apply in_map_iff. exists (t' :: p', leaves b (t' :: p')). split; [done|]. by apply IH.
Qed.

Lemma elem_of_selected x tokens es :
  x ∈ selected tokens es <->
  exists p ls, In (p, ls) es /\ x ∈ ls /\ matches p tokens = true.
Proof.
  unfold selected. rewrite list_elem_of_In, in_flat_map. split.
  - intros ([p ls] & Hin & Hx). apply filter_In in Hin as [Hin Hm].
    exists p, ls. split_and!; [done|by apply list_elem_of_In|done].
  - intros (p & ls & Hin & Hx & Hm). exists (p, ls). cbn [snd].
    split; [by apply filter_In|by apply list_elem_of_In].
Qed.

Lemma elem_of_deliveries h tokens x :
  wf h ->
  x ∈ deliveries h tokens <->
  exists p, p <> [] /\ x ∈ leaves h p /\ matches p tokens = true.
Proof.
  intros Hwf. unfold deliveries. rewrite elem_of_selected. split.
  - intros (p & ls & Hin & Hx & Hm). apply entry_leaves in Hin as [Hp <-]; [|done]. eauto.
  - intros (p & Hp & Hx & Hm). exists p, (leaves h p). eauto using leaves_entry.
Qed.

(** ** The whole tree *)

(** The leaves stored under a filter: the tree keeps the filter with tokens
    [t0 :: ...] below the root named [t0], under the whole token list. *)
Definition filter_leaves (roots : list subhier) (f : list level) : list subleaf :=
  match f with
  | [] => []
  | t0 :: _ => match branch t0 roots with Some r => leaves r f | None => [] end
  end.

(** What a publication to a topic with these tokens calls back for. *)
Definition root_deliveries (roots : list subhier) (tokens : list level) : list subleaf :=
  match tokens with
  | [] => []
  | t :: _ => flat_map (fun r => if bool_decide (sh_topic r = t) then deliveries r tokens else []) roots
  end.

(** Below a root named [t0] every path starts with [t0]. *)
Definition rooted (r : subhier) : Prop :=
  Forall (fun b => sh_topic b = sh_topic r) (sh_children r).

Lemma matches_head l p t ts :
  l <> [HASH] -> l <> [PLUS] -> matches (l :: p) (t :: ts) = true -> l = t.
Proof.
  intros Hh Hp. rewrite matches_cons_plain by done.
  rewrite (bool_decide_eq_false_2 (l = [PLUS])), orb_false_r by done.
  rewrite andb_true_iff, bool_decide_eq_true. tauto.
Qed.

(** The leaves a publication reaches are exactly those stored under a filter
    that matches its topic. *)
Lemma elem_of_root_deliveries roots tokens x :
  wf_roots roots -> Forall rooted roots -> tokens <> [] ->
  x ∈ root_deliveries roots tokens <->
  exists f, x ∈ filter_leaves roots f /\ matches f tokens = true.
Proof.
  intros (Hnd & Hwf & Hplain) Hrooted Htok. destruct tokens as [|t ts]; [done|].
  rewrite Forall_forall in Hwf, Hplain, Hrooted. unfold root_deliveries.
  rewrite list_elem_of_In, in_flat_map. split.
  - intros (r & Hr & Hx). rewrite <- list_elem_of_In in Hr.
    case_bool_decide as Ht; [|done]. rewrite <- list_elem_of_In in Hx.
    apply elem_of_deliveries in Hx as (p & Hp & Hx & Hm); [|by apply Hwf].
    exists p. split; [|done]. destruct p as [|t1 p]; [done|]. cbn [filter_leaves].
    assert (t1 = sh_topic r) as ->.
    { cbn [leaves] in Hx. destruct (branch t1 (sh_children r)) as [b|] eqn:Eb;
        [|by apply elem_of_nil in Hx].
      apply branch_some in Eb as [Hb <-]. pose proof (Hrooted r Hr) as Hrr.
      unfold rooted in Hrr. rewrite Forall_forall in Hrr. by apply Hrr. }
    by rewrite branch_unique.
  - intros (f & Hx & Hm). destruct f as [|t0 f]; [by apply elem_of_nil in Hx|].
    cbn [filter_leaves] in Hx. destruct (branch t0 roots) as [r|] eqn:Eb;
      [|by apply elem_of_nil in Hx].
    apply branch_some in Eb as [Hr <-]. exists r. rewrite <- list_elem_of_In. split; [done|].
    destruct (Hplain r Hr) as [Hplus Hhash].
    rewrite bool_decide_eq_true_2 by (by eapply matches_head in Hm).
    rewrite <- list_elem_of_In, elem_of_deliveries by (by apply Hwf). by exists (sh_topic r :: f).
Qed.

(** ** Filter by filter *)

(** The filters that have leaves and match the tokens of a topic, each once *)
Definition matching (roots : list subhier) (tokens : list level) (fs : list (list level)) : Prop :=
  NoDup fs /\
  forall f, f ∈ fs <-> filter_leaves roots f <> [] /\ matches f tokens = true.

Lemma entries_once h : wf h -> NoDup (fst <$> entries h).
Proof.
  induction h as [a t0 ls0 cs IH] using subhier_ind'. intros Hwf.
  apply wf_inv in Hwf as (Hnd & Hcs & _). cbn [sh_children] in *.
  rewrite entries_unfold. cbn [sh_children].
  induction cs as [|b cs IHcs]; [constructor|].
  apply Forall_cons in IH as [IHb IH]. apply Forall_cons in Hcs as [Hb Hcs].
  rewrite fmap_cons, NoDup_cons in Hnd. destruct Hnd as [Hnew Hnd].
  cbn [flat_map]. rewrite fmap_app. apply NoDup_app. split_and!; [| |by apply IHcs].
  - unfold branch_entries. rewrite fmap_app. apply NoDup_app. split_and!.
    + rewrite <- list_fmap_compose.
      change (fst ∘ _) with (cons (sh_topic b) ∘ @fst (list level) (list subleaf)).
      rewrite list_fmap_compose. apply NoDup_fmap_2; [apply _|by apply IHb].
    + intros p Hp ->%list_elem_of_singleton. apply list_elem_of_fmap in Hp as ([p ls] & [= <-] & Hp).
      rewrite list_elem_of_In, in_map_iff in Hp. destruct Hp as ([p' ls'] & [= -> ->] & Hp).
      by apply entry_leaves in Hp as [? _].
    + apply NoDup_singleton.
  - intros p Hp1 Hp2. apply Hnew.
    assert (Hhead : forall c, p ∈ fst <$> branch_entries c -> head p = Some (sh_topic c)).
    { intros c Hp. apply list_elem_of_fmap in Hp as ([p0 ls] & -> & Hp).
      unfold branch_entries in Hp. rewrite elem_of_app, list_elem_of_singleton in Hp.
      destruct Hp as [Hp|[= -> _]]; [|done].
      rewrite list_elem_of_In, in_map_iff in Hp. by destruct Hp as ([p' ls'] & [= <- _] & _). }
    apply list_elem_of_fmap in Hp2 as ([p0 ls] & E & Hp2). rewrite list_elem_of_In, in_flat_map in Hp2.
    destruct Hp2 as (c & Hc & Hp2). apply list_elem_of_In in Hc, Hp2.
    assert (E2 : Some (sh_topic b) = Some (sh_topic c)).
    { rewrite <- (Hhead b Hp1). apply Hhead. rewrite E. by apply list_elem_of_fmap_2. }
    injection E2 as ->. by apply list_elem_of_fmap_2.
Qed.

Definition nonempty (ls : list subleaf) : bool := match ls with [] => false | _ => true end.

(** The matching filters among the entries *)
Definition filters_of (tokens : list level) (es : list entry) : list (list level) :=
  fst <$> List.filter (fun e => matches (fst e) tokens && nonempty (snd e)) es.

Lemma selected_filters tokens es (f : list level -> list subleaf) :
  (forall p ls, In (p, ls) es -> f p = ls) ->
  selected tokens es = flat_map f (filters_of tokens es).
Proof.
  unfold selected, filters_of. induction es as [|[p ls] es IH]; intros Hf; [done|].
  pose proof (IH ltac:(intros; apply Hf; by right)) as IH'. cbn [List.filter fst snd].
  destruct (matches p tokens); cbn [andb flat_map snd]; [|done].
  destruct ls as [|x ls]; [done|]. cbn [nonempty fmap list_fmap flat_map fst].
  rewrite (Hf p (x :: ls)) by (by left). by rewrite IH'.
Qed.

Lemma elem_of_filters p tokens es :
  p ∈ filters_of tokens es <-> exists ls, In (p, ls) es /\ matches p tokens = true /\ ls <> [].
Proof.
  unfold filters_of. rewrite list_elem_of_fmap. split.
  - intros ([p' ls] & -> & Hin). rewrite list_elem_of_In, filter_In, andb_true_iff in Hin.
    destruct Hin as (Hin & Hm & Hls). exists ls. by destruct ls.
  - intros (ls & Hin & Hm & Hls). exists (p, ls). split; [done|].
    rewrite list_elem_of_In, filter_In, andb_true_iff. by destruct ls.
Qed.

Lemma filters_once tokens es : NoDup (fst <$> es) -> NoDup (filters_of tokens es).
Proof.
  unfold filters_of. induction es as [|e es IH]; [intros _; apply NoDup_nil_2|]. rewrite fmap_cons, NoDup_cons.
  intros [He Hnd]. cbn [List.filter]. case_match; [|by apply IH].
  rewrite fmap_cons, NoDup_cons. split; [|by apply IH]. intros Hin. apply He.
  apply list_elem_of_fmap in Hin as (e' & -> & Hin). apply list_elem_of_fmap_2.
  rewrite list_elem_of_In, filter_In in Hin. by apply list_elem_of_In, Hin.
Qed.

Lemma root_deliveries_branch roots t ts :
  NoDup (sh_topic <$> roots) ->
  root_deliveries roots (t :: ts) =
  match branch t roots with Some r => deliveries r (t :: ts) | None => [] end.
Proof.
  unfold root_deliveries. induction roots as [|r roots IH]; [done|].
  rewrite fmap_cons, NoDup_cons. intros [Hnew Hnd]. cbn [flat_map branch].
  case_bool_decide as Ht; rewrite IH by done; [|done].
  destruct (branch t roots) as [r'|] eqn:Eb; [|apply app_nil_r].
  apply branch_some in Eb as [Hr' Ht']. destruct Hnew. rewrite Ht, <- Ht'.
  by apply list_elem_of_fmap_2.
Qed.

Lemma entry_filter roots r p ls :
  wf_roots roots -> rooted r -> r ∈ roots -> In (p, ls) (entries r) -> filter_leaves roots p = ls.
Proof.
  intros (Hnd & Hwf & _) Hroot Hr Hin. pose proof (proj1 (Forall_forall _ _) Hwf r Hr) as Hwfr.
  pose proof (entry_leaves r p ls Hwfr Hin) as [Hp Hl]. destruct p as [|t1 p]; [done|].
  assert (t1 = sh_topic r) as ->.
  { rewrite entries_unfold, in_flat_map in Hin. destruct Hin as (b & Hb & Hin).
    rewrite <- list_elem_of_In in Hb. unfold rooted in Hroot. rewrite Forall_forall in Hroot.
    rewrite <- (Hroot b Hb). unfold branch_entries in Hin. rewrite in_app_iff, in_map_iff in Hin.
    by destruct Hin as [([] & [= <- _ _] & _)|[[= <- _ _]|[]]]. }
  cbn [filter_leaves]. by rewrite branch_unique.
Qed.

(** A publication reaches the leaves of the matching filters, filter by
    filter, each filter once. *)
Lemma root_deliveries_matching roots tokens :
  wf_roots roots -> Forall rooted roots -> tokens <> [] ->
  exists fs, matching roots tokens fs /\
    root_deliveries roots tokens = flat_map (filter_leaves roots) fs.
Proof.
  intros Hroots Hrooted Htok. destruct tokens as [|t ts]; [done|].
  pose proof Hroots as (Hnd & Hwf & Hplain). rewrite Forall_forall in Hwf, Hplain, Hrooted.
  assert (Hhead : forall f, filter_leaves roots f <> [] -> matches f (t :: ts) = true ->
    exists r, branch t roots = Some r /\ f <> [] /\ filter_leaves roots f = leaves r f).
  { intros [|t0 f] Hf Hm; [done|]. cbn [filter_leaves] in *.
    destruct (branch t0 roots) as [r|] eqn:Eb; [|done]. exists r. split; [|done].
    apply branch_some in Eb as Hr. destruct Hr as [Hr <-]. destruct (Hplain r Hr).
    by rewrite <- (matches_head _ _ _ _ ltac:(done) ltac:(done) Hm). }
  rewrite root_deliveries_branch by done. destruct (branch t roots) as [r|] eqn:Eb; cycle 1.
  { exists []. split; [|done]. split; [constructor|]. intros f. split; [by intros ?%elem_of_nil|].
    intros [Hf Hm]. by destruct (Hhead f Hf Hm) as (r & ? & _). }
  apply branch_some in Eb as Hr. destruct Hr as [Hr _].
  assert (Hin : forall p ls, In (p, ls) (entries r) -> filter_leaves roots p = ls).
  { intros p ls. by apply entry_filter; [|apply Hrooted|]. }
  exists (filters_of (t :: ts) (entries r)). split; [split|by apply selected_filters].
  - by apply filters_once, entries_once, Hwf.
  - intros f. rewrite elem_of_filters. split.
    + intros (ls & Hf & Hm & Hls). by rewrite (Hin f ls).
    + intros [Hf Hm]. destruct (Hhead f Hf Hm) as (r' & [= <-] & Hnil & E). exists (leaves r f).
      split_and!; [|done|congruence]. rewrite E in Hf.
      destruct (leaves r f) as [|x ls] eqn:El; [done|]. rewrite <- El.
      apply (leaves_entry r f x); [|done]. rewrite El. by left.
Qed.

Lemma matching_leaves roots tokens fs x :
  matching roots tokens fs ->
  x ∈ flat_map (filter_leaves roots) fs <->
  exists f, x ∈ filter_leaves roots f /\ matches f tokens = true.
Proof.
  intros [_ Hfs]. rewrite list_elem_of_In, in_flat_map. split.
  - intros (f & Hf & Hx). apply list_elem_of_In in Hf, Hx. apply Hfs in Hf as [_ Hm]. eauto.
  - intros (f & Hx & Hm). exists f. rewrite <- !list_elem_of_In. split; [|done].
    apply Hfs. split; [|done]. intros E. rewrite E in Hx. by apply elem_of_nil in Hx.
Qed.

Section process.
Context {C : Type} `{ClientStore C} (callback : nat -> M (sstate C) unit).

Lemma iter_roots t ts roots s :
  Forall wf roots -> no_hash (t :: ts) ->
  iter (search_root callback (t :: ts)) roots s =
  iter (process_leaf callback) (root_deliveries roots (t :: ts)) s.
Proof using.
  intros Hwf Hno. revert s. unfold root_deliveries.
  induction Hwf as [|r roots Hr _ IH]; intros s; [done|].
  cbn [iter flat_map]. rewrite iter_app. apply bind_eq; [|intros _ s'; apply IH].
  unfold search_root. case_bool_decide; [by apply sub_search_delivers|done].
Qed.

Lemma tokens_no_hash topic : wildcard_free topic = true -> no_hash (tokens topic).
Proof using.
  intros Hw. assert (Hl : no_hash (levels topic)).
  { unfold wildcard_free in Hw. rewrite forallb_forall in Hw.
    apply Forall_forall. intros l Hl ->. 
    assert (Hin : In HASH topic).
    { rewrite <- (join_levels topic). revert Hl. generalize (levels topic).
      induction l as [|l ls IH]; intros Hl; [by apply elem_of_nil in Hl|].
      apply elem_of_cons in Hl as [<-|Hl].
      - destruct ls; cbn; auto.
      - destruct ls as [|l' ls]; [by apply elem_of_nil in Hl|].
        cbn [join]. apply in_or_app. right. right. by apply IH. }
    by apply Hw in Hin. }
  destruct (tokens_cases topic) as [(? & ? & ? & _ & _ & ->)| ->]; [done|].
  by constructor.
Qed.

(** Publishing to a topic without wildcards calls back, in tree order,
    for the leaves that [root_deliveries] lists, and returns 0; or, when an
    allocation of the tokeniser failed, for none and returns 1. *)
Lemma tree_process_spec topic s :
  no_nul topic -> wildcard_free topic = true -> Forall wf (ss_roots s) ->
  exists a, alloc_le (ss_alloc s) a /\
  (mqtt3_sub_tree_process callback topic s =
     (iter (process_leaf callback) (root_deliveries (ss_roots s) (tokens topic)) ;;; ret 0)
       (s <| ss_alloc := a |>) \/
   (~ memory_available (ss_alloc s) /\
    mqtt3_sub_tree_process callback topic s = Ok (1, s <| ss_alloc := a |>))).
Proof using.
  intros Hn Hw Hwf. pose proof (wp_tokenise topic (ss_alloc s) Hn) as Ht.
  apply wp_elim in Ht as (r & a & Er & Hle & Hr). exists a. split; [done|].
  assert (E : mqtt3_sub_tree_process callback topic s =
    match r with
    | None => ret 1
    | Some tokens => iter (search_root callback tokens) (ss_roots s) ;;; ret 0
    end (s <| ss_alloc := a |>)).
  { unfold mqtt3_sub_tree_process. unfold bind at 1. unfold with_alloc, zoom at 1.
    rewrite Er. by destruct r. }
  rewrite E. destruct Hr as [->|[-> Hna]]; [left|by right].
  apply bind_eq; [|done]. pose proof (tokens_not_nil topic) as Hnil.
  pose proof (tokens_no_hash topic Hw). destruct (tokens topic) as [|t ts]; [done|].
  by apply iter_roots.
Qed.

(** With memory these are the leaves of the filters that match, filter by filter. *)
Lemma tree_process_matching topic s :
  no_nul topic -> wildcard_free topic = true -> memory_available (ss_alloc s) ->
  wf_roots (ss_roots s) -> Forall rooted (ss_roots s) ->
  exists fs a, matching (ss_roots s) (tokens topic) fs /\ alloc_le (ss_alloc s) a /\
    mqtt3_sub_tree_process callback topic s =
      (iter (process_leaf callback) (flat_map (filter_leaves (ss_roots s)) fs) ;;; ret 0)
        (s <| ss_alloc := a |>).
Proof using.
  intros Hn Hw Ha Hwf Hr.
  destruct (tree_process_spec topic s) as (a & Hle & Hrun); [done|done|by apply Hwf|].
  destruct (root_deliveries_matching (ss_roots s) (tokens topic)) as (fs & Hfs & Hls);
    [done|done|apply tokens_not_nil|].
  exists fs, a. rewrite <- Hls. split_and!; [done|done|]. by destruct Hrun as [|[Hna _]].
Qed.
End process.
