(* ===== verification/SubAddFacts.v ===== *)
(** * The subscription tree: adding a subscription *)

From S2P Require Import Prelude.
From S2P Require Import Topic.
From S2P Require Import Substree.
From S2P Require Import Tokenise.
From S2P Require Import SubstreeFacts.

(** ** Branches *)

Lemma find_branch_some t cs pre b post :
  find_branch t cs = Some (pre, b, post) ->
  cs = pre ++ b :: post /\ sh_topic b = t /\ Forall (fun c => sh_topic c <> t) pre.
Proof.
  revert pre. induction cs as [|c cs IH]; intros pre; cbn; [done|].
  case_bool_decide; intros E.
  - simplify_eq. by split_and!.
  - destruct (find_branch t cs) as [[[pre' b'] post']|]; simplify_eq.
    destruct (IH pre' eq_refl) as (-> & ? & ?). split_and!; [done|done|by constructor].
Qed.

Lemma find_branch_none t cs :
  find_branch t cs = None -> Forall (fun c => sh_topic c <> t) cs.
Proof.
  induction cs as [|c cs IH]; cbn; [done|]. case_bool_decide; [done|].
  destruct (find_branch t cs) as [[[? ?] ?]|]; [done|]. intros _. constructor; auto.
Qed.

Lemma branch_app t cs1 cs2 :
  branch t (cs1 ++ cs2) = match branch t cs1 with Some b => Some b | None => branch t cs2 end.
Proof. induction cs1 as [|c cs1 IH]; cbn; [done|]. by case_bool_decide. Qed.

Lemma branch_none t cs : Forall (fun c => sh_topic c <> t) cs -> branch t cs = None.
Proof. induction 1; cbn; [done|]. by rewrite bool_decide_eq_false_2. Qed.

(** Looking up after the branch of [find_branch] has been replaced. *)
Lemma branch_replace t t' pre b b' post :
  sh_topic b = t -> sh_topic b' = t -> Forall (fun c => sh_topic c <> t) pre ->
  branch t' (pre ++ b' :: post) =
  if decide (t' = t) then Some b' else branch t' (pre ++ b :: post).
Proof.
  intros Hb Hb' Hpre. rewrite !branch_app. cbn. rewrite Hb, Hb'.
  case_decide as Ht.
  - subst t'. by rewrite branch_none, bool_decide_eq_true_2.
  - by rewrite !bool_decide_eq_false_2 by congruence.
Qed.

Lemma branch_found t pre b post :
  sh_topic b = t -> Forall (fun c => sh_topic c <> t) pre ->
  branch t (pre ++ b :: post) = Some b.
Proof.
  intros Hb Hpre. rewrite branch_app, branch_none by done. cbn.
  by rewrite bool_decide_eq_true_2.
Qed.

(** ** Filters with [#] in last position only *)

Fixpoint hash_last (f : list level) : Prop :=
  match f with
  | [] => True
  | l :: f' => (l = [HASH] -> f' = []) /\ hash_last f'
  end.

Lemma valid_filter_hash_last s : valid_filter s = true -> hash_last (tokens s).
Proof.
  unfold valid_filter. rewrite andb_true_iff. intros [Hv _].
  assert (Hl : hash_last (levels s)).
  { revert Hv. generalize (levels s). intros ls. induction ls as [|l ls IH]; [done|].
    intros Hv. destruct ls as [|l' ls]; [done|].
    cbn [valid_filter_levels] in Hv. rewrite andb_true_iff, orb_true_iff in Hv.
    destruct Hv as [Hl Hls]. split; [|by apply IH]. intros ->. exfalso.
    destruct Hl as [Hl|Hl]; [done|by apply bool_decide_eq_true in Hl]. }
  destruct (tokens_cases s) as [(? & ? & ? & _ & _ & ->)| ->]; [done|]. by split.
Qed.

Definition insert_leaf {C} `{ClientStore C} (cl : C) (context : nat) (qos : Z)
    (ls : list subleaf) : list subleaf :=
  default (ls ++ [{| sl_context := context; sl_qos := qos |}]) (update_leaf cl context qos ls).

Section sub_add.
Context {C : Type} `{ClientStoreLaws C} (context : nat) (qos : Z).

(** The clients are as before, but for the node list of [context]. *)
Definition subs_written : C -> C -> Prop :=
  rtc (fun cl cl' => exists l, cl' = cs_set_subs context l cl).

Lemma subs_written_id cl cl' c : subs_written cl cl' -> cs_id cl' c = cs_id cl c.
Proof using H0.
  induction 1 as [|cl1 cl2 cl3 [l ->] _ IH]; [done|]. by rewrite IH, cs_id_set_subs.
Qed.
Lemma subs_written_is_subscribe cl cl' c :
  subs_written cl cl' -> cs_is_subscribe cl' c = cs_is_subscribe cl c.
Proof using H0.
  induction 1 as [|cl1 cl2 cl3 [l ->] _ IH]; [done|]. by rewrite IH, cs_is_subscribe_set_subs.
Qed.
Lemma subs_written_subs cl cl' c :
  subs_written cl cl' -> c <> context -> cs_subs cl' c = cs_subs cl c.
Proof using H0.
  induction 1 as [|cl1 cl2 cl3 [l ->] _ IH]; intros Hc; [done|].
  by rewrite IH, cs_subs_set_subs, decide_False by done.
Qed.

(** Nothing but the allocator and the node list of [context] changes. *)
Definition frame (s s' : sstate C) : Prop :=
  alloc_le (ss_alloc s) (ss_alloc s') /\
  ss_roots s' = ss_roots s /\ ss_locked s' = ss_locked s /\
  subs_written (ss_clients s) (ss_clients s').

Lemma frame_trans s1 s2 s3 : frame s1 s2 -> frame s2 s3 -> frame s1 s3.
Proof using.
  intros (A1 & B1 & C1 & D1) (A2 & B2 & C2 & D2).
  split_and!; [by etrans|congruence|congruence|by etrans].
Qed.

Lemma frame_alloc s a : alloc_le (ss_alloc s) a -> frame s (s <| ss_alloc := a |>).
Proof using. intros Ha. split_and!; [done|done|done|apply rtc_refl]. Qed.

Lemma frame_set_slots s l a :
  alloc_le (ss_alloc s) a ->
  frame s (s <| ss_alloc := a |> <| ss_clients := cs_set_subs context l (ss_clients s) |>).
Proof using All.
  intros Ha. split_and!; cbn; [done|done|done|]. apply rtc_once. by eexists.
Qed.

Lemma frame_available s s' :
  frame s s' -> ~ memory_available (ss_alloc s') -> ~ memory_available (ss_alloc s).
Proof using. intros (Ha & _). eauto with mumq. Qed.

Lemma insert_leaf_ext (cl cl' : C) ls :
  (forall c, cs_id cl' c = cs_id cl c) ->
  insert_leaf cl' context qos ls = insert_leaf cl context qos ls.
Proof using.
  intros Hid. unfold insert_leaf. f_equal.
  induction ls as [|l ls IH]; cbn; [done|]. by rewrite !Hid, IH.
Qed.

Lemma wp_with_alloc {A} (m : M alloc A) (Q : A -> sstate C -> Prop) E s :
  wp m (fun r a => Q r (s <| ss_alloc := a |>)) E (ss_alloc s) -> wp (with_alloc m) Q E s.
Proof using. apply wp_zoom. Qed.

(** What [_sub_add] guarantees for the node and the path [tokens]. *)
Definition add_post (h : subhier) (tokens : list level) (s : sstate C)
    (r : Z * subhier) (s' : sstate C) : Prop :=
  let '(rc, h') := r in
  frame s s' /\ sh_topic h' = sh_topic h /\
  (forall b, b ∈ sh_children h' ->
     sh_topic b ∈ sh_topic <$> sh_children h \/ head tokens = Some (sh_topic b)) /\
  (wf h -> hash_last tokens -> (sh_topic h = [HASH] -> tokens = []) -> wf h') /\
  ((rc = 0 /\ forall p, leaves h' p =
      if decide (p = tokens) then insert_leaf (ss_clients s) context qos (leaves h tokens)
      else leaves h p) \/
   (rc = -2 /\ ~ memory_available (ss_alloc s) /\ forall p, leaves h' p = leaves h p)).

Lemma add_post_fail h tokens s a :
  alloc_le (ss_alloc s) a -> ~ memory_available (ss_alloc s) ->
  add_post h tokens s (-2, h) (s <| ss_alloc := a |>).
Proof using.
  intros Ha Hn. split_and!; [by apply frame_alloc|done| |done|by right].
  intros b Hb. left. by apply list_elem_of_fmap_2.
Qed.

Lemma leaves_set_subs h ls p :
  leaves (set_subs ls h) p = if decide (p = []) then ls else leaves h p.
Proof using. destruct h, p; done. Qed.

Lemma add_post_linked h s s' ls :
  frame s s' -> ls = insert_leaf (ss_clients s) context qos (sh_subs h) ->
  add_post h [] s (0, set_subs ls h) s'.
Proof using.
  intros Hf ->. split_and!; [done|by destruct h| | |].
  - intros b Hb. left. destruct h. by apply list_elem_of_fmap_2.
  - intros Hwf _ _. destruct h. inversion_clear Hwf. by constructor.
  - left. split; [done|]. intros p. rewrite leaves_set_subs. by repeat case_decide.
Qed.

Lemma wp_add_leaf h s : wp (add_leaf context qos h) (add_post h [] s) no_fault s.
Proof using All.
  unfold add_leaf. apply wp_bind, wp_gets.
  destruct (update_leaf (ss_clients s) context qos (sh_subs h)) as [ls|] eqn:Eu.
  { apply wp_ret, add_post_linked; [by apply frame_alloc|]. unfold insert_leaf. by rewrite Eu. }
  assert (Hls : sh_subs h ++ [{| sl_context := context; sl_qos := qos |}] =
                insert_leaf (ss_clients s) context qos (sh_subs h)).
  { unfold insert_leaf. by rewrite Eu. }
  apply wp_bind, wp_with_alloc, wp_malloc; intros a1 Ha1;
    [|intros Hn; by apply wp_ret, add_post_fail].
  cbv zeta. destruct (fill_slot (sh_addr h) (cs_subs (ss_clients s) context)) as [slots|].
  { wp_run. apply add_post_linked; [by apply (frame_set_slots s)|done]. }
  apply wp_bind, wp_with_alloc, wp_malloc; intros a2 Ha2; cbn in Ha2.
  - wp_run. apply add_post_linked; [apply (frame_set_slots s); by etrans|done].
  - intros Hn. wp_run. apply (add_post_fail h [] s a2); [by etrans|eauto with mumq].
Qed.

(** Pointwise view of a node whose branch [t] has been replaced or added. *)
Lemma leaves_replace h t pre b b' post p :
  find_branch t (sh_children h) = Some (pre, b, post) -> sh_topic b' = t ->
  leaves (set_children (pre ++ b' :: post) h) p =
  match p with
  | [] => leaves h []
  | t' :: p' => if decide (t' = t) then leaves b' p' else leaves h p
  end.
Proof using.
  intros Hf Hb'. apply find_branch_some in Hf as (Hc & Hb & Hpre). destruct h as [ad tp ls cs].
  cbn in Hc. subst cs. destruct p as [|t' p']; [done|]. cbn [leaves set_children sh_children].
  rewrite (branch_replace t t' pre b b' post) by done. by case_decide.
Qed.

Lemma leaves_append h t b p :
  find_branch t (sh_children h) = None -> sh_topic b = t ->
  leaves (set_children (sh_children h ++ [b]) h) p =
  match p with
  | [] => leaves h []
  | t' :: p' => if decide (t' = t) then leaves b p' else leaves h p
  end.
Proof using.
  intros Hf Hb. apply find_branch_none in Hf. destruct h as [ad tp ls cs].
  cbn [sh_children] in *. destruct p as [|t' p']; [done|].
  cbn [leaves set_children sh_children]. rewrite branch_app. cbn [branch]. rewrite Hb.
  case_decide as Ht.
  - subst t'. by rewrite branch_none, bool_decide_eq_true_2.
  - rewrite bool_decide_eq_false_2 by done. by destruct (branch t' cs).
Qed.

Lemma leaves_branch_found h t pre b post p :
  find_branch t (sh_children h) = Some (pre, b, post) -> leaves h (t :: p) = leaves b p.
Proof using.
  intros Hf. apply find_branch_some in Hf as (Hc & Hb & Hpre).
  cbn [leaves]. by rewrite Hc, branch_found.
Qed.

Lemma leaves_branch_missing h t p :
  find_branch t (sh_children h) = None -> leaves h (t :: p) = [].
Proof using.
  intros Hf. apply find_branch_none in Hf. cbn [leaves]. by rewrite branch_none.
Qed.

Lemma leaves_fresh a t p : leaves (Subhier a t [] []) p = [].
Proof using. by destruct p. Qed.

Lemma wf_replace h t pre b b' post :
  find_branch t (sh_children h) = Some (pre, b, post) -> sh_topic b' = t ->
  wf h -> wf b' -> wf (set_children (pre ++ b' :: post) h).
Proof using.
  intros Hf Hb' Hwf Hwb. apply find_branch_some in Hf as (Hc & Hb & _).
  destruct h as [ad tp ls cs]. cbn in Hc. subst cs.
  apply wf_inv in Hwf as (Hnd & Hcs & Hh). cbn in *. constructor.
  - rewrite fmap_app, fmap_cons in *. by rewrite Hb', <- Hb.
  - rewrite Forall_app, Forall_cons in *. tauto.
  - intros E. apply Hh in E. by destruct pre.
Qed.

Lemma wf_append h t b :
  find_branch t (sh_children h) = None -> sh_topic b = t -> sh_topic h <> [HASH] ->
  wf h -> wf b -> wf (set_children (sh_children h ++ [b]) h).
Proof using.
  intros Hf Hb Hne Hwf Hwb. apply find_branch_none in Hf.
  destruct h as [ad tp ls cs]. apply wf_inv in Hwf as (Hnd & Hcs & Hh). cbn in *. constructor.
  - rewrite fmap_app. apply NoDup_app. split_and!; [done| |apply NoDup_singleton].
    intros t' Ht' Hin. apply list_elem_of_singleton in Hin. subst t'.
    apply list_elem_of_fmap_1 in Ht' as (c & Hbc & Hin). rewrite Forall_forall in Hf.
    apply (Hf c Hin). congruence.
  - apply Forall_app. by split; [|constructor].
  - done.
Qed.

Lemma wf_fresh a t : wf (Subhier a t [] []).
Proof using. constructor; [constructor|constructor|done]. Qed.

Lemma add_post_weaken h tokens s s0 r s' :
  frame s0 s -> add_post h tokens s r s' -> add_post h tokens s0 r s'.
Proof using All.
  destruct r as [rc h']. intros Hf (Hfr & Ht & Hch & Hwf & Hres).
  split_and!; [by eapply frame_trans|done|done|done|].
  destruct Hres as [[-> Hl]|(-> & Hn & Hl)].
  - left. split; [done|]. intros p. rewrite Hl. case_decide; [|done].
    apply insert_leaf_ext. intros c. by apply subs_written_id, Hf.
  - right. split_and!; [done|by eapply frame_available|done].
Qed.

(** From the branch to the node. *)
Lemma add_post_replace h t tokens pre b post s rc b' s' :
  find_branch t (sh_children h) = Some (pre, b, post) ->
  add_post b tokens s (rc, b') s' ->
  add_post h (t :: tokens) s (rc, set_children (pre ++ b' :: post) h) s'.
Proof using.
  intros Hf (Hfr & Ht & _ & Hwf & Hres).
  pose proof (find_branch_some _ _ _ _ _ Hf) as (Hc & Hb & _). rewrite Hb in Ht.
  split_and!; [done|by destruct h| | |].
  - intros c Hin. left. destruct h as [ad tp ls cs]. cbn in *. subst cs.
    apply (list_elem_of_fmap_2 sh_topic) in Hin.
    rewrite fmap_app, fmap_cons, Ht in Hin. by rewrite fmap_app, fmap_cons, Hb.
  - intros Hw [Hh1 Hh2] Hne. eapply wf_replace; [done|done|done|].
    apply Hwf; [|done|].
    + apply wf_inv in Hw as (_ & Hcs & _). rewrite Hc, Forall_app, Forall_cons in Hcs. tauto.
    + rewrite Hb. exact Hh1.
  - destruct Hres as [[-> Hl]|(-> & Hn & Hl)].
    + left. split; [done|]. intros p. rewrite (leaves_replace _ _ _ _ _ _ _ Hf Ht).
      rewrite (leaves_branch_found _ _ _ _ _ _ Hf). destruct p as [|t' p'].
      { by rewrite decide_False. }
      destruct (decide (t' = t)) as [->|Hne].
      * rewrite Hl, (leaves_branch_found _ _ _ _ _ _ Hf).
        destruct (decide (p' = tokens)) as [->|]; [by rewrite decide_True|].
        by rewrite decide_False by congruence.
      * by rewrite decide_False by congruence.
    + right. split_and!; [done|done|]. intros p.
      rewrite (leaves_replace _ _ _ _ _ _ _ Hf Ht). destruct p as [|t' p']; [done|].
      case_decide as E; [|done]. subst t'. by rewrite Hl, (leaves_branch_found _ _ _ _ _ _ Hf).
Qed.

Lemma add_post_append h t tokens a s rc b' s' :
  find_branch t (sh_children h) = None ->
  add_post (Subhier a t [] []) tokens s (rc, b') s' ->
  add_post h (t :: tokens) s (rc, set_children (sh_children h ++ [b']) h) s'.
Proof using.
  intros Hf (Hfr & Ht & _ & Hwf & Hres). cbn [sh_topic] in Ht.
  split_and!; [done|by destruct h| | |].
  - intros c Hin. destruct h as [ad tp ls cs]. cbn in *.
    apply elem_of_app in Hin as [Hin|Hin]; [left; by apply list_elem_of_fmap_2|].
    apply list_elem_of_singleton in Hin as ->. right. by rewrite Ht.
  - intros Hw [Hh1 Hh2] Hne. eapply wf_append; [done|done| |done|].
    + intros E. by apply Hne in E.
    + apply Hwf; [apply wf_fresh|done|done].
  - destruct Hres as [[-> Hl]|(-> & Hn & Hl)].
    + left. split; [done|]. intros p. rewrite (leaves_append _ _ _ _ Hf Ht).
      rewrite (leaves_branch_missing _ _ _ Hf). destruct p as [|t' p'].
      { by rewrite decide_False. }
      destruct (decide (t' = t)) as [->|Hne].
      * rewrite Hl, !leaves_fresh, (leaves_branch_missing _ _ _ Hf).
        destruct (decide (p' = tokens)) as [->|]; [by rewrite decide_True|].
        by rewrite decide_False by congruence.
      * by rewrite decide_False by congruence.
    + right. split_and!; [done|done|]. intros p. rewrite (leaves_append _ _ _ _ Hf Ht).
      destruct p as [|t' p']; [done|]. case_decide as E; [|done]. subst t'.
      by rewrite Hl, leaves_fresh, (leaves_branch_missing _ _ _ Hf).
Qed.

Lemma wp_sub_add h tokens s :
  wp (_sub_add context qos h tokens) (add_post h tokens s) no_fault s.
Proof using All.
  revert h s. induction tokens as [|t tokens IH]; intros h s; [apply wp_add_leaf|].
  cbn [_sub_add]. destruct (find_branch t (sh_children h)) as [[[pre b] post]|] eqn:Hf.
  - apply wp_bind. eapply wp_conseq; [apply IH| |done]. intros [rc b'] s' Hp.
    apply wp_ret. by eapply add_post_replace.
  - apply wp_bind, wp_with_alloc, wp_malloc; intros a1 Ha1;
      [|intros Hn; by apply wp_ret, add_post_fail].
    apply wp_bind, wp_with_alloc, wp_strdup; intros a2 Ha2; cbn in Ha2.
    + apply wp_bind. eapply wp_conseq; [apply IH| |done]. intros [rc b'] s' Hp.
      apply wp_ret. eapply add_post_append; [done|].
      eapply add_post_weaken; [|exact Hp]. apply (frame_alloc s). by etrans.
    + intros Hn. apply wp_ret. apply (add_post_fail h (t :: tokens) s a2); [by etrans|].
      eauto with mumq.
Qed.
End sub_add.

(** ** [mqtt3_sub_add] *)

(** The invariant of [bro->subs]. *)
Definition tree_ok (roots : list subhier) : Prop := wf_roots roots /\ Forall rooted roots.

Section mqtt3_sub_add.
Context {C : Type} `{ClientStoreLaws C} (context : nat) (sub : list Z) (qos : Z).

Definition added (s s' : sstate C) : Prop :=
  forall f, filter_leaves (ss_roots s') f =
    if decide (f = tokens sub)
    then insert_leaf (ss_clients s) context qos (filter_leaves (ss_roots s) f)
    else filter_leaves (ss_roots s) f.
Definition unchanged (s s' : sstate C) : Prop :=
  forall f, filter_leaves (ss_roots s') f = filter_leaves (ss_roots s) f.

Definition sub_add_post (s : sstate C) (rc : Z) (s' : sstate C) : Prop :=
  alloc_le (ss_alloc s) (ss_alloc s') /\
  subs_written context (ss_clients s) (ss_clients s') /\
  (hash_last (tokens sub) -> tree_ok (ss_roots s) -> tree_ok (ss_roots s')) /\
  ((rc = 0 /\ ss_locked s' = false /\ added s s') \/
   ((rc = 1 \/ rc = -2) /\ ~ memory_available (ss_alloc s) /\ unchanged s s')).

Lemma tokens_head_plain t ts :
  tokens sub = t :: ts -> t <> [PLUS] /\ t <> [HASH].
Proof using.
  destruct (tokens_cases sub) as [(? & l & ls & _ & E & ->)| ->].
  - rewrite E. intros [= <- _]. split; discriminate.
  - intros [= <- _]. done.
Qed.

Lemma rooted_post t ts h h' s rc s' :
  sh_topic h = t -> rooted h -> add_post context qos h (t :: ts) s (rc, h') s' -> rooted h'.
Proof using.
  intros Ht Hr (_ & Ht' & Hch & _). unfold rooted in *. rewrite Ht', Forall_forall in *.
  intros b Hb. rewrite Ht. destruct (Hch b Hb) as [Hin|[= ->]]; [|done].
  apply list_elem_of_fmap_1 in Hin as (c & -> & Hc). rewrite <- Ht. by apply Hr.
Qed.

(** The roots after the root named [t] has been processed. *)
Lemma root_replaced t ts pre h h' post s s' s1 rc :
  tokens sub = t :: ts ->
  find_branch t (ss_roots s) = Some (pre, h, post) ->
  add_post context qos h (t :: ts) s (rc, h') s' ->
  ss_roots s1 = pre ++ h' :: post -> ss_clients s1 = ss_clients s' ->
  ss_alloc s1 = ss_alloc s' -> ss_locked s1 = false ->
  sub_add_post s (if rc =? -1 then 0 else rc) s1.
Proof using.
  intros Etok Hf Hp Hroots Hcl Hal Hlk.
  pose proof (find_branch_some _ _ _ _ _ Hf) as (Hc & Ht & Hpre).
  pose proof Hp as ((Ha & _ & _ & Hsubs) & Ht' & _ & Hwf & Hres).
  assert (Hlook : forall f t0 f', f = t0 :: f' -> filter_leaves (ss_roots s1) f =
    if decide (t0 = t) then leaves h' f else filter_leaves (ss_roots s) f).
  { intros f t0 f' ->. cbn [filter_leaves]. rewrite Hroots, Hc.
    rewrite (branch_replace t t0 pre h h' post) by congruence. by case_decide. }
  assert (Hold : forall f', filter_leaves (ss_roots s) (t :: f') = leaves h (t :: f')).
  { intros f'. cbn [filter_leaves]. by rewrite Hc, branch_found. }
  split_and!; [by rewrite Hal|by rewrite Hcl| |].
  - intros Hh [(Hnd & Hw & Hpl) Hr]. rewrite Hroots. rewrite Hc in *.
    rewrite Forall_app, Forall_cons in *.
    destruct Hw as (? & Hwh & ?), Hr as (? & Hrh & ?), Hpl as (? & Hplh & ?).
    assert (Hwh' : wf h').
    { apply Hwf; [done|by rewrite <- Etok|]. rewrite Ht. intros E.
      by destruct (tokens_head_plain t ts Etok). }
    split; [split_and!|].
    + rewrite fmap_app, fmap_cons in *. by rewrite Ht'.
    + by rewrite Forall_app, Forall_cons.
    + rewrite Forall_app, Forall_cons, Ht'. done.
    + rewrite Forall_app, Forall_cons. split_and!; [done| |done].
      eapply rooted_post; [exact Ht|exact Hrh|exact Hp].
  - destruct Hres as [[-> Hl]|(-> & Hn & Hl)]; [left|right]; (split_and!; [by auto|done|]).
    + intros [|t0 f]; [by rewrite decide_False by (by rewrite Etok)|].
      rewrite (Hlook _ t0 f) by done. destruct (decide (t0 = t)) as [->|Hne].
      * rewrite Hl, Hold, Etok. by case_decide as E; [rewrite E|].
      * rewrite decide_False; [done|]. rewrite Etok. congruence.
    + intros [|t0 f]; [done|]. rewrite (Hlook _ t0 f) by done.
      destruct (decide (t0 = t)) as [->|Hne]; [|done]. by rewrite Hl, Hold.
Qed.

(** The roots after a root named [t] has been created. *)
Lemma root_created t ts a h' s s' s1 rc :
  tokens sub = t :: ts ->
  find_branch t (ss_roots s) = None ->
  add_post context qos (Subhier a t [] []) (t :: ts) s (rc, h') s' ->
  ss_roots s1 = h' :: ss_roots s -> ss_clients s1 = ss_clients s' ->
  ss_alloc s1 = ss_alloc s' -> ss_locked s1 = false ->
  sub_add_post s (if rc =? -1 then 0 else rc) s1.
Proof using.
  intros Etok Hf Hp Hroots Hcl Hal Hlk. apply find_branch_none in Hf.
  assert (Hrh : rooted (Subhier a t [] [])) by constructor.
  pose proof Hp as ((Ha & _ & _ & Hsubs) & Ht' & _ & Hwf & Hres).
  cbn [sh_topic] in *.
  assert (Hlook : forall t0 f', filter_leaves (ss_roots s1) (t0 :: f') =
    if decide (t0 = t) then leaves h' (t0 :: f') else filter_leaves (ss_roots s) (t0 :: f')).
  { intros t0 f'. cbn [filter_leaves]. rewrite Hroots. cbn [branch]. rewrite Ht'.
    case_decide as E; [by rewrite bool_decide_eq_true_2|].
    by rewrite bool_decide_eq_false_2 by congruence. }
  assert (Hold : forall f', filter_leaves (ss_roots s) (t :: f') = []).
  { intros f'. cbn [filter_leaves]. by rewrite branch_none. }
  split_and!; [by rewrite Hal|by rewrite Hcl| |].
  - intros Hh [(Hnd & Hw & Hpl) Hr]. rewrite Hroots.
    pose proof (tokens_head_plain t ts Etok) as Hplain.
    assert (Hwh' : wf h').
    { apply Hwf; [apply wf_fresh|by rewrite <- Etok|]. intros E. by destruct Hplain. }
    split; [split_and!|].
    + rewrite fmap_cons, Ht'. constructor; [|done]. intros Hin.
      apply list_elem_of_fmap_1 in Hin as (c & Hc & Hin). rewrite Forall_forall in Hf.
      by apply (Hf c Hin).
    + by constructor.
    + constructor; [|done]. by rewrite Ht'.
    + constructor; [|done]. eapply rooted_post; [reflexivity|exact Hrh|exact Hp].
  - destruct Hres as [[-> Hl]|(-> & Hn & Hl)]; [left|right]; (split_and!; [by auto|done|]).
    + intros [|t0 f]; [by rewrite decide_False by (by rewrite Etok)|].
      rewrite Hlook. destruct (decide (t0 = t)) as [->|Hne].
      * by rewrite Hl, Etok, !leaves_fresh, !Hold.
      * rewrite decide_False; [done|]. rewrite Etok. congruence.
    + intros [|t0 f]; [done|]. rewrite Hlook.
      destruct (decide (t0 = t)) as [->|Hne]; [|done]. by rewrite Hl, Hold, leaves_fresh.
Qed.

Lemma sub_add_post_fail s s' rc :
  alloc_le (ss_alloc s) (ss_alloc s') -> ~ memory_available (ss_alloc s) ->
  ss_roots s' = ss_roots s -> ss_clients s' = ss_clients s -> rc = 1 \/ rc = -2 ->
  sub_add_post s rc s'.
Proof using.
  intros Ha Hn Hr Hc Hrc. split_and!; [done|rewrite Hc; apply rtc_refl|by rewrite Hr|right].
  split_and!; [done|done|]. intros f. by rewrite Hr.
Qed.

Lemma sub_add_post_from s s2 rc s' :
  alloc_le (ss_alloc s) (ss_alloc s2) ->
  ss_roots s2 = ss_roots s -> ss_clients s2 = ss_clients s ->
  sub_add_post s2 rc s' -> sub_add_post s rc s'.
Proof using.
  intros Ha Hr Hc. unfold sub_add_post, added, unchanged. rewrite Hr, Hc.
  intros (Ha' & Hcl & Hok & Hres). split_and!; [by etrans|done|done|].
  destruct Hres as [?|(? & ? & ?)]; [by left|right].
  split_and!; [done|eauto with mumq|done].
Qed.

#[local] Arguments _sub_add : simpl never.

(** No way out of [mqtt3_sub_add] but its return, when the lock is free; the
    lock is given back unless an allocation failed. *)
Lemma wp_mqtt3_sub_add s :
  no_nul sub -> ss_locked s = false ->
  wp (mqtt3_sub_add context sub qos) (sub_add_post s) no_fault s.
Proof using All.
  intros Hn Hlk. unfold mqtt3_sub_add.
  apply wp_bind, wp_with_alloc. eapply wp_conseq; [by apply wp_tokenise| |done].
  intros r a (Ha & [->|[-> Hna]]); cycle 1.
  { apply wp_ret. apply sub_add_post_fail; auto. }
  destruct (tokens sub) as [|t ts] eqn:Etok; [by destruct (tokens_not_nil sub)|].
  wp_run. unfold lock_root. wp_run; cbn in *; [congruence|].
  destruct (find_branch t (ss_roots s)) as [[[pre h] post]|] eqn:Hf.
  - apply wp_bind. eapply wp_conseq; [apply wp_sub_add| |done]. intros [rc h'] s' Hp.
    unfold set_roots, unlock_root. wp_run.
    eapply (sub_add_post_from s); cycle 3.
    { eapply root_replaced; [exact Etok| |exact Hp|done..]. exact Hf. }
    all: done.
  - apply wp_bind, wp_with_alloc, wp_malloc; intros a1 Ha1;
      [|intros Hna; apply wp_ret, sub_add_post_fail; [by etrans|eauto with mumq|done|done|by right]].
    apply wp_bind, wp_with_alloc, wp_strdup; intros a2 Ha2; cbn in Ha2; cycle 1.
    { intros Hna. apply wp_ret, sub_add_post_fail; [etrans; [exact Ha|by etrans]| |done|done|by right].
      eauto with mumq. }
    apply wp_bind. eapply wp_conseq; [apply wp_sub_add| |done]. intros [rc h'] s' Hp.
    unfold set_roots, unlock_root. wp_run.
    eapply (sub_add_post_from s); cycle 3.
    { eapply root_created; [exact Etok| |exact Hp|done..]. exact Hf. }
    all: try done. cbn. etrans; [exact Ha|]. by etrans.
Qed.
End mqtt3_sub_add.
