(* ===== verification/SubTheorems.v ===== *)
(** * The subscription tree: what subscribing and publishing promise

    The contract of [mqtt3_sub_add] and [mqtt3_sub_tree_process] in terms of
    the abstract tree: a map from filters to leaves ([filter_leaves]). *)

From S2P Require Import Prelude.
From S2P Require Import Topic.
From S2P Require Import Substree.
From S2P Require Import Tokenise.
From S2P Require Import SubstreeFacts.
From S2P Require Import SubAddFacts.

Lemma elem_of_insert_leaf {C} `{ClientStore C} (cl : C) context qos ls :
  exists x, x ∈ insert_leaf cl context qos ls /\
    cs_id cl (sl_context x) = cs_id cl context /\ sl_qos x = qos.
Proof.
  unfold insert_leaf. destruct (update_leaf cl context qos ls) as [ls'|] eqn:E; cbn [default].
  - revert ls' E. induction ls as [|l ls IH]; intros ls'; cbn; [done|].
    case_bool_decide as Hid; intros E.
    + simplify_eq. eexists. split; [by left|done].
    + destruct (update_leaf cl context qos ls) as [ls2|]; simplify_eq/=.
      destruct (IH ls2 eq_refl) as (x & Hx & ?). exists x. split; [by right|done].
  - eexists. split; [apply elem_of_app; right; by left|done].
Qed.

Section theorems.
Context {C : Type} `{ClientStoreLaws C}.

(** C8: with memory, and the lock free, subscribing returns 0, gives the lock
    back, and changes in the tree just the leaves stored under the filter:
    the client's leaf gets the QoS, or is appended; the clients change in
    nothing but the node list of the subscriber. *)
Theorem mqtt3_sub_add_correct context sub qos (s : sstate C) :
  no_nul sub -> ss_locked s = false -> memory_available (ss_alloc s) ->
  exists s', mqtt3_sub_add context sub qos s = Ok (0, s') /\
    ss_locked s' = false /\ added context sub qos s s' /\
    subs_written context (ss_clients s) (ss_clients s').
Proof using All.
  intros Hn Hl Ha. pose proof (wp_mqtt3_sub_add context sub qos s Hn Hl) as Hwp.
  apply wp_elim in Hwp as (rc & s' & Hrun & _ & Hcl & _ & Hres). exists s'.
  destruct Hres as [(-> & ? & ?)|(_ & Hna & _)]; [by split_and!|done].
Qed.

(** When it fails, for want of memory, it returns 1 or -2 and every filter
    keeps the leaves it had. *)
Theorem mqtt3_sub_add_failure context sub qos (s s' : sstate C) rc :
  no_nul sub -> ss_locked s = false ->
  mqtt3_sub_add context sub qos s = Ok (rc, s') -> rc <> 0 ->
  (rc = 1 \/ rc = -2) /\ ~ memory_available (ss_alloc s) /\ unchanged s s'.
Proof using All.
  intros Hn Hl Hrun Hrc. pose proof (wp_mqtt3_sub_add context sub qos s Hn Hl) as Hwp.
  apply wp_elim in Hwp as (rc' & s2 & Hrun' & _ & _ & _ & Hres).
  rewrite Hrun in Hrun'. simplify_eq. by destruct Hres as [(-> & _)|].
Qed.

(** C22: a valid filter keeps the tree well formed, whatever the outcome. *)
Theorem mqtt3_sub_add_tree_ok context sub qos (s s' : sstate C) rc :
  no_nul sub -> valid_filter sub = true -> ss_locked s = false ->
  tree_ok (ss_roots s) -> mqtt3_sub_add context sub qos s = Ok (rc, s') ->
  tree_ok (ss_roots s').
Proof using All.
  intros Hn Hv Hl Hok Hrun. pose proof (wp_mqtt3_sub_add context sub qos s Hn Hl) as Hwp.
  apply wp_elim in Hwp as (rc' & s2 & Hrun' & _ & _ & Hkeep & _).
  rewrite Hrun in Hrun'. simplify_eq. apply Hkeep; [|done]. by apply valid_filter_hash_last.
Qed.

(** When the allocation of a new root fails, the error return leaves
    [root_lock] taken, and every later subscription waits for it for ever. *)
Theorem mqtt3_sub_add_lock_leak context sub qos (s : sstate C) t ts a :
  ss_locked s = false -> _sub_topic_tokenise sub (ss_alloc s) = Ok (Some (t :: ts), a) ->
  find_branch t (ss_roots s) = None -> al_fail a (al_next a) = true ->
  exists s', mqtt3_sub_add context sub qos s = Ok (-2, s') /\
    forall context' sub' qos' t' ts' a',
      _sub_topic_tokenise sub' (ss_alloc s') = Ok (Some (t' :: ts'), a') ->
      mqtt3_sub_add context' sub' qos' s' = Fault Deadlock.
Proof using All.
  intros Hl Htok Hf Ha. eexists. split.
  - unfold mqtt3_sub_add, with_alloc, lock_root, malloc. cbn. rewrite Htok. cbn.
    rewrite Hl. cbn. rewrite Hf. cbn. by rewrite Ha.
  - intros context' sub' qos' t' ts' a' Htok'. unfold mqtt3_sub_add, with_alloc, lock_root.
    cbn in *. by rewrite Htok'.
Qed.

(** C7: with memory, the lock free and a well-formed tree: after a valid
    subscription a publication to a topic without wildcards that the filter
    matches runs the callback on a leaf of the subscriber's client id with the
    QoS subscribed, and on every leaf that was stored under another matching
    filter before, and on leaves of these two kinds only: those of the filter
    itself, changed as [insert_leaf] says, and those stored before.  (As in the
    code a leaf whose client has cleared its flag is passed over.) *)
Theorem subscribe_then_publish callback context sub qos (s : sstate C) topic :
  no_nul sub -> valid_filter sub = true -> ss_locked s = false ->
  memory_available (ss_alloc s) -> tree_ok (ss_roots s) ->
  no_nul topic -> wildcard_free topic = true ->
  matches (tokens sub) (tokens topic) = true ->
  exists s' leaves a, mqtt3_sub_add context sub qos s = Ok (0, s') /\
    mqtt3_sub_tree_process callback topic s' =
      (iter (process_leaf callback) leaves ;;; ret 0) (s' <| ss_alloc := a |>) /\
    (exists x, x ∈ leaves /\
       cs_id (ss_clients s') (sl_context x) = cs_id (ss_clients s') context /\
       sl_qos x = qos) /\
    (forall f x, f <> tokens sub -> x ∈ filter_leaves (ss_roots s) f ->
       matches f (tokens topic) = true -> x ∈ leaves) /\
    (forall x, x ∈ leaves ->
       x ∈ insert_leaf (ss_clients s) context qos (filter_leaves (ss_roots s) (tokens sub)) \/
       exists f, f <> tokens sub /\ x ∈ filter_leaves (ss_roots s) f /\ matches f (tokens topic) = true).
Proof using All.
  intros Hn Hv Hl Ha Hok Hnt Hw Hm. pose proof (wp_mqtt3_sub_add context sub qos s Hn Hl) as Hwp.
  apply wp_elim in Hwp as (rc & s' & Hrun & Hle & Hsubs & Hkeep & Hres).
  destruct Hres as [(-> & _ & Hadd)|(_ & Hna & _)]; [|done].
  destruct (Hkeep (valid_filter_hash_last _ Hv) Hok) as [Hwf Hr].
  destruct (tree_process_matching callback topic s') as (fs & a & Hfs & _ & Hsearch);
    [done|done|by eapply alloc_le_available|done|done|].
  exists s', (flat_map (filter_leaves (ss_roots s')) fs), a. split_and!; [done|exact Hsearch|..].
  - destruct (elem_of_insert_leaf (ss_clients s) context qos
      (filter_leaves (ss_roots s) (tokens sub))) as (x & Hx & Hxid & Hxq).
    exists x. rewrite !(subs_written_id context _ _ _ Hsubs). split_and!; [|done|done].
    apply (matching_leaves _ _ _ _ Hfs). exists (tokens sub). by rewrite Hadd, decide_True.
  - intros f x Hf Hx Hmf. apply (matching_leaves _ _ _ _ Hfs). exists f. by rewrite Hadd, decide_False.
  - intros x (f & Hx & Hmf)%(matching_leaves _ _ _ _ Hfs). rewrite Hadd in Hx. case_decide as Hf.
    + subst f. by left.
    + right. by exists f.
Qed.
End theorems.

Section publish.
Context {C : Type} `{ClientStore C} (callback : nat -> M (sstate C) unit).

(** C6: publishing to a topic without wildcards runs the callback, leaf by
    leaf, for the leaves stored under the filters that match the topic, filter
    by filter and each filter once, and returns 0. *)
Theorem publish_delivers topic (s : sstate C) :
  no_nul topic -> wildcard_free topic = true ->
  memory_available (ss_alloc s) -> tree_ok (ss_roots s) ->
  exists fs a, matching (ss_roots s) (tokens topic) fs /\ alloc_le (ss_alloc s) a /\
    mqtt3_sub_tree_process callback topic s =
      (iter (process_leaf callback) (flat_map (filter_leaves (ss_roots s)) fs) ;;; ret 0)
        (s <| ss_alloc := a |>).
Proof using.
  intros Hn Hw Ha [Hwf Hr]. by apply tree_process_matching.
Qed.
End publish.
