(* ===== verification/UtHash.v ===== *)
(** * uthash.h: the table of an event loop's clients

    The broker adds to, deletes from, counts and walks the table
    [epollop->contexts_by_ptr]; it never looks a key up.  What those macros
    maintain besides the buckets is the application-order list: a doubly
    linked list through the [hh] handles of the elements, the pointer to its
    first element (the table itself, for its user) and, in [hh.tbl], the
    pointer to its last element and the number of elements.  Elements are
    client indices. *)

From S2P Require Import Prelude.

(** [UT_hash_handle], the links of the application-order list *)
Record UT_hash_handle : Type := { hh_prev : option nat; hh_next : option nat }.
#[export] Instance eta_hh : Eta UT_hash_handle := fun h =>
  Build_UT_hash_handle (hh_prev h) (hh_next h).
Definition hh0 : UT_hash_handle := {| hh_prev := None; hh_next := None |}.
#[export] Instance hh_inhabited : Inhabited UT_hash_handle := populate hh0.

(** The head pointer, [hh.tbl->tail] and [hh.tbl->num_items] (meaningful while
    the head is not NULL), and the handles, zero before the first use. *)
Record ut_hash : Type := {
  ut_head : option nat;
  ut_tail : option nat;
  ut_num_items : Z;
  ut_hh : gmap nat UT_hash_handle }.
#[export] Instance eta_ut_hash : Eta ut_hash := fun u =>
  Build_ut_hash (ut_head u) (ut_tail u) (ut_num_items u) (ut_hh u).
Definition ut_empty : ut_hash :=
  {| ut_head := None; ut_tail := None; ut_num_items := 0; ut_hh := ∅ |}.

Definition hh_of (u : ut_hash) (n : nat) : UT_hash_handle := ut_hh u !!! n.
Definition set_hh (n : nat) (f : UT_hash_handle -> UT_hash_handle) (u : ut_hash) : ut_hash :=
  u <| ut_hh := <[n := f (hh_of u n)]> (ut_hh u) |>.

(** [HASH_ADD_PTR(head, field, add)] *)
Definition HASH_ADD_PTR (add : nat) (u : ut_hash) : ut_hash :=
  let u := set_hh add (fun h => h <| hh_next := None |>) u in
  let u :=
    match ut_head u with
    | None =>
        set_hh add (fun h => h <| hh_prev := None |>)
          (u <| ut_head := Some add |> <| ut_tail := Some add |> <| ut_num_items := 0 |>)
    | Some _ =>
        let last := ut_tail u in
        let u := match last with
                 | Some t => set_hh t (fun h => h <| hh_next := Some add |>) u
                 | None => u
                 end in
        (set_hh add (fun h => h <| hh_prev := last |>) u) <| ut_tail := Some add |>
    end in
  u <| ut_num_items := u32 (ut_num_items u + 1) |>.

(** [HASH_DEL(head, del)]: an element without neighbours is taken to be the
    only one, and the table is freed. *)
Definition HASH_DEL (del : nat) (u : ut_hash) : outcome ut_hash :=
  match ut_head u with
  | None => Fault NullDeref
  | Some _ =>
      let '{| hh_prev := prev; hh_next := next |} := hh_of u del in
      match prev, next with
      | None, None => Ok (u <| ut_head := None |>)
      | _, _ =>
          let u := if bool_decide (ut_tail u = Some del) then u <| ut_tail := prev |> else u in
          let u := match prev with
                   | Some p => set_hh p (fun h => h <| hh_next := next |>) u
                   | None => u <| ut_head := next |>
                   end in
          let u := match next with
                   | Some n => set_hh n (fun h => h <| hh_prev := prev |>) u
                   | None => u
                   end in
          Ok (u <| ut_num_items := u32 (ut_num_items u - 1) |>)
      end
  end.

(** [HASH_COUNT(head)] *)
Definition HASH_COUNT (u : ut_hash) : Z :=
  match ut_head u with Some _ => ut_num_items u | None => 0 end.

(** ** The list a table stands for *)

Definition first_or (l : list nat) (q : option nat) : option nat :=
  match l with [] => q | m :: _ => Some m end.
Fixpoint last_or (p : option nat) (l : list nat) : option nat :=
  match l with [] => p | m :: l' => last_or (Some m) l' end.

(** [chain hh p l q]: following [hh_next] from the first element of [l]
    visits [l], and [hh_prev] leads back; [p] and [q] are what the ends link
    to. *)
Fixpoint chain (hh : nat -> UT_hash_handle) (p : option nat) (l : list nat) (q : option nat)
    : Prop :=
  match l with
  | [] => True
  | n :: l' =>
      hh_prev (hh n) = p /\ hh_next (hh n) = first_or l' q /\ chain hh (Some n) l' q
  end.

Definition represents (u : ut_hash) (l : list nat) : Prop :=
  NoDup l /\ ut_head u = first_or l None /\
  (l <> [] -> ut_tail u = last_or None l /\ ut_num_items u = Z.of_nat (length l)) /\
  chain (hh_of u) None l None.

Lemma represents_empty : represents ut_empty [].
Proof. split_and!; [constructor|done|done|done]. Qed.

Lemma hh_of_set n f u m : hh_of (set_hh n f u) m = if decide (m = n) then f (hh_of u n) else hh_of u m.
Proof.
  unfold hh_of, set_hh. cbn. case_decide as E.
  - subst m. by rewrite lookup_total_insert_eq.
  - by rewrite lookup_total_insert_ne.
Qed.

Lemma chain_ext hh hh' p l q :
  (forall n, n ∈ l -> hh' n = hh n) -> chain hh p l q -> chain hh' p l q.
Proof.
  revert p. induction l as [|n l IH]; intros p Heq; [done|]. cbn.
  rewrite (Heq n) by (by left). intros (? & ? & ?). split_and!; [done|done|].
  apply IH; [|done]. intros m Hm. apply Heq. by right.
Qed.

Lemma chain_app hh p l1 l2 q :
  chain hh p (l1 ++ l2) q <->
  chain hh p l1 (first_or l2 q) /\ chain hh (last_or p l1) l2 q.
Proof.
  revert p. induction l1 as [|m l1 IH]; intros p; cbn [app chain last_or]; [tauto|].
  rewrite IH. destruct l1; cbn [app first_or]; tauto.
Qed.

Lemma last_or_app p l1 l2 : last_or p (l1 ++ l2) = last_or (last_or p l1) l2.
Proof. revert p. induction l1 as [|m l1 IH]; intros p; [done|]. apply IH. Qed.

Lemma last_or_snoc p l n : last_or p (l ++ [n]) = Some n.
Proof. by rewrite last_or_app. Qed.

(** The end of a chain, linked to something else. *)
Lemma chain_relink_end hh hh' p l t q q' :
  t ∉ l -> (forall n, n ∈ l -> hh' n = hh n) ->
  hh_prev (hh' t) = hh_prev (hh t) -> hh_next (hh' t) = q' ->
  chain hh p (l ++ [t]) q -> chain hh' p (l ++ [t]) q'.
Proof.
  intros Ht Heq Hp Hn. rewrite !chain_app. cbn. intros (Hl & Hpt & _ & _).
  split_and!; [by eapply chain_ext|congruence|done|done].
Qed.

(** Its beginning. *)
Lemma chain_relink_start hh hh' p p' l q :
  NoDup l -> (forall n, n ∈ tail l -> hh' n = hh n) ->
  (forall n, first_or l None = Some n -> hh_prev (hh' n) = p' /\ hh_next (hh' n) = hh_next (hh n)) ->
  chain hh p l q -> chain hh' p' l q.
Proof.
  destruct l as [|n l]; [done|]. cbn. intros Hnd Heq Hn (_ & Hnext & Hch).
  destruct (Hn n eq_refl) as [-> ->]. split_and!; [done|done|]. by eapply chain_ext.
Qed.

(** ** The macros on that list *)

Lemma snoc_cases (l : list nat) : l = [] \/ exists l' t, l = l' ++ [t].
Proof. destruct l using rev_ind; [by left|right; eauto]. Qed.

Ltac hh_cases :=
  unfold hh_of, set_hh; cbn; unfold hh_of; cbn;
  repeat (case_decide; simplify_eq);
  repeat (rewrite lookup_total_insert_eq || rewrite lookup_total_insert_ne by congruence);
  try done.

Lemma hh_of_add_first u n m :
  ut_head u = None -> hh_of (HASH_ADD_PTR n u) m = if decide (m = n) then hh0 else hh_of u m.
Proof. intros Hh. unfold HASH_ADD_PTR. cbn. rewrite Hh. hh_cases. Qed.

Lemma hh_of_add u h t n m :
  ut_head u = Some h -> ut_tail u = Some t -> t <> n ->
  hh_of (HASH_ADD_PTR n u) m =
  if decide (m = n) then {| hh_prev := Some t; hh_next := None |}
  else if decide (m = t) then (hh_of u t) <| hh_next := Some n |> else hh_of u m.
Proof. intros Hh Ht Hne. unfold HASH_ADD_PTR. cbn. rewrite Hh, Ht. hh_cases. Qed.

Lemma add_fields u l n :
  represents u l -> Z.of_nat (length l) + 1 < 2 ^ 32 ->
  ut_head (HASH_ADD_PTR n u) = first_or (l ++ [n]) None /\
  ut_tail (HASH_ADD_PTR n u) = Some n /\
  ut_num_items (HASH_ADD_PTR n u) = Z.of_nat (length (l ++ [n])).
Proof.
  intros (_ & Hhead & Htail & _) Hlen. unfold HASH_ADD_PTR.
  change (ut_head (set_hh _ _ u)) with (ut_head u). rewrite length_app. cbn [length].
  destruct l as [|h l]; cbn [first_or app] in *; rewrite Hhead.
  - split_and!; [done|done|]. cbn. by rewrite u32_small.
  - destruct Htail as [_ Hnum]; [done|]. split_and!.
    + cbn. by destruct (ut_tail u).
    + done.
    + assert (E : forall u', ut_num_items (u' <| ut_num_items := u32 (ut_num_items u' + 1) |>) =
        u32 (ut_num_items u' + 1)) by done.
      rewrite E. cbn. replace (ut_num_items _) with (Z.of_nat (length (h :: l))).
      * rewrite u32_small; cbn [length] in *; lia.
      * rewrite <- Hnum. by destruct (ut_tail u).
Qed.

Lemma HASH_ADD_run_correct u l n :
  represents u l -> n ∉ l -> Z.of_nat (length l) + 1 < 2 ^ 32 ->
  represents (HASH_ADD_PTR n u) (l ++ [n]).
Proof.
  intros Hr Hn Hlen. destruct (add_fields u l n Hr Hlen) as (Hh & Ht & Hi).
  destruct Hr as (Hnd & Hhead & Htail & Hch). split_and!.
  - apply NoDup_app. split_and!; [done| |apply NoDup_singleton].
    intros m Hm Hin. apply list_elem_of_singleton in Hin as ->. done.
  - done.
  - intros _. by rewrite last_or_snoc.
  - destruct (snoc_cases l) as [->|(l' & t & ->)].
    { cbn. by rewrite hh_of_add_first, decide_True by done. }
    destruct Htail as [Htl _]; [by destruct l'|]. rewrite last_or_snoc in Htl.
    destruct (ut_head u) as [h|] eqn:Eh; [|by destruct l'].
    assert (t <> n) as Htn by set_solver.
    apply NoDup_app in Hnd as (_ & Hnt & _).
    apply chain_app. rewrite last_or_snoc. split.
    + eapply chain_relink_end; [by intros E; apply Hnt in E; set_solver| | | |exact Hch].
      * intros m Hm. erewrite hh_of_add by done. rewrite !decide_False; [done| |set_solver].
        intros ->. apply (Hnt t Hm). by left.
      * erewrite hh_of_add by done. by rewrite decide_False, decide_True.
      * erewrite hh_of_add by done. by rewrite decide_False, decide_True.
    + cbn. erewrite hh_of_add by done. by rewrite decide_True.
Qed.

(** Adding an element that is not in the table puts it last. *)
Theorem HASH_ADD_PTR_correct u l n :
  represents u l -> n ∉ l -> Z.of_nat (length l) + 1 < 2 ^ 32 ->
  represents (HASH_ADD_PTR n u) (l ++ [n]).
Proof. apply HASH_ADD_run_correct. Qed.

(** The handles after a deletion. *)
Lemma HASH_DEL_run u n p q :
  ut_head u <> None -> hh_of u n = {| hh_prev := p; hh_next := q |} ->
  (p <> None \/ q <> None) -> (p = q -> p = None) ->
  exists u', HASH_DEL n u = Ok u' /\
    ut_head u' = (match p with None => q | Some _ => ut_head u end) /\
    ut_tail u' = (if bool_decide (ut_tail u = Some n) then p else ut_tail u) /\
    ut_num_items u' = u32 (ut_num_items u - 1) /\
    forall m, hh_of u' m =
      if decide (Some m = q) then (hh_of u m) <| hh_prev := p |>
      else if decide (Some m = p) then (hh_of u m) <| hh_next := q |> else hh_of u m.
Proof.
  intros Hh Hn Hpq Hne. unfold HASH_DEL. destruct (ut_head u) as [h|] eqn:Eh; [|done].
  rewrite Hn. destruct p as [p|], q as [q|].
  - assert (p <> q) by (intros ->; by discriminate Hne).
    eexists. split_and!; [reflexivity|by case_bool_decide..|]. intros m.
    case_bool_decide; hh_cases.
  - eexists. split_and!; [reflexivity|by case_bool_decide..|]. intros m.
    case_bool_decide; hh_cases.
  - eexists. split_and!; [reflexivity|by case_bool_decide..|]. intros m.
    case_bool_decide; hh_cases.
  - by destruct Hpq.
Qed.

Lemma last_or_in p l m : last_or p l = Some m -> p = Some m \/ m ∈ l.
Proof.
  revert p. induction l as [|n l IH]; intros p; cbn; [by left|]. intros E.
  destruct (IH _ E) as [[= ->]|]; right; [by left|by right].
Qed.
Lemma first_or_in l q m : first_or l q = Some m -> q = Some m \/ m ∈ l.
Proof. destruct l; cbn; [by left|]. intros [= ->]. right. by left. Qed.

Lemma last_or_some m l : last_or (Some m) l <> None.
Proof. revert m. induction l as [|n l IH]; intros m; [done|apply IH]. Qed.

Lemma last_or_skip n p l :
  n ∉ l ->
  (if bool_decide (last_or (Some n) l = Some n) then p else last_or (Some n) l) = last_or p l.
Proof.
  intros Hn. destruct l as [|m l]; cbn [last_or]; [by rewrite bool_decide_eq_true_2|].
  rewrite bool_decide_eq_false_2; [done|]. intros E.
  apply last_or_in in E as [[= ->]|]; apply Hn; [by left|by right].
Qed.

(** A chain without one of its elements, once its neighbours are linked *)
Lemma chain_remove hh hh' l1 n l2 :
  NoDup (l1 ++ n :: l2) -> chain hh None (l1 ++ n :: l2) None ->
  (forall m, m ∈ l1 ++ l2 -> hh' m =
     if decide (Some m = first_or l2 None) then (hh m) <| hh_prev := last_or None l1 |>
     else if decide (Some m = last_or None l1) then (hh m) <| hh_next := first_or l2 None |>
     else hh m) ->
  chain hh' None (l1 ++ l2) None.
Proof.
  intros Hnd Hch Hhh. apply chain_app in Hch as [Hch1 Hch2]. cbn in Hch2.
  destruct Hch2 as (Hp & Hq & Hch2).
  apply NoDup_app in Hnd as (Hnd1 & Hdis & Hnd2). apply NoDup_cons in Hnd2 as [Hn2 Hnd2].
  assert (Hl : forall m, m ∈ l1 -> m ∈ l1 ++ l2) by (intros; apply elem_of_app; by left).
  assert (Hr : forall m, m ∈ l2 -> m ∈ l1 ++ l2) by (intros; apply elem_of_app; by right).
  apply chain_app. split.
  - destruct (snoc_cases l1) as [->|(l1' & t & ->)]; [done|].
    apply NoDup_app in Hnd1 as (_ & Hnt & _). rewrite last_or_snoc in *.
    assert (Hdec : forall m, m ∈ l1' ++ [t] -> Some m <> first_or l2 None).
    { intros m Hm E. symmetry in E. apply first_or_in in E as [|Hm2]; [done|].
      apply (Hdis m Hm). by right. }
    assert (Ht : t ∈ l1' ++ [t]) by (apply elem_of_app; right; by left).
    eapply chain_relink_end; [by intros E; apply (Hnt t E); left| | | |exact Hch1].
    + intros m Hm. assert (Hm1 : m ∈ l1' ++ [t]) by (apply elem_of_app; by left).
      rewrite Hhh, !decide_False; [done| |by apply Hdec|by apply Hl].
      intros [= ->]. apply (Hnt t Hm). by left.
    + rewrite Hhh, decide_False, decide_True; [done|done|by apply Hdec|by apply Hl].
    + rewrite Hhh, decide_False, decide_True; [done|done|by apply Hdec|by apply Hl].
  - assert (Hdec : forall m, m ∈ l2 -> Some m <> last_or None l1).
    { intros m Hm E. symmetry in E. apply last_or_in in E as [|Hm2]; [done|].
      apply (Hdis m Hm2). by right. }
    eapply chain_relink_start; [done| | |exact Hch2].
    + intros m Hm. destruct l2 as [|b l2]; [by apply elem_of_nil in Hm|]. cbn [tail first_or] in *.
      apply NoDup_cons in Hnd2 as [Hb _].
      rewrite Hhh, !decide_False; [done|apply Hdec; by right| |apply Hr; by right]. by intros [= ->].
    + intros m Hm. assert (Hm2 : m ∈ l2) by (by apply first_or_in in Hm as [|]).
      rewrite Hhh, decide_True by (done || by apply Hr). by split.
Qed.

Lemma HASH_DEL_run_correct u l1 n l2 :
  represents u (l1 ++ n :: l2) -> Z.of_nat (length (l1 ++ n :: l2)) < 2 ^ 32 ->
  exists u', HASH_DEL n u = Ok u' /\ represents u' (l1 ++ l2).
Proof.
  intros (Hnd & Hhead & Htail & Hch) Hlen. destruct Htail as [Htl Hnum]; [by destruct l1|].
  pose proof Hnd as Hnd0. pose proof Hch as Hch0.
  apply chain_app in Hch as [_ (Hp & Hq & _)].
  apply NoDup_app in Hnd as (Hnd1 & Hdis & Hnd2). apply NoDup_cons in Hnd2 as [Hn2 Hnd2].
  assert (Hn1 : n ∉ l1) by (intros E; apply (Hdis n E); by left).
  assert (Hn : hh_of u n = {| hh_prev := last_or None l1; hh_next := first_or l2 None |}).
  { destruct (hh_of u n). cbn in *. by subst. }
  destruct (decide (l1 ++ l2 = [])) as [[-> ->]%app_eq_nil|Hne].
  { exists (u <| ut_head := None |>). split; [|by split_and!; [constructor|..]].
    unfold HASH_DEL. by rewrite Hhead, Hn. }
  edestruct (HASH_DEL_run u n) as (u' & Hrun & Hh' & Ht' & Hi' & Hhh); [|exact Hn| | |].
  - rewrite Hhead. by destruct l1.
  - destruct l1; [right; by destruct l2|left]. cbn. apply last_or_some.
  - intros E. destruct (last_or None l1) as [m|] eqn:El; [|done]. exfalso.
    apply last_or_in in El as [|Hm]; [done|]. symmetry in E.
    apply first_or_in in E as [|Hm']; [done|]. apply (Hdis m Hm). by right.
  - exists u'. split; [done|]. split_and!.
    + apply NoDup_app. split_and!; [done| |done]. intros m Hm Hm'. apply (Hdis m Hm). by right.
    + rewrite Hh', Hhead. destruct l1 as [|a l1]; [done|]. cbn [app first_or last_or].
      destruct (last_or (Some a) l1) eqn:E; [done|]. by apply last_or_some in E.
    + intros _. rewrite Ht', Hi', Hnum, Htl, !last_or_app. cbn [last_or]. split.
      * by apply last_or_skip.
      * rewrite !length_app in *. cbn [length] in *. rewrite u32_small; lia.
    + eapply chain_remove; [exact Hnd0|exact Hch0|]. intros m _. apply Hhh.
Qed.

(** Deleting a member succeeds, and takes just it out of the list. *)
Theorem HASH_DEL_correct u l1 n l2 :
  represents u (l1 ++ n :: l2) -> Z.of_nat (length (l1 ++ n :: l2)) < 2 ^ 32 ->
  exists u', HASH_DEL n u = Ok u' /\ represents u' (l1 ++ l2).
Proof. apply HASH_DEL_run_correct. Qed.

Lemma HASH_COUNT_eq u l : represents u l -> HASH_COUNT u = Z.of_nat (length l).
Proof.
  intros (_ & Hh & Ht & _). unfold HASH_COUNT. rewrite Hh. destruct l as [|n l]; [done|].
  by apply Ht.
Qed.

Lemma represents_next u l1 n l2 :
  represents u (l1 ++ n :: l2) -> hh_next (hh_of u n) = first_or l2 None.
Proof. intros (_ & _ & _ & Hch). apply chain_app in Hch as [_ Hch]. by apply Hch. Qed.

(** The list, by following [hh_next] from the head *)
Fixpoint walk (fuel : nat) (u : ut_hash) (p : option nat) : list nat :=
  match fuel, p with
  | S fuel', Some n => n :: walk fuel' u (hh_next (hh_of u n))
  | _, _ => []
  end.
Definition table_of (u : ut_hash) : list nat := walk (Z.to_nat (HASH_COUNT u)) u (ut_head u).

Lemma table_of_eq u l : represents u l -> table_of u = l.
Proof.
  intros Hr. unfold table_of. rewrite (HASH_COUNT_eq _ _ Hr), Nat2Z.id.
  destruct Hr as (_ & -> & _ & Hch). revert Hch. generalize (@None nat) at 1 as p.
  induction l as [|n l IH]; intros p; [done|]. cbn. intros (_ & -> & Hch). f_equal. by eapply IH.
Qed.

Lemma HASH_DEL_run_foreign u l n :
  represents u l -> l <> [] -> hh_of u n = hh0 ->
  exists u', HASH_DEL n u = Ok u' /\ represents u' [] /\ HASH_COUNT u' = 0.
Proof.
  intros (_ & Hh & _) Hl Hn. exists (u <| ut_head := None |>). split; [|split; [|done]].
  - unfold HASH_DEL. rewrite Hh, Hn. by destruct l.
  - split; [constructor|]. by split_and!.
Qed.

(** Deleting an element that was never added frees the whole table: no
    client is in it any more. *)
Theorem HASH_DEL_foreign u l n :
  represents u l -> l <> [] -> hh_of u n = hh0 ->
  exists u', HASH_DEL n u = Ok u' /\ represents u' [] /\ HASH_COUNT u' = 0.
Proof. apply HASH_DEL_run_foreign. Qed.
