(* ===== verification/UtTable.v ===== *)
(** * uthash.h: the whole table

    The table of [UtHash] with its buckets: the hash function, the chains of
    the buckets, and their expansion, as [HASH_ADD_PTR] and [HASH_DEL] work on
    them, and the lookup [HASH_FIND_PTR].  [UtHash] is the view of it that the
    event loop has ([app_view]). *)

From S2P Require Import Prelude.
From S2P Require Import UtHash.

(** ** The hash function of Bob Jenkins *)

Definition HASH_JEN_MIX (a b c : Z) : Z * Z * Z :=
  let a := u32 (a - b) in let a := u32 (a - c) in let a := Z.lxor a (Z.shiftr c 13) in
  let b := u32 (b - c) in let b := u32 (b - a) in let b := Z.lxor b (u32 (Z.shiftl a 8)) in
  let c := u32 (c - a) in let c := u32 (c - b) in let c := Z.lxor c (Z.shiftr b 13) in
  let a := u32 (a - b) in let a := u32 (a - c) in let a := Z.lxor a (Z.shiftr c 12) in
  let b := u32 (b - c) in let b := u32 (b - a) in let b := Z.lxor b (u32 (Z.shiftl a 16)) in
  let c := u32 (c - a) in let c := u32 (c - b) in let c := Z.lxor c (Z.shiftr b 5) in
  let a := u32 (a - b) in let a := u32 (a - c) in let a := Z.lxor a (Z.shiftr c 3) in
  let b := u32 (b - c) in let b := u32 (b - a) in let b := Z.lxor b (u32 (Z.shiftl a 10)) in
  let c := u32 (c - a) in let c := u32 (c - b) in let c := Z.lxor c (Z.shiftr b 15) in
  (a, b, c).

Definition word (k0 k1 k2 k3 : Z) : Z :=
  u32 (k0 + u32 (Z.shiftl k1 8) + u32 (Z.shiftl k2 16) + u32 (Z.shiftl k3 24)).

(** [while (_hj_k >= 12U) { ... }]: what is left of the key, and the three
    accumulators. *)
Fixpoint jen_blocks (key : list Z) (i j hashv : Z) : list Z * (Z * Z * Z) :=
  match key with
  | k0 :: k1 :: k2 :: k3 :: k4 :: k5 :: k6 :: k7 :: k8 :: k9 :: k10 :: k11 :: key' =>
      let i := u32 (i + word k0 k1 k2 k3) in
      let j := u32 (j + word k4 k5 k6 k7) in
      let hashv := u32 (hashv + word k8 k9 k10 k11) in
      let '(i, j, hashv) := HASH_JEN_MIX i j hashv in
      jen_blocks key' i j hashv
  | _ => (key, (i, j, hashv))
  end.

(** A case of the [switch] over the bytes left, which all fall through: the
    byte at [n], shifted, if there is one. *)
Definition jen_case (key : list Z) (n : nat) (shift v : Z) : Z :=
  match key !! n with Some k => u32 (v + u32 (Z.shiftl k shift)) | None => v end.

(** [HASH_JEN(key, keylen, ...)]: the hash value *)
Definition HASH_JEN (key : list Z) : Z :=
  let '(rest, (i, j, hashv)) := jen_blocks key 0x9e3779b9 0x9e3779b9 0xfeedbeef in
  let hashv := u32 (hashv + Z.of_nat (length key)) in
  let hashv := jen_case rest 10 24 hashv in
  let hashv := jen_case rest 9 16 hashv in
  let hashv := jen_case rest 8 8 hashv in
  let j := jen_case rest 7 24 j in
  let j := jen_case rest 6 16 j in
  let j := jen_case rest 5 8 j in
  let j := jen_case rest 4 0 j in
  let i := jen_case rest 3 24 i in
  let i := jen_case rest 2 16 i in
  let i := jen_case rest 1 8 i in
  let i := jen_case rest 0 0 i in
  let '(_, _, hashv) := HASH_JEN_MIX i j hashv in
  hashv.

(** [HASH_TO_BKT(hashv, num_bkts, bkt)] *)
Definition HASH_TO_BKT (hashv num_bkts : Z) : Z := Z.land hashv (u32 (num_bkts - 1)).

(** ** The table *)

Record UT_hash_bucket : Type := { hh_head : option nat; count : Z; expand_mult : Z }.
#[export] Instance eta_bucket : Eta UT_hash_bucket := fun b =>
  Build_UT_hash_bucket (hh_head b) (count b) (expand_mult b).
Definition bucket0 : UT_hash_bucket := {| hh_head := None; count := 0; expand_mult := 0 |}.

(** [struct UT_hash_handle], of an element named by its index.  [key] is the
    element whose key field it points to; [tbl] is the one table of the loop. *)
Record UT_hash_handle : Type := {
  prev : option nat;
  next : option nat;
  hh_prev : option nat;
  hh_next : option nat;
  key : option nat;
  keylen : Z;
  hashv : Z }.
#[export] Instance eta_handle : Eta UT_hash_handle := fun h =>
  Build_UT_hash_handle (prev h) (next h) (hh_prev h) (hh_next h) (key h) (keylen h) (hashv h).
Definition handle0 : UT_hash_handle := {|
  prev := None; next := None; hh_prev := None; hh_next := None; key := None; keylen := 0;
  hashv := 0 |}.
#[export] Instance handle_inhabited : Inhabited UT_hash_handle := populate handle0.

(** [struct UT_hash_table], but for [hho] and [signature], which are constants *)
Record UT_hash_table : Type := {
  buckets : list UT_hash_bucket;
  num_buckets : Z;
  log2_num_buckets : Z;
  num_items : Z;
  tail : option nat;
  ideal_chain_maxlen : Z;
  nonideal_items : Z;
  ineff_expands : Z;
  noexpand : Z }.
#[export] Instance eta_table : Eta UT_hash_table := fun t =>
  Build_UT_hash_table (buckets t) (num_buckets t) (log2_num_buckets t) (num_items t) (tail t)
    (ideal_chain_maxlen t) (nonideal_items t) (ineff_expands t) (noexpand t).

(** The allocator; the key field [itself] of the elements, a pointer, by its
    bytes; the head pointer; the handles; and [head->hh.tbl], meaningful while
    the head is not NULL. *)
Record htable : Type := {
  t_alloc : alloc;
  t_itself : gmap nat (list Z);
  t_head : option nat;
  t_hh : gmap nat UT_hash_handle;
  t_tbl : UT_hash_table }.
#[export] Instance eta_htable : Eta htable := fun t =>
  Build_htable (t_alloc t) (t_itself t) (t_head t) (t_hh t) (t_tbl t).

Definition ptr_size : nat := 8.
Definition null_ptr : list Z := replicate ptr_size 0.
Definition itself_of (n : nat) (t : htable) : list Z := default null_ptr (t_itself t !! n).

Definition get_hh (n : nat) : M htable UT_hash_handle := gets (fun t => t_hh t !!! n).
Definition on_hh (n : nat) (f : UT_hash_handle -> UT_hash_handle) : M htable unit :=
  modify (fun t => t <| t_hh := <[n := f (t_hh t !!! n)]> (t_hh t) |>).
Definition on_hh_at (p : option nat) (f : UT_hash_handle -> UT_hash_handle) : M htable unit :=
  match p with Some n => on_hh n f | None => ret tt end.
Definition get_tbl : M htable UT_hash_table := gets t_tbl.
Definition on_tbl (f : UT_hash_table -> UT_hash_table) : M htable unit :=
  modify (fun t => t <| t_tbl := f (t_tbl t) |>).

(** [buckets[i]] *)
Definition bucket_at (l : list UT_hash_bucket) (i : Z) : outcome UT_hash_bucket :=
  match l !! Z.to_nat i with Some b => Ok b | None => Fault OutOfBounds end.
Definition set_bucket (i : Z) (b : UT_hash_bucket) (l : list UT_hash_bucket) :
    list UT_hash_bucket := <[Z.to_nat i := b]> l.

(** [uthash_malloc]: [false] when the process ends in [uthash_fatal]. *)
Definition uthash_malloc : M htable bool :=
  let* p := zoom t_alloc (fun a t => t <| t_alloc := a |>) malloc in
  ret (match p with Some _ => true | None => false end).

Definition HASH_INITIAL_NUM_BUCKETS : Z := 32.
Definition HASH_INITIAL_NUM_BUCKETS_LOG2 : Z := 5.
Definition HASH_BKT_CAPACITY_THRESH : Z := 10.

(** [HASH_MAKE_TABLE(hh, head)] *)
Definition HASH_MAKE_TABLE (head : nat) : M htable bool :=
  let* ok := uthash_malloc in
  if ok then
    on_tbl (fun _ => {|
      buckets := []; num_buckets := HASH_INITIAL_NUM_BUCKETS;
      log2_num_buckets := HASH_INITIAL_NUM_BUCKETS_LOG2; num_items := 0; tail := Some head;
      ideal_chain_maxlen := 0; nonideal_items := 0; ineff_expands := 0; noexpand := 0 |}) ;;;
    let* ok := uthash_malloc in
    if ok then
      on_tbl (fun t => t <| buckets := replicate (Z.to_nat HASH_INITIAL_NUM_BUCKETS) bucket0 |>) ;;;
      ret true
    else ret false
  else ret false.

(** *** Expansion *)

(** [while (_he_thh != NULL) { ... }]: the rest of a chain moves to the new
    buckets, with fuel. *)
Fixpoint expand_chain (fuel : nat) (thh : option nat) (new : list UT_hash_bucket)
    : M htable (list UT_hash_bucket) :=
  match thh with
  | None => ret new
  | Some t =>
      match fuel with
      | O => fun _ => NoFuel
      | S fuel' =>
          let* h := get_hh t in
          let* tbl := get_tbl in
          let bkt := HASH_TO_BKT (hashv h) (u32 (num_buckets tbl * 2)) in
          let* b := lift (bucket_at new bkt) in
          let b := b <| count := u32 (count b + 1) |> in
          let* b :=
            if ideal_chain_maxlen tbl <? count b then
              on_tbl (fun tbl => tbl <| nonideal_items := u32 (nonideal_items tbl + 1) |>) ;;;
              if ideal_chain_maxlen tbl =? 0 then fail DivByZero
              else ret (b <| expand_mult := count b / ideal_chain_maxlen tbl |>)
            else ret b in
          on_hh t (fun h => h <| hh_prev := None |> <| hh_next := hh_head b |>) ;;;
          on_hh_at (hh_head b) (fun h => h <| hh_prev := Some t |>) ;;;
          expand_chain fuel' (hh_next h) (set_bucket bkt (b <| hh_head := Some t |>) new)
      end
  end.

(** [for (_he_bkt_i = 0; ...)] over the old buckets, of which there are
    [num_buckets]; a chain has no more elements than its bucket counts. *)
Fixpoint expand_all (old new : list UT_hash_bucket) : M htable (list UT_hash_bucket) :=
  match old with
  | [] => ret new
  | b :: old' =>
      let* new := expand_chain (S (Z.to_nat (count b))) (hh_head b) new in
      expand_all old' new
  end.

(** [HASH_EXPAND_BUCKETS(tbl)] *)
Definition HASH_EXPAND_BUCKETS : M htable bool :=
  let* ok := uthash_malloc in
  if ok then
    let* tbl := get_tbl in
    let new := replicate (Z.to_nat (2 * num_buckets tbl)) bucket0 in
    on_tbl (fun tbl => tbl
      <| ideal_chain_maxlen :=
           u32 (Z.shiftr (num_items tbl) (u32 (log2_num_buckets tbl + 1)) +
                (if Z.land (num_items tbl) (u32 (u32 (num_buckets tbl * 2) - 1)) =? 0 then 0 else 1)) |>
      <| nonideal_items := 0 |>) ;;;
    let* new := expand_all (buckets tbl) new in
    on_tbl (fun tbl => tbl <| num_buckets := u32 (num_buckets tbl * 2) |>
      <| log2_num_buckets := u32 (log2_num_buckets tbl + 1) |>
      <| buckets := new |>
      <| ineff_expands := if Z.shiftr (num_items tbl) 1 <? nonideal_items tbl
                          then u32 (ineff_expands tbl + 1) else 0 |>) ;;;
    on_tbl (fun tbl => if 1 <? ineff_expands tbl then tbl <| noexpand := 1 |> else tbl) ;;;
    ret true
  else ret false.

(** *** Adding and deleting *)

(** [HASH_ADD_TO_BKT(head->hh.tbl->buckets[bkt], addhh)] *)
Definition HASH_ADD_TO_BKT (bkt : Z) (addhh : nat) : M htable bool :=
  let* tbl := get_tbl in
  let* b := lift (bucket_at (buckets tbl) bkt) in
  let n := u32 (count b + 1) in
  on_hh addhh (fun h => h <| hh_next := hh_head b |> <| hh_prev := None |>) ;;;
  on_hh_at (hh_head b) (fun h => h <| hh_prev := Some addhh |>) ;;;
  on_tbl (fun tbl => tbl <| buckets :=
    set_bucket bkt (b <| count := n |> <| hh_head := Some addhh |>) (buckets tbl) |>) ;;;
  if (u32 (u32 (expand_mult b + 1) * HASH_BKT_CAPACITY_THRESH) <=? n) && negb (noexpand tbl =? 1)
  then HASH_EXPAND_BUCKETS else ret true.

(** [HASH_ADD_PTR(head, itself, add)], by [HASH_ADD_KEYPTR] *)
Definition HASH_ADD_PTR (add : nat) : M htable bool :=
  on_hh add (fun h => h <| next := None |> <| key := Some add |>
                        <| keylen := Z.of_nat ptr_size |>) ;;;
  let* head := gets t_head in
  let* made :=
    match head with
    | None =>
        modify (fun t => t <| t_head := Some add |>) ;;;
        on_hh add (fun h => h <| prev := None |>) ;;;
        HASH_MAKE_TABLE add
    | Some _ =>
        let* tbl := get_tbl in
        (match tail tbl with
         | Some t => on_hh t (fun h => h <| next := Some add |>)
         | None => fail NullDeref
         end) ;;;
        on_hh add (fun h => h <| prev := tail tbl |>) ;;;
        on_tbl (fun tbl => tbl <| tail := Some add |>) ;;;
        ret true
    end in
  if made then
    on_tbl (fun tbl => tbl <| num_items := u32 (num_items tbl + 1) |>) ;;;
    let* v := gets (fun t => HASH_JEN (itself_of add t)) in
    on_hh add (fun h => h <| hashv := v |>) ;;;
    let* tbl := get_tbl in
    HASH_ADD_TO_BKT (HASH_TO_BKT v (num_buckets tbl)) add
  else ret false.

(** [HASH_DEL_IN_BKT(hh, head->hh.tbl->buckets[bkt], hh_del)] *)
Definition HASH_DEL_IN_BKT (bkt : Z) (hh_del : nat) : M htable unit :=
  let* tbl := get_tbl in
  let* b := lift (bucket_at (buckets tbl) bkt) in
  let* h := get_hh hh_del in
  let b := b <| count := u32 (count b - 1) |> in
  let b := if bool_decide (hh_head b = Some hh_del) then b <| hh_head := hh_next h |> else b in
  on_tbl (fun tbl => tbl <| buckets := set_bucket bkt b (buckets tbl) |>) ;;;
  on_hh_at (hh_prev h) (fun h' => h' <| hh_next := hh_next h |>) ;;;
  on_hh_at (hh_next h) (fun h' => h' <| hh_prev := hh_prev h |>).

(** The [else] branch of [HASH_DELETE]; [h] is the handle of [del]. *)
Definition delete_linked (del : nat) (h : UT_hash_handle) : M htable unit :=
  on_tbl (fun tbl => if bool_decide (tail tbl = Some del)
                     then tbl <| tail := prev h |> else tbl) ;;;
  (match prev h with
   | Some p => on_hh p (fun h' => h' <| next := next h |>)
   | None => modify (fun t => t <| t_head := next h |>)
   end) ;;;
  on_hh_at (next h) (fun h' => h' <| prev := prev h |>) ;;;
  let* tbl := get_tbl in
  HASH_DEL_IN_BKT (HASH_TO_BKT (hashv h) (num_buckets tbl)) del ;;;
  on_tbl (fun tbl => tbl <| num_items := u32 (num_items tbl - 1) |>).

(** [HASH_DEL(head, del)], that is [HASH_DELETE] *)
Definition HASH_DEL (del : nat) : M htable unit :=
  let* head := gets t_head in
  match head with
  | None => fail NullDeref
  | Some _ =>
      let* h := get_hh del in
      match prev h, next h with
      | None, None => modify (fun t => t <| t_head := None |>)
      | _, _ => delete_linked del h
      end
  end.

(** *** Lookup *)

(** [HASH_FIND_IN_BKT]: the walk along a chain, with fuel; [memcmp] reads the
    key through the handle. *)
Fixpoint find_chain (fuel : nat) (out : option nat) (k : list Z) : M htable (option nat) :=
  match out with
  | None => ret None
  | Some n =>
      match fuel with
      | O => fun _ => NoFuel
      | S fuel' =>
          let* h := get_hh n in
          let* same :=
            if keylen h =? Z.of_nat (length k) then
              match key h with
              | None => fail NullDeref
              | Some m => gets (fun t => bool_decide (itself_of m t = k))
              end
            else ret false in
          if same then ret (Some n) else find_chain fuel' (hh_next h) k
      end
  end.

(** [HASH_FIND_PTR(head, &k, out)] *)
Definition HASH_FIND_PTR (k : list Z) : M htable (option nat) :=
  let* head := gets t_head in
  match head with
  | None => ret None
  | Some _ =>
      let* tbl := get_tbl in
      let* b := lift (bucket_at (buckets tbl) (HASH_TO_BKT (HASH_JEN k) (num_buckets tbl))) in
      find_chain (S (Z.to_nat (count b))) (hh_head b) k
  end.

(** [HASH_COUNT(head)] *)
Definition HASH_COUNT (t : htable) : Z :=
  match t_head t with Some _ => num_items (t_tbl t) | None => 0 end.

(** *** The integrity check

    [HASH_FSCK(hh, head)], which a build with HASH_DEBUG runs after every
    addition and deletion; [None] and [false] when it ends the process in
    [HASH_OOPS].  The walks have fuel. *)

(** The walk along the chain of a bucket, which counts it *)
Fixpoint fsck_chain (fuel : nat) (thh prev_ : option nat) (bkt_count : Z) : M htable (option Z) :=
  match thh with
  | None => ret (Some bkt_count)
  | Some n =>
      match fuel with
      | O => fun _ => NoFuel
      | S fuel' =>
          let* h := get_hh n in
          if negb (bool_decide (prev_ = hh_prev h)) then ret None
          else fsck_chain fuel' (hh_next h) thh (u32 (bkt_count + 1))
      end
  end.

(** [for (_bkt_i = 0; ...)]: [k] buckets from [i] on *)
Fixpoint fsck_buckets (fuel k : nat) (i count_ : Z) : M htable (option Z) :=
  match k with
  | O => ret (Some count_)
  | S k' =>
      let* tbl := get_tbl in
      let* b := lift (bucket_at (buckets tbl) i) in
      let* r := fsck_chain fuel (hh_head b) None 0 in
      match r with
      | None => ret None
      | Some bkt_count =>
          if negb (count b =? bkt_count) then ret None
          else fsck_buckets fuel k' (i + 1) (u32 (count_ + bkt_count))
      end
  end.

(** The walk in application order *)
Fixpoint fsck_order (fuel : nat) (thh prev_ : option nat) (count_ : Z) : M htable (option Z) :=
  match thh with
  | None => ret (Some count_)
  | Some n =>
      match fuel with
      | O => fun _ => NoFuel
      | S fuel' =>
          let* h := get_hh n in
          if negb (bool_decide (prev_ = prev h)) then ret None
          else fsck_order fuel' (next h) thh (u32 (count_ + 1))
      end
  end.

Definition HASH_FSCK (fuel : nat) : M htable bool :=
  let* head := gets t_head in
  match head with
  | None => ret true
  | Some _ =>
      let* tbl := get_tbl in
      let* r := fsck_buckets fuel (Z.to_nat (num_buckets tbl)) 0 0 in
      match r with
      | None => ret false
      | Some count_ =>
          if negb (count_ =? num_items tbl) then ret false
          else
            let* r := fsck_order fuel head None 0 in
            match r with
            | None => ret false
            | Some count_ => ret (count_ =? num_items tbl)
            end
      end
  end.
