(* ===== verification/UtTableFacts.v ===== *)
(** * uthash.h: the chains of the buckets *)

From S2P Require Import Prelude.
From S2P Require Import UtHash.
From S2P Require Import UtTable.

Abbreviation handles := (gmap nat UT_hash_handle) (only parsing).

(** ** The two orders a handle links *)

Definition app_links (h : UT_hash_handle) : UtHash.UT_hash_handle :=
  {| UtHash.hh_prev := prev h; UtHash.hh_next := next h |}.
Definition bkt_links (hh : handles) (n : nat) : UtHash.UT_hash_handle :=
  {| UtHash.hh_prev := hh_prev (hh !!! n); UtHash.hh_next := hh_next (hh !!! n) |}.

(** What the buckets leave alone of a handle *)
Definition static (h : UT_hash_handle) := (prev h, next h, key h, keylen h, hashv h).
Definition same_static (hh hh' : handles) : Prop :=
  forall n, static (hh' !!! n) = static (hh !!! n).

Lemma same_static_refl hh : same_static hh hh.
Proof. done. Qed.
Lemma same_static_trans hh1 hh2 hh3 :
  same_static hh1 hh2 -> same_static hh2 hh3 -> same_static hh1 hh3.
Proof. intros H1 H2 n. by rewrite H2, H1. Qed.
Lemma same_static_hashv hh hh' n : same_static hh hh' -> hashv (hh' !!! n) = hashv (hh !!! n).
Proof. intros H. by injection (H n). Qed.

(** [on_hh] and [on_hh_at] on the handles alone *)
Definition set_handle (n : nat) (f : UT_hash_handle -> UT_hash_handle) (hh : handles) : handles :=
  <[n := f (hh !!! n)]> hh.
Definition set_handle_at (p : option nat) f (hh : handles) : handles :=
  match p with Some n => set_handle n f hh | None => hh end.

Lemma set_handle_lookup n f hh m :
  set_handle n f hh !!! m = if decide (m = n) then f (hh !!! n) else hh !!! m.
Proof.
  unfold set_handle. case_decide as E.
  - subst m. by rewrite lookup_total_insert_eq.
  - by rewrite lookup_total_insert_ne.
Qed.

Lemma set_handle_at_lookup p f hh m :
  set_handle_at p f hh !!! m = if decide (Some m = p) then f (hh !!! m) else hh !!! m.
Proof.
  destruct p as [n|]; [|by rewrite decide_False]. cbn. rewrite set_handle_lookup.
  destruct (decide (m = n)) as [->|Hm]; [by rewrite decide_True|].
  rewrite decide_False; [done|]. by intros [= ->].
Qed.

Lemma on_hh_at_eq p f t :
  on_hh_at p f t = Ok (tt, t <| t_hh := set_handle_at p f (t_hh t) |>).
Proof. destruct p; [done|]. by destruct t. Qed.

(** ** One bucket *)

Definition bucket_ok (hh : handles) (b : UT_hash_bucket) (l : list nat) : Prop :=
  hh_head b = first_or l None /\ count b = zlen l /\ chain (bkt_links hh) None l None.

Lemma bucket_ok_ext hh hh' b l :
  (forall n, n ∈ l -> bkt_links hh' n = bkt_links hh n) -> bucket_ok hh b l -> bucket_ok hh' b l.
Proof. intros Heq (? & ? & ?). split_and!; [done|done|]. by eapply chain_ext. Qed.

(** An element put before the first one *)
Definition push (n : nat) (o : option nat) (hh : handles) : handles :=
  set_handle_at o (fun h => h <| hh_prev := Some n |>)
    (set_handle n (fun h => h <| hh_prev := None |> <| hh_next := o |>) hh).

Lemma push_static n o hh : same_static hh (push n o hh).
Proof.
  intros m. unfold push. rewrite set_handle_at_lookup, set_handle_lookup.
  by repeat case_decide; subst.
Qed.

Lemma push_links n o hh m :
  o <> Some n ->
  bkt_links (push n o hh) m =
  if decide (m = n) then {| UtHash.hh_prev := None; UtHash.hh_next := o |}
  else if decide (Some m = o) then (bkt_links hh m) <| UtHash.hh_prev := Some n |>
  else bkt_links hh m.
Proof.
  intros Ho. unfold bkt_links, push. rewrite set_handle_at_lookup, set_handle_lookup.
  repeat case_decide; by subst.
Qed.

Lemma push_bucket hh b l n e :
  bucket_ok hh b l -> NoDup (n :: l) -> zlen l + 1 < 2 ^ 32 ->
  bucket_ok (push n (hh_head b) hh)
    {| hh_head := Some n; count := u32 (count b + 1); expand_mult := e |} (n :: l).
Proof.
  intros (Hh & Hc & Hl) Hnd Hlen. change (2 ^ 32) with 4294967296 in Hlen.
  apply NoDup_cons in Hnd as [Hn Hnd].
  assert (Ho : hh_head b <> Some n).
  { rewrite Hh. intros E. apply first_or_in in E as [|]; done. }
  split_and!; [done|cbn [length count]; rewrite Hc, u32_small; lia|].
  cbn [chain]. rewrite push_links, decide_True by done. split_and!; [done|done|].
  destruct l as [|m l]; [done|]. cbn [first_or] in Hh. apply NoDup_cons in Hnd as [Hm Hnd].
  cbn [chain] in Hl |- *. destruct Hl as (_ & Hnext & Hl). rewrite not_elem_of_cons in Hn.
  rewrite push_links, decide_False, decide_True by (done || naive_solver).
  split_and!; [done|done|]. eapply chain_ext; [|exact Hl]. intros k Hk.
  rewrite push_links by done. rewrite !decide_False; [done| |naive_solver].
  rewrite Hh. by intros [= ->].
Qed.

(** ** All buckets *)

(** The buckets [bs] hold the lists [ls], each element where its hash value
    puts it; [rest] are elements that are in none of them. *)
Record spread (hh : handles) (bs : list UT_hash_bucket) (ls : list (list nat)) (nb : Z)
    (rest : list nat) : Prop := {
  sp_len : zlen bs = nb;
  sp_all : Forall2 (bucket_ok hh) bs ls;
  sp_once : NoDup (concat ls ++ rest);
  sp_where i l n : ls !! i = Some l -> n ∈ l -> HASH_TO_BKT (hashv (hh !!! n)) nb = Z.of_nat i;
  sp_small : zlen (concat ls ++ rest) < 2 ^ 32 }.

Lemma concat_insert (ls : list (list nat)) i l n :
  ls !! i = Some l -> concat (<[i := n :: l]> ls) ≡ₚ n :: concat ls.
Proof.
  revert i. induction ls as [|l0 ls IH]; intros [|i] E; [done|done| |].
  - by injection E as ->.
  - cbn. rewrite (IH i E). by rewrite Permutation_middle.
Qed.

Lemma concat_replace (ls : list (list nat)) i l l' :
  ls !! i = Some l -> concat (<[i := l']> ls) ++ l ≡ₚ concat ls ++ l'.
Proof.
  revert i. induction ls as [|l0 ls IH]; intros [|i] E; [done|done| |].
  - injection E as ->. cbn. solve_Permutation.
  - cbn. rewrite <- !app_assoc. by rewrite (IH i E).
Qed.

Lemma elem_of_concat_at (ls : list (list nat)) i l n : ls !! i = Some l -> n ∈ l -> n ∈ concat ls.
Proof.
  revert i. induction ls as [|l0 ls IH]; intros [|i] E Hn; [done|done| |].
  - injection E as ->. apply elem_of_app. by left.
  - apply elem_of_app. right. by eapply IH.
Qed.

Lemma concat_disjoint (ls : list (list nat)) i j l l' n :
  NoDup (concat ls) -> ls !! i = Some l -> ls !! j = Some l' -> n ∈ l -> n ∈ l' -> i = j.
Proof.
  revert i j. induction ls as [|l0 ls IH]; intros [|i] [|j] Hnd Hi Hj Hl Hl'; try done;
    cbn in Hnd; apply NoDup_app in Hnd as (_ & Hd & Hnd).
  - injection Hi as ->. destruct (Hd n Hl). by eapply elem_of_concat_at.
  - injection Hj as ->. destruct (Hd n Hl'). by eapply elem_of_concat_at.
  - f_equal. by eapply IH.
Qed.

Lemma NoDup_concat_at (ls : list (list nat)) i l : NoDup (concat ls) -> ls !! i = Some l -> NoDup l.
Proof.
  revert i. induction ls as [|l0 ls IH]; intros [|i] Hnd E; [done|done| |];
    cbn in Hnd; apply NoDup_app in Hnd as (Hnd1 & _ & Hnd2).
  - by injection E as ->.
  - by eapply IH.
Qed.

Lemma length_concat_at (ls : list (list nat)) i l :
  ls !! i = Some l -> (length l <= length (concat ls))%nat.
Proof.
  revert i. induction ls as [|l0 ls IH]; intros [|i] E; [done|done| |]; cbn; rewrite length_app.
  - injection E as ->. lia.
  - pose proof (IH i E). lia.
Qed.

Lemma spread_push hh bs ls nb n rest b i e :
  spread hh bs ls nb (n :: rest) ->
  HASH_TO_BKT (hashv (hh !!! n)) nb = Z.of_nat i -> bs !! i = Some b ->
  exists l, ls !! i = Some l /\
    spread (push n (hh_head b) hh)
      (<[i := {| hh_head := Some n; count := u32 (count b + 1); expand_mult := e |}]> bs)
      (<[i := n :: l]> ls) nb rest.
Proof.
  intros [Hlen Hall Hnd Hwhere Hsmall] Hbkt Hb.
  destruct (Forall2_lookup_l _ _ _ _ _ Hall Hb) as (l & Hl & Hok). exists l. split; [done|].
  pose proof (concat_insert ls i l n Hl) as Hp.
  rewrite <- Permutation_middle in Hnd, Hsmall. rewrite NoDup_cons in Hnd.
  destruct Hnd as [Hn Hnd]. rewrite not_elem_of_app in Hn. destruct Hn as [Hnc Hnr].
  pose proof Hnd as (Hndc & _ & _)%NoDup_app.
  assert (Hnl : n ∉ l) by (intros E; apply Hnc; by eapply elem_of_concat_at).
  assert (Hh : hh_head b = first_or l None) by apply Hok.
  split.
  - by rewrite length_insert.
  - apply Forall2_same_length_lookup. pose proof (Forall2_length _ _ _ Hall).
    split; [by rewrite !length_insert|]. intros j b' l' Hb' Hl'.
    destruct (decide (j = i)) as [->|Hj].
    + rewrite list_lookup_insert_eq in Hb' by (by eapply lookup_lt_Some). injection Hb' as <-.
      rewrite list_lookup_insert_eq in Hl' by (by eapply lookup_lt_Some). injection Hl' as <-.
      apply push_bucket; [done| |].
      * apply NoDup_cons. split; [done|]. by eapply NoDup_concat_at.
      * pose proof (length_concat_at _ _ _ Hl). cbn [length] in Hsmall. rewrite length_app in Hsmall. lia.
    + rewrite list_lookup_insert_ne in Hb' by done. rewrite list_lookup_insert_ne in Hl' by done.
      eapply bucket_ok_ext; [|by eapply (Forall2_lookup_lr _ _ _ _ _ _ Hall)].
      intros m Hm. rewrite push_links; [|by rewrite Hh; intros E; apply first_or_in in E as [|]].
      rewrite !decide_False; [done| |].
      * rewrite Hh. intros E. symmetry in E. apply first_or_in in E as [|Hml]; [done|].
        apply Hj. by eapply concat_disjoint.
      * intros ->. apply Hnc. by eapply elem_of_concat_at.
  - rewrite Hp. cbn. by constructor; [rewrite not_elem_of_app|].
  - intros j l' m Hl' Hm. rewrite (same_static_hashv _ _ _ (push_static _ _ _)).
    destruct (decide (j = i)) as [->|Hj].
    + rewrite list_lookup_insert_eq in Hl' by (by eapply lookup_lt_Some). injection Hl' as <-.
      apply elem_of_cons in Hm as [->|Hm]; [done|by eapply Hwhere].
    + rewrite list_lookup_insert_ne in Hl' by done. by eapply Hwhere.
  - rewrite Hp. exact Hsmall.
Qed.

(** ** Expansion *)

Definition size_ok (nb : Z) : Prop := exists k, 0 <= k <= 31 /\ nb = 2 ^ k.

Lemma to_bkt_range h nb : size_ok nb -> 0 <= HASH_TO_BKT h nb < nb.
Proof.
  intros (k & Hk & ->). unfold HASH_TO_BKT.
  assert (2 ^ k <= 2 ^ 31) by (apply Z.pow_le_mono_r; lia). change (2 ^ 31) with 2147483648 in *.
  pose proof (Z.pow_pos_nonneg 2 k). rewrite u32_small by lia.
  replace (2 ^ k - 1) with (Z.ones k) by (rewrite Z.ones_equiv; lia).
  rewrite Z.land_ones by lia. apply Z.mod_pos_bound. lia.
Qed.

Lemma to_bkt_bucket {nb} (bs : list UT_hash_bucket) h :
  size_ok nb -> zlen bs = nb -> exists i b, HASH_TO_BKT h nb = Z.of_nat i /\ bs !! i = Some b.
Proof.
  intros Hs Hl. pose proof (to_bkt_range h nb Hs) as Hr. exists (Z.to_nat (HASH_TO_BKT h nb)).
  destruct (lookup_lt_is_Some_2 bs (Z.to_nat (HASH_TO_BKT h nb))) as [b Hb]; [lia|].
  exists b. split; [lia|done].
Qed.

(** What no operation on the buckets changes *)
Record moved (t t' : htable) : Prop := {
  mv_itself : t_itself t' = t_itself t;
  mv_head : t_head t' = t_head t;
  mv_static : same_static (t_hh t) (t_hh t');
  mv_items : num_items (t_tbl t') = num_items (t_tbl t);
  mv_tail : tail (t_tbl t') = tail (t_tbl t) }.

Lemma moved_refl t : moved t t.
Proof. by split. Qed.
Lemma moved_trans t1 t2 t3 : moved t1 t2 -> moved t2 t3 -> moved t1 t3.
Proof. intros [] []. by split; try congruence; eapply same_static_trans. Qed.

Definition sizes (t : htable) :=
  (num_buckets (t_tbl t), log2_num_buckets (t_tbl t), ideal_chain_maxlen (t_tbl t)).

Lemma wp_push {A} n o (k : M htable A) Q E t :
  wp k Q E (t <| t_hh := push n o (t_hh t) |>) ->
  wp (on_hh n (fun h => h <| hh_prev := None |> <| hh_next := o |>) ;;;
      on_hh_at o (fun h => h <| hh_prev := Some n |>) ;;; k) Q E t.
Proof.
  intros Hk. apply wp_bind, wp_modify, wp_bind. eapply wp_ok; [apply on_hh_at_eq|]. exact Hk.
Qed.

(** The elements of a chain in order, by [hh_next] only *)
Fixpoint nexts (f : nat -> UtHash.UT_hash_handle) (l : list nat) : Prop :=
  match l with
  | [] => True
  | n :: l' => UtHash.hh_next (f n) = first_or l' None /\ nexts f l'
  end.

Lemma chain_nexts f p l : chain f p l None -> nexts f l.
Proof. revert p. induction l as [|n l IH]; intros p; [done|]. cbn. naive_solver. Qed.

Lemma nexts_ext f g l : (forall n, n ∈ l -> g n = f n) -> nexts f l -> nexts g l.
Proof.
  induction l as [|n l IH]; intros Heq; [done|]. cbn. rewrite (Heq n) by (by left).
  intros [? ?]. split; [done|]. apply IH; [|done]. intros m Hm. apply Heq. by right.
Qed.

(** Moving one element: where it goes, and what it leaves alone *)
Lemma push_disjoint hh bs ls nb n rest b i m :
  spread hh bs ls nb (n :: rest) -> bs !! i = Some b -> m <> n -> m ∉ concat ls ->
  bkt_links (push n (hh_head b) hh) m = bkt_links hh m.
Proof.
  intros Hs Hb Hm Hml. destruct Hs. destruct (Forall2_lookup_l _ _ _ _ _ sp_all0 Hb) as (l & Hl & Hh & _).
  assert (Hin : forall k, hh_head b = Some k -> k ∈ concat ls).
  { intros k. rewrite Hh. intros E. apply first_or_in in E as [|Hk]; [done|].
    by eapply elem_of_concat_at. }
  rewrite push_links.
  - rewrite !decide_False; [done| |done]. intros E. by apply Hml, Hin.
  - intros E. apply Hin in E. apply NoDup_app in sp_once0 as (_ & Hd & _).
    apply (Hd n E). by left.
Qed.

Lemma wp_expand_chain nb fuel r rest new ls t (Q : list UT_hash_bucket -> htable -> Prop) :
  spread (t_hh t) new ls nb (r ++ rest) -> nexts (bkt_links (t_hh t)) r ->
  nb = u32 (num_buckets (t_tbl t) * 2) -> size_ok nb -> 1 <= ideal_chain_maxlen (t_tbl t) ->
  (length r < fuel)%nat ->
  (forall new' ls' t', spread (t_hh t') new' ls' nb rest -> moved t t' -> sizes t' = sizes t ->
     (forall m, m ∉ r ++ concat ls -> bkt_links (t_hh t') m = bkt_links (t_hh t) m) ->
     concat ls' ≡ₚ r ++ concat ls -> Q new' t') ->
  wp (expand_chain fuel (first_or r None) new) Q no_fault t.
Proof.
  revert r new ls t. induction fuel as [|fuel IH]; intros r new ls t Hsp Hnext Hnb Hsz Hid Hf HQ; [lia|].
  destruct r as [|n r]; [by apply wp_ret, (HQ new ls t)|]. cbn [first_or expand_chain].
  apply wp_bind, wp_gets, wp_bind, wp_gets. rewrite <- Hnb.
  destruct (to_bkt_bucket new (hashv (t_hh t !!! n)) Hsz (sp_len _ _ _ _ _ Hsp)) as (i & b & Hi & Hb).
  rewrite Hi. apply wp_bind. apply (wp_lift _ b); [unfold bucket_at; by rewrite Nat2Z.id, Hb|].
  apply wp_bind. set (c := u32 (count b + 1)).
  (* the count of the new bucket decides only about statistics *)
  assert (Hgo : forall e t1, t_hh t1 = t_hh t -> moved t t1 -> sizes t1 = sizes t ->
    wp (on_hh n (fun h => h <| hh_prev := None |> <| hh_next := hh_head b |>) ;;;
        on_hh_at (hh_head b) (fun h => h <| hh_prev := Some n |>) ;;;
        expand_chain fuel (hh_next (t_hh t !!! n))
          (set_bucket (Z.of_nat i) {| hh_head := Some n; count := c; expand_mult := e |} new))
      Q no_fault t1).
  { intros e t1 Hhh Hmv Hsize. apply wp_push. rewrite Hhh. cbn in Hnext.
    destruct Hnext as [Hn Hnext]. cbn in Hn. rewrite Hn. unfold set_bucket. rewrite Nat2Z.id.
    cbn [app] in Hsp. pose proof (fun m => push_disjoint _ _ _ _ _ _ _ _ m Hsp Hb) as Hdis.
    destruct (spread_push _ _ _ _ _ _ _ _ e Hsp Hi Hb) as (l & Hl & Hsp').
    pose proof (concat_insert _ _ _ n Hl) as Hperm.
    assert (Hout : forall m, m ∈ r -> m <> n /\ m ∉ concat ls).
    { intros m Hm. pose proof (sp_once _ _ _ _ _ Hsp) as (_ & Hd & Hnd)%NoDup_app.
      apply NoDup_cons in Hnd as [Hnr _]. split.
      - intros ->. apply Hnr, elem_of_app. by left.
      - intros Hc. apply (Hd m Hc). right. apply elem_of_app. by left. }
    injection Hsize as Hs1 Hs2 Hs3.
    apply (IH r _ (<[i:=n :: l]> ls)); cbn [t_hh update t_tbl];
      [done| |by rewrite Hs1|done|by rewrite Hs3|cbn in Hf; lia|].
    - eapply nexts_ext; [|exact Hnext]. intros m Hm. apply Hdis; by apply Hout.
    - intros new' ls' t' Hsp2 Hmv2 Hsize2 Hlinks Hp. apply (HQ new' ls'); [done| | | |].
      + eapply moved_trans; [exact Hmv|]. eapply moved_trans; [|exact Hmv2].
        split; try done. cbn. rewrite Hhh. apply push_static.
      + rewrite Hsize2. unfold sizes. cbn. congruence.
      + intros m Hm. cbn [app] in Hm. rewrite not_elem_of_cons, not_elem_of_app in Hm.
        rewrite Hlinks; [by apply Hdis; tauto|]. rewrite Hperm.
        rewrite not_elem_of_app, not_elem_of_cons. tauto.
      + rewrite Hp, Hperm. cbn. by rewrite Permutation_middle. }
  cbn [count update]. destruct (ideal_chain_maxlen (t_tbl t) <? c).
  - apply wp_bind, wp_modify. rewrite (proj2 (Z.eqb_neq _ _)) by lia.
    apply wp_ret, Hgo; by try split.
  - by apply wp_ret, (Hgo (expand_mult b)).
Qed.

Lemma wp_expand_all nb old ols new ls t (Q : list UT_hash_bucket -> htable -> Prop) :
  Forall2 (bucket_ok (t_hh t)) old ols -> spread (t_hh t) new ls nb (concat ols) ->
  nb = u32 (num_buckets (t_tbl t) * 2) -> size_ok nb -> 1 <= ideal_chain_maxlen (t_tbl t) ->
  (forall new' ls' t', spread (t_hh t') new' ls' nb [] -> moved t t' -> sizes t' = sizes t ->
     concat ls' ≡ₚ concat ols ++ concat ls -> Q new' t') ->
  wp (expand_all old new) Q no_fault t.
Proof.
  revert ols new ls t.
  induction old as [|b old IH]; intros ols new ls t Hall Hsp Hnb Hsz Hid HQ.
  { apply Forall2_nil_inv_l in Hall as ->. by apply wp_ret, (HQ new ls t). }
  apply Forall2_cons_inv_l in Hall as (l & ols' & (Hh & Hc & Hl) & Hall & ->).
  cbn [expand_all concat] in *. apply wp_bind. rewrite Hh.
  eapply (wp_expand_chain nb); [exact Hsp|by eapply chain_nexts|done|done|done|rewrite Hc; lia|].
  intros new1 ls1 t1 Hsp1 Hmv1 Hsize1 Hlinks1 Hp1. injection Hsize1 as Hs1 Hs2 Hs3.
  apply (IH ols' new1 ls1); [|done|by rewrite Hs1|done|by rewrite Hs3|].
  - apply Forall2_same_length_lookup. apply Forall2_same_length_lookup in Hall as [Hlen Hall].
    split; [done|]. intros i b' l' Hb' Hl'. eapply bucket_ok_ext; [|by eapply Hall].
    intros m Hm. apply Hlinks1. apply (elem_of_concat_at _ _ _ _ Hl') in Hm.
    pose proof (sp_once _ _ _ _ _ Hsp) as (_ & Hd & (_ & Hd2 & _)%NoDup_app)%NoDup_app.
    rewrite not_elem_of_app. split; intros Hx; [by apply (Hd2 m)|].
    apply (Hd m Hx), elem_of_app. by right.
  - intros new' ls' t' Hsp2 Hmv2 Hsize2 Hp2. apply (HQ new' ls' t'); [done| | |].
    + by eapply moved_trans.
    + rewrite Hsize2. unfold sizes. congruence.
    + rewrite Hp2, Hp1, <- app_assoc. rewrite app_assoc. rewrite (Permutation_app_comm (concat ols') l).
      by rewrite <- app_assoc.
Qed.

(** The buckets of a table hold the lists [ls]; [rest] is still to be put in. *)
Record buckets_ok (t : htable) (ls : list (list nat)) (rest : list nat) : Prop := {
  bk_log : 5 <= log2_num_buckets (t_tbl t) <= 31;
  bk_num : num_buckets (t_tbl t) = 2 ^ log2_num_buckets (t_tbl t);
  bk_spread : spread (t_hh t) (buckets (t_tbl t)) ls (num_buckets (t_tbl t)) rest }.

Lemma bk_size t ls rest : buckets_ok t ls rest -> size_ok (num_buckets (t_tbl t)).
Proof. intros [Hl Hn _]. exists (log2_num_buckets (t_tbl t)). split; [lia|done]. Qed.

(** Empty buckets *)
Lemma concat_empty k : concat (replicate k (@nil nat)) = [].
Proof. by induction k as [|k IH]; [|exact IH]. Qed.

Lemma spread_empty hh k rest :
  NoDup rest -> zlen rest < 2 ^ 32 ->
  spread hh (replicate k bucket0) (replicate k []) (Z.of_nat k) rest.
Proof.
  intros Hnd Hlen. split.
  - by rewrite length_replicate.
  - apply Forall2_replicate. by split_and!.
  - by rewrite concat_empty.
  - intros i l n Hl Hn. apply lookup_replicate in Hl as [-> _]. by apply elem_of_nil in Hn.
  - by rewrite concat_empty.
Qed.

Lemma ideal_positive n k :
  1 <= n < 2 ^ 32 -> 0 <= k ->
  1 <= u32 (Z.shiftr n (k + 1) + (if Z.land n (2 ^ (k + 1) - 1) =? 0 then 0 else 1)).
Proof.
  intros Hn Hk. change (2 ^ 32) with 4294967296 in Hn.
  assert (Hp : 2 <= 2 ^ (k + 1)).
  { change 2 with (2 ^ 1) at 1. apply Z.pow_le_mono_r; lia. }
  replace (2 ^ (k + 1) - 1) with (Z.ones (k + 1)) by (rewrite Z.ones_equiv; lia).
  rewrite Z.land_ones, Z.shiftr_div_pow2 by lia.
  pose proof (Z.div_mod n (2 ^ (k + 1)) ltac:(lia)) as E.
  pose proof (Z.mod_pos_bound n (2 ^ (k + 1)) ltac:(lia)).
  assert (Hq : 0 <= n / 2 ^ (k + 1) < 2147483648 + 1).
  { split; [apply Z.div_pos; lia|]. apply Z.div_lt_upper_bound; [lia|]. nia. }
  case_match eqn:Em; [apply Z.eqb_eq in Em|]; rewrite u32_small by lia; [|lia].
  rewrite Em in E. destruct (Z.eq_dec (n / 2 ^ (k + 1)) 0) as [E0|]; [rewrite E0 in E; lia|lia].
Qed.

Lemma wp_uthash_malloc {A} (k : bool -> M htable A) Q E t :
  memory_available (t_alloc t) ->
  (forall a, memory_available a -> wp (k true) Q E (t <| t_alloc := a |>)) ->
  wp (let* ok := uthash_malloc in k ok) Q E t.
Proof.
  intros Ha Hk. apply wp_bind. unfold uthash_malloc. apply wp_bind, wp_zoom.
  eapply wp_ok; [by apply malloc_available|]. apply wp_ret, Hk. by apply memory_available_next; [|lia].
Qed.

Lemma wp_HASH_EXPAND_BUCKETS t ls (Q : bool -> htable -> Prop) :
  buckets_ok t ls [] -> log2_num_buckets (t_tbl t) <= 30 -> 1 <= num_items (t_tbl t) < 2 ^ 32 ->
  memory_available (t_alloc t) ->
  (forall t' ls', buckets_ok t' ls' [] -> moved t t' -> concat ls' ≡ₚ concat ls -> Q true t') ->
  wp HASH_EXPAND_BUCKETS Q no_fault t.
Proof.
  intros Hok Hroom Hn Ha HQ. pose proof Hok as [Hlog Hnum [Hlen Hall Hnd _ Hsmall]].
  set (k := log2_num_buckets (t_tbl t)) in *.
  assert (H2 : u32 (num_buckets (t_tbl t) * 2) = 2 ^ (k + 1)).
  { rewrite Z.pow_add_r, Hnum by lia. assert (2 ^ k <= 2 ^ 30) by (apply Z.pow_le_mono_r; lia).
    change (2 ^ 30) with 1073741824 in *. pose proof (Z.pow_pos_nonneg 2 k). rewrite u32_small; lia. }
  assert (Hk : u32 (k + 1) = k + 1) by (rewrite u32_small; lia).
  assert (Hpos : 0 < 2 ^ (k + 1) <= 2 ^ 31).
  { split; [apply Z.pow_pos_nonneg; lia|apply Z.pow_le_mono_r; lia]. }
  change (2 ^ 31) with 2147483648 in Hpos.
  unfold HASH_EXPAND_BUCKETS. apply wp_uthash_malloc; [done|]. intros a Ha'. cbv iota.
  apply wp_bind, wp_gets, wp_bind, wp_modify, wp_bind. cbn [t_tbl update t_alloc].
  rewrite app_nil_r in Hnd, Hsmall.
  eapply (wp_expand_all (2 ^ (k + 1)) _ ls _ (replicate (Z.to_nat (2 * num_buckets (t_tbl t))) []));
    [exact Hall| | | | |].
  - cbn [t_hh update]. replace (2 ^ (k + 1)) with (Z.of_nat (Z.to_nat (2 * num_buckets (t_tbl t)))).
    + by apply spread_empty.
    + rewrite Z.pow_add_r, <- Hnum by lia. pose proof (Z.pow_pos_nonneg 2 k). lia.
  - cbn. by rewrite H2.
  - exists (k + 1). split; [lia|done].
  - cbn -[Z.land Z.shiftr]. fold k. rewrite Hk, H2, (u32_small (2 ^ (k + 1) - 1)) by lia.
    apply ideal_positive; [done|lia].
  - intros new ls' t' Hsp Hmv Hsize Hp. apply wp_bind, wp_modify, wp_bind, wp_modify, wp_ret.
    cbn [t_tbl update]. rewrite concat_empty, app_nil_r in Hp. injection Hsize as Hs1 Hs2 Hs3.
    cbn [t_tbl update num_buckets log2_num_buckets] in Hs1, Hs2. fold k in Hs2.
    destruct (1 <? ineff_expands _); (apply (HQ _ ls'); [| |done]);
      [|by destruct Hmv; split|..|by destruct Hmv; split];
      split; cbn -[u32]; rewrite ?Hs1, ?Hs2, ?H2, ?Hk; (done || lia).
Qed.

(** ** Taking an element out *)

Definition unlink (p q : option nat) (hh : handles) : handles :=
  set_handle_at q (fun h => h <| hh_prev := p |>) (set_handle_at p (fun h => h <| hh_next := q |>) hh).

Lemma unlink_static p q hh : same_static hh (unlink p q hh).
Proof.
  intros m. unfold unlink. rewrite !set_handle_at_lookup. by repeat case_decide.
Qed.

Lemma unlink_links p q hh m :
  (q = p -> p = None) ->
  bkt_links (unlink p q hh) m =
  if decide (Some m = q) then (bkt_links hh m) <| UtHash.hh_prev := p |>
  else if decide (Some m = p) then (bkt_links hh m) <| UtHash.hh_next := q |> else bkt_links hh m.
Proof.
  intros Hpq. unfold bkt_links, unlink. rewrite !set_handle_at_lookup.
  repeat case_decide; try done. assert (E : q = p) by congruence. pose proof (Hpq E). congruence.
Qed.

(** The neighbours of an element *)
Lemma neighbours l1 n l2 m :
  NoDup (l1 ++ n :: l2) -> Some m = first_or l2 None \/ Some m = last_or None l1 -> m ∈ l1 ++ l2.
Proof.
  intros _ [E|E]; apply elem_of_app.
  - symmetry in E. apply first_or_in in E as [|]; [done|by right].
  - symmetry in E. apply last_or_in in E as [|]; [done|by left].
Qed.

Lemma neighbours_distinct l1 n l2 :
  NoDup (l1 ++ n :: l2) -> first_or l2 None = last_or None l1 -> last_or None l1 = None.
Proof.
  intros (_ & Hd & _)%NoDup_app E. destruct (last_or None l1) as [m|] eqn:El; [|done].
  apply last_or_in in El as [|Hm]; [done|]. apply first_or_in in E as [|Hm']; [done|].
  destruct (Hd m Hm). by right.
Qed.

Lemma spread_remove hh bs ls nb n i b la lb :
  spread hh bs ls nb [] -> bs !! i = Some b -> ls !! i = Some (la ++ n :: lb) ->
  spread (unlink (last_or None la) (first_or lb None) hh)
    (<[i := (if bool_decide (hh_head b = Some n) then b <| count := u32 (count b - 1) |>
               <| hh_head := first_or lb None |> else b <| count := u32 (count b - 1) |>)]> bs)
    (<[i := la ++ lb]> ls) nb [] /\
  n :: concat (<[i := la ++ lb]> ls) ≡ₚ concat ls.
Proof.
  intros [Hlen Hall Hnd Hwhere Hsmall] Hb Hl. rewrite app_nil_r in Hnd, Hsmall.
  assert (Hp : n :: concat (<[i := la ++ lb]> ls) ≡ₚ concat ls).
  { pose proof (concat_replace ls i _ (la ++ lb) Hl) as Hp.
    apply (Permutation_app_inv_r (la ++ lb)). rewrite <- Hp. cbn.
    by rewrite <- !Permutation_middle. }
  split; [|done].
  pose proof (NoDup_concat_at _ _ _ Hnd Hl) as Hndl.
  assert (Hpq : first_or lb None = last_or None la -> last_or None la = None).
  { by apply (neighbours_distinct la n). }
  split.
  - by rewrite length_insert.
  - apply Forall2_same_length_lookup. pose proof (Forall2_length _ _ _ Hall).
    split; [by rewrite !length_insert|]. intros j b' l' Hb' Hl'.
    destruct (decide (j = i)) as [->|Hj].
    + rewrite list_lookup_insert_eq in Hb' by (by eapply lookup_lt_Some). injection Hb' as <-.
      rewrite list_lookup_insert_eq in Hl' by (by eapply lookup_lt_Some). injection Hl' as <-.
      destruct (Forall2_lookup_lr _ _ _ _ _ _ Hall Hb Hl) as (Hh & Hc & Hch). split_and!.
      * rewrite Hh. destruct la as [|x la]; cbn [app first_or].
        -- by rewrite bool_decide_eq_true_2.
        -- rewrite bool_decide_eq_false_2; [done|]. intros [= ->].
           apply NoDup_cons in Hndl as [Hx _]. apply Hx, elem_of_app. right. by left.
      * pose proof (length_concat_at _ _ _ Hl) as Hle. rewrite !length_app in *. cbn [length] in *.
        case_bool_decide; cbn [count update]; rewrite Hc, u32_small; lia.
      * eapply chain_remove; [exact Hndl|exact Hch|]. intros m _. by apply unlink_links.
    + rewrite list_lookup_insert_ne in Hb' by done. rewrite list_lookup_insert_ne in Hl' by done.
      eapply bucket_ok_ext; [|by eapply (Forall2_lookup_lr _ _ _ _ _ _ Hall)].
      intros m Hm. assert (Hout : m ∉ la ++ lb).
      { intros Hin. apply Hj. eapply (concat_disjoint ls j i l' _ m Hnd Hl' Hl Hm).
        rewrite elem_of_app in *. rewrite elem_of_cons. tauto. }
      rewrite unlink_links by done. rewrite !decide_False; [done| |];
        intros E; apply Hout, (neighbours la n lb); auto.
  - rewrite app_nil_r. rewrite <- Hp in Hnd. by apply NoDup_cons in Hnd as [_ ?].
  - intros j l' m Hl' Hm. rewrite (same_static_hashv _ _ _ (unlink_static _ _ _)).
    destruct (decide (j = i)) as [->|Hj].
    + rewrite list_lookup_insert_eq in Hl' by (by eapply lookup_lt_Some). injection Hl' as <-.
      eapply Hwhere; [done|]. rewrite elem_of_app in *. rewrite elem_of_cons. tauto.
    + rewrite list_lookup_insert_ne in Hl' by done. by eapply Hwhere.
  - rewrite app_nil_r. rewrite <- Hp in Hsmall. cbn [length] in Hsmall. lia.
Qed.
