(* ===== verification/UtTableSpec.v ===== *)
(** * uthash.h: the theorems about the whole table

    [HASH_ADD_PTR] and [HASH_DEL] do to the application order what [UtHash]
    says, and keep every element in the bucket of its hash value; so a lookup
    finds the elements whose keys have not changed since they were added. *)

From S2P Require Import Prelude.
From S2P Require Import UtHash.
From S2P Require Import UtTable.
From S2P Require Import UtTableFacts.

(** ** The view of [UtHash] *)

Definition app_view (t : htable) : ut_hash := {|
  ut_head := t_head t; ut_tail := tail (t_tbl t); ut_num_items := num_items (t_tbl t);
  ut_hh := app_links <$> t_hh t |}.

(** Tables that cannot be told apart through their handles *)
#[export] Instance ut_hash_equiv : Equiv ut_hash := fun u v =>
  ut_head u = ut_head v /\ ut_tail u = ut_tail v /\ ut_num_items u = ut_num_items v /\
  forall n, hh_of u n = hh_of v n.

#[export] Instance ut_hash_equivalence : Equivalence (≡@{ut_hash}).
Proof.
  split.
  - intros u. by split_and!.
  - intros u v (? & ? & ? & ?). by split_and!.
  - intros u v w (? & ? & ? & Huv) (? & ? & ? & Hvw). split_and!; [congruence..|].
    intros n. by rewrite Huv.
Qed.

#[export] Instance represents_proper : Proper ((≡@{ut_hash}) ==> eq ==> iff) represents.
Proof.
  assert (H : forall u v l, u ≡ v -> represents u l -> represents v l).
  { intros u v l (Hh & Ht & Hn & Hl) (Hnd & Hhead & Htail & Hch). split_and!; [done|congruence| |].
    - intros Hne. rewrite <- Ht, <- Hn. by apply Htail.
    - eapply chain_ext; [|exact Hch]. intros n _. by rewrite Hl. }
  intros u v E l l' <-. split; apply H; [done|by symmetry].
Qed.

Lemma hh_of_view t n : hh_of (app_view t) n = app_links (t_hh t !!! n).
Proof.
  unfold hh_of, app_view. cbn. rewrite !lookup_total_alt, lookup_fmap. by destruct (t_hh t !! n).
Qed.

Lemma app_links_static h h' : static h = static h' -> app_links h = app_links h'.
Proof. intros [= H1 H2]. unfold app_links. by rewrite H1, H2. Qed.

Lemma moved_view t t' : moved t t' -> app_view t' ≡ app_view t.
Proof.
  intros []. split_and!; [done..|]. intros n. rewrite !hh_of_view.
  by apply app_links_static, mv_static.
Qed.

(** ** Well-formed tables *)

Definition keyed (t : htable) (n : nat) : Prop :=
  key (t_hh t !!! n) = Some n /\ keylen (t_hh t !!! n) = Z.of_nat ptr_size.

(** The key of an element is still the one it was hashed under. *)
Definition settled (t : htable) (n : nat) : Prop :=
  hashv (t_hh t !!! n) = HASH_JEN (itself_of n t).

(** There is room for twice the buckets, or no more are wanted. *)
Definition roomy (t : htable) : Prop :=
  log2_num_buckets (t_tbl t) <= 30 \/ noexpand (t_tbl t) = 1.

Record table_ok (t : htable) (l : list nat) : Prop := {
  tk_order : represents (app_view t) l;
  tk_buckets : l <> [] -> exists ls, buckets_ok t ls [] /\ concat ls ≡ₚ l;
  tk_keyed n : n ∈ l -> keyed t n }.

Lemma keyed_static t t' n : same_static (t_hh t) (t_hh t') -> keyed t n -> keyed t' n.
Proof. intros Hs. pose proof (Hs n) as [= _ _ H1 H2 _]. unfold keyed. by rewrite H1, H2. Qed.

Lemma settled_moved t t' n : moved t t' -> settled t n -> settled t' n.
Proof.
  intros [Hi _ Hs _ _]. unfold settled, itself_of. by rewrite Hi, (same_static_hashv _ _ _ Hs).
Qed.

(** ** Adding *)

Lemma wp_HASH_ADD_TO_BKT n t ls (Q : bool -> htable -> Prop) :
  buckets_ok t ls [n] -> roomy t -> 1 <= num_items (t_tbl t) < 2 ^ 32 ->
  memory_available (t_alloc t) ->
  (forall t' ls', buckets_ok t' ls' [] -> moved t t' -> concat ls' ≡ₚ n :: concat ls -> Q true t') ->
  wp (HASH_ADD_TO_BKT (HASH_TO_BKT (hashv (t_hh t !!! n)) (num_buckets (t_tbl t))) n) Q no_fault t.
Proof.
  intros Hok Hroom Hn Ha HQ. pose proof (bk_size _ _ _ Hok) as Hsz. pose proof Hok as [Hlog Hnum Hsp].
  destruct (to_bkt_bucket (buckets (t_tbl t)) (hashv (t_hh t !!! n)) Hsz (sp_len _ _ _ _ _ Hsp))
    as (i & b & Hi & Hb). rewrite Hi.
  destruct (spread_push _ _ _ _ _ _ _ _ (expand_mult b) Hsp Hi Hb) as (l & Hl & Hsp').
  pose proof (concat_insert _ _ _ n Hl) as Hp.
  unfold HASH_ADD_TO_BKT. apply wp_bind, wp_gets, wp_bind.
  apply (wp_lift _ b); [unfold bucket_at; by rewrite Nat2Z.id, Hb|]. cbv zeta.
  change (fun h => h <| hh_next := hh_head b |> <| hh_prev := None |>)
    with (fun h => h <| hh_prev := None |> <| hh_next := hh_head b |>).
  apply wp_push, wp_bind, wp_modify. unfold set_bucket. rewrite Nat2Z.id.
  set (t1 := _ <| t_tbl := _ |>).
  assert (Hok1 : buckets_ok t1 (<[i := n :: l]> ls) []) by by split.
  assert (Hmv1 : moved t t1) by (split; try done; apply push_static).
  case_match eqn:Ec.
  - apply andb_true_iff in Ec as [_ Hne]. rewrite negb_true_iff, Z.eqb_neq in Hne.
    apply (wp_HASH_EXPAND_BUCKETS t1 _ _ Hok1); [by destruct Hroom|done|done|].
    intros t' ls' Hok' Hmv' Hp'. apply (HQ t' ls'); [done|by eapply moved_trans|by rewrite Hp', Hp].
  - by apply wp_ret, (HQ t1 (<[i := n :: l]> ls)).
Qed.

(** Handles on which the buckets agree *)
Lemma spread_ext hh hh' bs ls nb rest rest' :
  spread hh bs ls nb rest -> NoDup (concat ls ++ rest') -> zlen (concat ls ++ rest') < 2 ^ 32 ->
  (forall m, m ∈ concat ls -> bkt_links hh' m = bkt_links hh m /\
     hashv (hh' !!! m) = hashv (hh !!! m)) ->
  spread hh' bs ls nb rest'.
Proof.
  intros [] Hnd Hlen Heq. split; [done| |done| |done].
  - apply Forall2_same_length_lookup in sp_all as [Hl Hall]. apply Forall2_same_length_lookup.
    split; [done|]. intros i b l Hb Hl'. eapply bucket_ok_ext; [|by eapply Hall].
    intros m Hm. apply Heq. by eapply elem_of_concat_at.
  - intros i l m Hl Hm. rewrite (proj2 (Heq m ltac:(by eapply elem_of_concat_at))). by eapply sp_where.
Qed.

#[local] Opaque HASH_JEN.

(** What adding [n] to a table of [l] comes to *)
Record added (n : nat) (t : htable) (l : list nat) (t' : htable) : Prop := {
  ad_view : app_view t' ≡ UtHash.HASH_ADD_PTR n (app_view t);
  ad_ok : table_ok t' (l ++ [n]);
  ad_itself : t_itself t' = t_itself t;
  ad_settled m : m = n \/ (m ∈ l /\ settled t m) -> settled t' m }.

Section add.
Context (n : nat) (t : htable) (l : list nat).
Hypothesis Hok : table_ok t l.
Hypothesis Hnew : n ∉ l.
Hypothesis Hlen : zlen l + 1 < 2 ^ 32.

(** The last step, from a state in which [n] is linked and hashed *)
Lemma wp_add_hashed t1 ls (Q : bool -> htable -> Prop) :
  app_view t1 ≡ UtHash.HASH_ADD_PTR n (app_view t) -> t_itself t1 = t_itself t ->
  (forall m, m ∈ l -> key (t_hh t1 !!! m) = key (t_hh t !!! m) /\
     keylen (t_hh t1 !!! m) = keylen (t_hh t !!! m) /\ hashv (t_hh t1 !!! m) = hashv (t_hh t !!! m)) ->
  keyed t1 n -> settled t1 n ->
  buckets_ok t1 ls [n] -> concat ls ≡ₚ l -> roomy t1 -> memory_available (t_alloc t1) ->
  (forall t', added n t l t' -> Q true t') ->
  wp (HASH_ADD_TO_BKT (HASH_TO_BKT (hashv (t_hh t1 !!! n)) (num_buckets (t_tbl t1))) n) Q no_fault t1.
Proof using All.
  intros Hview Hself Hsame Hkey Hset Hbk Hls Hroom Ha HQ.
  assert (Hr1 : represents (app_view t1) (l ++ [n])).
  { rewrite Hview. by apply HASH_ADD_run_correct; [apply Hok| |]. }
  assert (Hnum : num_items (t_tbl t1) = zlen (l ++ [n])).
  { destruct Hr1 as (_ & _ & Ht & _). destruct Ht as [_ Ht]; [by destruct l|]. exact Ht. }
  apply (wp_HASH_ADD_TO_BKT n t1 ls Q Hbk Hroom); [|done|].
  { rewrite Hnum, length_app. cbn. lia. }
  intros t' ls' Hbk' Hmv Hp. apply HQ. pose proof (mv_itself _ _ Hmv) as Hself'. split.
  - etrans; [by apply moved_view|exact Hview].
  - split.
    + by rewrite (moved_view _ _ Hmv).
    + intros _. exists ls'. split; [done|]. rewrite Hp, Hls. by rewrite Permutation_app_comm.
    + intros m Hm. eapply keyed_static; [by apply Hmv|]. apply elem_of_app in Hm as [Hm|Hm].
      * destruct (Hsame m Hm) as (E1 & E2 & _). unfold keyed. rewrite E1, E2. by apply Hok.
      * by apply list_elem_of_singleton in Hm as ->.
  - congruence.
  - intros m [->|[Hm Hs]]; [by eapply settled_moved|]. eapply settled_moved; [done|].
    unfold settled, itself_of in *. rewrite Hself. by rewrite (proj2 (proj2 (Hsame m Hm))).
Qed.

Lemma not_last tl : last_or None l = Some tl -> tl <> n.
Proof using Hnew. intros E ->. apply last_or_in in E as [|]; done. Qed.

(** The buckets after the linking, which leaves them alone *)
Lemma linked_buckets ls t1 :
  buckets_ok t ls [] -> concat ls ≡ₚ l ->
  sizes t1 = sizes t -> buckets (t_tbl t1) = buckets (t_tbl t) ->
  (forall m, m ∈ l -> bkt_links (t_hh t1) m = bkt_links (t_hh t) m /\
     hashv (t_hh t1 !!! m) = hashv (t_hh t !!! m)) ->
  buckets_ok t1 ls [n].
Proof using Hnew Hlen.
  intros [Hlog Hnum Hsp] Hp [= H1 H2 H3] Hb Hsame.
  split; [by rewrite H2|by rewrite H1, H2|]. rewrite H1, Hb. eapply spread_ext; [exact Hsp| | |].
  - rewrite Hp, Permutation_app_comm. cbn. apply NoDup_cons. split; [done|].
    rewrite <- Hp. pose proof (sp_once _ _ _ _ _ Hsp) as Hnd. by rewrite app_nil_r in Hnd.
  - rewrite Hp, length_app. cbn. lia.
  - intros m Hm. apply Hsame. by rewrite <- Hp.
Qed.

End add.

(** *** Steps on a state given by its fields *)

Section steps.
Context (a : alloc) (s : gmap nat (list Z)) (h : option nat) (hh : handles) (tb : UT_hash_table).
Abbreviation st := (Build_htable a s h hh tb).

Lemma wp_on_hh n f (Q : unit -> htable -> Prop) E :
  Q tt (Build_htable a s h (set_handle n f hh) tb) -> wp (on_hh n f) Q E st.
Proof. done. Qed.

Lemma wp_on_hh_at p f (Q : unit -> htable -> Prop) E :
  Q tt (Build_htable a s h (set_handle_at p f hh) tb) -> wp (on_hh_at p f) Q E st.
Proof. by destruct p. Qed.

Lemma wp_on_tbl f (Q : unit -> htable -> Prop) E :
  Q tt (Build_htable a s h hh (f tb)) -> wp (on_tbl f) Q E st.
Proof. done. Qed.

Lemma wp_set_head h' (Q : unit -> htable -> Prop) E :
  Q tt (Build_htable a s h' hh tb) -> wp (modify (fun t => t <| t_head := h' |>)) Q E st.
Proof. done. Qed.

Lemma wp_malloc_on {A} (k : bool -> M htable A) Q E :
  memory_available a ->
  (forall a', memory_available a' -> wp (k true) Q E (Build_htable a' s h hh tb)) ->
  wp (let* ok := uthash_malloc in k ok) Q E st.
Proof. intros Ha Hk. by apply wp_uthash_malloc. Qed.

End steps.

Lemma wp_HASH_MAKE_TABLE a s h hh tb n (Q : bool -> htable -> Prop) E :
  memory_available a ->
  (forall a', memory_available a' -> Q true (Build_htable a' s h hh {|
     buckets := replicate 32 bucket0; num_buckets := 32; log2_num_buckets := 5; num_items := 0;
     tail := Some n; ideal_chain_maxlen := 0; nonideal_items := 0; ineff_expands := 0;
     noexpand := 0 |})) ->
  wp (HASH_MAKE_TABLE n) Q E (Build_htable a s h hh tb).
Proof.
  intros Ha HQ. unfold HASH_MAKE_TABLE. apply wp_malloc_on; [done|]. intros a1 Ha1. cbv iota.
  apply wp_bind. apply wp_on_tbl. apply wp_malloc_on; [done|]. intros a2 Ha2. cbv iota.
  apply wp_bind, wp_on_tbl, wp_ret. by apply HQ.
Qed.

Lemma wp_add_first n t (Q : bool -> htable -> Prop) :
  table_ok t [] -> memory_available (t_alloc t) ->
  (forall t', added n t [] t' -> Q true t') -> wp (HASH_ADD_PTR n) Q no_fault t.
Proof.
  intros Hok Ha HQ. pose proof Hok as [Hrep _ _]. pose proof Hrep as (_ & Hhead & _).
  assert (Hnew : n ∉ []) by by intros ?%elem_of_nil.
  destruct (add_fields _ _ n Hrep eq_refl) as (Hh & Ht & Hi).
  destruct t as [a s h hh tb]. cbn [t_alloc app_view ut_head t_head first_or] in *. subst h.
  unfold HASH_ADD_PTR. apply wp_bind, wp_on_hh, wp_bind, wp_gets. cbn [t_head].
  apply wp_bind, wp_bind, wp_set_head, wp_bind, wp_on_hh, wp_HASH_MAKE_TABLE; [done|].
  intros a' Ha'. apply wp_bind, wp_on_tbl, wp_bind, wp_gets, wp_bind, wp_on_hh, wp_bind, wp_gets.
  change (itself_of n _) with (default null_ptr (s !! n)).
  set (v := HASH_JEN _). set (t1 := Build_htable _ _ _ _ _).
  assert (Hall : forall m, t_hh t1 !!! m = if decide (m = n) then
    (hh !!! n) <| prev := None |> <| next := None |> <| key := Some n |>
      <| keylen := Z.of_nat ptr_size |> <| hashv := v |> else hh !!! m).
  { intros m. unfold t1. cbn [t_hh]. rewrite !set_handle_lookup. repeat case_decide; by subst. }
  assert (Hset : settled t1 n) by (unfold settled; by rewrite Hall, decide_True).
  replace v with (hashv (t_hh t1 !!! n)) by exact Hset.
  change (num_buckets _) with (num_buckets (t_tbl t1)).
  apply (wp_add_hashed n _ _ Hok Hnew eq_refl t1 (replicate 32 [])); try done.
  - split_and!; [by rewrite Hh|by rewrite Ht|by rewrite Hi|]. intros m.
    rewrite hh_of_view, hh_of_add_first, Hall by done. rewrite hh_of_view. by case_decide.
  - by intros m ?%elem_of_nil.
  - by split; rewrite Hall, decide_True.
  - split; [cbn; lia|done|]. apply (spread_empty _ 32); [apply NoDup_singleton|done].
  - left. cbn. lia.
Qed.

Lemma wp_add_next n t l (Q : bool -> htable -> Prop) :
  table_ok t l -> l <> [] -> n ∉ l -> zlen l + 1 < 2 ^ 32 -> roomy t -> memory_available (t_alloc t) ->
  (forall t', added n t l t' -> Q true t') -> wp (HASH_ADD_PTR n) Q no_fault t.
Proof.
  intros Hok Hne Hnew Hlen Hroom Ha HQ. pose proof Hok as [Hrep Hbk _].
  pose proof Hrep as (_ & Hhead & Htail & _). destruct (Htail Hne) as [Htl Hnum].
  destruct (Hbk Hne) as (ls & Hbks & Hls).
  destruct (add_fields _ _ n Hrep Hlen) as (Hh & Ht & Hi). rewrite length_app in Hi.
  destruct (last_or None l) as [tl|] eqn:Etl; [|by destruct l; [|apply last_or_some in Etl]].
  pose proof (not_last n _ Hnew _ Etl) as Htn. destruct (first_or l None) as [h0|] eqn:Eh; [|by destruct l].
  destruct t as [a s h hh tb]. cbn [t_alloc app_view ut_head ut_tail ut_num_items t_tbl t_head] in *. subst h.
  unfold HASH_ADD_PTR. apply wp_bind, wp_on_hh, wp_bind, wp_gets. cbn [t_head].
  apply wp_bind, wp_bind, wp_gets. cbn [t_tbl]. rewrite Htl.
  apply wp_bind, wp_on_hh, wp_bind, wp_on_hh, wp_bind, wp_on_tbl, wp_ret.
  apply wp_bind, wp_on_tbl, wp_bind, wp_gets, wp_bind, wp_on_hh, wp_bind, wp_gets.
  change (itself_of n _) with (default null_ptr (s !! n)).
  set (v := HASH_JEN _). set (t1 := Build_htable _ _ _ _ _).
  assert (Hall : forall m, t_hh t1 !!! m = if decide (m = n) then
    (hh !!! n) <| prev := Some tl |> <| next := None |> <| key := Some n |>
      <| keylen := Z.of_nat ptr_size |> <| hashv := v |>
    else if decide (m = tl) then (hh !!! tl) <| next := Some n |> else hh !!! m).
  { intros m. unfold t1. cbn [t_hh]. rewrite !set_handle_lookup. repeat case_decide; by subst. }
  assert (Hset : settled t1 n) by (unfold settled; by rewrite Hall, decide_True).
  replace v with (hashv (t_hh t1 !!! n)) by exact Hset.
  change (num_buckets _) with (num_buckets (t_tbl t1)).
  apply (wp_add_hashed n _ _ Hok Hnew Hlen t1 ls); try done.
  - split_and!; [rewrite Hh; by destruct l|by rewrite Ht|rewrite Hi|].
    + change (u32 (num_items tb + 1) = Z.of_nat (length l + 1)). change (2 ^ 32) with 4294967296 in Hlen.
      rewrite Hnum, u32_small; lia.
    + intros m. rewrite hh_of_view, (hh_of_add _ h0 tl), Hall, !hh_of_view by (done || by rewrite Htl).
      by repeat case_decide.
  - intros m Hm. rewrite Hall, decide_False by (by intros ->). by case_decide; subst.
  - by split; rewrite Hall, decide_True.
  - eapply linked_buckets; [done|done|exact Hbks|done|done|done|]. intros m Hm.
    unfold bkt_links. rewrite Hall, decide_False by (by intros ->). by case_decide; subst.
Qed.

Lemma HASH_ADD_PTR_run n t l :
  table_ok t l -> n ∉ l -> zlen l + 1 < 2 ^ 32 -> (l <> [] -> roomy t) ->
  memory_available (t_alloc t) ->
  exists t', HASH_ADD_PTR n t = Ok (true, t') /\ added n t l t'.
Proof.
  intros Hok Hnew Hlen Hroom Ha.
  assert (Hwp : wp (HASH_ADD_PTR n) (fun ok t' => ok = true /\ added n t l t') no_fault t).
  { destruct (decide (l = [])) as [->|Hne]; [by apply wp_add_first|].
    apply (wp_add_next n t l); auto. }
  apply wp_elim in Hwp as (ok & t' & Hrun & -> & Had). by exists t'.
Qed.

(** C25: adding an element that is not in the table puts it last in the
    application order, as [UtHash] has it, and into the bucket of its hash
    value, doubling the buckets when that one has grown too long; the elements
    whose keys had not changed since they were hashed are still such. *)
Theorem HASH_ADD_PTR_refines n t l :
  table_ok t l -> n ∉ l -> zlen l + 1 < 2 ^ 32 ->
  (l <> [] -> roomy t) -> memory_available (t_alloc t) ->
  exists t', HASH_ADD_PTR n t = Ok (true, t') /\
    app_view t' ≡ UtHash.HASH_ADD_PTR n (app_view t) /\ table_ok t' (l ++ [n]) /\
    t_itself t' = t_itself t /\ settled t' n /\ forall m, m ∈ l -> settled t m -> settled t' m.
Proof.
  intros Hok Hnew Hlen Hroom Ha.
  destruct (HASH_ADD_PTR_run n t l Hok Hnew Hlen Hroom Ha) as (t' & Hrun & [Hv Ht Hi Hs]).
  exists t'. split_and!; [done..|by apply Hs; left|]. intros m Hm Hms. apply Hs. by right.
Qed.

(** ** Deleting *)

(** What deleting [n] comes to, with [l] the elements left *)
Record removed (n : nat) (t : htable) (l : list nat) (t' : htable) : Prop := {
  rm_view : exists u, UtHash.HASH_DEL n (app_view t) = Ok u /\ app_view t' ≡ u;
  rm_ok : table_ok t' l;
  rm_itself : t_itself t' = t_itself t;
  rm_settled m : m ∈ l -> settled t m -> settled t' m }.

Lemma wp_HASH_DEL_IN_BKT n t ls (Q : unit -> htable -> Prop) E :
  buckets_ok t ls [] -> n ∈ concat ls ->
  (forall t' ls', buckets_ok t' ls' [] -> moved t t' -> n :: concat ls' ≡ₚ concat ls -> Q tt t') ->
  wp (HASH_DEL_IN_BKT (HASH_TO_BKT (hashv (t_hh t !!! n)) (num_buckets (t_tbl t))) n) Q E t.
Proof.
  intros [Hlog Hnum Hsp] Hn HQ. pose proof Hsp as [_ Hall _ Hwhere _].
  rewrite list_elem_of_In, in_concat in Hn. destruct Hn as (l & Hl & Hn).
  apply list_elem_of_In, list_elem_of_lookup in Hl as [i Hl]. apply list_elem_of_In in Hn.
  rewrite (Hwhere i l n Hl Hn). destruct (Forall2_lookup_r _ _ _ _ _ Hall Hl) as (b & Hb & Hok).
  apply list_elem_of_split in Hn as (la & lb & ->). pose proof Hok as (_ & _ & Hch).
  destruct (spread_remove _ _ _ _ n _ _ la lb Hsp Hb Hl) as [Hsp' Hp].
  apply chain_app in Hch as [_ (Hprev & Hnext & _)]. cbn in Hprev, Hnext.
  destruct t as [a s h hh tb]. cbn [t_hh t_tbl] in *.
  unfold HASH_DEL_IN_BKT. apply wp_bind, wp_gets, wp_bind.
  apply (wp_lift _ b); [unfold bucket_at; cbn [t_tbl]; by rewrite Nat2Z.id, Hb|].
  apply wp_bind, wp_gets. cbv zeta. cbn [t_hh]. rewrite Hprev, Hnext.
  apply wp_bind, wp_on_tbl, wp_bind, wp_on_hh_at, wp_on_hh_at.
  unfold set_bucket. rewrite Nat2Z.id. eapply HQ; [|split; try done|exact Hp].
  - split; [done|done|]. exact Hsp'.
  - apply unlink_static.
Qed.

Section delete.
Context (n : nat) (t : htable) (l1 l2 : list nat).
Hypothesis Hok : table_ok t (l1 ++ n :: l2).
Hypothesis Hlen : zlen (l1 ++ n :: l2) < 2 ^ 32.

Lemma member_links :
  prev (t_hh t !!! n) = last_or None l1 /\ next (t_hh t !!! n) = first_or l2 None /\
  t_head t = first_or (l1 ++ n :: l2) None.
Proof using Hok.
  destruct Hok as [(_ & Hhead & _ & Hch) _ _]. apply chain_app in Hch as [_ (Hprev & Hnext & _)].
  rewrite hh_of_view in Hprev, Hnext. by split_and!.
Qed.

(** The handles once the neighbours are linked *)
Definition relink (p q : option nat) (hh : handles) : handles :=
  set_handle_at q (fun h => h <| prev := p |>) (set_handle_at p (fun h => h <| next := q |>) hh).

Lemma relink_same p q hh m :
  bkt_links (relink p q hh) m = bkt_links hh m /\
  hashv (relink p q hh !!! m) = hashv (hh !!! m) /\ key (relink p q hh !!! m) = key (hh !!! m) /\
  keylen (relink p q hh !!! m) = keylen (hh !!! m).
Proof using.
  unfold bkt_links, relink. rewrite !set_handle_at_lookup. by repeat case_decide.
Qed.

Lemma relink_app p q hh m :
  (q = p -> p = None) ->
  app_links (relink p q hh !!! m) =
  if decide (Some m = q) then (app_links (hh !!! m)) <| UtHash.hh_prev := p |>
  else if decide (Some m = p) then (app_links (hh !!! m)) <| UtHash.hh_next := q |>
  else app_links (hh !!! m).
Proof using.
  intros Hpq. unfold relink, app_links. rewrite !set_handle_at_lookup.
  repeat case_decide; try done; (assert (E : q = p) by congruence); pose proof (Hpq E); congruence.
Qed.

(** The table once [n] is out of the application order *)
Definition unlinked (p q : option nat) (t : htable) : htable :=
  Build_htable (t_alloc t) (t_itself t) (match p with Some _ => t_head t | None => q end)
    (relink p q (t_hh t))
    (if bool_decide (tail (t_tbl t) = Some n) then (t_tbl t) <| tail := p |> else t_tbl t).

Lemma unlinked_buckets p q t0 ls : buckets_ok t0 ls [] -> buckets_ok (unlinked p q t0) ls [].
Proof using.
  intros [Hlog Hnum Hsp]. unfold unlinked.
  assert (Hext : forall hh', hh' = relink p q (t_hh t0) ->
    spread hh' (buckets (t_tbl t0)) ls (num_buckets (t_tbl t0)) []).
  { intros hh' ->. eapply spread_ext; [exact Hsp|apply Hsp|apply Hsp|].
    intros m _. split; apply relink_same. }
  split; cbn [t_tbl t_hh]; case_bool_decide; try done; by apply Hext.
Qed.

Lemma wp_delete_steps (Q : unit -> htable -> Prop) E h :
  (forall t1, t1 = unlinked (prev h) (next h) t ->
     wp (HASH_DEL_IN_BKT (HASH_TO_BKT (hashv h) (num_buckets (t_tbl t1))) n)
       (fun _ t' => Q tt (t' <| t_tbl := (t_tbl t') <| num_items := u32 (num_items (t_tbl t') - 1) |> |>))
       E t1) ->
  wp (delete_linked n h) Q E t.
Proof using.
  clear Hok Hlen. intros Hwp. specialize (Hwp _ eq_refl). destruct t as [a s h0 hh tb].
  unfold delete_linked.
  apply wp_bind, wp_on_tbl, wp_bind. destruct (prev h) as [p|]; cbn [unlinked] in Hwp.
  - apply wp_on_hh, wp_bind, wp_on_hh_at, wp_bind, wp_gets, wp_bind. exact Hwp.
  - apply wp_set_head, wp_bind, wp_on_hh_at, wp_bind, wp_gets, wp_bind. exact Hwp.
Qed.

Lemma wp_delete_linked (Q : unit -> htable -> Prop) :
  last_or None l1 <> None \/ first_or l2 None <> None ->
  (forall t', removed n t (l1 ++ l2) t' -> Q tt t') ->
  wp (delete_linked n (t_hh t !!! n)) Q no_fault t.
Proof using All.
  intros Hor HQ. destruct member_links as (Hprev & Hnext & Hhead). pose proof Hok as [Hrep Hbk Hkey].
  assert (Hpq : first_or l2 None = last_or None l1 -> last_or None l1 = None).
  { apply (neighbours_distinct l1 n l2), Hrep. }
  destruct (HASH_DEL_run_correct _ _ _ _ Hrep Hlen) as (u & Hdel & Hu).
  destruct (HASH_DEL_run (app_view t) n (last_or None l1) (first_or l2 None))
    as (u' & Hdel' & Hh' & Ht' & Hi' & Hl'); [|rewrite hh_of_view|done|by intros E; apply Hpq|].
  { cbn. rewrite Hhead. by destruct l1. }
  { unfold app_links. by rewrite Hprev, Hnext. }
  rewrite Hdel in Hdel'. injection Hdel' as <-.
  destruct Hbk as (ls & Hbk & Hls); [by destruct l1|].
  apply wp_delete_steps. rewrite Hprev, Hnext. intros t1 Et1.
  assert (Hsame : forall m, hashv (t_hh t1 !!! m) = hashv (t_hh t !!! m) /\
    key (t_hh t1 !!! m) = key (t_hh t !!! m) /\ keylen (t_hh t1 !!! m) = keylen (t_hh t !!! m)).
  { intros m. rewrite Et1. apply relink_same. }
  rewrite <- (proj1 (Hsame n)). apply (wp_HASH_DEL_IN_BKT n t1 ls).
  { rewrite Et1. by apply unlinked_buckets. }
  { rewrite Hls. apply elem_of_app. right. by left. }
  intros t' ls' Hbk' Hmv Hp. apply HQ. set (t2 := _ <| t_tbl := _ |>).
  assert (Hv2 : app_view t2 ≡ u).
  { destruct Hmv. split_and!.
    - rewrite Hh'. cbn. rewrite mv_head, Et1. cbn. by destruct (last_or None l1).
    - rewrite Ht'. cbn. rewrite mv_tail, Et1. cbn. by repeat case_bool_decide.
    - rewrite Hi'. cbn. rewrite mv_items, Et1. cbn. by repeat case_bool_decide.
    - intros m. rewrite hh_of_view, Hl', hh_of_view, <- relink_app by done.
      rewrite (app_links_static _ (t_hh t1 !!! m)) by apply mv_static. by rewrite Et1. }
  split.
  - by exists u.
  - split; [by rewrite Hv2| |].
    + intros _. exists ls'. split; [by destruct Hbk'; split|].
      apply (Permutation_cons_inv (a := n)). rewrite Hp, Hls. by rewrite Permutation_middle.
    + intros m Hm. eapply (keyed_static t1); [apply Hmv|].
      destruct (Hsame m) as (_ & E1 & E2). unfold keyed. rewrite E1, E2. apply Hkey.
      rewrite elem_of_app in *. rewrite elem_of_cons. tauto.
  - destruct Hmv. cbn. by rewrite mv_itself, Et1.
  - intros m _ Hs. apply (settled_moved t1 t' m Hmv).
    unfold settled, itself_of in *. rewrite (proj1 (Hsame m)), Et1. exact Hs.
Qed.

Lemma wp_HASH_DEL (Q : unit -> htable -> Prop) :
  (forall t', removed n t (l1 ++ l2) t' -> Q tt t') -> wp (HASH_DEL n) Q no_fault t.
Proof using All.
  intros HQ. destruct member_links as (Hprev & Hnext & Hhead).
  unfold HASH_DEL. apply wp_bind, wp_gets. rewrite Hhead.
  destruct (first_or (l1 ++ n :: l2) None) as [h0|] eqn:Eh; [|by destruct l1].
  apply wp_bind, wp_gets.
  destruct (decide (last_or None l1 = None /\ first_or l2 None = None)) as [[E1 E2]|Hne]; cycle 1.
  { assert (Hor : last_or None l1 <> None \/ first_or l2 None <> None).
    { destruct (last_or None l1); [by left|right]. intros E. by apply Hne. }
    pose proof (wp_delete_linked Q Hor HQ) as Hwp. rewrite Hprev, Hnext.
    destruct (last_or None l1), (first_or l2 None); try done. by destruct Hne. }
  rewrite Hprev, Hnext, E1, E2. apply wp_modify, HQ.
  assert (l1 = []) as E1' by (destruct l1; [done|by apply last_or_some in E1]).
  assert (l2 = []) as E2' by by destruct l2.
  destruct (HASH_DEL_run_correct _ _ _ _ (tk_order _ _ Hok) Hlen) as (u & Hdel & Hu).
  assert (Hv : app_view (t <| t_head := None |>) ≡ u).
  { unfold UtHash.HASH_DEL in Hdel. cbn [ut_head app_view] in Hdel. rewrite Hhead in Hdel.
    rewrite hh_of_view in Hdel. unfold app_links in Hdel. rewrite Hprev, Hnext, E1, E2 in Hdel.
    by injection Hdel as <-. }
  rewrite E1', E2'. rewrite E1', E2' in Hu.
  split; [by exists u| |done|by intros m ?%elem_of_nil].
  split; [by rewrite Hv|done|by intros m ?%elem_of_nil].
Qed.
End delete.

Lemma HASH_DEL_member n t l1 l2 :
  table_ok t (l1 ++ n :: l2) -> zlen (l1 ++ n :: l2) < 2 ^ 32 ->
  exists t', HASH_DEL n t = Ok (tt, t') /\ removed n t (l1 ++ l2) t'.
Proof.
  intros Hok Hlen.
  assert (Hwp : wp (HASH_DEL n) (fun _ t' => removed n t (l1 ++ l2) t') no_fault t).
  { by apply (wp_HASH_DEL n t l1 l2). }
  apply wp_elim in Hwp as ([] & t' & Hrun & Hr). by exists t'.
Qed.

(** C37: deleting a member takes it out of the application order, as [UtHash]
    has it, and out of its bucket, and leaves the other elements in theirs. *)
Theorem HASH_DEL_refines n t l1 l2 :
  table_ok t (l1 ++ n :: l2) -> zlen (l1 ++ n :: l2) < 2 ^ 32 ->
  exists t' u, HASH_DEL n t = Ok (tt, t') /\
    UtHash.HASH_DEL n (app_view t) = Ok u /\ app_view t' ≡ u /\ table_ok t' (l1 ++ l2) /\
    t_itself t' = t_itself t /\ forall m, m ∈ l1 ++ l2 -> settled t m -> settled t' m.
Proof.
  intros Hok Hlen. destruct (HASH_DEL_member n t l1 l2 Hok Hlen) as (t' & Hrun & [(u & Hdel & Hv) Ht Hi Hs]).
  exists t', u. by split_and!.
Qed.

(** ** Lookup *)

Lemma find_chain_run fuel r k t :
  nexts (bkt_links (t_hh t)) r -> (forall n, n ∈ r -> keyed t n) -> length k = ptr_size ->
  (length r < fuel)%nat ->
  find_chain fuel (first_or r None) k t =
  Ok (List.find (fun n => bool_decide (itself_of n t = k)) r, t).
Proof.
  intros Hn Hk Hlen. revert fuel Hn Hk.
  induction r as [|n r IH]; intros [|fuel] Hn Hk Hf; cbn [length] in Hf; [lia|done|lia|].
  cbn [first_or find_chain nexts List.find] in *. destruct Hn as [Hnext Hn].
  destruct (Hk n ltac:(by left)) as [Hkey Hkl].
  erewrite bind_ok by reflexivity. rewrite Hkl, Hlen, Z.eqb_refl, Hkey.
  erewrite bind_ok by reflexivity. case_bool_decide; [done|].
  cbn in Hnext. rewrite Hnext. apply IH; [done|intros m Hm; apply Hk; by right|lia].
Qed.

(** What a lookup answers: some member with the key, or that there is none *)
Definition finds (t : htable) (l : list nat) (k : list Z) (r : option nat) : Prop :=
  match r with
  | Some n => n ∈ l /\ itself_of n t = k
  | None => forall n, n ∈ l -> itself_of n t <> k
  end.

Lemma HASH_FIND_PTR_run t l k :
  table_ok t l -> (forall n, n ∈ l -> settled t n) -> length k = ptr_size ->
  exists r, HASH_FIND_PTR k t = Ok (r, t) /\ finds t l k r.
Proof.
  intros [(_ & Hhead & _) Hbk Hkey] Hset Hlen. unfold HASH_FIND_PTR.
  erewrite bind_ok by reflexivity. cbn in Hhead. rewrite Hhead.
  destruct l as [|h l]; [exists None; split; [done|by intros n ?%elem_of_nil]|].
  destruct Hbk as (ls & Hbk & Hls); [done|]. pose proof (bk_size _ _ _ Hbk) as Hsz.
  destruct Hbk as [_ _ [Hbl Hall _ Hwhere _]]. cbn [first_or]. erewrite bind_ok by reflexivity.
  destruct (to_bkt_bucket (buckets (t_tbl t)) (HASH_JEN k) Hsz Hbl) as (i & b & Hi & Hb).
  rewrite Hi. erewrite bind_ok; [|unfold lift, bucket_at; by rewrite Nat2Z.id, Hb]. cbv beta.
  destruct (Forall2_lookup_l _ _ _ _ _ Hall Hb) as (l' & Hl' & Hh & Hc & Hch).
  assert (Hsub : forall n, n ∈ l' -> n ∈ h :: l).
  { intros n Hn. rewrite <- Hls. by eapply elem_of_concat_at. }
  rewrite Hh, (find_chain_run _ l'); [|by eapply chain_nexts|by intros n ?%Hsub; apply Hkey|done|];
    [|rewrite Hc; lia].
  eexists. split; [reflexivity|]. destruct (List.find _ l') as [n|] eqn:Ef; cbn.
  - apply find_some in Ef as [Hin E]. apply bool_decide_eq_true in E.
    split; [|done]. by apply Hsub, list_elem_of_In.
  - intros n Hn E. assert (Hn' : n ∈ l').
    { rewrite <- Hls, list_elem_of_In, in_concat in Hn. destruct Hn as (l'' & Hl'' & Hn).
      apply list_elem_of_In, list_elem_of_lookup in Hl'' as [j Hl'']. apply list_elem_of_In in Hn.
      pose proof (Hwhere j l'' n Hl'' Hn) as Hw.
      rewrite (Hset n), E, Hi in Hw by (rewrite <- Hls; by eapply elem_of_concat_at).
      assert (j = i) as -> by lia. congruence. }
    eapply find_none in Ef; [|by apply list_elem_of_In]. by rewrite bool_decide_eq_false in Ef.
Qed.

(** C39: in a table whose keys have not changed since they were hashed, a
    lookup answers a member with that key, or NULL when there is none; it walks
    one bucket, and changes nothing. *)
Theorem HASH_FIND_PTR_correct t l k :
  table_ok t l -> (forall n, n ∈ l -> settled t n) -> length k = ptr_size ->
  exists r, HASH_FIND_PTR k t = Ok (r, t) /\ finds t l k r.
Proof. apply HASH_FIND_PTR_run. Qed.

(** ** The integrity check *)

Lemma fsck_chain_run fuel p l q c t :
  chain (bkt_links (t_hh t)) p l q -> q = None -> (length l < fuel)%nat -> 0 <= c ->
  c + zlen l < 2 ^ 32 ->
  fsck_chain fuel (first_or l None) p c t = Ok (Some (c + zlen l), t).
Proof.
  intros Hch ->. revert fuel p c Hch.
  induction l as [|n l IH]; intros [|fuel] p c; cbn [length]; intros Hch Hf Hc Hlen; [lia| |lia|].
  - cbn. by rewrite Z.add_0_r.
  - destruct Hch as (Hp & Hn & Hch). cbn [first_or fsck_chain]. erewrite bind_ok by reflexivity.
    cbn in Hp, Hn. rewrite Hp, bool_decide_true by done. cbn [negb]. rewrite Hn.
    change (2 ^ 32) with 4294967296 in Hlen. rewrite u32_small by lia.
    rewrite IH; [|done|lia|lia|lia]. do 3 f_equal. lia.
Qed.

Lemma fsck_order_run fuel p l c t :
  chain (hh_of (app_view t)) p l None -> (length l < fuel)%nat -> 0 <= c -> c + zlen l < 2 ^ 32 ->
  fsck_order fuel (first_or l None) p c t = Ok (Some (c + zlen l), t).
Proof.
  intros Hch. revert fuel p c Hch.
  induction l as [|n l IH]; intros [|fuel] p c; cbn [length]; intros Hch Hf Hc Hlen; [lia| |lia|].
  - cbn. by rewrite Z.add_0_r.
  - destruct Hch as (Hp & Hn & Hch). cbn [first_or fsck_order]. erewrite bind_ok by reflexivity.
    rewrite hh_of_view in Hp, Hn. cbn in Hp, Hn. rewrite Hp, bool_decide_true by done. cbn [negb].
    rewrite Hn. change (2 ^ 32) with 4294967296 in Hlen. rewrite u32_small by lia.
    rewrite IH; [|done|lia|lia|lia]. do 3 f_equal. lia.
Qed.

(** The members in the buckets from [i] on *)
Lemma fsck_buckets_run fuel ls bs done_ c t :
  buckets (t_tbl t) = done_ ++ bs -> Forall2 (bucket_ok (t_hh t)) bs ls ->
  (forall l, l ∈ ls -> (length l < fuel)%nat) -> 0 <= c -> c + zlen (concat ls) < 2 ^ 32 ->
  fsck_buckets fuel (length bs) (zlen done_) c t = Ok (Some (c + zlen (concat ls)), t).
Proof.
  intros Hb Hall Hf Hc Hlen. revert done_ c Hb Hf Hc Hlen.
  induction Hall as [|b l bs ls (Hh & Hcnt & Hch) _ IH]; intros done_ c Hb Hf Hc Hlen.
  { cbn. by rewrite Z.add_0_r. }
  cbn [length concat fsck_buckets] in *. rewrite length_app in *.
  erewrite bind_ok by reflexivity. erewrite bind_ok; cycle 1.
  { unfold lift, bucket_at. rewrite Hb, Nat2Z.id, list_lookup_middle by done. reflexivity. }
  change (2 ^ 32) with 4294967296 in *.
  rewrite Hh. erewrite bind_ok; [|eapply fsck_chain_run; [done|done|apply Hf; by left|lia|lia]].
  cbv beta iota. rewrite Hcnt, Z.eqb_refl. cbn [negb]. rewrite !Z.add_0_l, u32_small by lia.
  replace (zlen done_ + 1) with (zlen (done_ ++ [b])) by (rewrite length_app; cbn; lia).
  rewrite IH; [do 3 f_equal; lia|by rewrite Hb, <- app_assoc| |lia|lia].
  intros l' Hl'. apply Hf. by right.
Qed.

(** A well-formed table, such as additions and deletions leave, passes the
    check that uthash.h has of its own. *)
Theorem HASH_FSCK_passes fuel t l :
  table_ok t l -> zlen l < 2 ^ 32 -> (length l < fuel)%nat -> HASH_FSCK fuel t = Ok (true, t).
Proof.
  intros [(_ & Hhead & Htail & Hch) Hbk _] Hlen Hfuel. unfold HASH_FSCK.
  erewrite bind_ok by reflexivity. cbn in Hhead. rewrite Hhead.
  destruct (decide (l = [])) as [->|Hne]; [done|]. destruct (Htail Hne) as [_ Hnum]. cbn in Hnum.
  destruct (Hbk Hne) as (ls & [_ _ [Hbl Hall _ _ Hsmall]] & Hls). rewrite app_nil_r in Hsmall.
  pose proof (Permutation_length Hls) as Hp.
  assert (Hrun : fsck_buckets fuel (Z.to_nat (num_buckets (t_tbl t))) 0 0 t = Ok (Some (zlen l), t)).
  { rewrite <- Hbl, Nat2Z.id, <- Hp. apply (fsck_buckets_run fuel ls _ [] 0); [done|done| |lia|lia].
    intros l' (la & lb & ->)%list_elem_of_split. rewrite concat_app in Hp. cbn in Hp.
    rewrite !length_app in Hp. lia. }
  destruct (first_or l None) as [h|] eqn:Eh; [|by destruct l].
  erewrite bind_ok by reflexivity. erewrite bind_ok by exact Hrun. cbv beta iota.
  rewrite Hnum, Z.eqb_refl. cbn [negb]. rewrite <- Eh.
  erewrite bind_ok; [|eapply fsck_order_run; [done|done|lia|lia]]. cbv beta iota.
  by rewrite Z.add_0_l, Z.eqb_refl.
Qed.
