(* ===== verification/UtSort.v ===== *)
(** * uthash.h: the operations that the broker does not use

    Sorting, replacing, clearing and selecting, and the other hash functions
    that can be chosen when uthash.h is compiled. *)

From S2P Require Import Prelude.
From S2P Require Import UtHash.
From S2P Require Import UtTable.

(** ** [HASH_SRT]: merge sort of the application order, in place *)

Section sort.
(** The comparison function, on elements *)
Context (cmpfcn : nat -> nat -> Z).

(** [p->next] as a handle *)
Definition next_of (p : option nat) : M htable (option nat) :=
  match p with
  | None => fail NullDeref
  | Some n => let* h := get_hh n in ret (next h)
  end.

(** [for (_hs_i = 0; _hs_i < _hs_insize; _hs_i++)]: [_hs_q] and [_hs_psize] after
    at most [k] rounds *)
Fixpoint hs_advance (k : nat) (q : option nat) (psize : Z) : M htable (option nat * Z) :=
  match k with
  | O => ret (q, psize)
  | S k' =>
      let psize := u32 (psize + 1) in
      let* q := next_of q in
      match q with
      | None => ret (q, psize)
      | Some _ => hs_advance k' q psize
      end
  end.

(** The two runs that are merged: their first elements and how many are left *)
Record hs_runs : Type := { hs_p : option nat; hs_q : option nat; hs_psize : Z; hs_qsize : Z }.
#[export] Instance eta_hs_runs : Eta hs_runs := fun r =>
  Build_hs_runs (hs_p r) (hs_q r) (hs_psize r) (hs_qsize r).

Definition take_p (r : hs_runs) : M htable (option nat * hs_runs) :=
  let* p := match hs_p r with Some _ => next_of (hs_p r) | None => ret None end in
  ret (hs_p r, r <| hs_p := p |> <| hs_psize := u32 (hs_psize r - 1) |>).
Definition take_q (r : hs_runs) : M htable (option nat * hs_runs) :=
  let* q := next_of (hs_q r) in
  ret (hs_q r, r <| hs_q := q |> <| hs_qsize := u32 (hs_qsize r - 1) |>).

(** The element [_hs_e] that comes next *)
Definition hs_choose (r : hs_runs) : M htable (option nat * hs_runs) :=
  if hs_psize r =? 0 then take_q r
  else if (hs_qsize r =? 0) || bool_decide (hs_q r = None) then take_p r
  else
    match hs_p r, hs_q r with
    | Some p, Some q => if cmpfcn p q <=? 0 then take_p r else take_q r
    | _, _ => fail NullDeref
    end.

(** It is linked behind [_hs_tail]; the answer is [_hs_list]. *)
Definition hs_append (e list tail : option nat) : M htable (option nat) :=
  let* list :=
    match tail with
    | Some t => on_hh t (fun h => h <| next := e |>) ;;; ret list
    | None => ret e
    end in
  on_hh_at e (fun h => h <| prev := tail |>) ;;;
  ret list.

(** [while ((_hs_psize > 0U) || ...)]: [_hs_q], [_hs_list] and [_hs_tail] after it *)
Fixpoint hs_merge (fuel : nat) (r : hs_runs) (list tail : option nat)
    : M htable (option nat * option nat * option nat) :=
  if (0 <? hs_psize r) || ((0 <? hs_qsize r) && bool_decide (hs_q r <> None)) then
    match fuel with
    | O => fun _ => NoFuel
    | S fuel' =>
        let* (e, r) := hs_choose r in
        let* list := hs_append e list tail in
        hs_merge fuel' r list e
    end
  else ret (hs_q r, list, tail).

(** [while (_hs_p != NULL)]: [_hs_list], [_hs_tail] and [_hs_nmerges] after it *)
Fixpoint hs_pass (fuel : nat) (insize : Z) (p list tail : option nat) (nmerges : Z)
    : M htable (option nat * option nat * Z) :=
  match p with
  | None => ret (list, tail, nmerges)
  | Some _ =>
      match fuel with
      | O => fun _ => NoFuel
      | S fuel' =>
          let* (q, psize) := hs_advance (Z.to_nat insize) p 0 in
          let* (x, tail) := hs_merge (Z.to_nat (psize + insize))
            {| hs_p := p; hs_q := q; hs_psize := psize; hs_qsize := insize |} list tail in
          let '(q, list) := x in
          hs_pass fuel' insize q list tail (u32 (nmerges + 1))
      end
  end.

(** [while (_hs_looping != 0U)] *)
Fixpoint hs_loop (fuel : nat) (insize : Z) (list : option nat) : M htable unit :=
  match fuel with
  | O => fun _ => NoFuel
  | S fuel' =>
      let* tbl := get_tbl in
      let* (x, nmerges) := hs_pass (Z.to_nat (num_items tbl)) insize list None None 0 in
      let '(list, tl) := x in
      on_hh_at tl (fun h => h <| next := None |>) ;;;
      if nmerges <=? 1 then
        on_tbl (fun tbl => tbl <| tail := tl |>) ;;;
        modify (fun t => t <| t_head := list |>)
      else hs_loop fuel' (u32 (insize * 2)) list
  end.

(** The runs double in every pass, and a table has less than 2^32 elements. *)
Definition sort_fuel : nat := 33.

(** [HASH_SRT(hh, head, cmpfcn)] *)
Definition HASH_SRT : M htable unit :=
  let* head := gets t_head in
  match head with
  | None => ret tt
  | Some _ => hs_loop sort_fuel 1 head
  end.
End sort.

(** ** Replacing and clearing *)

(** [HASH_REPLACE_PTR(head, itself, add, replaced)]: the element that was
    replaced, and [false] when the process ends *)
Definition HASH_REPLACE_PTR (add : nat) : M htable (bool * option nat) :=
  let* k := gets (itself_of add) in
  let* replaced := HASH_FIND_PTR k in
  (match replaced with Some n => HASH_DEL n | None => ret tt end) ;;;
  let* ok := HASH_ADD_PTR add in
  ret (ok, replaced).

(** [HASH_CLEAR(hh, head)]; the buckets and the table are freed. *)
Definition HASH_CLEAR : M htable unit := modify (fun t => t <| t_head := None |>).

(** [for (el = head, tmp = next; el != NULL; el = tmp, ...)], as [HASH_ITER] has it,
    with a body that is given the element; with fuel *)
Fixpoint iter_from (fuel : nat) (body : nat -> M htable unit) (el tmp : option nat) : M htable unit :=
  match el with
  | None => ret tt
  | Some n =>
      match fuel with
      | O => fun _ => NoFuel
      | S fuel' =>
          body n ;;;
          let* tmp' := match tmp with Some _ => next_of tmp | None => ret None end in
          iter_from fuel' body tmp tmp'
      end
  end.
Definition HASH_ITER (fuel : nat) (body : nat -> M htable unit) : M htable unit :=
  let* head := gets t_head in
  let* tmp := match head with Some _ => next_of head | None => ret None end in
  iter_from fuel body head tmp.

(** [HASH_OVERHEAD(hh, head)], in bytes, with the sizes of a 64-bit machine, where
    [HASH_BLOOM_BYTELEN] is 0 *)
Definition sizeof_UT_hash_handle : Z := 56.
Definition sizeof_UT_hash_bucket : Z := 16.
Definition sizeof_UT_hash_table : Z := 64.
Definition HASH_OVERHEAD (t : htable) : Z :=
  match t_head t with
  | Some _ =>
      u64 (num_items (t_tbl t) * sizeof_UT_hash_handle +
           num_buckets (t_tbl t) * sizeof_UT_hash_bucket + sizeof_UT_hash_table)
  | None => 0
  end.

(** ** Selecting into a second table *)

(** The second table has the same elements and handles of its own: the state is
    that table, [src] the first.  [last] is the element that was selected
    before. *)
Section select.
Context (src : htable) (cond : nat -> bool).

(** The body of the inner loop, for the element [elt] *)
Definition select_one (elt : nat) (last : option nat) : M htable (bool * option nat) :=
  let h := t_hh src !!! elt in
  if cond elt then
    on_hh elt (fun d => d <| key := key h |> <| keylen := keylen h |> <| hashv := hashv h |>
                          <| prev := last |> <| next := None |>) ;;;
    on_hh_at last (fun d => d <| next := Some elt |>) ;;;
    let* dst := gets t_head in
    let* ok :=
      match dst with
      | None => modify (fun t => t <| t_head := Some elt |>) ;;; HASH_MAKE_TABLE elt
      | Some _ => ret true
      end in
    if ok then
      let* tbl := get_tbl in
      let* ok := HASH_ADD_TO_BKT (HASH_TO_BKT (hashv h) (num_buckets tbl)) elt in
      if ok then
        on_tbl (fun tbl => tbl <| num_items := u32 (num_items tbl + 1) |>) ;;;
        ret (true, Some elt)
      else ret (false, last)
    else ret (false, last)
  else ret (true, last).

Fixpoint select_chain (fuel : nat) (src_hh : option nat) (last : option nat)
    : M htable (bool * option nat) :=
  match src_hh with
  | None => ret (true, last)
  | Some elt =>
      match fuel with
      | O => fun _ => NoFuel
      | S fuel' =>
          let* (ok, last) := select_one elt last in
          if ok then select_chain fuel' (hh_next (t_hh src !!! elt)) last else ret (false, last)
      end
  end.

Fixpoint select_buckets (bs : list UT_hash_bucket) (last : option nat) : M htable bool :=
  match bs with
  | [] => ret true
  | b :: bs' =>
      let* (ok, last) := select_chain (S (Z.to_nat (count b))) (hh_head b) last in
      if ok then select_buckets bs' last else ret false
  end.

(** [HASH_SELECT(hh_dst, dst, hh_src, src, cond)]: [false] when the process ends *)
Definition HASH_SELECT : M htable bool :=
  match t_head src with
  | None => ret true
  | Some _ => select_buckets (take (Z.to_nat (num_buckets (t_tbl src))) (buckets (t_tbl src))) None
  end.
End select.

(** ** Other hash functions *)

(** The key as bytes; the answer is the hash value. *)
Definition HASH_BER (key : list Z) : Z :=
  foldl (fun h k => u32 (u32 (u32 (Z.shiftl h 5) + h) + k)) 0 key.

Definition HASH_SAX (key : list Z) : Z :=
  foldl (fun h k => Z.lxor h (u32 (u32 (u32 (Z.shiftl h 5) + Z.shiftr h 2) + k))) 0 key.

Definition HASH_FNV (key : list Z) : Z :=
  foldl (fun h k => u32 (Z.lxor h k * 16777619)) 2166136261 key.

Definition oat_byte (h k : Z) : Z :=
  let h := u32 (h + k) in
  let h := u32 (h + u32 (Z.shiftl h 10)) in
  Z.lxor h (Z.shiftr h 6).
Definition HASH_OAT (key : list Z) : Z :=
  let h := foldl oat_byte 0 key in
  let h := u32 (h + u32 (Z.shiftl h 3)) in
  let h := Z.lxor h (Z.shiftr h 11) in
  u32 (h + u32 (Z.shiftl h 15)).

(** [get16bits] of two bytes, as it is when they are read one by one *)
Definition get16bits (d0 d1 : Z) : Z := u32 (u32 (Z.shiftl d1 8) + d0).

(** The main loop of [HASH_SFH], of four bytes each: the bytes left and [hashv] *)
Fixpoint sfh_blocks (key : list Z) (h : Z) : list Z * Z :=
  match key with
  | k0 :: k1 :: k2 :: k3 :: key' =>
      let h := u32 (h + get16bits k0 k1) in
      let tmp := Z.lxor (u32 (Z.shiftl (get16bits k2 k3) 11)) h in
      let h := Z.lxor (u32 (Z.shiftl h 16)) tmp in
      sfh_blocks key' (u32 (h + Z.shiftr h 11))
  | _ => (key, h)
  end.
Definition sfh_rest (rest : list Z) (h : Z) : Z :=
  match rest with
  | [k0; k1; k2] =>
      let h := u32 (h + get16bits k0 k1) in
      let h := Z.lxor h (u32 (Z.shiftl h 16)) in
      let h := Z.lxor h (u32 (Z.shiftl k2 18)) in
      u32 (h + Z.shiftr h 11)
  | [k0; k1] =>
      let h := u32 (h + get16bits k0 k1) in
      let h := Z.lxor h (u32 (Z.shiftl h 11)) in
      u32 (h + Z.shiftr h 17)
  | [k0] =>
      let h := u32 (h + k0) in
      let h := Z.lxor h (u32 (Z.shiftl h 10)) in
      u32 (h + Z.shiftr h 1)
  | _ => h
  end.
Definition HASH_SFH (key : list Z) : Z :=
  let '(rest, h) := sfh_blocks key 0xcafebabe in
  let h := sfh_rest rest h in
  let h := Z.lxor h (u32 (Z.shiftl h 3)) in
  let h := u32 (h + Z.shiftr h 5) in
  let h := Z.lxor h (u32 (Z.shiftl h 4)) in
  let h := u32 (h + Z.shiftr h 17) in
  let h := Z.lxor h (u32 (Z.shiftl h 25)) in
  u32 (h + Z.shiftr h 6).

(** MurmurHash, which is compiled with [HASH_USING_NO_STRICT_ALIASING] only *)
Definition MUR_ROTL32 (x r : Z) : Z := Z.lor (u32 (Z.shiftl x r)) (Z.shiftr x (32 - r)).
Definition MUR_FMIX (h : Z) : Z :=
  let h := Z.lxor h (Z.shiftr h 16) in
  let h := u32 (h * 0x85ebca6b) in
  let h := Z.lxor h (Z.shiftr h 13) in
  let h := u32 (h * 0xc2b2ae35) in
  Z.lxor h (Z.shiftr h 16).
Definition mur_mix (k : Z) : Z := u32 (MUR_ROTL32 (u32 (k * 0xcc9e2d51)) 15 * 0x1b873593).

(** The blocks of [HASH_MUR], read as words of a little-endian machine *)
Fixpoint mur_blocks (key : list Z) (h : Z) : list Z * Z :=
  match key with
  | k0 :: k1 :: k2 :: k3 :: key' =>
      let h := Z.lxor h (mur_mix (word k0 k1 k2 k3)) in
      mur_blocks key' (u32 (u32 (MUR_ROTL32 h 13 * 5) + 0xe6546b64))
  | _ => (key, h)
  end.
(** The [switch] over the bytes left, with its cases falling through *)
Definition mur_rest (rest : list Z) (h : Z) : Z :=
  match rest with
  | [] => h
  | k0 :: rest' =>
      let k := match rest' with _ :: k2 :: _ => Z.lxor 0 (u32 (Z.shiftl k2 16)) | _ => 0 end in
      let k := match rest' with k1 :: _ => Z.lxor k (u32 (Z.shiftl k1 8)) | [] => k end in
      Z.lxor h (mur_mix (Z.lxor k k0))
  end.
Definition HASH_MUR (key : list Z) : Z :=
  let '(rest, h) := mur_blocks key 0xf88D5353 in
  let h := mur_rest rest h in
  MUR_FMIX (Z.lxor h (u32 (Z.of_nat (length key)))).
