(* ===== verification/UtSortFacts.v ===== *)
(** * uthash.h: sorting is correct

    The passes of [HASH_SRT] on the linked structure are those of a merge sort
    on lists, which sorts and is stable. *)

From stdpp Require Import sorting.
From S2P Require Import Prelude.
From S2P Require Import UtHash.
From S2P Require Import UtTable.
From S2P Require Import UtTableFacts.
From S2P Require Import UtTableSpec.
From S2P Require Import UtSort.

Section sort.
Context (cmpfcn : nat -> nat -> Z).

(** [a] may come before [b]. *)
Definition before (a b : nat) : Prop := cmpfcn a b <= 0.
#[export] Instance before_dec a b : Decision (before a b).
Proof. unfold before. apply _. Defined.
Definition same_rank (x a : nat) : Prop := before x a /\ before a x.
#[export] Instance same_rank_dec x a : Decision (same_rank x a).
Proof. unfold same_rank. apply _. Defined.

(** ** A pass on lists *)

(** Runs of length [k], the last one perhaps shorter *)
Inductive runs (k : nat) : list nat -> Prop :=
| runs_nil : runs k []
| runs_cons l1 l2 : Sorted before l1 -> length l1 = k -> runs k l2 -> runs k (l1 ++ l2)
| runs_last l1 : Sorted before l1 -> (length l1 <= k)%nat -> runs k l1.

Lemma runs_one l : runs 1 l.
Proof.
  induction l as [|a l IH]; [constructor|]. change (a :: l) with ([a] ++ l).
  apply runs_cons; [by repeat constructor|done|done].
Qed.

Lemma runs_split k l : runs k l -> Sorted before (take k l) /\ runs k (drop k l).
Proof.
  intros [|l1 l2 Hs Hl Hr|l1 Hs Hl].
  - rewrite take_nil, drop_nil. by repeat constructor.
  - by rewrite take_app_length', drop_app_length' by done.
  - rewrite take_ge, drop_ge by done. by split; [|constructor].
Qed.

(** Neighbouring runs merged *)
Fixpoint merge_runs (fuel k : nat) (l : list nat) : list nat :=
  match fuel, l with
  | S fuel', _ :: _ =>
      list_merge before (take k l) (take k (drop k l)) ++ merge_runs fuel' k (drop k (drop k l))
  | _, _ => []
  end.

Lemma merge_runs_perm fuel k l :
  (0 < k)%nat -> (length l <= fuel)%nat -> merge_runs fuel k l ≡ₚ l.
Proof.
  intros Hk. revert l. induction fuel as [|fuel IH]; intros [|a l] Hf; try done; cbn [length] in Hf; [lia|].
  cbn [merge_runs]. rewrite merge_Permutation, IH by (rewrite !length_drop; cbn [length]; lia).
  by rewrite <- app_assoc, !take_drop.
Qed.

Section order.
Context `{!Transitive before, !Total before}.

Lemma merge_runs_runs fuel k l :
  (0 < k)%nat -> (length l <= fuel)%nat -> runs k l -> runs (k + k) (merge_runs fuel k l).
Proof using Type*.
  intros Hk. revert l. induction fuel as [|fuel IH]; intros [|a l] Hf Hr; try apply runs_nil. cbn [length] in Hf.
  cbn [merge_runs]. set (l0 := a :: l) in *.
  apply runs_split in Hr as [Hs1 Hr]. apply runs_split in Hr as [Hs2 Hr].
  pose proof (Sorted_list_merge before _ _ Hs1 Hs2) as Hs.
  pose proof (Permutation_length (merge_Permutation before (take k l0) (take k (drop k l0)))) as Hlen.
  rewrite length_app, !length_take, length_drop in Hlen.
  destruct (decide (length l0 <= k + k)%nat) as [Hle|Hgt].
  - rewrite (drop_ge (drop k l0) k) by (rewrite length_drop; lia).
    replace (merge_runs fuel k []) with (@nil nat) by by destruct fuel.
    rewrite app_nil_r. apply runs_last; [done|lia].
  - apply runs_cons; [done|lia|]. apply IH; [|done]. rewrite !length_drop. unfold l0. cbn [length]. lia.
Qed.

(** Elements of one rank keep their order. *)
Lemma list_merge_stable x l1 l2 :
  Sorted before l1 ->
  filter (same_rank x) (list_merge before l1 l2) = filter (same_rank x) l1 ++ filter (same_rank x) l2.
Proof using Type*.
  intros Hs%Sorted_StronglySorted; [|done]. revert l2. induction l1 as [|a l1 IH1].
  { intros l2. by rewrite list_merge_nil_l. }
  apply StronglySorted_inv in Hs as [Hs Ha]. specialize (IH1 Hs).
  induction l2 as [|b l2 IH2]; [by rewrite list_merge_nil_r, app_nil_r|].
  rewrite list_merge_cons. case_decide as Hab.
  - rewrite !(filter_cons _ a), IH1. by case_decide.
  - rewrite (filter_cons _ b), IH2, (filter_cons _ b l2). case_decide as Hb; [|done].
    assert (Hno : filter (same_rank x) (a :: l1) = []); [|by rewrite Hno].
    apply elem_of_nil_inv. intros c [[_ Hcx] Hc]%list_elem_of_filter. apply Hab.
    assert (Hac : before a c).
    { apply elem_of_cons in Hc as [->|Hc]; [by destruct (total before a a)|].
      by eapply Forall_forall in Ha. }
    etrans; [exact Hac|]. etrans; [exact Hcx|]. apply Hb.
Qed.

Lemma merge_runs_stable x fuel k l :
  (0 < k)%nat -> (length l <= fuel)%nat -> runs k l ->
  filter (same_rank x) (merge_runs fuel k l) = filter (same_rank x) l.
Proof using Type*.
  intros Hk. revert l. induction fuel as [|fuel IH]; intros [|a l] Hf Hr; try done; cbn [length] in Hf; [lia|].
  cbn [merge_runs]. set (l0 := a :: l) in *.
  apply runs_split in Hr as [Hs1 Hr]. pose proof (runs_split _ _ Hr) as [_ Hr2].
  rewrite filter_app, list_merge_stable, IH; [|rewrite !length_drop; unfold l0; cbn [length]; lia|done|done].
  by rewrite <- !filter_app, <- app_assoc, !take_drop.
Qed.
End order.
End sort.
