(* ===== verification/UtSortSpec.v ===== *)
(** * uthash.h: the theorems about sorting and replacing *)

From stdpp Require Import sorting.
From S2P Require Import Prelude.
From S2P Require Import UtHash.
From S2P Require Import UtTable.
From S2P Require Import UtTableFacts.
From S2P Require Import UtTableSpec.
From S2P Require Import UtSort.
From S2P Require Import UtSortFacts.

(** ** Links in one direction *)

Abbreviation both hh := (fun n => app_links (hh !!! n)) (only parsing).

(** From the first element of [l] on, [next] visits [l]; then comes [q]. *)
Fixpoint links (hh : handles) (l : list nat) (q : option nat) : Prop :=
  match l with
  | [] => True
  | n :: l' => next (hh !!! n) = first_or l' q /\ links hh l' q
  end.

Lemma links_ext hh hh' l q :
  (forall n, n ∈ l -> next (hh' !!! n) = next (hh !!! n)) -> links hh l q -> links hh' l q.
Proof.
  induction l as [|n l IH]; intros Heq; [done|]. cbn. rewrite (Heq n) by (by left).
  intros [? ?]. split; [done|]. apply IH; [|done]. intros m Hm. apply Heq. by right.
Qed.

Lemma links_app hh l1 l2 q :
  links hh (l1 ++ l2) q <-> links hh l1 (first_or l2 q) /\ links hh l2 q.
Proof.
  induction l1 as [|n l1 IH]; cbn [app links]; [tauto|]. rewrite IH.
  destruct l1; cbn [app first_or]; tauto.
Qed.

Lemma chain_links hh p l q : chain (both hh) p l q -> links hh l q.
Proof. revert p. induction l as [|n l IH]; intros p; [done|]. cbn. intros (_ & ? & ?). eauto. Qed.

Lemma first_or_app l1 l2 q : first_or (l1 ++ l2) q = first_or l1 (first_or l2 q).
Proof. by destruct l1. Qed.

(** What sorting leaves alone of a handle *)
Definition aside (h : UT_hash_handle) := (hh_prev h, hh_next h, key h, keylen h, hashv h).
Definition same_aside (hh hh' : handles) : Prop := forall n, aside (hh' !!! n) = aside (hh !!! n).
#[export] Instance same_aside_preorder : PreOrder same_aside.
Proof. split; [by intros hh n|]. intros hh1 hh2 hh3 H1 H2 n. by rewrite H2, H1. Qed.

Abbreviation at_hh hh t := (t <| t_hh := hh |>) (only parsing).

Lemma next_of_run n hh t : next_of (Some n) (at_hh hh t) = Ok (next (hh !!! n), at_hh hh t).
Proof. done. Qed.

(** ** The steps of a pass *)

Lemma hs_append_run e out qo hh t :
  NoDup (out ++ [e]) -> chain (both hh) None out qo ->
  exists hh', hs_append (Some e) (first_or out None) (last_or None out) (at_hh hh t) =
      Ok (first_or (out ++ [e]) None, at_hh hh' t) /\
    chain (both hh') None (out ++ [e]) (next (hh !!! e)) /\
    (forall n, n ∉ out -> next (hh' !!! n) = next (hh !!! n)) /\ same_aside hh hh'.
Proof.
  intros (Hnd & Hne & _)%NoDup_app Hch. set (tl := last_or None out).
  exists (set_handle e (fun h => h <| prev := tl |>)
           (set_handle_at tl (fun h => h <| next := Some e |>) hh)).
  set (hh1 := set_handle_at tl _ hh).
  assert (Hin : forall n, tl = Some n -> n ∈ out).
  { intros n Hn. apply last_or_in in Hn as [|]; done. }
  assert (Hout : e ∉ out) by (intros He; apply (Hne e He); by left).
  assert (Htl : tl <> Some e) by (intros E; by apply Hout, Hin).
  assert (Hat : forall n, set_handle e (fun h => h <| prev := tl |>) hh1 !!! n =
    if decide (n = e) then (hh !!! e) <| prev := tl |>
    else if decide (Some n = tl) then (hh !!! n) <| next := Some e |> else hh !!! n).
  { intros n. unfold hh1. rewrite set_handle_lookup, !set_handle_at_lookup.
    case_decide as E; [subst n|done]. by rewrite decide_False by congruence. }
  split_and!.
  - unfold hs_append. fold tl. destruct tl as [t0|] eqn:Et; cbn.
    + by destruct out.
    + destruct out as [|a out]; [done|]. exfalso. by apply (last_or_some a out).
  - apply chain_app. cbn. rewrite Hat, decide_True by done. split; [|done].
    destruct (snoc_cases out) as [->|(o & t0 & ->)]; [done|].
    assert (Et : tl = Some t0) by apply last_or_snoc.
    eapply (chain_relink_end (both hh)); [| | | |exact Hch].
    + apply NoDup_app in Hnd as (_ & Hd & _). intros Ho. apply (Hd t0 Ho). by left.
    + intros n Hn. rewrite Hat, !decide_False; [done| |].
      * rewrite Et. intros [= ->]. apply NoDup_app in Hnd as (_ & Hd & _). apply (Hd t0 Hn). by left.
      * intros ->. apply Hout. rewrite elem_of_app. by left.
    + rewrite Hat, decide_False, decide_True by (congruence || done). done.
    + rewrite Hat, decide_False, decide_True by (congruence || done). done.
  - intros n Hn. rewrite Hat. repeat case_decide; subst; try done. exfalso. by apply Hn, Hin.
  - intros n. rewrite Hat. by repeat case_decide; subst.
Qed.

Section merge.
Context (cmpfcn : nat -> nat -> Z) (t : htable).
Abbreviation merged := (list_merge (before cmpfcn)).

(** The two runs [P] and [Q], with [R] behind the second: what the registers
    hold *)
Record facing (hh : handles) (P Q R : list nat) (r : hs_runs) : Prop := {
  fc_p : exists qp, hs_p r = first_or P qp /\ links hh P qp;
  fc_q : hs_q r = first_or (Q ++ R) None /\ links hh (Q ++ R) None;
  fc_psize : hs_psize r = zlen P;
  fc_qsize : zlen Q <= hs_qsize r < 2 ^ 32 /\ (hs_qsize r = zlen Q \/ R = []);
  fc_small : zlen P < 2 ^ 32 }.

Lemma take_p_run hh a P Q R r :
  facing hh (a :: P) Q R r ->
  exists r', take_p r (at_hh hh t) = Ok ((Some a, r'), at_hh hh t) /\ facing hh P Q R r'.
Proof.
  intros [(qp & Hp & Hl) Hq Hps Hqs Hs]. cbn [first_or length] in *. destruct Hl as [Hn Hl].
  unfold take_p. rewrite Hp. eexists. split.
  { erewrite bind_ok by reflexivity. reflexivity. }
  change (2 ^ 32) with 4294967296 in *.
  split; [exists qp; by split|done|cbn; rewrite Hps, u32_small; lia|done|cbn; lia].
Qed.

Lemma take_q_run hh P b Q R r :
  facing hh P (b :: Q) R r ->
  exists r', take_q r (at_hh hh t) = Ok ((Some b, r'), at_hh hh t) /\ facing hh P Q R r'.
Proof.
  intros [Hp [Hq Hl] Hps [Hqs Hor] Hs]. cbn [first_or List.app links length] in *. destruct Hl as [Hn Hl].
  unfold take_q. rewrite Hq. eexists. split.
  { erewrite bind_ok by reflexivity. reflexivity. }
  change (2 ^ 32) with 4294967296 in *.
  split; [done|by split|done|cbn; rewrite u32_small by lia; split; [lia|destruct Hor; [left; lia|by right]]|done].
Qed.

(** The element that is chosen is the next one of the merged list. *)
Lemma hs_choose_run hh P Q R r :
  facing hh P Q R r -> P ++ Q <> [] ->
  exists e P' Q' r', hs_choose cmpfcn r (at_hh hh t) = Ok ((Some e, r'), at_hh hh t) /\
    facing hh P' Q' R r' /\ merged P Q = e :: merged P' Q' /\ P ++ Q ≡ₚ e :: P' ++ Q'.
Proof.
  intros Hf Hne. pose proof Hf as [(qp & Hp & _) [Hq _] Hps [Hqs Hor] Hs]. unfold hs_choose.
  destruct P as [|a P].
  { destruct Q as [|b Q]; [done|]. destruct (take_q_run _ _ _ _ _ _ Hf) as (r' & Hrun & Hf').
    exists b, [], Q, r'. rewrite Hps. split; [exact Hrun|]. split; [done|].
    by rewrite !list_merge_nil_l. }
  rewrite Hps, (proj2 (Z.eqb_neq _ _)) by (cbn; lia). destruct Q as [|b Q].
  { destruct (take_p_run _ _ _ _ _ _ Hf) as (r' & Hrun & Hf'). exists a, P, [], r'.
    assert (E : (hs_qsize r =? 0) || bool_decide (hs_q r = None) = true).
    { apply orb_true_iff. rewrite Z.eqb_eq, bool_decide_eq_true, Hq.
      destruct Hor as [->| ->]; [by left|by right]. }
    rewrite E. split; [exact Hrun|]. split; [done|]. by rewrite !list_merge_nil_r. }
  rewrite (proj2 (Z.eqb_neq _ _)), Hq, Hp by (cbn [length] in Hqs; lia). cbn [first_or List.app orb].
  rewrite bool_decide_false by done. rewrite list_merge_cons.
  destruct (Z.leb_spec (cmpfcn a b) 0) as [Hle|Hgt]; case_decide as Hab; unfold before in Hab; try lia.
  - destruct (take_p_run _ _ _ _ _ _ Hf) as (r' & Hrun & Hf'). exists a, P, (b :: Q), r'.
    split_and!; [exact Hrun|done|done|reflexivity].
  - destruct (take_q_run _ _ _ _ _ _ Hf) as (r' & Hrun & Hf'). exists b, (a :: P), Q, r'.
    split_and!; [exact Hrun|done|done|]. symmetry. apply (Permutation_middle (a :: P) Q b).
Qed.

Lemma facing_ext hh hh' P Q R r :
  (forall n, n ∈ P ++ Q ++ R -> next (hh' !!! n) = next (hh !!! n)) ->
  facing hh P Q R r -> facing hh' P Q R r.
Proof.
  intros Heq [(qp & Hp & Hl) [Hq Hlq] ? ? ?]. split; [|split; [done|]|done..].
  - exists qp. split; [done|]. eapply links_ext; [|exact Hl]. intros n Hn. apply Heq.
    rewrite elem_of_app. by left.
  - eapply links_ext; [|exact Hlq]. intros n Hn. apply Heq. rewrite elem_of_app. by right.
Qed.

Lemma hs_merge_run fuel P Q R r out qo hh :
  (length (P ++ Q) <= fuel)%nat -> NoDup (out ++ (P ++ Q) ++ R) -> facing hh P Q R r ->
  chain (both hh) None out qo ->
  exists hh' qo', hs_merge cmpfcn fuel r (first_or out None) (last_or None out) (at_hh hh t) =
      Ok ((first_or R None, first_or (out ++ merged P Q) None, last_or None (out ++ merged P Q)),
          at_hh hh' t) /\
    chain (both hh') None (out ++ merged P Q) qo' /\ links hh' R None /\ same_aside hh hh'.
Proof.
  revert P Q r out qo hh. induction fuel as [|fuel IH]; intros P Q r out qo hh Hlen Hnd Hf Hch.
  all: destruct (decide (P ++ Q = [])) as [E|Hne].
  1, 3: apply app_eq_nil in E as [-> ->]; pose proof Hf as [_ [Hq Hl] Hps [Hqs Hor] _];
    cbn in Hq, Hl, Hps, Hqs, Hor; exists hh, qo; cbn [hs_merge];
    replace ((0 <? hs_psize r) || ((0 <? hs_qsize r) && bool_decide (hs_q r <> None))) with false
      by (rewrite Hps, Hq; destruct Hor as [->| ->]; cbn; by rewrite ?andb_false_r);
    rewrite list_merge_nil_l, app_nil_r; split; [by unfold ret; rewrite Hq|done].
  { destruct (P ++ Q) eqn:E; [done|cbn in Hlen; lia]. }
  destruct (hs_choose_run hh P Q R r Hf Hne) as (e & P' & Q' & r' & Hrun & Hf' & Hm & Hp).
  pose proof Hf as [_ [Hq _] Hps [Hqs Hor] _].
  assert (Hgo : (0 <? hs_psize r) || ((0 <? hs_qsize r) && bool_decide (hs_q r <> None)) = true).
  { rewrite Hps, Hq. destruct P as [|a P]; [|done]. destruct Q as [|b Q]; [done|].
    cbn [length List.app first_or] in *. change (0 <? Z.of_nat 0) with false. cbn [orb].
    rewrite (proj2 (Z.ltb_lt _ _)) by lia. done. }
  pose proof (Permutation_length Hp) as Hlen'. cbn [length] in Hlen'.
  rewrite Hp in Hnd. cbn [hs_merge]. rewrite Hgo, (bind_ok _ _ _ _ _ Hrun).
  rewrite <- app_comm_cons, cons_middle, app_assoc in Hnd.
  destruct (hs_append_run e out qo hh t) as (hh1 & Hap & Hch1 & Hnx & Has);
    [by apply NoDup_app in Hnd as [? _]|done|].
  rewrite (bind_ok _ _ _ _ _ Hap).
  destruct (IH P' Q' r' (out ++ [e]) (next (hh !!! e)) hh1) as (hh2 & qo2 & Hrun2 & Hch2 & Hl2 & Has2);
    [lia|done| |done|].
  { apply (facing_ext hh); [|done]. intros n Hn. apply Hnx. intros Ho.
    apply NoDup_app in Hnd as (_ & Hd & _). apply (Hd n); [rewrite elem_of_app; by left|].
    by rewrite <- app_assoc. }
  exists hh2, qo2. rewrite last_or_snoc in Hrun2. rewrite Hm.
  replace (out ++ e :: list_merge (before cmpfcn) P' Q') with ((out ++ [e]) ++ list_merge (before cmpfcn) P' Q')
    by (by rewrite <- app_assoc).
  split_and!; [exact Hrun2|exact Hch2|exact Hl2|by etrans].
Qed.

Lemma hs_advance_run k L s hh :
  L <> [] -> links hh L None -> 0 <= s -> s + zlen L < 2 ^ 32 ->
  hs_advance k (first_or L None) s (at_hh hh t) =
  Ok ((first_or (drop k L) None, s + zlen (take k L)), at_hh hh t).
Proof.
  change (2 ^ 32) with 4294967296. revert L s. induction k as [|k IH]; intros [|a L] s Hne Hl Hs Hlen; [done| |done|].
  { cbn. by rewrite Z.add_0_r. }
  destruct Hl as [Hn Hl]. cbn [first_or hs_advance drop take length] in *.
  rewrite (bind_ok _ _ _ _ _ (next_of_run a hh t)), Hn, u32_small by lia.
  destruct L as [|b L]; cbn [first_or].
  - rewrite drop_nil, take_nil. done.
  - change (Some b) with (first_or (b :: L) None). rewrite IH; [|done|done|lia|cbn [length] in *; lia].
    unfold ret. do 3 f_equal. lia.
Qed.

(** How many merges a pass makes *)
Definition merges (k : nat) (L : list nat) (m : Z) : Prop :=
  0 <= m <= zlen L /\ (m = 0 <-> L = []) /\ (m <= 1 <-> (length L <= k + k)%nat).

Lemma merges_nil k : merges k [] 0.
Proof. repeat split; intros; try done; cbn [length]; lia. Qed.

Lemma merges_cons k L m :
  L <> [] -> (0 < k)%nat -> merges k (drop k (drop k L)) m -> merges k L (m + 1).
Proof.
  intros Hne Hk (Hm & H0 & _). assert (0 < length L)%nat by by destruct L; [|cbn; lia].
  rewrite !length_drop in Hm. split; [lia|]. split; [|split].
  - split; [lia|]. intros ->. by destruct Hne.
  - intros H1. assert (E : drop k (drop k L) = []) by (apply H0; lia).
    apply (f_equal length) in E. rewrite !length_drop in E. cbn in E. lia.
  - intros Hle. rewrite (proj2 H0); [lia|]. rewrite !drop_ge; [done|..]; rewrite ?length_drop; lia.
Qed.

Lemma hs_pass_run fuel insize L out qo nm hh :
  0 < insize < 2 ^ 32 -> (length L <= fuel)%nat -> NoDup (out ++ L) -> zlen L < 2 ^ 32 ->
  links hh L None -> chain (both hh) None out qo -> 0 <= nm -> nm + zlen L < 2 ^ 32 ->
  let out' := out ++ merge_runs cmpfcn fuel (Z.to_nat insize) L in
  exists hh' qo' m,
    hs_pass cmpfcn fuel insize (first_or L None) (first_or out None) (last_or None out) nm (at_hh hh t) =
      Ok ((first_or out' None, last_or None out', nm + m), at_hh hh' t) /\
    chain (both hh') None out' qo' /\ same_aside hh hh' /\ merges (Z.to_nat insize) L m.
Proof.
  intros Hin. set (k := Z.to_nat insize). cbv zeta. revert L out qo nm hh.
  induction fuel as [|fuel IH]; intros [|a L] out qo nm hh Hlen Hnd Hsm Hl Hch Hnm Hcnt;
    cbn [merge_runs hs_pass first_or] in *; try (cbn [length] in Hlen; lia).
  1, 2: exists hh, qo, 0; rewrite app_nil_r, Z.add_0_r; split_and!; by try apply merges_nil.
  set (L0 := a :: L) in *. set (P := take k L0). set (Q := take k (drop k L0)). set (R := drop k (drop k L0)).
  change (2 ^ 32) with 4294967296 in *.
  assert (HPQR : L0 = P ++ Q ++ R) by (unfold P, Q, R; by rewrite !take_drop).
  assert (HQR : Q ++ R = drop k L0) by apply take_drop.
  assert (HlP : length P = (k `min` length L0)%nat) by apply length_take.
  assert (HlQ : length Q = (k `min` (length L0 - k))%nat) by by unfold Q; rewrite length_take, length_drop.
  assert (HlR : length R = (length L0 - k - k)%nat) by by unfold R; rewrite !length_drop.
  assert (H0 : length L0 = S (length L)) by done.
  change (Some a) with (first_or L0 None).
  rewrite (bind_ok _ _ _ _ _ (hs_advance_run k L0 0 hh ltac:(done) Hl ltac:(lia) ltac:(lia))).
  rewrite HPQR in Hl. apply links_app in Hl as [HlnP HlnQR].
  set (r0 := Build_hs_runs (first_or L0 None) (first_or (drop k L0) None) (0 + zlen P) insize).
  assert (Hf : facing hh P Q R r0).
  { split; cbn [r0 hs_p hs_q hs_psize hs_qsize].
    - eexists. split; [|exact HlnP]. by rewrite HPQR, first_or_app.
    - by rewrite HQR in *.
    - lia.
    - change (2 ^ 32) with 4294967296. split; [lia|].
      destruct (decide (k <= length L0 - k)%nat); [left; lia|right].
      apply nil_length_inv. lia.
    - change (2 ^ 32) with 4294967296. lia. }
  rewrite HPQR, app_assoc in Hnd.
  destruct (hs_merge_run (Z.to_nat (0 + zlen P + insize)) P Q R r0 out qo hh) as (hh1 & qo1 & Hrun & Hch1 & Hl1 & Has1);
    [rewrite length_app; lia| |exact Hf|exact Hch|].
  { rewrite <- (app_assoc P Q R), app_assoc. exact Hnd. }
  rewrite (bind_ok _ _ _ _ _ Hrun). cbv iota. rewrite u32_small by lia.
  destruct (IH R (out ++ merged P Q) qo1 (nm + 1) hh1) as (hh2 & qo2 & m & Hrun2 & Hch2 & Has2 & Hm);
    [lia| |lia|done|done|lia|lia|].
  { rewrite merge_Permutation, <- app_assoc, <- (app_assoc P Q R), app_assoc. exact Hnd. }
  exists hh2, qo2, (m + 1). rewrite app_assoc. split_and!; [|exact Hch2|by etrans|].
  - rewrite Hrun2. do 3 f_equal. lia.
  - apply merges_cons; [done|lia|exact Hm].
Qed.

(** ** The whole sort *)

(** [hh'] links the elements of [L] in the order of a stable sort. *)
Record sorts (L : list nat) (hh hh' : handles) (L' : list nat) : Prop := {
  so_perm : L' ≡ₚ L;
  so_sorted : Sorted (before cmpfcn) L';
  so_stable x : filter (same_rank cmpfcn x) L' = filter (same_rank cmpfcn x) L;
  so_chain : chain (both hh') None L' None;
  so_aside : same_aside hh hh' }.

Definition relinked (hh : handles) (L : list nat) : htable :=
  (at_hh hh t) <| t_tbl := (t_tbl t) <| tail := last_or None L |> |> <| t_head := first_or L None |>.

Context `{!Transitive (before cmpfcn), !Total (before cmpfcn)}.

(** The last element is given no next one. *)
Lemma end_chain L qo hh :
  NoDup L -> chain (both hh) None L qo ->
  let hh' := set_handle_at (last_or None L) (fun h => h <| next := None |>) hh in
  chain (both hh') None L None /\ same_aside hh hh'.
Proof using.
  intros Hnd Hch. cbv zeta. split.
  - destruct (snoc_cases L) as [->|(o & tl & ->)]; [done|]. rewrite last_or_snoc.
    apply NoDup_app in Hnd as (_ & Hd & _). assert (Htl : tl ∉ o) by (intros Ho; apply (Hd tl Ho); by left).
    eapply chain_relink_end; [exact Htl| | | |exact Hch]; cbn.
    + intros n Hn. rewrite set_handle_lookup, decide_False; [done|]. by intros ->.
    + by rewrite set_handle_lookup, decide_True.
    + by rewrite set_handle_lookup, decide_True.
  - intros n. rewrite set_handle_at_lookup. by case_decide.
Qed.

Lemma hs_loop_run fuel insize L hh :
  L <> [] -> NoDup L -> links hh L None -> num_items (t_tbl t) = zlen L -> zlen L < 2 ^ 32 ->
  0 < insize < 2 ^ 32 -> (1 <= fuel)%nat -> zlen L <= insize * 2 ^ Z.of_nat fuel ->
  runs cmpfcn (Z.to_nat insize) L ->
  exists hh' L', hs_loop cmpfcn fuel insize (first_or L None) (at_hh hh t) = Ok (tt, relinked hh' L') /\
    sorts L hh hh' L'.
Proof using Type*.
  revert insize L hh. induction fuel as [|fuel IH]; intros insize L hh Hne Hnd Hl Hnum Hsm Hin Hf Hfuel Hr; [lia|].
  cbn [hs_loop]. erewrite bind_ok by reflexivity. cbn [t_tbl update].
  assert (Hk : (0 < Z.to_nat insize)%nat) by lia.
  destruct (hs_pass_run (Z.to_nat (num_items (t_tbl t))) insize L [] None 0 hh) as (hh1 & qo & m & Hrun & Hch & Has & Hm);
    [done|lia|done|done|done|done|done|done|].
  cbn [List.app first_or last_or] in Hrun, Hch. set (L1 := merge_runs _ _ _ _) in *.
  assert (HL1 : L1 ≡ₚ L) by (apply merge_runs_perm; lia).
  assert (Hnd1 : NoDup L1) by by rewrite HL1.
  assert (Hst : forall x, filter (same_rank cmpfcn x) L1 = filter (same_rank cmpfcn x) L).
  { intros x. apply merge_runs_stable; [done|done|lia|lia|done]. }
  assert (Hr1 : runs cmpfcn (Z.to_nat insize + Z.to_nat insize) L1) by (apply merge_runs_runs; lia || done).
  rewrite (bind_ok _ _ _ _ _ Hrun). cbv iota.
  destruct (end_chain L1 qo hh1 Hnd1 Hch) as [Hch2 Has2]. set (hh2 := set_handle_at _ _ hh1) in *.
  erewrite (bind_ok _ _ _ _ _ (on_hh_at_eq _ _ _)). cbn [t_hh update].
  change (at_hh _ (at_hh hh1 t)) with (at_hh hh2 t). rewrite Z.add_0_l.
  destruct Hm as (Hm & _ & Hm1). pose proof (Permutation_length HL1) as Hlen.
  assert (Has' : same_aside hh hh2) by by etrans. change (2 ^ 32) with 4294967296 in *.
  destruct (Z.leb_spec m 1) as [Hle|Hgt].
  - exists hh2, L1. split; [reflexivity|]. split; [done| |done|done|done].
    apply runs_split in Hr1 as [Hs1 _]. rewrite take_ge in Hs1; [done|]. apply Hm1 in Hle. lia.
  - assert (Hbig : (Z.to_nat insize + Z.to_nat insize < length L)%nat).
    { destruct (decide (length L <= Z.to_nat insize + Z.to_nat insize)%nat); [|lia].
      apply Hm1 in l. lia. }
    rewrite u32_small by lia. rewrite Nat2Z.inj_succ, Z.pow_succ_r in Hfuel by lia.
    assert (Hfuel1 : (1 <= fuel)%nat).
    { destruct fuel; [|lia]. change (2 ^ Z.of_nat 0) with 1 in Hfuel. lia. }
    destruct (IH (insize * 2) L1 hh2) as (hh3 & L' & Hrun3 & [Hp3 Hs3 Hst3 Hch3 Has3]);
      [|done|by eapply chain_links|rewrite Hnum; lia|lia|lia|done|nia| |].
    + intros E. rewrite E in Hlen. by destruct L.
    + by replace (Z.to_nat (insize * 2)) with (Z.to_nat insize + Z.to_nat insize)%nat by lia.
    + exists hh3, L'. split; [exact Hrun3|]. split; [by rewrite Hp3|done| |done|by etrans].
      intros x. by rewrite Hst3, Hst.
Qed.
End merge.

(** ** The table after a sort *)

Lemma relinked_ok cmpfcn t l hh' l' :
  table_ok t l -> l <> [] -> sorts cmpfcn l (t_hh t) hh' l' -> table_ok (relinked t hh' l') l'.
Proof.
  intros [(Hnd & _ & Htail & _) Hbk Hkey] Hne [Hp _ _ Hch Has].
  assert (Hlen : length l' = length l) by by apply Permutation_length.
  assert (Hst : forall n, key (hh' !!! n) = key (t_hh t !!! n) /\ keylen (hh' !!! n) = keylen (t_hh t !!! n) /\
    hashv (hh' !!! n) = hashv (t_hh t !!! n) /\ bkt_links hh' n = bkt_links (t_hh t) n).
  { intros n. pose proof (Has n) as [= E1 E2 -> -> ->]. unfold bkt_links. by rewrite E1, E2. }
  split.
  - split_and!; [by rewrite Hp|done| |].
    + intros _. split; [done|]. cbn. rewrite Hlen. by destruct (Htail Hne).
    + eapply chain_ext; [|exact Hch]. intros n _. by rewrite hh_of_view.
  - intros _. destruct (Hbk Hne) as (ls & [Hlog Hnum Hsp] & Hls). exists ls. split; [|by rewrite Hls, Hp].
    split; [done|done|]. pose proof Hsp as []. eapply spread_ext; [exact Hsp|done|done|].
    intros m _. cbn. split; apply Hst.
  - intros n Hn. rewrite Hp in Hn. destruct (Hkey n Hn) as [H1 H2]. destruct (Hst n) as (E1 & E2 & _).
    split; cbn; congruence.
Qed.

(** C40: sorting puts the elements of a well-formed table in the order of a stable
    sort: by rank, and those of one rank as they were before.  The table stays
    well formed, its buckets are not touched, and it returns. *)
Theorem HASH_SRT_correct cmpfcn t l :
  Transitive (before cmpfcn) -> Total (before cmpfcn) ->
  table_ok t l -> zlen l < 2 ^ 32 ->
  exists t' l', HASH_SRT cmpfcn t = Ok (tt, t') /\ table_ok t' l' /\ l' ≡ₚ l /\
    Sorted (before cmpfcn) l' /\
    (forall x, filter (same_rank cmpfcn x) l' = filter (same_rank cmpfcn x) l) /\
    buckets (t_tbl t') = buckets (t_tbl t) /\ t_itself t' = t_itself t /\
    forall n, settled t n -> settled t' n.
Proof.
  intros Htr Hto Hok Hlen. pose proof (tk_order _ _ Hok) as (Hnd & Hhead & Htail & Hch).
  cbn in Hhead. unfold HASH_SRT. erewrite bind_ok by reflexivity. rewrite Hhead.
  destruct (decide (l = [])) as [->|Hne].
  { exists t, []. by split_and!. }
  destruct (Htail Hne) as [_ Hnum]. cbn in Hnum.
  assert (Hl : links (t_hh t) l None).
  { eapply (chain_links _ None). eapply chain_ext; [|exact Hch]. intros n _. by rewrite hh_of_view. }
  destruct (hs_loop_run cmpfcn t sort_fuel 1 l (t_hh t)) as (hh' & l' & Hrun & Hs);
    [done|done|done|done|done|done|unfold sort_fuel; lia| |apply runs_one|].
  { change (2 ^ 32) with 4294967296 in Hlen. change (1 * 2 ^ Z.of_nat sort_fuel) with 8589934592. lia. }
  replace (t <| t_hh := t_hh t |>) with t in Hrun by by destruct t.
  exists (relinked t hh' l'), l'. pose proof Hs as [? ? ? _ Has].
  destruct (first_or l None) as [h|] eqn:Eh; [|by destruct l].
  split_and!; [exact Hrun|by eapply relinked_ok|done..|].
  intros n. unfold settled, itself_of. cbn. by pose proof (Has n) as [= _ _ _ _ ->].
Qed.

(** ** Replacing *)

(** The room and the memory of a table, which deleting does not use *)
Definition room (t : htable) := (t_alloc t, log2_num_buckets (t_tbl t), noexpand (t_tbl t)).

Lemma room_on_hh r n f : preserves (fun t => room t = r) (on_hh n f).
Proof. by apply preserves_modify. Qed.
Lemma room_on_hh_at r p f : preserves (fun t => room t = r) (on_hh_at p f).
Proof. destruct p; [apply room_on_hh|apply preserves_ret]. Qed.

Lemma room_HASH_DEL r n : preserves (fun t => room t = r) (HASH_DEL n).
Proof.
  unfold HASH_DEL, delete_linked, HASH_DEL_IN_BKT, on_tbl, get_hh, get_tbl.
  repeat first [preserves_rule | apply room_on_hh | apply room_on_hh_at
    | apply preserves_modify; intros t <-; unfold room; cbn; by repeat case_bool_decide].
Qed.

(** Replacing an element: one with the key of the new one is taken out, if
    there is any, and the new one is put at the end. *)
Theorem HASH_REPLACE_PTR_correct add t l :
  table_ok t l -> (forall n, n ∈ l -> settled t n) -> length (itself_of add t) = ptr_size ->
  add ∉ l -> zlen l + 1 < 2 ^ 32 -> roomy t -> memory_available (t_alloc t) ->
  exists t' r l1 l2, HASH_REPLACE_PTR add t = Ok ((true, r), t') /\
    finds t l (itself_of add t) r /\
    match r with Some n => l = l1 ++ n :: l2 | None => l = l1 ++ l2 end /\
    table_ok t' (l1 ++ l2 ++ [add]) /\ forall n, n ∈ l1 ++ l2 ++ [add] -> settled t' n.
Proof.
  intros Hok Hset Hkey Hnew Hlen Hroom Ha. unfold HASH_REPLACE_PTR. erewrite bind_ok by reflexivity.
  destruct (HASH_FIND_PTR_run t l _ Hok Hset Hkey) as (r & Hfind & Hr). rewrite (bind_ok _ _ _ _ _ Hfind).
  change (2 ^ 32) with 4294967296 in *.
  assert (Hdel : exists t1 l1 l2,
    match r with Some n => HASH_DEL n | None => ret tt end t = Ok (tt, t1) /\
    match r with Some n => l = l1 ++ n :: l2 | None => l = l1 ++ l2 end /\
    table_ok t1 (l1 ++ l2) /\ (forall n, n ∈ l1 ++ l2 -> settled t1 n) /\ room t1 = room t).
  { destruct r as [n|]; [|by exists t, l, []; rewrite app_nil_r].
    destruct Hr as [(l1 & l2 & E)%list_elem_of_split _].
    rewrite E in Hok, Hlen, Hset.
    destruct (HASH_DEL_member n t l1 l2 Hok) as (t1 & Hrun & [_ Hok1 _ Hset1]).
    { change (2 ^ 32) with 4294967296. lia. }
    exists t1, l1, l2. split_and!; [done|done|done| |by eapply room_HASH_DEL].
    intros m Hm. apply Hset1; [done|]. apply Hset. rewrite elem_of_app in *. rewrite elem_of_cons. tauto. }
  destruct Hdel as (t1 & l1 & l2 & Hrun & El & Hok1 & Hset1 & Hroom1).
  rewrite (bind_ok _ _ _ _ _ Hrun). injection Hroom1 as Ea El2 En.
  assert (Hsub : forall m, m ∈ l1 ++ l2 -> m ∈ l).
  { intros m Hm. destruct r; rewrite El; [|done]. rewrite elem_of_app in *. rewrite elem_of_cons. tauto. }
  assert (Hle : (length (l1 ++ l2) <= length l)%nat).
  { destruct r; rewrite El, !length_app; cbn [length]; lia. }
  destruct (HASH_ADD_PTR_run add t1 (l1 ++ l2)) as (t' & Hadd & [_ Hok' _ Hset']);
    [done|by intros ?%Hsub|change (2 ^ 32) with 4294967296; lia| |by rewrite Ea|].
  { intros _. unfold roomy in *. by rewrite El2, En. }
  rewrite (bind_ok _ _ _ _ _ Hadd). exists t', r, l1, l2. rewrite app_assoc.
  split_and!; [done|done|done|done|]. intros n [Hn|Hn%list_elem_of_singleton]%elem_of_app; apply Hset'.
  - right. split; [done|by apply Hset1].
  - by left.
Qed.

(** ** Iterating *)

(** [HASH_ITER] runs its body for the elements in their order, and ends, also
    when the body takes the element that it is given out of the table: the next
    one has been read before.  What it needs is an invariant [P] of the elements
    left that keeps them linked. *)
Theorem HASH_ITER_correct (P : list nat -> htable -> Prop) fuel body t l :
  (forall l t, P l t -> links (t_hh t) l None) ->
  (forall n l t u t', P (n :: l) t -> body n t = Ok (u, t') -> P l t') ->
  t_head t = first_or l None -> P l t -> (length l <= fuel)%nat ->
  HASH_ITER fuel body t = iter body l t.
Proof.
  intros Hlinks Hbody Hhead HP Hfuel. unfold HASH_ITER. erewrite bind_ok by reflexivity.
  rewrite Hhead. clear Hhead.
  assert (Htmp : forall l t, links (t_hh t) l None ->
    match first_or l None with Some _ => next_of (first_or l None) | None => ret None end t =
    Ok (first_or (List.tl l) None, t)).
  { intros [|a l0] t0; [done|]. intros [Hn _]. cbn. by rewrite <- Hn. }
  rewrite (bind_ok _ _ _ _ _ (Htmp l t (Hlinks _ _ HP))).
  revert l t HP Hfuel. induction fuel as [|fuel IH]; intros [|a l] t HP Hf; cbn [length] in Hf;
    try done; [lia|].
  cbn [first_or List.tl iter_from iter] in *. unfold bind at 1 3.
  destruct (body a t) as [[[] t1]|f|] eqn:E; [|done|done].
  pose proof (Hbody _ _ _ _ _ HP E) as HP1.
  rewrite (bind_ok _ _ _ _ _ (Htmp l t1 (Hlinks _ _ HP1))). apply IH; [done|lia].
Qed.

Lemma table_ok_links t l : table_ok t l -> t_head t = first_or l None /\ links (t_hh t) l None.
Proof.
  intros [(_ & Hhead & _ & Hch) _ _]. split; [exact Hhead|].
  eapply (chain_links _ None). eapply chain_ext; [|exact Hch]. intros n _. by rewrite hh_of_view.
Qed.

(** In this way a table is emptied. *)
Theorem HASH_ITER_HASH_DEL fuel t l :
  table_ok t l -> zlen l < 2 ^ 32 -> (length l <= fuel)%nat ->
  exists t', HASH_ITER fuel HASH_DEL t = Ok (tt, t') /\ table_ok t' [] /\ HASH_COUNT t' = 0.
Proof.
  intros Hok Hlen Hf. pose proof (table_ok_links _ _ Hok) as [Hhead _].
  assert (Hdel : forall n l t, table_ok t (n :: l) -> zlen (n :: l) < 2 ^ 32 ->
    exists t', HASH_DEL n t = Ok (tt, t') /\ table_ok t' l).
  { intros n l0 t0 H0 Hl. destruct (HASH_DEL_member n t0 [] l0 H0 Hl) as (t' & Hrun & [_ H' _ _]). eauto. }
  rewrite (HASH_ITER_correct (fun l t => table_ok t l /\ zlen l < 2 ^ 32) fuel HASH_DEL t l);
    [|intros l0 t0 [H%table_ok_links _]; apply H| |done|done|done].
  - clear Hf Hhead. revert t Hok Hlen. induction l as [|n l IH]; intros t Hok Hlen.
    { exists t. split_and!; [done|done|]. unfold HASH_COUNT. by destruct (table_ok_links _ _ Hok) as [-> _]. }
    destruct (Hdel n l t Hok Hlen) as (t1 & Hrun & Hok1). cbn [iter]. rewrite (bind_ok _ _ _ _ _ Hrun).
    apply IH; [done|]. cbn [length] in Hlen. change (2 ^ 32) with 4294967296 in *. lia.
  - intros n l0 t0 u t' [H0 Hl] E. destruct (Hdel n l0 t0 H0 Hl) as (t1 & Hrun & Hok1).
    rewrite Hrun in E. injection E as _ <-. split; [done|]. cbn [length] in Hl.
    change (2 ^ 32) with 4294967296 in *. lia.
Qed.

(** ** Other hash functions *)

Lemma lxor_range a b : 0 <= a < 4294967296 -> 0 <= b < 4294967296 -> 0 <= Z.lxor a b < 4294967296.
Proof.
  intros Ha Hb. assert (H0 : 0 <= Z.lxor a b) by (apply Z.lxor_nonneg; lia). split; [done|].
  destruct (Z.eq_dec (Z.lxor a b) 0) as [->|Hne]; [done|].
  apply (Z.log2_lt_pow2 _ 32); [lia|]. eapply Z.le_lt_trans; [apply Z.log2_lxor; lia|].
  apply Z.max_lub_lt; (apply (Z.le_lt_trans _ (Z.log2 4294967295)); [apply Z.log2_le_mono; lia|done]).
Qed.

Lemma shiftr_range a n : 0 <= n -> 0 <= a < 4294967296 -> 0 <= Z.shiftr a n < 4294967296.
Proof.
  intros Hn Ha. rewrite Z.shiftr_div_pow2 by done. split; [apply Z.div_pos; lia|].
  apply Z.div_lt_upper_bound; [lia|]. nia.
Qed.

Lemma foldl_range f (key : list Z) h :
  (forall h k, 0 <= h < 4294967296 -> 0 <= f h k < 4294967296) ->
  0 <= h < 4294967296 -> 0 <= foldl f h key < 4294967296.
Proof. intros Hf. revert h. induction key as [|k key IH]; intros h Hh; [done|]. by apply IH, Hf. Qed.

(** Every hash function has a value of 32 bits, for any key. *)
Theorem hash_functions_range key :
  Forall (fun f => 0 <= f key < 2 ^ 32)
    [HASH_BER; HASH_SAX; HASH_FNV; HASH_OAT; HASH_SFH; HASH_MUR].
Proof.
  change (2 ^ 32) with 4294967296.
  repeat apply Forall_cons_2; [| | | | | |by apply Forall_nil].
  - apply foldl_range; [|done]. intros h k _. apply u32_range.
  - apply foldl_range; [|done]. intros h k Hh. apply lxor_range; [done|apply u32_range].
  - apply foldl_range; [|done]. intros h k _. apply u32_range.
  - apply u32_range.
  - unfold HASH_SFH. destruct (sfh_blocks key _) as [rest h]. apply u32_range.
  - unfold HASH_MUR. destruct (mur_blocks key _) as [rest h]. unfold MUR_FMIX. cbv zeta.
    apply lxor_range; [|apply shiftr_range; [done|]]; apply u32_range.
Qed.
