(* ===== verification/Broker.v ===== *)
(** * client.h, broker.h, broker.c: the clients and the broker's state

    [g_broker->clients] is a table indexed by [base_sock + fd], zeroed when
    the broker starts: a finite map with [client0] as default.  A client is
    referred to by its index where the code has a pointer to it. *)

From S2P Require Import Prelude.
From S2P Require Import Mqtt.
From S2P Require Import Substree.

(** ** Clients *)

(** [enum client_state]: the code uses the first two. *)
Inductive client_state : Type :=
| cs_new
| cs_connected
| cs_disconnecting
| cs_connect_async
| cs_connect_pending
| cs_connect_srv
| cs_disconnect_ws
| cs_disconnected
| cs_expiring.
#[export] Instance client_state_eq_dec : EqDecision client_state.
Proof. solve_decision. Defined.

(** [struct packet]; [next] is the place in the queue. *)
Record packet : Type := { send_buf : list Z; wcur : Z; wlen : Z }.
#[export] Instance eta_packet : Eta packet := fun p =>
  Build_packet (send_buf p) (wcur p) (wlen p).

(** [struct client].  The list [sending_packet] is the chain from the pointer
    of that name to [sending_packet_tail], which is NULL when the other is.
    [snd_time], [msg_count], [msg_count12], [hh_id] are never used, [itself]
    and [hh] serve the table of clients of an event loop, which EventIO keeps
    as the list of its members, and the two locks are always given back by the
    function that takes them. *)
Record client : Type := {
  sock : Z;
  epoll_id : Z;
  id : list Z;
  last_mid : Z;
  state : client_state;
  in_packet : option mqtt_message;
  in_parser : mqtt_parser;
  out_packet : option mqtt_message;
  snd_num : Z;
  sending_packet : list packet;
  sending_cur_packet : option packet;
  num_sending_pack : Z;
  remaining_count : Z;
  remaining_mult : Z;
  in_payload : ptr;
  in_to_process : Z;
  in_cur : Z;
  is_subscribe : bool;
  subs : list (option loc) }.
#[export] Instance eta_client : Eta client := fun c =>
  Build_client (sock c) (epoll_id c) (id c) (last_mid c) (state c) (in_packet c)
    (in_parser c) (out_packet c) (snd_num c) (sending_packet c) (sending_cur_packet c)
    (num_sending_pack c) (remaining_count c) (remaining_mult c) (in_payload c)
    (in_to_process c) (in_cur c) (is_subscribe c) (subs c).

(** [char id[24]] *)
Definition id_size : nat := 24.
Definition id0 : list Z := replicate id_size 0.

(** A client as [init_database] leaves it. *)
Definition client0 : client := {|
  sock := 0; epoll_id := 0; id := id0; last_mid := 0; state := cs_new;
  in_packet := None; in_parser := parser0; out_packet := None; snd_num := 0;
  sending_packet := []; sending_cur_packet := None; num_sending_pack := 0;
  remaining_count := 0; remaining_mult := 0; in_payload := None;
  in_to_process := 0; in_cur := 0; is_subscribe := false; subs := [] |}.
#[export] Instance client_inhabited : Inhabited client := populate client0.

Abbreviation clients := (gmap nat client) (only parsing).

(** ** The broker *)

(** [struct broker] and the statics of substree.c: allocator, subscription
    tree, [root_lock], clients. *)
Abbreviation broker := (sstate clients) (only parsing).

(** What the tree needs of the clients. *)
#[export] Instance clients_store : ClientStore clients := {|
  cs_id cs n := default [] (c_string (id (cs !!! n)));
  cs_is_subscribe cs n := is_subscribe (cs !!! n);
  cs_subs cs n := subs (cs !!! n);
  cs_set_subs n l cs := <[n := (cs !!! n) <| subs := l |>]> cs |}.

#[export] Instance clients_store_laws : ClientStoreLaws clients.
Proof.
  split; intros c l s c'; cbn; destruct (decide (c = c')) as [->|Hne];
    first [by rewrite lookup_total_insert_eq | by rewrite lookup_total_insert_ne].
Qed.

Definition get_client (n : nat) : M broker client := gets (fun s => ss_clients s !!! n).
Definition put_client (n : nat) (c : client) : M broker unit :=
  modify (fun s => s <| ss_clients := <[n := c]> (ss_clients s) |>).
Definition on_client (n : nat) (f : client -> client) : M broker unit :=
  let* c := get_client n in put_client n (f c).

(** The root of the subscription tree, as [init_database] makes it: result 0 and
    [subs.children], or -1.  The root's [retained] field is left as [malloc]
    returned it. *)
Definition init_tree : M alloc (Z * option (list subhier)) :=
  let* child := malloc in
  match child with
  | None => ret (-1, None)
  | Some addr =>
      let* topic := strdup [] in
      match topic with
      | None => ret (-1, None)
      | Some t => ret (0, Some [Subhier addr t [] []])
      end
  end.

(** The broker that starts with the tree of [init_tree]. *)
Definition broker_init (roots : list subhier) (a : alloc) : broker :=
  {| ss_alloc := a; ss_roots := roots; ss_locked := false; ss_clients := ∅ |}.

(** [clean_context(context)]: the queue [sending_packet], the node list
    [subs] and [snd_num] stay as they are. *)
Definition clean_context (c : client) : client :=
  c <| is_subscribe := false |>
    <| sock := 0 |>
    <| num_sending_pack := 0 |>
    <| id := id0 |>
    <| last_mid := 0 |>
    <| state := cs_new |>
    <| in_packet := free_mqtt_msg (in_packet c) |>
    <| in_parser := parser0 |>
    <| out_packet := free_mqtt_msg (out_packet c) |>
    <| remaining_count := 0 |>
    <| remaining_mult := 0 |>
    <| in_payload := None |>
    <| in_to_process := 0 |>
    <| in_cur := 0 |>
    <| sending_cur_packet := None |>.

(** ** The two builds *)

(** config.h *)
Definition MAX_FD_PER_LOOP : Z := 32200.
Definition LOOP_COUNT : Z := 16.

(** The broker runs on the sockets of the kernel or, with the macro [MTCP], on
    the library of that name; the constants of epoll are those of the system or
    of the library ([MTCP_EPOLLIN], [MTCP_EPOLLERR]). *)
Class Platform : Type := { MTCP : bool; EPOLLIN : Z; EPOLLERR : Z }.

Definition EPOLLHUP : Z := 16.

(** A platform with the number of loops, which [main] sets *)
Class Build : Type := { platform :: Platform; g_core_limit : Z }.

#[export] Instance kernel_platform : Platform | 100 := {| MTCP := false; EPOLLIN := 1; EPOLLERR := 8 |}.
#[export] Instance kernel_build : Build | 100 := {| platform := kernel_platform; g_core_limit := LOOP_COUNT |}.

(** The events of epoll are separate bits, *)
Class PlatformOk (pl : Platform) : Prop := {
  platform_in : EPOLLIN <> 0;
  platform_err : Z.land EPOLLIN EPOLLERR = 0;
  platform_hup : MTCP = false -> Z.land EPOLLIN EPOLLHUP = 0 }.

(** and [main] starts at most [LOOP_COUNT] loops, with the sockets of the kernel
    all of them. *)
Class BuildOk (B : Build) : Prop := {
  build_platform :: PlatformOk platform;
  build_loops : 0 < g_core_limit <= LOOP_COUNT;
  build_kernel : MTCP = false -> g_core_limit = LOOP_COUNT }.

#[export] Instance kernel_platform_ok : PlatformOk kernel_platform.
Proof. by split. Qed.
#[export] Instance kernel_ok : BuildOk kernel_build.
Proof. split; [apply kernel_platform_ok|done|done]. Qed.

Section build.
Context `{Build}.

(** The size of the table of clients; [main] sets it. *)
Definition g_max_clients : Z := MAX_FD_PER_LOOP * g_core_limit.

(** The bound of [accept_connection] on descriptors *)
Definition max_fd : Z := if MTCP then MAX_FD_PER_LOOP else MAX_FD_PER_LOOP * LOOP_COUNT.

(** The part of the table that the loop [th_id] has, set by [loop_run]: the
    sockets of mTCP are numbered in each loop, descriptors in the process. *)
Definition base_of (th_id : Z) : Z := if MTCP then th_id * MAX_FD_PER_LOOP else 0.

(** The client at [g_broker->clients[base_sock + fd]], in a table of
    [g_max_clients] entries. *)
Definition client_index (base_sock fd : Z) : outcome nat :=
  let i := base_sock + fd in
  if (0 <=? i) && (i <? g_max_clients) then Ok (Z.to_nat i) else Fault OutOfBounds.

(** [memcpy(client->id, id->data, id->length)] after the [memset] *)
Definition store_id (b : mqtt_buffer) : outcome (list Z) :=
  let? l := load_bytes (b_data b) (b_length b) in
  if Nat.ltb id_size (length l) then Fault OutOfBounds
  else Ok (l ++ replicate (id_size - length l) 0).

(** [add_client(id, ep_op, fd)] *)
Definition add_client (b : mqtt_buffer) (base_sock fd : Z) : M broker bool :=
  let* n := lift (client_index base_sock fd) in
  let* l := lift (store_id b) in
  on_client n (fun c => c <| id := l |> <| num_sending_pack := 0 |>
                                <| state := cs_connected |>) ;;;
  ret true.
End build.

(** ** Facts *)

(** From [base] on there is room in the table for all the sockets of a loop. *)
Definition base_ok `{Build} (base : Z) : Prop := 0 <= base /\ base + max_fd <= g_max_clients.

Lemma client_index_ok `{Build} base fd :
  base_ok base -> 0 <= fd < max_fd -> client_index base fd = Ok (Z.to_nat (base + fd)).
Proof.
  intros [Hb Hmax] Hfd. unfold client_index.
  by rewrite (proj2 (Z.leb_le _ _)), (proj2 (Z.ltb_lt _ _)) by lia.
Qed.

Lemma base_of_ok `{BuildOk} th : 0 <= th < g_core_limit -> base_ok (base_of th).
Proof.
  intros Hth. unfold base_ok, base_of, max_fd, g_max_clients. destruct MTCP eqn:E.
  - unfold MAX_FD_PER_LOOP. lia.
  - rewrite (build_kernel E). unfold MAX_FD_PER_LOOP, LOOP_COUNT. lia.
Qed.

Lemma max_fd_range `{BuildOk} : MAX_FD_PER_LOOP <= max_fd <= g_max_clients.
Proof.
  unfold max_fd, g_max_clients, MAX_FD_PER_LOOP. pose proof build_loops.
  destruct MTCP eqn:E; [lia|]. rewrite (build_kernel E). unfold LOOP_COUNT. lia.
Qed.

Lemma max_fd_pos `{BuildOk} : 0 < max_fd.
Proof. pose proof max_fd_range. unfold MAX_FD_PER_LOOP in *. lia. Qed.

Lemma get_client_eq n (s : broker) : get_client n s = Ok (ss_clients s !!! n, s).
Proof. done. Qed.

Lemma wp_get_client n (Q : client -> broker -> Prop) E s :
  Q (ss_clients s !!! n) s -> wp (get_client n) Q E s.
Proof. done. Qed.

Lemma wp_put_client n c (Q : unit -> broker -> Prop) E s :
  Q tt (s <| ss_clients := <[n := c]> (ss_clients s) |>) -> wp (put_client n c) Q E s.
Proof. done. Qed.

Lemma wp_on_client n f (Q : unit -> broker -> Prop) E s :
  Q tt (s <| ss_clients := <[n := f (ss_clients s !!! n)]> (ss_clients s) |>) ->
  wp (on_client n f) Q E s.
Proof. done. Qed.

Lemma store_id_ok l rest :
  (length l <= id_size)%nat ->
  store_id {| b_length := Z.of_nat (length l); b_data := Some (l ++ rest) |} =
  Ok (l ++ replicate (id_size - length l) 0).
Proof.
  intros Hl. unfold store_id. cbn [b_data b_length]. rewrite load_bytes_app by done. cbn [obind].
  by rewrite (proj2 (Nat.ltb_ge _ _)).
Qed.
