(* ===== verification/Handler.v ===== *)
(** * hand_mqtt.c: what the broker does with a command

    The functions that build a packet and queue it for a client, and
    [handle_mqtt_command], one definition per command. *)

From S2P Require Import Prelude.
From S2P Require Import Mqtt.
From S2P Require Import Serialiser.
From S2P Require Import Utility.
From S2P Require Import Substree.
From S2P Require Import Broker.

(** ** Queueing a packet *)

(** [new_packet = malloc(...); ...; new_packet->next = NULL;]: neither
    allocation is checked.  What [malloc] leaves in the buffer does not matter:
    every byte is written ([write_encode]). *)
Definition new_packet (out_packet : mqtt_message) : M broker packet :=
  with_alloc malloc_unchecked ;;;
  let len := u32 (mqtt_serialiser_size out_packet) in
  with_alloc malloc_unchecked ;;;
  let* (_, buf) :=
    lift (mqtt_serialiser_write out_packet (replicate (Z.to_nat len) 0) len) in
  ret {| send_buf := buf; wcur := 0; wlen := len |}.

(** The statements under [sending_lock] *)
Definition enqueue (p : packet) (c : client) : client :=
  c <| sending_packet := sending_packet c ++ [p] |>
    <| num_sending_pack := num_sending_pack c + 1 |>.

Definition publish_packet (topic payload : list Z) (payload_len : Z) : mqtt_message :=
  let topic_len := s32 (Z.of_nat (length topic)) in
  message0
    <| type := MQTT_TYPE_PUBLISH |>
    <| m_length := u32 (2 + topic_len + payload_len) |>
    <| publish := {|
         topic_name := {| b_length := u32 topic_len; b_data := Some (topic ++ [0]) |};
         pub_message_id := 0;
         content := {| b_length := payload_len; b_data := Some payload |} |} |>.

(** [publish_msg(context, topic, payload, payload_len)] *)
Definition publish_msg (topic payload : list Z) (payload_len : Z) (context : nat) : M broker unit :=
  let* p := new_packet (publish_packet topic payload payload_len) in
  on_client context (enqueue p).

(** The [switch (mqtt_cmd)] of [ack_msg]: [None] is its [default] case. *)
Definition ack_packet (c : client) (mqtt_cmd payload_len ret_code : Z) : option mqtt_message :=
  if mqtt_cmd =? MQTT_TYPE_CONNACK then
    Some (message0 <| type := MQTT_TYPE_CONNACK |> <| m_length := payload_len |>
            <| connack := {| ca_unused := 0; ca_return_code := ret_code |} |>)
  else if mqtt_cmd =? MQTT_TYPE_SUBACK then
    Some (message0 <| type := MQTT_TYPE_SUBACK |> <| m_length := payload_len |>
            <| suback := {| sa_message_id := last_mid c; sa_return_code := ret_code |} |>)
  else if mqtt_cmd =? MQTT_TYPE_PINGRESP then
    Some (message0 <| type := MQTT_TYPE_PINGRESP |> <| m_length := payload_len |>)
  else None.

(** [ack_msg(context, mqtt_cmd, payload_len, ret_code)] *)
Definition ack_msg (context : nat) (mqtt_cmd payload_len ret_code : Z) : M broker unit :=
  let* c := get_client context in
  match ack_packet c mqtt_cmd payload_len ret_code with
  | None => ret tt
  | Some m => let* p := new_packet m in on_client context (enqueue p)
  end.

(** ** The commands *)

(** [s = malloc(b.length+1); memcpy(s, b.data, b.length); s[b.length] = 0;]:
    the string with its terminator. *)
Definition copy_terminated (b : mqtt_buffer) : M broker (list Z) :=
  with_alloc malloc_unchecked ;;;
  let* l := lift (load_bytes (b_data b) (b_length b)) in
  ret (l ++ [0]).

(** The C string in [mem]: it ends at the first NUL. *)
Definition as_string (mem : list Z) : list Z := default [] (c_string mem).

(** [case MQTT_TYPE_PUBLISH]: the verdict of the validator is not used. *)
Definition handle_publish (context : nat) (in_msg : mqtt_message) : M broker unit :=
  if qos in_msg =? 0 then
    let name := topic_name (publish in_msg) in
    match b_data name with
    | None => ret tt
    | Some _ =>
        let* _ := lift (pub_topic_valid (b_data name)) in
        let* payload := copy_terminated (content (publish in_msg)) in
        let* topic := copy_terminated name in
        on_client context (fun c => c <| last_mid := pub_message_id (publish in_msg) |>) ;;;
        let* _ := mqtt3_sub_tree_process
          (publish_msg (as_string topic) payload (b_length (content (publish in_msg))))
          (as_string topic) in
        ret tt
    end
  else ret tt.

(** [case MQTT_TYPE_CONNECT]: the return code *)
Definition handle_connect `{Build} (base_sock : Z) (context : nat) (in_msg : mqtt_message)
    : M broker Z :=
  let b := client_id (connect in_msg) in
  let* ret_code :=
    if 23 <? b_length b then ret 2
    else if 0 <? b_length b then
      let* c := get_client context in
      let* added := add_client b base_sock (sock c) in
      ret (if added then 0 else 2)
    else ret 0 in
  ack_msg context MQTT_TYPE_CONNACK 2 ret_code ;;;
  ret ret_code.

(** [case MQTT_TYPE_SUBSCRIBE] for a topic pair whose name has data *)
Definition subscribe_topic (context : nat) (in_msg : mqtt_message) (name : mqtt_buffer)
    (topic_pair : mqtt_topicpair) : M broker Z :=
  let* _ := lift (sub_topic_valid (b_data name)) in
  let* c := get_client context in
  if bool_decide (state c = cs_connected) then
    let* topic := copy_terminated name in
    on_client context (fun c => c <| last_mid := sub_message_id (subscribe in_msg) |>) ;;;
    match tp_qos topic_pair with
    | None => fail Uninitialised
    | Some q =>
        let* rc := mqtt3_sub_add context (as_string topic) q in
        (if u8 rc =? 0 then on_client context (fun c => c <| is_subscribe := true |>)
         else ret tt) ;;;
        ret (u8 rc)
    end
  else ret 128.

(** [case MQTT_TYPE_SUBSCRIBE]: the return code; one topic per request *)
Definition handle_subscribe (context : nat) (in_msg : mqtt_message) : M broker Z :=
  let* ret_code :=
    match topics (subscribe in_msg) with
    | None => ret 0
    | Some topic_pair =>
        match tp_name topic_pair with
        | None => fail Uninitialised
        | Some name =>
            match b_data name with
            | None => ret 0
            | Some _ => subscribe_topic context in_msg name topic_pair
            end
        end
    end in
  ack_msg context MQTT_TYPE_SUBACK 3 ret_code ;;;
  ret ret_code.

(** [handle_mqtt_command(e_op, context)]: the return code, nonzero to have the
    client removed.  The lines of the log are left out. *)
Definition handle_mqtt_command `{Build} (base_sock : Z) (context : nat) : M broker Z :=
  let* c := get_client context in
  match in_packet c with
  | None => fail NullDeref
  | Some in_msg =>
      let* ret_code :=
        if type in_msg =? MQTT_TYPE_PUBLISH then handle_publish context in_msg ;;; ret 0
        else if type in_msg =? MQTT_TYPE_CONNECT then handle_connect base_sock context in_msg
        else if type in_msg =? MQTT_TYPE_SUBSCRIBE then handle_subscribe context in_msg
        else if type in_msg =? MQTT_TYPE_PINGREQ then
          ack_msg context MQTT_TYPE_PINGRESP 0 0 ;;; ret 0
        else if type in_msg =? MQTT_TYPE_UNSUBSCRIBE then ret 0
        else if type in_msg =? MQTT_TYPE_DISCONNECT then ret 1
        else ret 0 in
      on_client context (fun c => c <| in_packet := free_mqtt_msg (in_packet c) |>) ;;;
      ret ret_code
  end.
