(* ===== verification/EventIO.v ===== *)
(** * event_io.c: the event loop

    The build, on the kernel's sockets or on mTCP, is a parameter.

    What the operating system does is an input of the model: for each socket a
    script of what [recv] finds, one script each for [send] and [accept], the
    event lists of [epoll_wait].  What the program asks of it is recorded in a
    trace. *)

From S2P Require Import Prelude.
From S2P Require Import Mqtt.
From S2P Require Import Parser.
From S2P Require Import Substree.
From S2P Require Import UtHash.
From S2P Require Import Broker.
From S2P Require Import Handler.

(** ** The operating system *)

Inductive errno_t : Type := EAGAIN | ECONNRESET | EOTHER.
#[export] Instance errno_eq_dec : EqDecision errno_t.
Proof. solve_decision. Defined.

(** What a [recv] on a socket finds next: a segment of bytes, the end of the
    stream, or an error. *)
Inductive rx : Type :=
| Segment (b : Z) (l : list Z)
| EndOfStream
| RxError (e : errno_t).

(** What a [send] of a nonempty block does: it takes at most that many bytes,
    and at least one, or fails. *)
Inductive tx : Type :=
| Takes (n : nat)
| TxError (e : errno_t).

Inductive syscall : Type :=
| Sent (fd : Z) (l : list Z)
| EpollAdd (fd : Z)
| EpollDel (fd : Z)
| Close (fd : Z)
| MtcpClose (fd : Z).

Record os : Type := {
  os_rx : gmap Z (list rx);
  os_tx : list tx;
  os_accept : list Z;
  os_errno : errno_t;
  os_trace : list syscall }.
#[export] Instance eta_os : Eta os := fun o =>
  Build_os (os_rx o) (os_tx o) (os_accept o) (os_errno o) (os_trace o).

(** [struct epollop]; [fds[fd].events] is written and read at once, and passed
    as an argument here. *)
Record epollop : Type := {
  l_sock : Z;
  base_sock : Z;
  th_id : Z;
  contexts_by_ptr : ut_hash }.
#[export] Instance eta_epollop : Eta epollop := fun e =>
  Build_epollop (l_sock e) (base_sock e) (th_id e) (contexts_by_ptr e).

Record world : Type := { w_broker : broker; w_ep : epollop; w_os : os }.
#[export] Instance eta_world : Eta world := fun w => Build_world (w_broker w) (w_ep w) (w_os w).

Definition in_broker {A} (m : M broker A) : M world A :=
  zoom w_broker (fun b w => w <| w_broker := b |>) m.
Definition in_os {A} (m : M os A) : M world A :=
  zoom w_os (fun o w => w <| w_os := o |>) m.

Definition trace (c : syscall) : M world unit :=
  in_os (modify (fun o => o <| os_trace := os_trace o ++ [c] |>)).

(** What a [recv] for at most [n] bytes makes of a script: the segment's first
    [n] bytes, the rest staying; [inr] for a result of -1.  A script that has
    ended is a socket with nothing to read yet. *)
Definition recv_script (n : nat) (q : list rx) : (list Z + errno_t) * list rx :=
  match q with
  | [] => (inr EAGAIN, [])
  | Segment b l :: q' =>
      (inl (take n (b :: l)),
       match drop n (b :: l) with [] => q' | b' :: l' => Segment b' l' :: q' end)
  | EndOfStream :: q' => (inl [], q)
  | RxError e :: q' => (inr e, q')
  end.

(** [recv(fd, ..., n, 0)]: the bytes read, [None] for -1 with [errno] set. *)
Definition recv (fd : Z) (n : Z) : M world (option (list Z)) := in_os (fun o =>
  let '(r, q) := recv_script (Z.to_nat n) (os_rx o !!! fd) in
  let o' := o <| os_rx := <[fd := q]> (os_rx o) |> in
  match r with
  | inl l => Ok (Some l, o')
  | inr e => Ok (None, o' <| os_errno := e |>)
  end).

(** [send(fd, buf, len, MSG_NOSIGNAL)], a [ssize_t]; when the script has ended
    everything is taken. *)
Definition send (fd : Z) (l : list Z) : M world Z :=
  let* q := gets (fun w => os_tx (w_os w)) in
  match q with
  | TxError e :: q' =>
      in_os (modify (fun o => o <| os_tx := q' |> <| os_errno := e |>)) ;;; ret (-1)
  | Takes k :: q' =>
      let k' := Nat.min (S k) (length l) in
      in_os (modify (fun o => o <| os_tx := q' |>)) ;;;
      trace (Sent fd (take k' l)) ;;; ret (Z.of_nat k')
  | [] => trace (Sent fd l) ;;; ret (Z.of_nat (length l))
  end.

(** [accept(fd, ...)]; -1 when no connection waits. *)
Definition accept : M world Z :=
  let* q := gets (fun w => os_accept (w_os w)) in
  match q with
  | [] => ret (-1)
  | sock :: q' => in_os (modify (fun o => o <| os_accept := q' |>)) ;;; ret sock
  end.

Definition errno : M world errno_t := gets (fun w => os_errno (w_os w)).

(** ** Sockets and clients *)

Definition INVALID_SOCKET : Z := -1.

(** [disconnect_sock(epoll_op, fd)] *)
Definition disconnect_sock `{Build} (fd : Z) : M world unit :=
  trace (EpollDel fd) ;;; trace (if MTCP then MtcpClose fd else Close fd).

(** [add_sock(epoll_op, fd)] *)
Definition add_sock (fd : Z) : M world unit := trace (EpollAdd fd).

(** [&g_broker->clients[epoll_op->base_sock + fd]] *)
Definition client_of `{Build} (fd : Z) : M world nat :=
  let* e := gets w_ep in lift (client_index (base_sock e) fd).

(** [remove_client(ep_op, fd)] *)
Definition remove_client `{Build} (fd : Z) : M world unit :=
  let* n := client_of fd in
  let* e := gets w_ep in
  let* u := lift (HASH_DEL n (contexts_by_ptr e)) in
  modify (fun w => w <| w_ep := (w_ep w) <| contexts_by_ptr := u |> |>) ;;;
  in_broker (on_client n clean_context) ;;;
  disconnect_sock fd.

(** [accept_connection(epoll_op, fd)]; it is [close], not [mtcp_close], in both
    builds. *)
Definition accept_connection `{Build} (fd : Z) : M world Z :=
  let* sock := accept in
  if sock <=? 0 then ret INVALID_SOCKET
  else if max_fd <=? sock then trace (Close sock) ;;; ret INVALID_SOCKET
  else ret sock.

(** ** [loop_read]

    Each phase takes the variable [rlen], the result of the last [recv], and
    returns either its new value or, [inl rc], the [return rc] of the function. *)

Section loop_read.
Context `{Build} (n : nat) (fd : Z).

Definition client_now : M world client := in_broker (get_client n).
Definition set_client (f : client -> client) : M world unit := in_broker (on_client n f).

(** The [else] branches after [recv]: end of stream or an error. *)
Definition recv_failed (r : option (list Z)) : M world Z :=
  match r with
  | Some _ => ret 0
  | None =>
      let* e := errno in
      ret (match e with EAGAIN => 1 | ECONNRESET => 0 | EOTHER => -3 end)
  end.

Definition the_packet (c : client) : M world mqtt_message :=
  match in_packet c with Some m => ret m | None => fail NullDeref end.

(** The command byte *)
Definition read_command (rlen : Z) : M world (Z + Z) :=
  let* c := client_now in
  (match in_packet c with
   | None =>
       let* m := in_broker (with_alloc mqtt_message_init) in
       set_client (fun c => c <| in_packet := Some m |>)
   | Some _ => ret tt
   end) ;;;
  let* c := client_now in
  let* m := the_packet c in
  if type m =? 0 then
    let* r := recv fd 1 in
    match r with
    | Some [byte] =>
        set_client (fun c => c <| in_packet := Some (mqtt_parser_command m byte) |>
                               <| remaining_mult := 1 |>) ;;;
        ret (inr 1)
    | _ => let* rc := recv_failed r in ret (inl rc)
    end
  else ret (inr rlen).

(** The [do { ... } while ((byte & 128) != 0)] loop over the remaining
    length, with fuel. *)
Fixpoint read_digits (fuel : nat) : M world (Z + Z) :=
  match fuel with
  | O => fun _ => NoFuel
  | S fuel' =>
      let* r := recv fd 1 in
      match r with
      | Some [byte] =>
          set_client (fun c => c <| remaining_count := s8 (remaining_count c - 1) |>) ;;;
          let* c := client_now in
          if remaining_count c <? -4 then ret (inl (-1))
          else
            let* m := the_packet c in
            let len := u32 (m_length m + Z.land byte 127 * remaining_mult c) in
            set_client (fun c => c <| in_packet := Some (m <| m_length := len |>) |>
                                   <| remaining_mult := u32 (remaining_mult c * 128) |>) ;;;
            if Z.land byte 128 =? 0 then ret (inr 1) else read_digits fuel'
      | _ => let* rc := recv_failed r in ret (inl rc)
      end
  end.
(** At most four digits are accepted. *)
Definition digits_fuel : nat := 5.

(** [if (context->remaining_count <= 0) { ... }] *)
Definition read_length (rlen : Z) : M world (Z + Z) :=
  let* c := client_now in
  if remaining_count c <=? 0 then
    let* r := read_digits digits_fuel in
    match r with
    | inl rc => ret (inl rc)
    | inr rlen =>
        set_client (fun c => c <| remaining_count := s8 (remaining_count c * -1) |>) ;;;
        let* c := client_now in
        let* m := the_packet c in
        if 0 <? m_length m then
          let* p := in_broker (with_alloc malloc) in
          match p with
          | None => set_client (fun c => c <| in_payload := None |>) ;;; ret (inl (-2))
          | Some _ =>
              set_client (fun c => c
                <| in_payload := Some (replicate (Z.to_nat (m_length m)) 0) |>
                <| in_to_process := m_length m |>) ;;;
              ret (inr rlen)
          end
        else ret (inr rlen)
    end
  else ret (inr rlen).

(** The bytes [recv] stores at [&in_payload[in_cur]] *)
Definition store_payload (p : ptr) (cur : Z) (l : list Z) : outcome ptr :=
  match p with
  | None => Fault NullDeref
  | Some mem =>
      if Z.of_nat (length mem) <? cur + Z.of_nat (length l) then Fault OutOfBounds
      else Ok (Some (take (Z.to_nat cur) mem ++ l ++ drop (Z.to_nat cur + length l) mem))
  end.

(** [while (context->in_to_process > 0) { ... }], with fuel. *)
Fixpoint read_payload (fuel : nat) (rlen : Z) : M world (Z + Z) :=
  match fuel with
  | O => fun _ => NoFuel
  | S fuel' =>
      let* c := client_now in
      if 0 <? in_to_process c then
        let* r := recv fd (in_to_process c) in
        match r with
        | Some ((_ :: _) as l) =>
            let* p := lift (store_payload (in_payload c) (in_cur c) l) in
            set_client (fun c => c <| in_payload := p |>
              <| in_to_process := u32 (in_to_process c - Z.of_nat (length l)) |>
              <| in_cur := u32 (in_cur c + Z.of_nat (length l)) |>) ;;;
            read_payload fuel' (Z.of_nat (length l))
        | _ => let* rc := recv_failed r in ret (inl rc)
        end
      else ret (inr rlen)
  end.

(** The parser on the client's payload. *)
Definition run_parser (nread : Z) : M world (mqtt_parser_rc * Z) :=
  let* c := client_now in
  let* m := the_packet c in
  let* a := gets (fun w => ss_alloc (w_broker w)) in
  let* (rc, ps) := lift (mqtt_parser_execute (in_payload c) (m_length m)
    {| ps_parser := in_parser c; ps_message := m; ps_nread := nread; ps_alloc := a |}) in
  in_broker (modify (fun b => b <| ss_alloc := ps_alloc ps |>)) ;;;
  set_client (fun c => c <| in_parser := ps_parser ps |>
                         <| in_packet := Some (ps_message ps) |>) ;;;
  ret (rc, ps_nread ps).

(** [do { ... } while (rc == CONTINUE || rc == WANT_MEMORY)], with fuel:
    [false] for [return -1]. *)
Fixpoint parse_loop (fuel : nat) (nread : Z) : M world bool :=
  match fuel with
  | O => fun _ => NoFuel
  | S fuel' =>
      let* (rc, nread) := run_parser nread in
      match rc with
      | MQTT_PARSER_RC_ERROR | MQTT_PARSER_RC_INCOMPLETE => ret false
      | MQTT_PARSER_RC_CONTINUE | MQTT_PARSER_RC_WANT_MEMORY => parse_loop fuel' nread
      | MQTT_PARSER_RC_MORE_READ | MQTT_PARSER_RC_DONE => ret true
      end
  end.
(** The parser never asks to be called again ([parser_safe]). *)
Definition parse_fuel : nat := 1.

(** From the end of the payload to the end of [loop_read]. *)
Definition process_packet (rlen : Z) : M world Z :=
  set_client (fun c => c <| in_cur := 0 |> <| remaining_count := 0 |>
    <| in_parser := (in_parser c) <| p_state := MQTT_PARSER_STATE_INITIAL |> |>) ;;;
  let* parsed := parse_loop parse_fuel 0 in
  if parsed then
    let* e := gets w_ep in
    let* rc := in_broker (handle_mqtt_command (base_sock e) n) in
    if rc =? 0 then
      set_client (fun c => c <| in_payload := None |>) ;;; ret rlen
    else ret (-1)
  else ret (-1).

(** Run the phases in order. *)
Definition andthen (m : M world (Z + Z)) (k : Z -> M world Z) : M world Z :=
  let* r := m in match r with inl rc => ret rc | inr rlen => k rlen end.

(** Each round of [read_payload] uses up a segment or is the last. *)
Definition payload_fuel : M world nat := gets (fun w => S (S (length (os_rx (w_os w) !!! fd)))).

Definition loop_read (events : Z) : M world Z :=
  if negb MTCP && negb (Z.land events EPOLLHUP =? 0) then ret (-1)
  else if negb (Z.land events EPOLLERR =? 0) then ret (-1)
  else if Z.land events EPOLLIN =? 0 then ret (-1)
  else
    andthen (read_command (-1)) (fun rlen =>
    andthen (read_length rlen) (fun rlen =>
    let* fuel := payload_fuel in
    andthen (read_payload fuel rlen) process_packet)).
End loop_read.

(** ** [loop_run] *)

(** The body of the loop over the events of one [epoll_wait]. *)
Definition handle_event `{Build} (ev : Z * Z) : M world unit :=
  let '(fd, events) := ev in
  let* e := gets w_ep in
  if negb (fd =? l_sock e) then
    let* n := client_of fd in
    let* rc := loop_read n fd events in
    if rc <=? 0 then remove_client fd else ret tt
  else
    let* conn := accept_connection fd in
    if negb (conn =? INVALID_SOCKET) then
      let* n := client_of conn in
      in_broker (on_client n (fun c => c <| sock := conn |> <| epoll_id := th_id e |>)) ;;;
      let num_client := s32 (HASH_COUNT (contexts_by_ptr e)) in
      if num_client <? MAX_FD_PER_LOOP then
        add_sock conn ;;;
        modify (fun w => w <| w_ep := (w_ep w) <| contexts_by_ptr :=
                                HASH_ADD_PTR n (contexts_by_ptr (w_ep w)) |> |>)
      else remove_client fd
    else ret tt.

(** *** Sending *)

(** The statements under [sending_lock]: the next packet becomes the current
    one if there is none. *)
Definition take_packet (c : client) : client :=
  let c :=
    match sending_packet c, sending_cur_packet c with
    | p :: q, None => c <| sending_cur_packet := Some p |> <| sending_packet := q |>
    | _, _ => c
    end in
  c <| num_sending_pack := num_sending_pack c - 1 |>.

Section send.
Context `{Build} (n : nat).

Definition current_packet : M world packet :=
  let* c := in_broker (get_client n) in
  match sending_cur_packet c with Some p => ret p | None => fail NullDeref end.

(** The test of [while (cur->wcur < cur->wlen)] and its body: [Some is_skip]
    when the loop is left.  [wlen], the result of [send], is a [uint32_t]. *)
Definition send_step : M world (option bool) :=
  let* p := current_packet in
  if wcur p <? wlen p then
    let* c := in_broker (get_client n) in
    let* r := send (sock c) (drop (Z.to_nat (wcur p)) (send_buf p)) in
    if u32 r <=? 0 then
      let* e := errno in
      match e with
      | EAGAIN => ret (Some true)
      | _ => remove_client (sock c) ;;; ret (Some true)
      end
    else
      in_broker (on_client n (fun c => c <| sending_cur_packet :=
        Some (p <| wcur := u32 (wcur p + u32 r) |>) |>)) ;;;
      ret None
  else ret (Some false).

(** The loop, with fuel; the result is [is_skip]. *)
Fixpoint send_loop (fuel : nat) : M world bool :=
  match fuel with
  | O => fun _ => NoFuel
  | S fuel' =>
      let* r := send_step in
      match r with Some is_skip => ret is_skip | None => send_loop fuel' end
  end.

(** Each round uses up one result of the script, or sends everything. *)
Definition send_fuel : M world nat := gets (fun w => S (S (length (os_tx (w_os w))))).

(** After the loop: the packet that is sent is dropped. *)
Definition end_packet : M world unit :=
  in_broker (on_client n (fun c => c <| snd_num := u32 (snd_num c + 1) |>)) ;;;
  let* p := current_packet in
  if wlen p <=? wcur p
  then in_broker (on_client n (fun c => c <| sending_cur_packet := None |>))
  else ret tt.

(** One round of [while (num_sending-- > 0)]: [true] for [break]. *)
Definition send_one : M world bool :=
  in_broker (on_client n take_packet) ;;;
  let* fuel := send_fuel in
  let* is_skip := send_loop fuel in
  if is_skip then ret true else end_packet ;;; ret false.

(** [while (num_sending-- > 0)] *)
Fixpoint send_many (num_sending : nat) : M world unit :=
  match num_sending with
  | O => ret tt
  | S k => let* stop := send_one in if stop then ret tt else send_many k
  end.

(** The body of the loop over the clients of the table. *)
Definition send_client : M world unit :=
  let* c := in_broker (get_client n) in
  let num_sending := num_sending_pack c in
  if num_sending <? 1 then ret tt else send_many (Z.to_nat num_sending).
End send.

(** [for (context = head; context != NULL; context = context->hh.next)], with
    fuel. *)
Fixpoint send_all `{Build} (fuel : nat) (context : option nat) : M world unit :=
  match context with
  | None => ret tt
  | Some n =>
      match fuel with
      | O => fun _ => NoFuel
      | S fuel' =>
          send_client n ;;;
          let* e := gets w_ep in
          send_all fuel' (hh_next (hh_of (contexts_by_ptr e) n))
      end
  end.

(** One round of [while (1)] after an [epoll_wait] that returned [events]. *)
Definition loop_round `{Build} (events : list (Z * Z)) : M world unit :=
  iter handle_event events ;;;
  let* e := gets w_ep in
  send_all (Z.to_nat (HASH_COUNT (contexts_by_ptr e))) (ut_head (contexts_by_ptr e)).

(** [loop_run(epoll_op, th_id)] on the results of [epoll_wait]: [None] is -1,
    which ends the loop. *)
Fixpoint loop_rounds `{Build} (waits : list (option (list (Z * Z)))) : M world unit :=
  match waits with
  | [] | None :: _ => ret tt
  | Some events :: waits' => loop_round events ;;; loop_rounds waits'
  end.
Definition loop_run `{Build} (waits : list (option (list (Z * Z)))) : M world unit :=
  let* pev := in_broker (with_alloc malloc) in
  match pev with
  | None => ret tt
  | Some _ =>
      modify (fun w => w <| w_ep := (w_ep w) <| base_sock := base_of (th_id (w_ep w)) |> |>) ;;;
      loop_rounds waits
  end.
