(* ===== verification/Startup.v ===== *)
(** * broker.c, event_io.c: how the broker starts

    From [main] to the event loops: mTCP, the database, the threads, and in each
    of them a context of mTCP, epoll and a listening socket.  Every call of the
    operating system and of mTCP is recorded and answered from a script, with a
    value of its own choice when the script has one and with success when it
    has ended. *)

From S2P Require Import Prelude.
From S2P Require Import Substree.
From S2P Require Import Broker.
From S2P Require Import EventIO.

Inductive option_name : Type := SO_RCVBUF | SO_SNDBUF | SO_REUSEPORT.
Inductive epoll_op : Type := EPOLL_CTL_ADD | EPOLL_CTL_MOD | EPOLL_CTL_DEL.

(** The locks of the two kinds that each client has, and that of the broker, which
    nothing takes *)
Inductive lock_name : Type := sending_lock (i : Z) | self_lock (i : Z) | client_id_lock.

(** The calls; [EpollCtl] has the events of its [struct epoll_event], [None] for
    a NULL pointer, and [MtcpEpollCtl] those of its [struct mtcp_epoll_event],
    [None] when the field was never written. *)
Inductive oscall : Type :=
| SetSockOpt (fd : Z) (opt : option_name) (value : Z)
| GetFl (fd : Z)
| SetFl (fd flags : Z)
| SetFd (fd flags : Z)
| EpollCreate
| EpollCtl (epfd : Z) (op : epoll_op) (fd : Z) (events : option Z)
| Socket
| Bind (fd port : Z)
| Listen (fd queue : Z)
| CloseFd (fd : Z)
| LockInit (l : lock_name)
| LockDestroy (l : lock_name)
| ThreadCreate (i : Z)
| ThreadJoin (i : Z)
| ThreadKill (i signum : Z)
| GetNumCPUs
| MtcpGetConf
| MtcpSetConf (num_cores : Z)
| MtcpInit
| MtcpRegisterSignal
| MtcpDestroy
| MtcpAffinitize (i : Z)
| MtcpCreateContext (i : Z)
| MtcpDestroyContext (i : Z)
| MtcpEpollCreate
| MtcpEpollCtl (epfd : Z) (op : epoll_op) (fd : Z) (events : option Z)
| MtcpSocket
| MtcpNonblock (fd : Z)
| MtcpBind (fd port : Z)
| MtcpListen (fd queue : Z)
| MtcpCloseFd (fd : Z).

(** [h_replies] are the answers of the calls [h_calls]; [h_cores] is the global
    [g_core_limit], 0 before [main] sets it. *)
Record host : Type := {
  h_alloc : alloc; h_answers : list Z; h_calls : list oscall; h_replies : list Z; h_cores : Z }.
#[export] Instance eta_host : Eta host := fun h =>
  Build_host (h_alloc h) (h_answers h) (h_calls h) (h_replies h) (h_cores h).

(** A call; [ok] is what it answers when the script has ended. *)
Definition sys (c : oscall) (ok : Z) : M host Z :=
  let* q := gets h_answers in
  let r := match q with [] => ok | r :: _ => r end in
  modify (fun h => h <| h_calls := h_calls h ++ [c] |> <| h_replies := h_replies h ++ [r] |>
                     <| h_answers := tail q |>) ;;;
  ret r.
Definition in_alloc {A} (m : M alloc A) : M host A :=
  zoom h_alloc (fun a h => h <| h_alloc := a |>) m.

Section start.
Context {pl : Platform}.

(** ** Sockets *)

Definition SOCK_RECV_BUFF_SIZE : Z := 4 * 1024.
Definition SOCK_SEND_BUFF_SIZE : Z := 4 * 1024.
Definition ACCEPT_QUEUES : Z := MAX_FD_PER_LOOP.
Definition MAX_EVENT_PER_LOOP : Z := MAX_FD_PER_LOOP * 3.
Definition O_NONBLOCK : Z := 2048.
Definition FD_CLOEXEC : Z := 1.

Definition set_rcv_wrt_buffer (fd : Z) : M host unit :=
  sys (SetSockOpt fd SO_RCVBUF SOCK_RECV_BUFF_SIZE) 0 ;;;
  sys (SetSockOpt fd SO_SNDBUF SOCK_SEND_BUFF_SIZE) 0 ;;;
  ret tt.

Definition set_nonblocking (fd : Z) : M host unit :=
  let* flag := sys (GetFl fd) 2 in
  sys (SetFl fd (Z.lor flag O_NONBLOCK)) 0 ;;;
  sys (SetFd fd FD_CLOEXEC) 0 ;;;
  ret tt.

Definition operate_epoll (epfd : Z) (op : epoll_op) (fd events : Z) : M host Z :=
  if MTCP then
    sys (MtcpEpollCtl epfd op fd (if negb (events =? 0) then Some events else None)) 0
  else if negb (events =? 0) then
    sys (EpollCtl epfd op fd (Some (Z.lor (Z.lor events EPOLLERR) EPOLLHUP))) 0
  else sys (EpollCtl epfd op fd None) 0.

Definition modify_event (epfd fd events : Z) : M host unit :=
  let* _ := operate_epoll epfd EPOLL_CTL_MOD fd events in ret tt.

Definition disconnect_sock (epfd fd : Z) : M host unit :=
  let* _ := operate_epoll epfd EPOLL_CTL_DEL fd 0 in
  sys (if MTCP then MtcpCloseFd fd else CloseFd fd) 0 ;;; ret tt.

Definition add_sock (epfd fd : Z) : M host Z :=
  (if MTCP then sys (MtcpNonblock fd) 0 ;;; ret tt
   else set_nonblocking fd ;;; set_rcv_wrt_buffer fd) ;;;
  let* r := operate_epoll epfd EPOLL_CTL_ADD fd EPOLLIN in
  ret (if r =? -1 then -1 else 0).

(** [get_listen_sock(port)], with mTCP [get_listen_sock(epoll_op, port)]: the
    socket, or -1.  [atoi] has been applied to the port; [htons] takes 16 bits
    of it. *)
Definition get_listen_sock (port : Z) : M host Z :=
  if MTCP then
    let* fd := sys MtcpSocket 3 in
    if fd <? 0 then ret (-1)
    else
      let* r := sys (MtcpNonblock fd) 0 in
      if r <? 0 then ret (-1)
      else
        let* b := sys (MtcpBind fd (u16 port)) 0 in
        if b <? 0 then ret (-1)
        else
          let* l := sys (MtcpListen fd ACCEPT_QUEUES) 0 in
          if l <? 0 then sys (CloseFd fd) 0 ;;; ret (-1)
          else ret fd
  else
    let* fd := sys Socket 3 in
    if fd <? 0 then ret (-1)
    else
      sys (SetSockOpt fd SO_REUSEPORT 1) 0 ;;;
      let* b := sys (Bind fd (u16 port)) 0 in
      if b <? 0 then sys (CloseFd fd) 0 ;;; ret (-1)
      else
        let* l := sys (Listen fd ACCEPT_QUEUES) 0 in
        if l <? 0 then sys (CloseFd fd) 0 ;;; ret (-1)
        else ret fd.

(** [init_event_io(max, epoll_op)]: the descriptor or -1.  The field [epfd] is
    unsigned, so that the test for a negative one never holds; the table [fds]
    is zeroed without a check of its allocation. *)
Definition init_event_io : M host Z :=
  let* r := sys (if MTCP then MtcpEpollCreate else EpollCreate) 4 in
  let epfd := u32 r in
  if (if MTCP then epfd <? 0 else epfd =? u32 (-1)) then ret (-1)
  else
    (if MTCP then ret tt else sys (SetFd (s32 epfd) FD_CLOEXEC) 0 ;;; ret tt) ;;;
    in_alloc malloc_unchecked ;;;
    ret (s32 epfd).

(** ** The database *)

(** The loop over the locks of the clients: [false] when one cannot be
    initialised *)
Fixpoint init_locks (n : nat) (i : Z) : M host bool :=
  match n with
  | O => ret true
  | S n' =>
      let* r := sys (LockInit (sending_lock i)) 0 in
      if negb (r =? 0) then ret false
      else
        let* r := sys (LockInit (self_lock i)) 0 in
        if negb (r =? 0) then ret false else init_locks n' (i + 1)
  end.

(** [init_database()]: the broker, its clients, whose table is zeroed without a
    check of the allocation, their locks, and the tree *)
Definition init_database : M host (Z * option (list subhier)) :=
  let* g_broker := in_alloc malloc in
  match g_broker with
  | None => ret (-1, None)
  | Some _ =>
      in_alloc malloc_unchecked ;;;
      let* n := gets h_cores in
      let* ok := init_locks (Z.to_nat (u32 (MAX_FD_PER_LOOP * n))) 0 in
      if ok then in_alloc init_tree else ret (-1, None)
  end.

(** ** Threads *)

(** [run(arg)] up to [loop_run]: the two descriptors with which the loop is
    entered, [None] when it is not; *)
Definition run (port th_id : Z) : M host (option (Z * Z)) :=
  let* ctx := if MTCP then sys (MtcpAffinitize th_id) 0 ;;; sys (MtcpCreateContext th_id) 1
              else ret 1 in
  if ctx =? 0 then ret None
  else
    let* epfd := init_event_io in
    if epfd =? -1 then ret None
    else
      let* l_sock := get_listen_sock port in
      if l_sock =? -1 then ret None
      else add_sock epfd l_sock ;;; ret (Some (epfd, l_sock)).

(** and what is left of it when [loop_run] has returned *)
Definition run_end (th_id : Z) : M host unit :=
  if MTCP then sys (MtcpDestroyContext th_id) 0 ;;; ret tt else ret tt.

(** [for (i = 0; i < g_core_limit; i++) { ... pthread_create ... }]: the first
    result that is not 0, or 0 *)
Fixpoint create_threads (n : nat) (i : Z) : M host Z :=
  match n with
  | O => ret 0
  | S n' =>
      let* rc := sys (ThreadCreate i) 0 in
      if negb (rc =? 0) then ret rc else create_threads n' (i + 1)
  end.
Fixpoint join_threads (n : nat) (i : Z) : M host unit :=
  match n with
  | O => ret tt
  | S n' => sys (ThreadJoin i) 0 ;;; join_threads n' (i + 1)
  end.

Definition run_worker : M host Z :=
  let* n := gets h_cores in
  let* rc := create_threads (Z.to_nat n) 0 in
  if negb (rc =? 0) then ret rc
  else join_threads (Z.to_nat n) 0 ;;; ret 0.

Definition start_server : M host Z :=
  let* r := run_worker in ret (if r =? -1 then -1 else 0).

(** [SignalHandler(signum)] when it runs in thread [self] of the loops, [None]
    for any other thread *)
Fixpoint kill_self (self : option Z) (signum : Z) (n : nat) (i : Z) : M host unit :=
  match n with
  | O => ret tt
  | S n' =>
      (if bool_decide (self = Some i) then sys (ThreadKill i signum) 0 ;;; ret tt else ret tt) ;;;
      kill_self self signum n' (i + 1)
  end.
Definition SignalHandler (self : option Z) (signum : Z) : M host unit :=
  let* n := gets h_cores in kill_self self signum (Z.to_nat n) 0.

Definition set_cores (n : Z) : M host unit := modify (fun h => h <| h_cores := n |>).

Definition init_mTCP : M host Z :=
  let* cpus := sys GetNumCPUs 1 in
  set_cores cpus ;;;
  (if LOOP_COUNT <? cpus then set_cores LOOP_COUNT else ret tt) ;;;
  sys MtcpGetConf 0 ;;;
  let* n := gets h_cores in
  sys (MtcpSetConf n) 0 ;;;
  let* r := sys MtcpInit 0 in
  if negb (r =? 0) then ret (-1)
  else sys MtcpRegisterSignal 0 ;;; ret r.

(** [main(argc, argv)]; the thread that runs it *)
Definition main (argc : Z) : M host Z :=
  if negb (argc =? 2) then ret (-1)
  else
    let* m := if MTCP then init_mTCP else set_cores LOOP_COUNT ;;; ret 0 in
    if negb (m =? 0) then ret (-1)
    else
      let* (r, _) := init_database in
      if negb (r =? 0) then ret (-1)
      else
        let* l := sys (LockInit client_id_lock) 0 in
        if negb (l =? 0) then ret (-1)
        else
          start_server ;;;
          sys (LockDestroy client_id_lock) 0 ;;;
          (if MTCP then sys MtcpDestroy 0 ;;; ret tt else ret tt) ;;;
          ret 0.

(** ** Properties *)

Lemma wp_sys_reply c ok Q E h :
  (forall r h', h_calls h' = h_calls h ++ [c] -> h_replies h' = h_replies h ++ [r] ->
     h_alloc h' = h_alloc h /\ h_cores h' = h_cores h ->
     (r, h_answers h') = match h_answers h with [] => (ok, []) | x :: q => (x, q) end -> Q r h') ->
  wp (sys c ok) Q E h.
Proof.
  intros HQ. unfold sys. apply wp_bind, wp_gets, wp_bind, wp_modify, wp_ret.
  apply HQ; [done|done|done|]. cbn. by destruct (h_answers h).
Qed.

Lemma wp_sys c ok Q E h :
  (forall r h', h_calls h' = h_calls h ++ [c] -> h_alloc h' = h_alloc h /\ h_cores h' = h_cores h ->
     (r, h_answers h') = match h_answers h with [] => (ok, []) | x :: q => (x, q) end -> Q r h') ->
  wp (sys c ok) Q E h.
Proof. intros HQ. apply wp_sys_reply. eauto. Qed.

(** The calls that make a socket listen *)
Definition listening (fd port : Z) : list oscall :=
  if MTCP then [MtcpSocket; MtcpNonblock fd; MtcpBind fd (u16 port); MtcpListen fd ACCEPT_QUEUES]
  else [Socket; SetSockOpt fd SO_REUSEPORT 1; Bind fd (u16 port); Listen fd ACCEPT_QUEUES].

(** What [get_listen_sock] answers, and the calls it has made by then with their
    answers.  On the sockets of the kernel: *)
Inductive listens_kernel (port : Z) : Z -> list (oscall * Z) -> Prop :=
| no_socket fd : fd < 0 -> listens_kernel port (-1) [(Socket, fd)]
| not_bound fd o b c :
    0 <= fd -> b < 0 ->
    listens_kernel port (-1) [(Socket, fd); (SetSockOpt fd SO_REUSEPORT 1, o);
      (Bind fd (u16 port), b); (CloseFd fd, c)]
| not_listening fd o b l c :
    0 <= fd -> 0 <= b -> l < 0 ->
    listens_kernel port (-1) [(Socket, fd); (SetSockOpt fd SO_REUSEPORT 1, o);
      (Bind fd (u16 port), b); (Listen fd ACCEPT_QUEUES, l); (CloseFd fd, c)]
| is_listening fd o b l :
    0 <= fd -> 0 <= b -> 0 <= l ->
    listens_kernel port fd [(Socket, fd); (SetSockOpt fd SO_REUSEPORT 1, o);
      (Bind fd (u16 port), b); (Listen fd ACCEPT_QUEUES, l)].

(** and with mTCP: *)
Inductive listens_mtcp (port : Z) : Z -> list (oscall * Z) -> Prop :=
| mtcp_no_socket fd : fd < 0 -> listens_mtcp port (-1) [(MtcpSocket, fd)]
| mtcp_blocking fd nb :
    0 <= fd -> nb < 0 -> listens_mtcp port (-1) [(MtcpSocket, fd); (MtcpNonblock fd, nb)]
| mtcp_not_bound fd nb b :
    0 <= fd -> 0 <= nb -> b < 0 ->
    listens_mtcp port (-1) [(MtcpSocket, fd); (MtcpNonblock fd, nb); (MtcpBind fd (u16 port), b)]
| mtcp_not_listening fd nb b l c :
    0 <= fd -> 0 <= nb -> 0 <= b -> l < 0 ->
    listens_mtcp port (-1) [(MtcpSocket, fd); (MtcpNonblock fd, nb); (MtcpBind fd (u16 port), b);
      (MtcpListen fd ACCEPT_QUEUES, l); (CloseFd fd, c)]
| mtcp_is_listening fd nb b l :
    0 <= fd -> 0 <= nb -> 0 <= b -> 0 <= l ->
    listens_mtcp port fd [(MtcpSocket, fd); (MtcpNonblock fd, nb); (MtcpBind fd (u16 port), b);
      (MtcpListen fd ACCEPT_QUEUES, l)].

Definition listens (port r : Z) (log : list (oscall * Z)) : Prop :=
  if MTCP then listens_mtcp port r log else listens_kernel port r log.

(** The calls and the answers that [h'] has more than [h] *)
Definition logged (h h' : host) (log : list (oscall * Z)) : Prop :=
  h_calls h' = h_calls h ++ log.*1 /\ h_replies h' = h_replies h ++ log.*2.

Lemma logged_refl h : logged h h [].
Proof. split; cbn; by rewrite app_nil_r. Qed.

Lemma wp_logged c ok (Q : Z -> host -> Prop) E h0 h log :
  logged h0 h log ->
  (forall r h', logged h0 h' (log ++ [(c, r)]) -> Q r h') ->
  wp (sys c ok) Q E h.
Proof.
  intros [Hc Hr] HQ. apply wp_sys_reply. intros r h' Ec Er _ _. apply HQ.
  split; rewrite fmap_app; [rewrite Ec, Hc|rewrite Er, Hr]; by rewrite <- app_assoc.
Qed.

Ltac next_call Hlog := apply wp_bind; eapply wp_logged; [exact Hlog|]; clear Hlog;
  let r := fresh "r" in let h' := fresh "h'" in intros r h' Hlog; cbn [app] in Hlog.

Lemma wp_get_listen_sock port (Q : Z -> host -> Prop) E h :
  (forall r h' log, logged h h' log -> listens port r log -> Q r h') ->
  wp (get_listen_sock port) Q E h.
Proof.
  unfold get_listen_sock, listens. intros HQ. pose proof (logged_refl h) as Hlog. destruct MTCP.
  - next_call Hlog. destruct (Z.ltb_spec r 0); [apply wp_ret, (HQ _ _ _ Hlog); by constructor|].
    next_call Hlog. destruct (Z.ltb_spec r0 0); [apply wp_ret, (HQ _ _ _ Hlog); by constructor|].
    next_call Hlog. destruct (Z.ltb_spec r1 0); [apply wp_ret, (HQ _ _ _ Hlog); by constructor|].
    next_call Hlog. destruct (Z.ltb_spec r2 0).
    + next_call Hlog. apply wp_ret, (HQ _ _ _ Hlog). by constructor.
    + apply wp_ret, (HQ _ _ _ Hlog). by constructor.
  - next_call Hlog. destruct (Z.ltb_spec r 0); [apply wp_ret, (HQ _ _ _ Hlog); by constructor|].
    next_call Hlog. next_call Hlog. destruct (Z.ltb_spec r1 0).
    + next_call Hlog. apply wp_ret, (HQ _ _ _ Hlog). by constructor.
    + next_call Hlog. destruct (Z.ltb_spec r2 0).
      * next_call Hlog. apply wp_ret, (HQ _ _ _ Hlog). by constructor.
      * apply wp_ret, (HQ _ _ _ Hlog). by constructor.
Qed.

(** The answer is -1 or a socket for which every call was made. *)
Lemma listens_calls port r log :
  listens port r log -> r = -1 \/ (0 <= r /\ log.*1 = listening r port).
Proof. unfold listens, listening. destruct MTCP; intros []; auto. Qed.

(** C32: whatever the system answers, [get_listen_sock] ends either with the
    socket it was given, when [bind] to the port and then [listen], with their
    queue, have answered that socket without an error, and with mTCP, before
    them, the call that makes it non-blocking; or with -1, after the first of
    these calls, or the making of the socket, that was answered by an error.
    Then a socket of the kernel that it opened has been closed, once; one of
    mTCP has not: when it cannot be made non-blocking or bound nothing is done
    with it, and when it cannot listen its number is given to the [close] of the
    kernel. *)
Theorem get_listen_sock_correct port h :
  exists r h' log, get_listen_sock port h = Ok (r, h') /\ logged h h' log /\ listens port r log.
Proof.
  assert (H : wp (get_listen_sock port)
    (fun r h' => exists log, logged h h' log /\ listens port r log) no_fault h).
  { apply wp_get_listen_sock. intros r h' log Hc Hl. by exists log. }
  destruct (wp_elim _ _ _ H) as (r & h' & Hrun & log & Hc & Hl). by exists r, h', log.
Qed.

Lemma wp_create_threads n i k rc rest Q E h :
  (k < n)%nat -> h_answers h = replicate k 0 ++ rc :: rest -> rc <> 0 ->
  (forall h', h_calls h' = h_calls h ++ map (fun j => ThreadCreate (i + Z.of_nat j)) (seq 0 (S k)) ->
     Q rc h') ->
  wp (create_threads n i) Q E h.
Proof.
  revert i k h. induction n as [|n IH]; intros i k h Hk Ha Hrc HQ; [lia|].
  cbn [create_threads]. apply wp_bind, wp_sys. intros r h1 Ec _ Er.
  rewrite Ha in Er. destruct k as [|k].
  - injection Er as -> _. rewrite (proj2 (Z.eqb_neq _ _) Hrc). apply wp_ret, HQ.
    rewrite Ec. cbn. by rewrite Z.add_0_r.
  - injection Er as -> Er. cbn [Z.eqb negb]. apply (IH (i + 1) k); [lia|exact Er|done|].
    intros h' Ec'. apply HQ. rewrite Ec', Ec, <- app_assoc. f_equal.
    change (seq 0 (S (S k))) with (0%nat :: seq 1 (S k)). cbn [map app]. rewrite Z.add_0_r. f_equal.
    rewrite <- (seq_shift (S k) 0), map_map. apply map_ext. intros j. f_equal. lia.
Qed.

Lemma wp_all_threads n i Q E h :
  h_answers h = [] ->
  (forall h', h_answers h' = [] ->
     h_calls h' = h_calls h ++ map (fun j => ThreadCreate (i + Z.of_nat j)) (seq 0 n) -> Q 0 h') ->
  wp (create_threads n i) Q E h.
Proof.
  revert i h. induction n as [|n IH]; intros i h Ha HQ.
  { apply wp_ret, HQ; [done|]. by rewrite app_nil_r. }
  cbn [create_threads]. apply wp_bind, wp_sys. intros r h1 Ec _ Er.
  rewrite Ha in Er. injection Er as -> Er. cbn [Z.eqb negb]. apply (IH (i + 1)); [exact Er|].
  intros h' Ha' Ec'. apply HQ; [done|]. rewrite Ec', Ec, <- app_assoc. f_equal.
  change (seq 0 (S n)) with (0%nat :: seq 1 n). cbn [map app]. rewrite Z.add_0_r. f_equal.
  rewrite <- (seq_shift n 0), map_map. apply map_ext. intros j. f_equal. lia.
Qed.

Lemma wp_join_threads n i Q E h :
  h_answers h = [] ->
  (forall h', h_answers h' = [] ->
     h_calls h' = h_calls h ++ map (fun j => ThreadJoin (i + Z.of_nat j)) (seq 0 n) -> Q tt h') ->
  wp (join_threads n i) Q E h.
Proof.
  revert i h. induction n as [|n IH]; intros i h Ha HQ.
  { apply wp_ret, HQ; [done|]. by rewrite app_nil_r. }
  cbn [join_threads]. apply wp_bind, wp_sys. intros r h1 Ec _ Er.
  rewrite Ha in Er. injection Er as -> Er. apply (IH (i + 1)); [exact Er|].
  intros h' Ha' Ec'. apply HQ; [done|]. rewrite Ec', Ec, <- app_assoc. f_equal.
  change (seq 0 (S n)) with (0%nat :: seq 1 n). cbn [map app]. rewrite Z.add_0_r. f_equal.
  rewrite <- (seq_shift n 0), map_map. apply map_ext. intros j. f_equal. lia.
Qed.

(** The locks of [n] clients from [i] on *)
Definition locks_of (i : Z) : list oscall := [LockInit (sending_lock i); LockInit (self_lock i)].
Definition client_locks (i : Z) (n : nat) : list oscall := seqZ i (Z.of_nat n) ≫= locks_of.

Lemma client_locks_S i n : client_locks i (S n) = locks_of i ++ client_locks (i + 1) n.
Proof.
  unfold client_locks. rewrite seqZ_cons by lia. cbn [mbind list_bind]. f_equal. f_equal. f_equal; lia.
Qed.

Lemma length_client_locks i n : length (client_locks i n) = (2 * n)%nat.
Proof. revert i. induction n as [|n IH]; intros i; [done|]. rewrite client_locks_S, length_app, IH. cbn. lia. Qed.

Lemma wp_init_locks n i Q E h :
  Forall (eq 0) (take (2 * n) (h_answers h)) ->
  (forall h', h_calls h' = h_calls h ++ client_locks i n ->
     h_answers h' = drop (2 * n) (h_answers h) ->
     h_alloc h' = h_alloc h /\ h_cores h' = h_cores h -> Q true h') ->
  wp (init_locks n i) Q E h.
Proof.
  revert i h. induction n as [|n IH]; intros i h Hz HQ.
  { apply wp_ret, HQ; [by rewrite app_nil_r|done|done]. }
  assert (Hcall : forall c k h1 (P : Z -> host -> Prop), Forall (eq 0) (take (S k) (h_answers h1)) ->
    (forall h2, h_calls h2 = h_calls h1 ++ [c] -> h_answers h2 = drop 1 (h_answers h1) ->
       Forall (eq 0) (take k (h_answers h2)) -> h_alloc h2 = h_alloc h1 /\ h_cores h2 = h_cores h1 -> P 0 h2) ->
    wp (sys c 0) P E h1).
  { intros c k h1 P Hk HP. apply wp_sys. intros r h2 Ec Ea Er.
    destruct (h_answers h1) as [|x q]; injection Er as -> Er; cbn in Hk.
    - apply HP; [done|done|by rewrite Er, take_nil|done].
    - apply Forall_cons in Hk as [<- Hk]. apply HP; [done|done|by rewrite Er|done]. }
  replace (2 * S n)%nat with (S (S (2 * n))) in * by lia.
  cbn [init_locks]. apply wp_bind, (Hcall _ (S (2 * n)) _ _ Hz). intros h1 E1 A1 Z1 [B1 C1].
  cbn [Z.eqb negb]. apply wp_bind, (Hcall _ (2 * n)%nat _ _ Z1). intros h2 E2 A2 Z2 [B2 C2].
  cbn [Z.eqb negb]. apply IH; [done|]. intros h3 E3 A3 [B3 C3]. apply HQ.
  - by rewrite E3, E2, E1, client_locks_S, <- !app_assoc.
  - by rewrite A3, A2, A1, !drop_drop.
  - split; congruence.
Qed.

Lemma wp_init_locks_fails n i k rc rest Q E h :
  (k < 2 * n)%nat -> h_answers h = replicate k 0 ++ rc :: rest -> rc <> 0 ->
  (forall h', h_calls h' = h_calls h ++ take (S k) (client_locks i n) -> Q false h') ->
  wp (init_locks n i) Q E h.
Proof.
  revert i k h. induction n as [|n IH]; intros i k h Hk Ha Hrc HQ; [lia|].
  rewrite client_locks_S in HQ. cbn [init_locks]. apply wp_bind, wp_sys. intros r h1 E1 _ R1.
  rewrite Ha in R1. destruct k as [|k]; injection R1 as -> R1.
  { rewrite (proj2 (Z.eqb_neq _ _) Hrc). apply wp_ret, HQ. by rewrite E1. }
  cbn [Z.eqb negb]. apply wp_bind, wp_sys. intros r h2 E2 _ R2.
  rewrite R1 in R2. destruct k as [|k]; injection R2 as -> R2.
  { rewrite (proj2 (Z.eqb_neq _ _) Hrc). apply wp_ret, HQ. by rewrite E2, E1, <- app_assoc. }
  cbn [Z.eqb negb]. apply (IH (i + 1) k); [lia|done|done|]. intros h3 E3. apply HQ.
  by rewrite E3, E2, E1, <- !app_assoc.
Qed.

(** The locks of a number of loops *)
Definition clients_for (n : Z) : nat := Z.to_nat (u32 (MAX_FD_PER_LOOP * n)).

Lemma wp_database Q E h :
  memory_available (h_alloc h) ->
  (forall h1, h_answers h1 = h_answers h -> h_calls h1 = h_calls h -> h_cores h1 = h_cores h ->
     memory_available (h_alloc h1) ->
     wp (init_locks (clients_for (h_cores h)) 0)
       (fun ok h2 => if ok : bool
          then memory_available (h_alloc h2) /\ forall roots a, Q (0, Some roots) (h2 <| h_alloc := a |>)
          else Q (-1, None) h2) E h1) ->
  wp init_database Q E h.
Proof.
  intros Ha HQ. unfold init_database, in_alloc.
  assert (Hm : forall a, memory_available a -> memory_available (a <| al_next := S (al_next a) |>)).
  { intros a H. apply memory_available_next; [done|lia]. }
  apply wp_bind, wp_zoom. eapply wp_ok; [by apply malloc_available|]. pose proof (Hm _ Ha) as Ha1.
  apply wp_bind, wp_zoom. unfold malloc_unchecked. apply wp_bind.
  eapply wp_ok; [by apply malloc_available|]. apply wp_ret. pose proof (Hm _ Ha1) as Ha2.
  apply wp_bind, wp_gets, wp_bind. eapply wp_conseq; [apply HQ; [done|done|done|exact Ha2]| |done].
  intros [] h2; [|by intros; apply wp_ret]. intros [Hmem H].
  apply wp_zoom. unfold init_tree, strdup. apply wp_bind. eapply wp_ok; [by apply malloc_available|].
  pose proof (Hm _ Hmem) as Ha3. apply wp_bind, wp_bind. eapply wp_ok; [by apply malloc_available|].
  apply wp_ret, wp_ret, H.
Qed.

Definition creates (n : nat) : list oscall := map (fun j => ThreadCreate (Z.of_nat j)) (seq 0 n).
Definition joins (n : nat) : list oscall := map (fun j => ThreadJoin (Z.of_nat j)) (seq 0 n).

(** ** The program *)

(** The number of loops on a machine with so many processors *)
Definition cores (cpus : Z) : Z := if MTCP then Z.min cpus LOOP_COUNT else LOOP_COUNT.

(** The answers of the calls before the database is made, the calls, and those
    after the threads *)
Definition begins (cpus : Z) : list Z := if MTCP then [cpus; 0; 0; 0; 0] else [].
Definition prologue (cpus : Z) : list oscall :=
  if MTCP then [GetNumCPUs; MtcpGetConf; MtcpSetConf (cores cpus); MtcpInit; MtcpRegisterSignal] else [].
Definition epilogue : list oscall := LockDestroy client_id_lock :: if MTCP then [MtcpDestroy] else [].

(** The loops that [main] starts run in a build as the other files assume it. *)
Lemma cores_ok cpus :
  PlatformOk pl -> 0 < cpus -> BuildOk {| platform := pl; g_core_limit := cores cpus |}.
Proof.
  intros Hpl Hc. split; [done| |].
  - change (0 < cores cpus <= LOOP_COUNT). unfold cores, LOOP_COUNT. destruct MTCP; lia.
  - change (MTCP = false -> cores cpus = LOOP_COUNT). unfold cores. by intros ->.
Qed.

Lemma wp_init_mTCP cpus rest Q E h :
  MTCP = true -> h_answers h = begins cpus ++ rest ->
  (forall h', h_calls h' = h_calls h ++ prologue cpus -> h_answers h' = rest ->
     h_alloc h' = h_alloc h -> h_cores h' = cores cpus -> Q 0 h') ->
  wp init_mTCP Q E h.
Proof.
  unfold begins, prologue, cores. intros -> Ha HQ. unfold init_mTCP.
  apply wp_bind, wp_sys. intros c h1 E1 [A1 _] R1. rewrite Ha in R1. injection R1 as -> R1.
  apply wp_bind, wp_modify. apply wp_bind.
  assert (Hset : wp (if LOOP_COUNT <? cpus then set_cores LOOP_COUNT else ret tt)
    (fun _ h' => h' = h1 <| h_cores := Z.min cpus LOOP_COUNT |>) E (h1 <| h_cores := cpus |>)).
  { destruct (Z.ltb_spec LOOP_COUNT cpus); [apply wp_modify|apply wp_ret].
    - by rewrite Z.min_r by lia.
    - by rewrite Z.min_l by lia. }
  eapply wp_conseq; [exact Hset| |done]. intros _ h2 ->. cbv beta.
  apply wp_bind, wp_sys. intros r2 h2 E2 [A2 C2] R2. cbn in E2, A2, C2, R2. rewrite R1 in R2. injection R2 as -> R2.
  apply wp_bind, wp_gets. rewrite C2.
  apply wp_bind, wp_sys. intros r3 h3 E3 [A3 C3] R3. rewrite R2 in R3. injection R3 as -> R3.
  apply wp_bind, wp_sys. intros r4 h4 E4 [A4 C4] R4. rewrite R3 in R4. injection R4 as -> R4.
  cbn [Z.eqb negb]. apply wp_bind, wp_sys. intros r5 h5 E5 [A5 C5] R5. rewrite R4 in R5. injection R5 as -> R5.
  apply wp_ret, HQ; [|done|congruence|congruence].
  by rewrite E5, E4, E3, E2, E1, <- !app_assoc.
Qed.

(** Up to the threads: the locks of the clients and that of the broker *)
Definition all_locks (cpus : Z) : list oscall :=
  client_locks 0 (clients_for (cores cpus)) ++ [LockInit client_id_lock].

Lemma length_all_locks cpus : length (all_locks cpus) = S (2 * clients_for (cores cpus)).
Proof. unfold all_locks. rewrite length_app, length_client_locks. cbn. lia. Qed.

Lemma wp_main_database cpus rest (Q : Z -> host -> Prop) h :
  memory_available (h_alloc h) -> h_answers h = begins cpus ++ rest ->
  (forall h1, h_calls h1 = h_calls h ++ prologue cpus -> h_answers h1 = rest -> h_cores h1 = cores cpus ->
     memory_available (h_alloc h1) ->
     wp (init_locks (clients_for (cores cpus)) 0)
       (fun ok h2 => if ok : bool
          then memory_available (h_alloc h2) /\ forall a,
            wp (let* l := sys (LockInit client_id_lock) 0 in
                if negb (l =? 0) then ret (-1)
                else
                  start_server ;;;
                  sys (LockDestroy client_id_lock) 0 ;;;
                  (if MTCP then sys MtcpDestroy 0 ;;; ret tt else ret tt) ;;;
                  ret 0) Q no_fault (h2 <| h_alloc := a |>)
          else Q (-1) h2) no_fault h1) ->
  wp (main 2) Q no_fault h.
Proof.
  intros Ha Hans HQ. unfold main. cbn [Z.eqb negb]. apply wp_bind.
  assert (Hset : wp (if MTCP then init_mTCP else set_cores LOOP_COUNT ;;; ret 0)
    (fun m h' => m = 0 /\ h_calls h' = h_calls h ++ prologue cpus /\ h_answers h' = rest /\
       h_alloc h' = h_alloc h /\ h_cores h' = cores cpus) no_fault h).
  { destruct MTCP eqn:E; [by apply (wp_init_mTCP cpus rest)|].
    unfold begins, prologue, cores in *. rewrite E in *. apply wp_bind, wp_modify, wp_ret.
    split_and!; [done|by rewrite app_nil_r|done..]. }
  eapply wp_conseq; [exact Hset| |done]. intros m h1 (-> & Ec1 & Er1 & Ea1 & Ek1). cbn [Z.eqb negb].
  apply wp_bind, wp_database; [by rewrite Ea1|]. intros h2 A2 C2 K2 M2. rewrite Ek1.
  eapply wp_conseq; [apply HQ; [by rewrite C2|congruence|congruence|done]| |done].
  intros [] h3; [intros [Hmem H3]; split; [done|]; intros roots a; apply H3|intros H3; by apply wp_ret].
Qed.

(** Every lock can be initialised. *)
Lemma wp_main cpus rest (Q : Z -> host -> Prop) h :
  memory_available (h_alloc h) -> h_answers h = begins cpus ++ rest ->
  Forall (eq 0) (take (length (all_locks cpus)) rest) ->
  (forall h1, h_calls h1 = h_calls h ++ prologue cpus ++ all_locks cpus ->
     h_answers h1 = drop (length (all_locks cpus)) rest -> h_cores h1 = cores cpus ->
     wp (start_server ;;; sys (LockDestroy client_id_lock) 0 ;;;
         (if MTCP then sys MtcpDestroy 0 ;;; ret tt else ret tt) ;;; ret 0) Q no_fault h1) ->
  wp (main 2) Q no_fault h.
Proof.
  rewrite length_all_locks. intros Ha Hans Hz HQ. set (n := clients_for (cores cpus)) in *.
  apply (wp_main_database cpus rest); [done|done|]. intros h1 Ec1 Er1 Ek1 Em1. fold n.
  assert (Hsplit : take (S (2 * n)) rest = take (2 * n) rest ++ take 1 (drop (2 * n) rest)).
  { rewrite <- (take_drop (2 * n) (take (S (2 * n)) rest)), take_take, skipn_firstn_comm.
    f_equal; f_equal; lia. }
  rewrite Hsplit in Hz. apply Forall_app in Hz as [Hz1 Hz2].
  apply wp_init_locks; [by rewrite Er1|]. intros h2 Ec2 Er2 [Ea2 Ek2].
  split; [by rewrite Ea2|]. intros a. apply wp_bind, wp_sys. intros r h3 Ec3 [_ Ek3] Er3.
  cbn in Er3, Ec3, Ek3. rewrite Er2, Er1 in Er3.
  assert (r = 0 /\ h_answers h3 = tail (drop (2 * n) rest)) as [-> Er4].
  { destruct (drop (2 * n) rest) as [|x q]; injection Er3 as -> ->; [done|].
    cbn in Hz2. by apply Forall_cons in Hz2 as [<- _]. }
  cbn [Z.eqb negb]. apply HQ.
  - by rewrite Ec3, Ec2, Ec1, <- !app_assoc.
  - rewrite Er4. replace (S (2 * n)) with (2 * n + 1)%nat by lia. rewrite <- drop_drop.
    by destruct (drop (2 * n) rest).
  - by rewrite Ek3, Ek2.
Qed.

(** After them *)
Lemma wp_epilogue (Q : Z -> host -> Prop) h :
  (forall h', h_calls h' = h_calls h ++ epilogue -> Q 0 h') ->
  wp (sys (LockDestroy client_id_lock) 0 ;;;
      (if MTCP then sys MtcpDestroy 0 ;;; ret tt else ret tt) ;;; ret 0) Q no_fault h.
Proof.
  unfold epilogue. intros HQ. apply wp_bind, wp_sys. intros r h1 E1 _ _. apply wp_bind. destruct MTCP.
  - apply wp_bind, wp_sys. intros r2 h2 E2 _ _. apply wp_ret, wp_ret, HQ. by rewrite E2, E1, <- app_assoc.
  - by apply wp_ret, wp_ret, HQ.
Qed.

(** The three ways of [main] *)
Lemma wp_main_all cpus h :
  memory_available (h_alloc h) -> h_answers h = begins cpus ->
  wp (main 2) (fun r h' => r = 0 /\ h_calls h' = h_calls h ++ prologue cpus ++ all_locks cpus ++
    creates (Z.to_nat (cores cpus)) ++ joins (Z.to_nat (cores cpus)) ++ epilogue) no_fault h.
Proof.
  intros Ha Hans. apply (wp_main cpus []); [done|by rewrite app_nil_r|by rewrite take_nil|].
  intros h1 Ec Ea Ek. rewrite drop_nil in Ea.
  unfold start_server, run_worker. apply wp_bind, wp_bind, wp_bind, wp_gets. rewrite Ek.
  apply wp_bind, wp_all_threads; [exact Ea|].
  intros h2 Ea2 Ec2. cbn [Z.eqb negb]. apply wp_bind, wp_join_threads; [exact Ea2|].
  intros h3 Ea3 Ec3. apply wp_ret, wp_ret, wp_epilogue. intros h4 Ec4. split; [done|].
  by rewrite Ec4, Ec3, Ec2, Ec, <- !app_assoc.
Qed.

Lemma wp_main_thread cpus k rc rest h :
  memory_available (h_alloc h) -> (k < Z.to_nat (cores cpus))%nat -> rc <> 0 ->
  h_answers h = begins cpus ++ replicate (length (all_locks cpus)) 0 ++ replicate k 0 ++ rc :: rest ->
  wp (main 2) (fun r h' => r = 0 /\ h_calls h' = h_calls h ++ prologue cpus ++ all_locks cpus ++
    creates (S k) ++ epilogue) no_fault h.
Proof.
  intros Ha Hk Hrc Hans. apply (wp_main cpus _ _ _ Ha Hans).
  { rewrite take_app_length' by (by rewrite length_replicate). by apply Forall_replicate. }
  intros h1 Ec Ea Ek. rewrite drop_app_length' in Ea by (by rewrite length_replicate).
  unfold start_server, run_worker. apply wp_bind, wp_bind, wp_bind, wp_gets. rewrite Ek.
  apply wp_bind. eapply wp_create_threads; [exact Hk|exact Ea|exact Hrc|].
  intros h2 Ec2. rewrite (proj2 (Z.eqb_neq _ _) Hrc). cbn [negb]. apply wp_ret, wp_ret, wp_epilogue.
  intros h4 Ec4. split; [done|]. by rewrite Ec4, Ec2, Ec, <- !app_assoc.
Qed.

Lemma wp_main_lock cpus k rc rest h :
  memory_available (h_alloc h) -> (k < length (all_locks cpus))%nat -> rc <> 0 ->
  h_answers h = begins cpus ++ replicate k 0 ++ rc :: rest ->
  wp (main 2) (fun r h' => r = -1 /\
    h_calls h' = h_calls h ++ prologue cpus ++ take (S k) (all_locks cpus)) no_fault h.
Proof.
  intros Ha Hk Hrc Hans. rewrite length_all_locks in Hk. set (n := clients_for (cores cpus)) in *.
  assert (Hlen : length (client_locks 0 n) = (2 * n)%nat) by apply length_client_locks.
  apply (wp_main_database cpus _ _ _ Ha Hans). intros h1 Ec1 Er1 Ek1 Em1. fold n.
  unfold all_locks. fold n. destruct (decide (k < 2 * n)%nat) as [Hlt|Hge].
  - eapply wp_init_locks_fails; [exact Hlt|exact Er1|done|]. intros h2 Ec2. split; [done|].
    rewrite Ec2, Ec1, <- app_assoc. f_equal. f_equal. symmetry. apply take_app_le. lia.
  - assert (k = 2 * n)%nat as -> by lia. apply wp_init_locks.
    { rewrite Er1, take_app_length' by (by rewrite length_replicate). by apply Forall_replicate. }
    intros h2 Ec2 Er2 [Ea2 Ek2]. rewrite Er1, drop_app_length' in Er2 by (by rewrite length_replicate).
    split; [by rewrite Ea2|]. intros a. apply wp_bind, wp_sys. intros r h3 Ec3 _ Er3. cbn in Er3, Ec3.
    rewrite Er2 in Er3. injection Er3 as -> _. rewrite (proj2 (Z.eqb_neq _ _) Hrc). apply wp_ret.
    split; [done|]. rewrite Ec3, Ec2, Ec1, <- !app_assoc. f_equal. f_equal.
    rewrite take_ge; [done|]. rewrite length_app, Hlen. cbn. lia.
Qed.

(** C33: with memory for the database the program initialises two locks for each
    client, 32200 clients for each loop, and [client_id_lock], which nothing
    takes.  When one of these calls fails it returns -1 at once.  Otherwise it
    creates as many threads as there are processors for mTCP, at most 16, and 16
    on the sockets of the kernel; it waits for them and destroys
    [client_id_lock], though not the locks of the clients; when a thread cannot
    be created it destroys that lock, and mTCP, and returns without waiting for
    the threads that run already; in either case it reports success. *)
Theorem main_threads cpus h :
  memory_available (h_alloc h) ->
  let n := Z.to_nat (cores cpus) in
  (h_answers h = begins cpus ->
     exists h', main 2 h = Ok (0, h') /\
       h_calls h' = h_calls h ++ prologue cpus ++ all_locks cpus ++ creates n ++ joins n ++ epilogue) /\
  (forall k rc rest, (k < n)%nat -> rc <> 0 ->
     h_answers h = begins cpus ++ replicate (length (all_locks cpus)) 0 ++ replicate k 0 ++ rc :: rest ->
     exists h', main 2 h = Ok (0, h') /\
       h_calls h' = h_calls h ++ prologue cpus ++ all_locks cpus ++ creates (S k) ++ epilogue) /\
  (forall k rc rest, (k < length (all_locks cpus))%nat -> rc <> 0 ->
     h_answers h = begins cpus ++ replicate k 0 ++ rc :: rest ->
     exists h', main 2 h = Ok (-1, h') /\
       h_calls h' = h_calls h ++ prologue cpus ++ take (S k) (all_locks cpus)).
Proof.
  intros Ha n. split_and!.
  - intros Hans. destruct (wp_elim _ _ _ (wp_main_all cpus h Ha Hans)) as (r & h' & Hrun & -> & Hc). eauto.
  - intros k rc rest Hk Hrc Hans.
    destruct (wp_elim _ _ _ (wp_main_thread cpus k rc rest h Ha Hk Hrc Hans)) as (r & h' & Hrun & -> & Hc). eauto.
  - intros k rc rest Hk Hrc Hans.
    destruct (wp_elim _ _ _ (wp_main_lock cpus k rc rest h Ha Hk Hrc Hans)) as (r & h' & Hrun & -> & Hc). eauto.
Qed.

(** The handler sends the signal on to the thread that it runs in, if that is
    one of the loops, and to no other: nothing stops. *)
Theorem SignalHandler_correct self signum h :
  exists h', SignalHandler self signum h = Ok (tt, h') /\
    h_calls h' = h_calls h ++
      match self with
      | Some i => if decide (0 <= i < h_cores h) then [ThreadKill i signum] else []
      | None => []
      end.
Proof.
  assert (Hloop : forall n i h0, exists h', kill_self self signum n i h0 = Ok (tt, h') /\
    h_calls h' = h_calls h0 ++ match self with
      | Some j => if decide (i <= j < i + Z.of_nat n) then [ThreadKill j signum] else []
      | None => [] end).
  { intros n. induction n as [|n IH]; intros i h0.
    { exists h0. split; [done|]. destruct self as [j|]; [|by rewrite app_nil_r].
      rewrite decide_False by lia. by rewrite app_nil_r. }
    cbn [kill_self]. case_bool_decide as Hi; subst.
    - assert (Hw : wp (sys (ThreadKill i signum) 0)
        (fun _ h1 => h_calls h1 = h_calls h0 ++ [ThreadKill i signum]) no_fault h0) by by apply wp_sys.
      apply wp_elim in Hw as (r & h1 & Hs & Hc). destruct (IH (i + 1) h1) as (h' & Hrun & Hc').
      exists h'. split.
      { by rewrite (bind_ok _ _ _ _ _ (eq_trans (bind_ok _ _ _ _ _ Hs) eq_refl)). }
      rewrite Hc', Hc, <- app_assoc. f_equal.
      by rewrite decide_False, decide_True by lia.
    - destruct (IH (i + 1) h0) as (h' & Hrun & Hc'). exists h'. split; [exact Hrun|].
      rewrite Hc'. f_equal. destruct self as [j|]; [|done].
      assert (j <> i) by congruence. apply decide_ext. lia. }
  destruct (Hloop (Z.to_nat (h_cores h)) 0 h) as (h' & Hrun & Hc). exists h'. split; [exact Hrun|].
  rewrite Hc. f_equal. destruct self as [i|]; [|done]. apply decide_ext. lia.
Qed.
(** ** A thread *)

(** The calls with which thread [th_id] has made its context and its epoll
    descriptor, and those that have it watch its listening socket *)
Definition opened (th_id epfd : Z) : list oscall :=
  if MTCP then [MtcpAffinitize th_id; MtcpCreateContext th_id; MtcpEpollCreate]
  else [EpollCreate; SetFd epfd FD_CLOEXEC].
Definition watched (epfd fd flag : Z) : list oscall :=
  if MTCP then [MtcpNonblock fd; MtcpEpollCtl epfd EPOLL_CTL_ADD fd (Some EPOLLIN)]
  else [GetFl fd; SetFl fd (Z.lor flag O_NONBLOCK); SetFd fd FD_CLOEXEC;
        SetSockOpt fd SO_RCVBUF SOCK_RECV_BUFF_SIZE; SetSockOpt fd SO_SNDBUF SOCK_SEND_BUFF_SIZE;
        EpollCtl epfd EPOLL_CTL_ADD fd (Some (Z.lor (Z.lor EPOLLIN EPOLLERR) EPOLLHUP))].

Lemma wp_init_event_io (Q : Z -> host -> Prop) h :
  memory_available (h_alloc h) ->
  (forall h' log, h_calls h' = h_calls h ++ log -> (forall i, MtcpDestroyContext i ∉ log) -> Q (-1) h') ->
  (forall epfd h', h_calls h' = h_calls h ++
     (if MTCP then [MtcpEpollCreate] else [EpollCreate; SetFd epfd FD_CLOEXEC]) -> Q epfd h') ->
  wp init_event_io Q no_fault h.
Proof.
  intros Ha Hbad HQ. unfold init_event_io. apply wp_bind, wp_sys. intros r h1 E1 [A1 _] _.
  assert (Hm : forall h2 r2, memory_available (h_alloc h2) -> (forall a, Q r2 (h2 <| h_alloc := a |>)) ->
    wp (in_alloc malloc_unchecked ;;; ret r2) Q no_fault h2).
  { intros h2 r2 Ha2 H2. apply wp_bind, wp_zoom. unfold malloc_unchecked. apply wp_bind.
    eapply wp_ok; [by apply malloc_available|]. by apply wp_ret, wp_ret. }
  destruct MTCP.
  - destruct (_ <? 0).
    + eapply wp_ret, Hbad; [exact E1|set_solver].
    + apply wp_bind, wp_ret, Hm; [by rewrite A1|]. intros a. by apply HQ.
  - destruct (_ =? _).
    + eapply wp_ret, Hbad; [exact E1|set_solver].
    + apply wp_bind, wp_bind, wp_sys. intros r2 h2 E2 [A2 _] _. apply wp_ret, Hm; [by rewrite A2, A1|].
      intros a. apply HQ. cbn. by rewrite E2, E1, <- app_assoc.
Qed.

Lemma wp_add_sock epfd fd (Q : Z -> host -> Prop) h :
  (forall r flag h', h_calls h' = h_calls h ++ watched epfd fd flag -> EPOLLIN <> 0 -> Q r h') ->
  EPOLLIN <> 0 -> wp (add_sock epfd fd) Q no_fault h.
Proof.
  unfold add_sock, operate_epoll, watched. intros HQ Hin. rewrite (proj2 (Z.eqb_neq _ _) Hin). cbn [negb].
  destruct MTCP.
  - apply wp_bind, wp_bind, wp_sys. intros r1 h1 E1 _ _. apply wp_ret.
    apply wp_bind, wp_sys. intros r2 h2 E2 _ _. apply wp_ret, (HQ _ 0); [|done].
    by rewrite E2, E1, <- app_assoc.
  - unfold set_nonblocking, set_rcv_wrt_buffer.
    apply wp_bind, wp_bind, wp_bind, wp_sys. intros flag h1 E1 _ _.
    apply wp_bind, wp_sys. intros r2 h2 E2 _ _. apply wp_bind, wp_sys. intros r3 h3 E3 _ _. apply wp_ret.
    apply wp_bind, wp_sys. intros r4 h4 E4 _ _. apply wp_bind, wp_sys. intros r5 h5 E5 _ _. apply wp_ret.
    apply wp_bind, wp_sys. intros r6 h6 E6 _ _. apply wp_ret, (HQ _ flag); [|done].
    by rewrite E6, E5, E4, E3, E2, E1, <- !app_assoc.
Qed.

Lemma listens_keeps_context port r log i : listens port r log -> MtcpDestroyContext i ∉ log.*1.
Proof. unfold listens. destruct MTCP; intros []; cbn; set_solver. Qed.

(** A thread enters its loop with a socket that listens and that it has asked
    epoll to watch, whether or not that was granted; one that cannot leaves the
    context of mTCP that it may have. *)
Theorem run_correct port th_id h :
  EPOLLIN <> 0 -> memory_available (h_alloc h) ->
  exists r h' log, run port th_id h = Ok (r, h') /\ h_calls h' = h_calls h ++ log /\
    match r with
    | Some (epfd, fd) => 0 <= fd /\
        exists flag, log = opened th_id epfd ++ listening fd port ++ watched epfd fd flag
    | None => MtcpDestroyContext th_id ∉ log
    end.
Proof.
  intros Hin Ha. enough (H : wp (run port th_id) (fun r h' => exists log, h_calls h' = h_calls h ++ log /\
    match r with
    | Some (epfd, fd) => 0 <= fd /\
        exists flag, log = opened th_id epfd ++ listening fd port ++ watched epfd fd flag
    | None => MtcpDestroyContext th_id ∉ log
    end) no_fault h).
  { destruct (wp_elim _ _ _ H) as (r & h' & Hrun & log & Hlog). by exists r, h', log. }
  unfold run. apply wp_bind.
  set (first := if MTCP then [MtcpAffinitize th_id; MtcpCreateContext th_id] else []).
  assert (Hctx : wp (if MTCP then sys (MtcpAffinitize th_id) 0 ;;; sys (MtcpCreateContext th_id) 1 else ret 1)
    (fun _ h1 => h_calls h1 = h_calls h ++ first /\ h_alloc h1 = h_alloc h) no_fault h).
  { unfold first. destruct MTCP; [|apply wp_ret; by rewrite app_nil_r].
    apply wp_bind, wp_sys. intros r1 h1 E1 [A1 _] _. apply wp_sys. intros r2 h2 E2 [A2 _] _.
    split; [by rewrite E2, E1, <- app_assoc|congruence]. }
  assert (Hfirst : MtcpDestroyContext th_id ∉ first) by (unfold first; destruct MTCP; set_solver).
  eapply wp_conseq; [exact Hctx| |done]. intros ctx h1 [E1 A1]. cbv beta.
  destruct (ctx =? 0); [apply wp_ret; by exists first|].
  apply wp_bind, wp_init_event_io; [by rewrite A1|..].
  { intros h2 log E2 Hlog. apply wp_ret. exists (first ++ log). rewrite E2, E1, <- app_assoc.
    split; [done|]. by rewrite not_elem_of_app. }
  intros epfd h2 E2. destruct (epfd =? -1).
  { apply wp_ret. eexists. split; [by rewrite E2, E1, <- app_assoc|]. rewrite not_elem_of_app.
    split; [done|]. destruct MTCP; set_solver. }
  apply wp_bind, wp_get_listen_sock. intros fd h3 log [E3 _] Hl.
  assert (Hopen : h_calls h2 = h_calls h ++ opened th_id epfd).
  { rewrite E2, E1, <- app_assoc. unfold opened, first. by destruct MTCP. }
  destruct (Z.eqb_spec fd (-1)) as [->|Hfd].
  { apply wp_ret. exists (opened th_id epfd ++ log.*1). rewrite E3, Hopen, <- app_assoc. split; [done|].
    rewrite not_elem_of_app. split; [|by eapply listens_keeps_context].
    unfold opened. destruct MTCP; set_solver. }
  apply wp_bind, wp_add_sock; [|done]. intros r flag h4 E4 _. apply wp_ret.
  destruct (listens_calls _ _ _ Hl) as [?|[H0 Hlog]]; [done|]. rewrite Hlog in E3. eexists. split; [|split; [exact H0|by exists flag]].
  by rewrite E4, E3, Hopen, <- !app_assoc.
Qed.
End start.
