(* ===== verification/BrokerInv.v ===== *)
(** * The invariant of the clients, kept by every command *)

From S2P Require Import Prelude.
From S2P Require Import Mqtt.
From S2P Require Import Serialiser.
From S2P Require Import SerialiserFacts.
From S2P Require Import Utility.
From S2P Require Import Substree.
From S2P Require Import SubstreeFacts.
From S2P Require Import Broker.
From S2P Require Import Handler.

Section build.
Context {bd : Build} {bd_ok : BuildOk bd}.

(** A packet is a buffer of [wlen] bytes of which the first [wcur] are sent. *)
Definition packet_ok (p : packet) : Prop :=
  wlen p = Z.of_nat (length (send_buf p)) /\ 0 <= wcur p <= wlen p /\ wlen p < 2 ^ 32.

(** Every count of a packet to send is backed by a packet; the identifier
    fills its array. *)
Definition client_ok (c : client) : Prop :=
  length (id c) = id_size /\
  Forall packet_ok (sending_packet c) /\ from_option packet_ok True (sending_cur_packet c) /\
  0 <= num_sending_pack c <=
    Z.of_nat (length (sending_packet c)) + match sending_cur_packet c with Some _ => 1 | None => 0 end.

Definition clients_ok (cl : clients) : Prop := forall n, client_ok (cl !!! n).
Definition broker_ok (s : broker) : Prop := clients_ok (ss_clients s).

Lemma client0_ok : client_ok client0.
Proof. split_and!; [done|constructor|done|done|done]. Qed.

Lemma clients_ok_insert cl n c : clients_ok cl -> client_ok c -> clients_ok (<[n := c]> cl).
Proof.
  intros Hcl Hc k. destruct (decide (k = n)) as [->|Hne].
  - by rewrite lookup_total_insert_eq.
  - by rewrite lookup_total_insert_ne.
Qed.

(** The fields of a client that only the reader of its socket works on *)
Definition reader_of (c : client) :=
  (sock c, in_packet c, in_parser c, remaining_count c, remaining_mult c, in_payload c,
   in_to_process c, in_cur c).

(** ** The serialiser keeps the size of its buffer *)

Definition sized (n : nat) (s : wstate) : Prop := length (w_buffer s) = n.

Section serialiser.
Context (n : nat).

Lemma preserves_store i v : preserves (sized n) (store i v).
Proof using.
  intros s a s' Hs. unfold store. case_match; [|done]. intros [= _ <-].
  unfold sized in *. cbn. by rewrite length_insert.
Qed.
#[local] Hint Resolve preserves_store : mumq.

Lemma preserves_offset f : preserves (sized n) (modify (fun s => s <| w_offset := f s |>)).
Proof using. by apply preserves_modify. Qed.
#[local] Hint Resolve preserves_offset : mumq.

Lemma preserves_put_byte v : preserves (sized n) (put_byte v).
Proof using. unfold put_byte. preserves_tac. Qed.
#[local] Hint Resolve preserves_put_byte : mumq.

Lemma preserves_store_bytes i l : preserves (sized n) (store_bytes i l).
Proof using. revert i. induction l; intros i; cbn [store_bytes]; preserves_tac. Qed.
#[local] Hint Resolve preserves_store_bytes : mumq.

Lemma preserves_copy_buffer b : preserves (sized n) (copy_buffer b).
Proof using. unfold copy_buffer. preserves_tac. Qed.
#[local] Hint Resolve preserves_copy_buffer : mumq.

Lemma preserves_WRITE_STRING b : preserves (sized n) (WRITE_STRING b).
Proof using. unfold WRITE_STRING. preserves_tac. Qed.
#[local] Hint Resolve preserves_WRITE_STRING : mumq.

Lemma preserves_write_length fuel l : preserves (sized n) (write_length fuel l).
Proof using.
  revert l. induction fuel as [|fuel IH]; intros l; [done|]. cbn [write_length]. preserves_tac.
Qed.
#[local] Hint Resolve preserves_write_length : mumq.

Lemma preserves_serialise m : preserves (sized n) (serialise m).
Proof using. unfold serialise, write_connect, write_if. preserves_tac. Qed.
End serialiser.

Lemma serialiser_write_length m buffer len rc out :
  mqtt_serialiser_write m buffer len = Ok (rc, out) -> length out = length buffer.
Proof.
  unfold mqtt_serialiser_write.
  destruct (serialise m _) as [[rc' s]| |] eqn:E; [|done|done]. intros [= _ <-].
  by apply (preserves_serialise (length buffer)) in E.
Qed.

Lemma new_packet_ok m s p s' : new_packet m s = Ok (p, s') -> packet_ok p.
Proof.
  unfold new_packet, bind. destruct (with_alloc malloc_unchecked s) as [[? s1]| |]; [|done|done].
  destruct (with_alloc malloc_unchecked s1) as [[? s2]| |]; [|done|done]. unfold lift.
  destruct (mqtt_serialiser_write m _ _) as [[rc buf]| |] eqn:E; [|done|done].
  intros [= <- _]. apply serialiser_write_length in E. rewrite length_replicate in E.
  pose proof (u32_range (mqtt_serialiser_size m)). unfold packet_ok.
  cbn [wlen send_buf wcur]. rewrite E, Z2Nat.id by lia. change (2 ^ 32) with 4294967296. lia.
Qed.

(** ** The operations of the broker

    What a command on client [n] does to the broker comes down to a few changes
    of single clients; a property closed under them is kept by every command. *)

Definition change_client (m : nat) (f : client -> client) (b : broker) : broker :=
  b <| ss_clients := <[m := f (ss_clients b !!! m)]> (ss_clients b) |>.

(** A change of none of the fields that identify, address or queue *)
Definition plain (f : client -> client) : Prop :=
  forall c, id (f c) = id c /\ sock (f c) = sock c /\ sending_packet (f c) = sending_packet c /\
    sending_cur_packet (f c) = sending_cur_packet c /\ num_sending_pack (f c) = num_sending_pack c.

(** What [add_client] does *)
Definition connected (l : list Z) (c : client) : client :=
  c <| id := l |> <| num_sending_pack := 0 |> <| state := cs_connected |>.

(** [B] says which base of the clients' indices the command is run with. *)
Record closed (n : nat) (B : Z -> Prop) (P : broker -> Prop) : Prop := {
  closed_rest b b' : ss_clients b' = ss_clients b -> P b -> P b';
  closed_field f b : plain f -> P b -> P (change_client n f b);
  closed_queue m p b : packet_ok p -> wcur p = 0 -> P b -> P (change_client m (enqueue p) b);
  closed_connect base i l b : B base -> client_index base (sock (ss_clients b !!! n)) = Ok i ->
    length l = id_size -> P b -> P (change_client i (connected l) b) }.

Lemma store_id_length b l : store_id b = Ok l -> length l = id_size.
Proof.
  unfold store_id. destruct (load_bytes _ _) as [l'| |]; [|done|done]. cbn [obind].
  destruct (Nat.ltb_spec id_size (length l')); [done|]. intros [= <-].
  rewrite length_app, length_replicate. lia.
Qed.

Lemma new_packet_start m s p s' : new_packet m s = Ok (p, s') -> wcur p = 0.
Proof.
  unfold new_packet, bind. destruct (with_alloc malloc_unchecked s) as [[? s1]| |]; [|done|done].
  destruct (with_alloc malloc_unchecked s1) as [[? s2]| |]; [|done|done]. unfold lift.
  destruct (mqtt_serialiser_write m _ _) as [[rc buf]| |]; [|done|done]. by intros [= <- _].
Qed.

Section commands.
Context (n : nat) (B : Z -> Prop) (P : broker -> Prop) (HP : closed n B P).

Lemma preserves_rest (f : broker -> broker) :
  (forall b, ss_clients (f b) = ss_clients b) -> preserves P (modify f).
Proof using HP. intros Hf. apply preserves_modify. intros b. by apply (closed_rest _ _ _ HP). Qed.

Lemma preserves_field f : plain f -> preserves P (on_client n f).
Proof using HP. intros Hf b [] b' Hb [= <-]. by apply (closed_field _ _ _ HP). Qed.

Lemma preserves_get_client m : preserves P (get_client m).
Proof using. apply preserves_gets. Qed.

Lemma preserves_with_alloc {A} (m : M alloc A) : preserves P (with_alloc m).
Proof using HP. apply preserves_zoom. intros a b. by apply (closed_rest _ _ _ HP). Qed.
#[local] Hint Resolve preserves_get_client preserves_with_alloc : mumq.

Lemma preserves_send m k : preserves P (let* p := new_packet m in on_client k (enqueue p)).
Proof using HP.
  apply (preserves_bind_with _ (fun p => packet_ok p /\ wcur p = 0)).
  - unfold new_packet. preserves_tac.
  - intros s p s' Hrun. split; [by eapply new_packet_ok|by eapply new_packet_start].
  - intros p [Hp Hw] b [] b' Hb [= <-]. by apply (closed_queue _ _ _ HP).
Qed.

Lemma preserves_ack_msg cmd len rc : preserves P (ack_msg n cmd len rc).
Proof using HP.
  unfold ack_msg. apply preserves_bind; [apply preserves_get_client|]. intros c.
  case_match; [apply preserves_send|apply preserves_ret].
Qed.
#[local] Hint Resolve preserves_ack_msg : mumq.

Lemma preserves_publish_msg topic payload len k : preserves P (publish_msg topic payload len k).
Proof using HP. apply preserves_send. Qed.
#[local] Hint Resolve preserves_publish_msg : mumq.

Lemma preserves_connect b base :
  B base -> preserves P (let* c := get_client n in
               let* added := add_client b base (sock c) in ret (if added then 0 else 2)).
Proof using HP.
  intros HB s rc s' Hs. erewrite bind_ok by reflexivity. cbv beta. unfold add_client, bind, lift.
  destruct (client_index base _) as [i| |] eqn:Ei; [|done|done].
  destruct (store_id b) as [l| |] eqn:El; [|done|done]. intros [= _ <-].
  eapply (closed_connect _ _ _ HP); [exact HB|exact Ei|by eapply store_id_length|exact Hs].
Qed.

(** *** The tree *)

Lemma preserves_set_slots l :
  preserves P (modify (fun s => s <| ss_clients := cs_set_subs n l (ss_clients s) |>)).
Proof using HP.
  apply preserves_modify. intros b. apply (closed_field _ _ _ HP (fun c => c <| subs := l |>)).
  intros c. by split_and!.
Qed.
#[local] Hint Resolve preserves_set_slots : mumq.

Lemma preserves_sub_add q h toks : preserves P (_sub_add n q h toks).
Proof using HP.
  revert h. induction toks as [|t toks IH]; intros h; cbn [_sub_add]; [|preserves_tac].
  unfold add_leaf. preserves_tac; apply preserves_set_slots.
Qed.
#[local] Hint Resolve preserves_sub_add : mumq.

Lemma preserves_mqtt3_sub_add sub q : preserves P (mqtt3_sub_add n sub q).
Proof using HP.
  unfold mqtt3_sub_add, lock_root, unlock_root, set_roots.
  repeat first [preserves_rule | assumption | solve [auto with mumq] | by apply preserves_rest].
Qed.
#[local] Hint Resolve preserves_mqtt3_sub_add : mumq.

Section search.
Context (callback : nat -> M broker unit).
Hypothesis Hcb : forall k, preserves P (callback k).

Lemma preserves_subs_process h : preserves P (_subs_process callback h).
Proof using Hcb.
  apply preserves_iter. intros leaf. unfold process_leaf. preserves_tac.
Qed.

Lemma preserves_sub_search h toks : preserves P (_sub_search callback h toks).
Proof using Hcb.
  revert toks. induction h as [a t ls cs IH] using subhier_ind'. intros toks.
  cbn [_sub_search]. induction cs as [|b cs IHcs]; [apply preserves_ret|].
  apply Forall_cons in IH as [Hb IH].
  pose proof (preserves_subs_process b). pose proof (IHcs IH). preserves_tac.
Qed.

Lemma preserves_sub_tree_process topic : preserves P (mqtt3_sub_tree_process callback topic).
Proof using Hcb HP.
  unfold mqtt3_sub_tree_process. preserves_tac. apply preserves_iter. intros h.
  unfold search_root. preserves_tac; apply preserves_sub_search.
Qed.
End search.

(** *** The commands *)

Lemma preserves_copy_terminated b : preserves P (copy_terminated b).
Proof using HP. unfold copy_terminated. preserves_tac. Qed.
#[local] Hint Resolve preserves_copy_terminated : mumq.

Lemma preserves_subscribe_topic m b tp : preserves P (subscribe_topic n m b tp).
Proof using HP. unfold subscribe_topic. preserves_tac; by apply preserves_field. Qed.
#[local] Hint Resolve preserves_subscribe_topic : mumq.

Lemma preserves_handle_publish m : preserves P (handle_publish n m).
Proof using HP.
  unfold handle_publish. preserves_tac; [by apply preserves_field|].
  apply preserves_sub_tree_process. intros k. apply preserves_publish_msg.
Qed.
#[local] Hint Resolve preserves_handle_publish : mumq.

Lemma preserves_handle base : B base -> preserves P (handle_mqtt_command base n).
Proof using HP.
  intros HB. unfold handle_mqtt_command, handle_connect, handle_subscribe.
  repeat first [apply (preserves_connect _ _ HB) | preserves_rule | assumption | solve [auto with mumq]];
    by apply preserves_field.
Qed.
End commands.

(** *** The invariant of the clients is such a property *)

Lemma broker_ok_with m f b :
  (forall c, client_ok c -> client_ok (f c)) -> broker_ok b -> broker_ok (change_client m f b).
Proof. intros Hf Hb. apply clients_ok_insert; [done|]. apply Hf, Hb. Qed.

Lemma preserves_on_client m f :
  (forall c, client_ok c -> client_ok (f c)) -> preserves broker_ok (on_client m f).
Proof. intros Hf b [] b' Hb [= <-]. by apply (broker_ok_with m f b). Qed.

Lemma enqueue_ok p c : packet_ok p -> client_ok c -> client_ok (enqueue p c).
Proof.
  intros Hp (Hid & Hq & Hcur & Hn). split_and!; [done| |done|cbn; lia|].
  - cbn. apply Forall_app. by split; [|constructor].
  - cbn. rewrite length_app. cbn. lia.
Qed.

Lemma plain_ok f c : plain f -> client_ok c -> client_ok (f c).
Proof. intros Hf. unfold client_ok. by destruct (Hf c) as (-> & _ & -> & -> & ->). Qed.

Lemma broker_ok_closed n : closed n (fun _ => True) broker_ok.
Proof.
  split.
  - intros b b' E Hb. unfold broker_ok. by rewrite E.
  - intros f b Hf. apply broker_ok_with. intros c. by apply plain_ok.
  - intros m p b Hp _. apply broker_ok_with. intros c. by apply enqueue_ok.
  - intros base i l b _ _ Hl. apply broker_ok_with. intros c (_ & Hq & Hcur & Hn).
    split_and!; [done|done|done|done|]. cbn. destruct (sending_cur_packet c); lia.
Qed.

Lemma clean_context_ok c : client_ok c -> client_ok (clean_context c).
Proof. intros (Hid & Hq & Hcur & Hn). split_and!; [done|done|done|done|]. cbn. lia. Qed.

(** Whatever the message and however much memory there is, a command that
    returns keeps every client consistent: identifiers fill their array, the
    packets queued or being sent lie in their buffers, and no client counts
    more packets to send than it has. *)
Theorem handle_mqtt_command_ok base n s rc s' :
  broker_ok s -> handle_mqtt_command base n s = Ok (rc, s') -> broker_ok s'.
Proof. by apply (preserves_handle _ _ _ (broker_ok_closed n)). Qed.
End build.
