(* ===== verification/OutputFacts.v ===== *)
(** * Output: sending the packets of a client *)

From S2P Require Import Prelude.
From S2P Require Import Mqtt.
From S2P Require Import Substree.
From S2P Require Import UtHash.
From S2P Require Import Broker.
From S2P Require Import Handler.
From S2P Require Import EventIO.
From S2P Require Import BrokerInv.

Section build.
Context {bd : Build} {bd_ok : BuildOk bd}.


Section output.
Context (n : nat) (w : world).

(** The part of the world sending changes: client, script of [send], [errno],
    trace. *)
Definition out_ (c : client) (q : list tx) (e : errno_t) (tr : list syscall) : world :=
  w <| w_broker := (w_broker w) <| ss_clients := <[n := c]> (ss_clients (w_broker w)) |> |>
    <| w_os := (w_os w) <| os_tx := q |> <| os_errno := e |> <| os_trace := tr |> |>.

Lemma get_out c q e tr : in_broker (get_client n) (out_ c q e tr) = Ok (c, out_ c q e tr).
Proof using.
  unfold in_broker, zoom, get_client, gets, out_. cbn. by rewrite lookup_total_insert_eq.
Qed.

Lemma set_out f c q e tr :
  in_broker (on_client n f) (out_ c q e tr) = Ok (tt, out_ (f c) q e tr).
Proof using.
  unfold in_broker, zoom, on_client, get_client, put_client, gets, modify, bind, out_.
  cbn. by rewrite lookup_total_insert_eq, insert_insert_eq.
Qed.

Lemma current_out c q e tr p :
  sending_cur_packet c = Some p -> current_packet n (out_ c q e tr) = Ok (p, out_ c q e tr).
Proof using. intros Hp. unfold current_packet. rewrite (bind_ok _ _ _ _ _ (get_out _ _ _ _)). by rewrite Hp. Qed.

Lemma fuel_out c q e tr :
  send_fuel (out_ c q e tr) = Ok (S (S (length q)), out_ c q e tr).
Proof using. done. Qed.

Lemma send_end fd l c e tr :
  send fd l (out_ c [] e tr) = Ok (zlen l, out_ c [] e (tr ++ [Sent fd l])).
Proof using. done. Qed.
Lemma send_takes fd l c k q e tr :
  send fd l (out_ c (Takes k :: q) e tr) =
  Ok (Z.of_nat (Nat.min (S k) (length l)),
      out_ c q e (tr ++ [Sent fd (take (Nat.min (S k) (length l)) l)])).
Proof using. done. Qed.
Lemma send_error fd l c e0 q e tr :
  send fd l (out_ c (TxError e0 :: q) e tr) = Ok (-1, out_ c q e0 tr).
Proof using. done. Qed.

(** One round of [send_loop] while the packet is not finished, by what
    [send] returned. *)
Lemma send_round fuel c p q e tr r q' e' tr' :
  sending_cur_packet c = Some p -> wcur p < wlen p -> 0 < u32 r ->
  send (sock c) (drop (Z.to_nat (wcur p)) (send_buf p)) (out_ c q e tr) =
    Ok (r, out_ c q' e' tr') ->
  send_loop n (S fuel) (out_ c q e tr) =
  send_loop n fuel
    (out_ (c <| sending_cur_packet := Some (p <| wcur := u32 (wcur p + u32 r) |>) |>) q' e' tr').
Proof using.
  intros Hp Hw Hr Hs. cbn [send_loop]. etrans; [apply (bind_ok _ _ _ None)|reflexivity]. unfold send_step.
  rewrite (bind_ok _ _ _ _ _ (current_out _ _ _ _ _ Hp)).
  rewrite (proj2 (Z.ltb_lt _ _)) by done. rewrite (bind_ok _ _ _ _ _ (get_out _ _ _ _)).
  rewrite (bind_ok _ _ _ _ _ Hs), (proj2 (Z.leb_gt _ _)) by done.
  by rewrite (bind_ok _ _ _ _ _ (set_out _ _ _ _ _)).
Qed.

Lemma send_finished fuel c p q e tr :
  sending_cur_packet c = Some p -> wlen p <= wcur p ->
  send_loop n (S fuel) (out_ c q e tr) = Ok (false, out_ c q e tr).
Proof using.
  intros Hp Hw. cbn [send_loop]. etrans; [apply (bind_ok _ _ _ (Some false))|reflexivity]. unfold send_step.
  rewrite (bind_ok _ _ _ _ _ (current_out _ _ _ _ _ Hp)). by rewrite (proj2 (Z.ltb_ge _ _)).
Qed.

(** [send_one] around a loop that finishes the packet. *)
Definition sent_one (c : client) : client :=
  c <| snd_num := u32 (snd_num c + 1) |> <| sending_cur_packet := None |>.

Lemma send_one_out c q e tr c' p' q' e' tr' :
  send_loop n (S (S (length q))) (out_ (take_packet c) q e tr) = Ok (false, out_ c' q' e' tr') ->
  sending_cur_packet c' = Some p' -> wlen p' <= wcur p' ->
  send_one n (out_ c q e tr) = Ok (false, out_ (sent_one c') q' e' tr').
Proof using.
  intros Hloop Hp Hw. unfold send_one. rewrite (bind_ok _ _ _ _ _ (set_out _ _ _ _ _)).
  rewrite (bind_ok _ _ _ _ _ (fuel_out _ _ _ _)), (bind_ok _ _ _ _ _ Hloop).
  etrans; [apply (bind_ok _ _ _ tt)|reflexivity]. unfold end_packet.
  rewrite (bind_ok _ _ _ _ _ (set_out _ _ _ _ _)).
  set (c2 := c' <| snd_num := _ |>). change (sending_cur_packet c2 = Some p') in Hp.
  rewrite (bind_ok _ _ _ _ _ (current_out c2 _ _ _ _ Hp)).
  rewrite (proj2 (Z.leb_le _ _)) by done. etrans; [apply set_out|reflexivity].
Qed.
End output.

(** ** Any script: the loop ends, with the packet used up *)

(** What the loop leaves of a packet: the same bytes, the counter past the end. *)
Definition used_up (p p' : packet) : Prop :=
  send_buf p' = send_buf p /\ wlen p' = wlen p /\ wlen p <= wcur p'.

(** A trace of nothing but sending on one socket. *)
Definition only_to (fd : Z) (tr : list syscall) : Prop :=
  Forall (fun s => exists l, s = Sent fd l) tr.

Lemma only_to_one fd l : only_to fd [Sent fd l].
Proof. apply Forall_singleton. by exists l. Qed.

(** Of the script something is used up, and the trace grows by what is sent. *)
Definition sends_on (fd : Z) (q : list tx) (tr : list syscall) (q' : list tx) (tr' : list syscall) :
    Prop :=
  (exists q0, q = q0 ++ q') /\ exists tr0, tr' = tr ++ tr0 /\ only_to fd tr0.

Lemma sends_on_none fd q tr : sends_on fd q tr q tr.
Proof. split; [by exists []|]. exists []. rewrite app_nil_r. by split; [|constructor]. Qed.

Lemma sends_on_trans fd q1 t1 q2 t2 q3 t3 :
  sends_on fd q1 t1 q2 t2 -> sends_on fd q2 t2 q3 t3 -> sends_on fd q1 t1 q3 t3.
Proof.
  intros [[q ->] (t & -> & Ht)] [[q' ->] (t' & -> & Ht')]. split.
  - exists (q ++ q'). by rewrite app_assoc.
  - exists (t ++ t'). rewrite app_assoc. split; [done|]. by apply Forall_app.
Qed.

Lemma sends_on_step fd x q tr l :
  sends_on fd (x :: q) tr q tr /\ sends_on fd (x :: q) tr q (tr ++ [Sent fd l]) /\
  sends_on fd q tr q (tr ++ [Sent fd l]).
Proof.
  pose proof (only_to_one fd l). split_and!; split; try (by exists [x]); try (by exists []);
    try (by exists [Sent fd l]).
  exists []. rewrite app_nil_r. by split; [|constructor].
Qed.

Lemma send_loop_any n w fuel c p q e tr :
  sending_cur_packet c = Some p -> wlen p = zlen (send_buf p) -> wlen p < 2 ^ 32 ->
  0 <= wcur p < 2 ^ 32 -> (S (length q) < fuel)%nat ->
  exists p' q' e' tr', used_up p p' /\ sends_on (sock c) q tr q' tr' /\
    send_loop n fuel (out_ n w c q e tr) =
    Ok (false, out_ n w (c <| sending_cur_packet := Some p' |>) q' e' tr').
Proof.
  revert c p q e tr. induction fuel as [|fuel IH]; intros c p q e tr Hp Hl Hlt Hw Hf; [lia|].
  destruct (Z.lt_ge_cases (wcur p) (wlen p)) as [Hmore|Hdone]; cycle 1.
  { exists p, q, e, tr. split; [done|]. split; [apply sends_on_none|]. rewrite (send_finished n w fuel c p) by done.
    do 3 f_equal. destruct c; cbn in *; by subst. }
  set (l := drop (Z.to_nat (wcur p)) (send_buf p)).
  assert (Hlen : zlen l = wlen p - wcur p) by (unfold l; rewrite length_drop; lia).
  change (2 ^ 32) with 4294967296 in *.
  assert (Hstep : exists r q' e' tr',
    send (sock c) l (out_ n w c q e tr) = Ok (r, out_ n w c q' e' tr') /\
    sends_on (sock c) q tr q' tr' /\ 0 < u32 r /\
    ((S (length q') < fuel)%nat \/ (wlen p <= u32 (wcur p + u32 r) /\ (0 < fuel)%nat))).
  { destruct q as [|[k|e0] q]; cbn [length] in Hf.
    - eexists _, _, _, _. split; [apply send_end|]. split; [apply (sends_on_step _ (Takes 0))|].
      rewrite u32_small by lia.
      split; [lia|right]. rewrite u32_small by lia. lia.
    - eexists _, _, _, _. split; [apply send_takes|]. split; [apply sends_on_step|].
      rewrite u32_small by lia.
      split; [lia|left; lia].
    - eexists _, _, _, _. split; [apply send_error|]. split; [apply (sends_on_step _ _ _ _ l)|].
      split; [done|left; lia]. }
  destruct Hstep as (r & q' & e' & tr' & Hs & Hon & Hr & Hnext).
  rewrite (send_round n w fuel c p q e tr r q' e' tr' Hp Hmore Hr Hs).
  set (p1 := p <| wcur := u32 (wcur p + u32 r) |>).
  pose proof (u32_range (wcur p + u32 r)) as Hrange.
  destruct Hnext as [Hf'|[Hend Hf']].
  - destruct (IH (c <| sending_cur_packet := Some p1 |>) p1 q' e' tr')
      as (p' & q2 & e2 & tr2 & (Hb & Hl' & Hu) & Hon2 & Hrun); [done|done|done|done|done|].
    exists p', q2, e2, tr2. split; [done|]. split; [by eapply sends_on_trans|exact Hrun].
  - destruct fuel as [|fuel]; [lia|].
    exists p1, q', e', tr'. split; [done|]. split; [exact Hon|].
    by apply (send_finished n w fuel _ p1).
Qed.
End build.
