(* ===== verification/InputFacts.v ===== *)
(** * Input: a packet is read the same however the network cuts it *)

From S2P Require Import Prelude.
From S2P Require Import Mqtt.
From S2P Require Import Serialiser.
From S2P Require Import SerialiserFacts.
From S2P Require Import Parser.
From S2P Require Import Substree.
From S2P Require Import UtHash.
From S2P Require Import Broker.
From S2P Require Import Handler.
From S2P Require Import EventIO.

Section build.
Context {bd : Build} {bd_ok : BuildOk bd}.

(** ** Scripts without an end or an error *)

Definition is_cut (x : rx) : Prop :=
  match x with Segment _ _ | RxError EAGAIN => True | _ => False end.
Definition cuts (q : list rx) : Prop := Forall is_cut q.

Definition rx_bytes (x : rx) : list Z := match x with Segment b l => b :: l | _ => [] end.
Definition bytes_of (q : list rx) : list Z := flat_map rx_bytes q.

Definition is_again (x : rx) : bool := match x with RxError EAGAIN => true | _ => false end.
(** How often the socket runs dry. *)
Definition pauses (q : list rx) : nat := length (List.filter is_again q).

(** A pause, or at least one and at most [k] bytes. *)
Lemma recv_script_cases k q b l :
  cuts q -> bytes_of q = b :: l -> (0 < k)%nat ->
  exists q', cuts q' /\
    ((recv_script k q = (inr EAGAIN, q') /\ bytes_of q' = b :: l /\ S (pauses q') = pauses q) \/
     (exists l1 l2, recv_script k q = (inl (b :: l1), q') /\ l = l1 ++ l2 /\
        (length (b :: l1) <= k)%nat /\ bytes_of q' = l2 /\ pauses q' = pauses q /\
        (length (b :: l1) = k \/ length q' < length q)%nat)).
Proof.
  intros Hq Hb Hk. destruct q as [|x q]; [done|]. apply Forall_cons in Hq as [Hx Hq].
  destruct x as [b0 l0| |[]]; try done.
  - cbn in Hb. injection Hb as -> Hl. destruct k as [|k]; [lia|]. cbn [recv_script take drop].
    destruct (drop k l0) as [|b' l'] eqn:Ed.
    + exists q. split; [done|]. right. exists (take k l0), (bytes_of q).
      split_and!; [done| |cbn; rewrite length_take; lia|done|done|right; cbn; lia].
      rewrite <- Hl. f_equal. by rewrite <- (take_drop k l0) at 1; rewrite Ed, app_nil_r.
    + exists (Segment b' l' :: q). split; [by constructor|]. right.
      exists (take k l0), (b' :: l' ++ bytes_of q).
      split_and!; [done| |cbn; rewrite length_take; lia|done|done|left].
      * rewrite <- Hl, <- (take_drop k l0) at 1. by rewrite Ed, <- app_assoc.
      * assert (length (drop k l0) <> 0)%nat as Hd by (by rewrite Ed).
        rewrite length_drop in Hd. cbn. rewrite length_take. lia.
  - exists q. split; [done|]. by left.
Qed.

(** ** Remaining lengths *)


Fixpoint digits_value (ds : list Z) : Z :=
  match ds with [] => 0 | d :: ds' => Z.land d 127 + 128 * digits_value ds' end.

(** One to four digits, all but the last with the continuation bit. *)
Fixpoint digits_ok (ds : list Z) : Prop :=
  match ds with
  | [] => False
  | [d] => Z.land d 128 = 0
  | d :: ds' => Z.land d 128 <> 0 /\ digits_ok ds'
  end.

Lemma land_127_range d : 0 <= Z.land d 127 < 128.
Proof.
  change 127 with (Z.ones 7). rewrite Z.land_ones by lia. apply Z.mod_pos_bound. lia.
Qed.

Lemma digits_value_range ds : 0 <= digits_value ds < 128 ^ zlen ds.
Proof.
  induction ds as [|d ds IH]; [done|]. cbn [digits_value length].
  rewrite Nat2Z.inj_succ, Z.pow_succ_r by lia. pose proof (land_127_range d). lia.
Qed.

Lemma digits_value_snoc ds d :
  digits_value (ds ++ [d]) = digits_value ds + 128 ^ zlen ds * Z.land d 127.
Proof.
  induction ds as [|d0 ds IH]; cbn [app digits_value length].
  - change (128 ^ Z.of_nat 0) with 1. lia.
  - rewrite IH, Nat2Z.inj_succ, Z.pow_succ_r by lia. ring.
Qed.

(** ** The part of the world the reader changes *)

Section reader.
Context (n : nat) (fd : Z) (w : world).

Definition at_ (c : client) (q : list rx) (e : errno_t) (a : alloc) : world :=
  w <| w_broker := (w_broker w) <| ss_alloc := a |>
                     <| ss_clients := <[n := c]> (ss_clients (w_broker w)) |> |>
    <| w_os := (w_os w) <| os_rx := <[fd := q]> (os_rx (w_os w)) |> <| os_errno := e |> |>.

Lemma client_now_at c q e a : client_now n (at_ c q e a) = Ok (c, at_ c q e a).
Proof using.
  unfold client_now, in_broker, zoom, get_client, gets, at_. cbn.
  by rewrite lookup_total_insert_eq.
Qed.

Lemma set_client_at f c q e a : set_client n f (at_ c q e a) = Ok (tt, at_ (f c) q e a).
Proof using.
  unfold set_client, in_broker, zoom, on_client, get_client, put_client, gets, modify, bind, at_.
  cbn. by rewrite lookup_total_insert_eq, insert_insert_eq.
Qed.

Lemma recv_at k c q e a :
  recv fd k (at_ c q e a) =
  match recv_script (Z.to_nat k) q with
  | (inl l, q') => Ok (Some l, at_ c q' e a)
  | (inr e', q') => Ok (None, at_ c q' e' a)
  end.
Proof using.
  unfold recv, in_os, zoom, at_. cbn. rewrite lookup_total_insert_eq.
  destruct (recv_script (Z.to_nat k) q) as [[l|e'] q']; cbn; by rewrite insert_insert_eq.
Qed.

Lemma recv_failed_at c q a :
  recv_failed None (at_ c q EAGAIN a) = Ok (1, at_ c q EAGAIN a).
Proof using. done. Qed.

(** Run the first part of a computation. *)
Ltac run_first lem := erewrite bind_ok by lem; cbv beta.
Ltac run_at :=
  repeat first [run_first ltac:(apply client_now_at) | run_first ltac:(apply set_client_at)
               | run_first ltac:(apply recv_failed_at) | run_first ltac:(reflexivity)].

(** *** The command byte *)

Definition started (c : client) : client := c <| in_packet := Some message0 |>.
Definition bump (a : alloc) : alloc := a <| al_next := S (al_next a) |>.

Lemma alloc_at {A} (m : M alloc A) c q e a x a' :
  m a = Ok (x, a') -> in_broker (with_alloc m) (at_ c q e a) = Ok (x, at_ c q e a').
Proof using. intros Hm. unfold in_broker, with_alloc, zoom, at_. cbn. by rewrite Hm. Qed.

Lemma read_command_new rlen c q e a :
  in_packet c = None -> memory_available a ->
  read_command n fd rlen (at_ c q e a) =
  read_command n fd rlen (at_ (started c) q e (bump a)).
Proof using.
  intros Hc Ha. unfold read_command.
  run_first ltac:(apply client_now_at). rewrite Hc.
  erewrite (bind_ok (match None with _ => _ end)); cycle 1.
  { erewrite bind_ok; [apply set_client_at|]. apply alloc_at.
    unfold mqtt_message_init, malloc_unchecked, bind. by rewrite malloc_available. }
  symmetry. by run_first ltac:(apply client_now_at).
Qed.

Lemma read_command_later rlen c q e a m :
  in_packet c = Some m -> type m <> 0 ->
  read_command n fd rlen (at_ c q e a) = Ok (inr rlen, at_ c q e a).
Proof using.
  intros Hc Hm. unfold read_command. run_at. rewrite Hc. run_at.
  unfold the_packet. rewrite Hc. run_at. by rewrite (proj2 (Z.eqb_neq _ _)).
Qed.

Definition commanded (b : Z) (c : client) : client :=
  c <| in_packet := Some (mqtt_parser_command message0 b) |> <| remaining_mult := 1 |>.

Lemma read_command_first rlen c q e a b l :
  in_packet c = Some message0 -> cuts q -> bytes_of q = b :: l ->
  exists q', cuts q' /\
    ((read_command n fd rlen (at_ c q e a) = Ok (inl 1, at_ c q' EAGAIN a) /\
      bytes_of q' = b :: l /\ S (pauses q') = pauses q) \/
     (read_command n fd rlen (at_ c q e a) = Ok (inr 1, at_ (commanded b c) q' e a) /\
      bytes_of q' = l /\ pauses q' = pauses q)).
Proof using.
  intros Hc Hq Hb. destruct (recv_script_cases 1 q b l Hq Hb) as (q' & Hq' & Hcase); [lia|].
  exists q'. split; [done|].
  assert (E : read_command n fd rlen (at_ c q e a) =
    (let* r := recv fd 1 in
     match r with
     | Some [byte] => set_client n (fun c => commanded byte c) ;;; ret (inr 1)
     | _ => let* rc := recv_failed r in ret (inl rc)
     end) (at_ c q e a)).
  { unfold read_command. run_at. rewrite Hc. run_at. unfold the_packet. rewrite Hc. by run_at. }
  rewrite E. pose proof (recv_at 1 c q e a) as Hr. change (Z.to_nat 1) with 1%nat in Hr.
  destruct Hcase as [(Hs & ? & ?)|(l1 & l2 & Hs & -> & Hlen & ? & ? & _)]; rewrite Hs in Hr.
  - left. by rewrite (bind_ok _ _ _ _ _ Hr).
  - right. destruct l1; [|cbn in Hlen; lia]. rewrite (bind_ok _ _ _ _ _ Hr). by run_at.
Qed.

(** *** The remaining length *)

Context (b : Z).

(** The client after the command byte [b] and the digits [ds]. *)
Definition measured (ds : list Z) (c : client) : client :=
  c <| in_packet := Some ((mqtt_parser_command message0 b) <| m_length := digits_value ds |>) |>
    <| remaining_count := - zlen ds |>
    <| remaining_mult := 128 ^ zlen ds |>.

Lemma measured_nil c : remaining_count c = 0 -> measured [] c = commanded b c.
Proof using. intros Hc. destruct c. cbn in Hc. by subst. Qed.

(** One digit *)
Lemma read_digit fuel ds d c q e a l :
  cuts q -> bytes_of q = d :: l -> (length ds < 4)%nat ->
  exists q', cuts q' /\
    ((read_digits n fd (S fuel) (at_ (measured ds c) q e a) =
        Ok (inl 1, at_ (measured ds c) q' EAGAIN a) /\
      bytes_of q' = d :: l /\ S (pauses q') = pauses q) \/
     (read_digits n fd (S fuel) (at_ (measured ds c) q e a) =
        (if Z.land d 128 =? 0 then ret (inr 1) else read_digits n fd fuel)
          (at_ (measured (ds ++ [d]) c) q' e a) /\
      bytes_of q' = l /\ pauses q' = pauses q)).
Proof using.
  intros Hq Hb Hds. destruct (recv_script_cases 1 q d l Hq Hb) as (q' & Hq' & Hcase); [lia|].
  exists q'. split; [done|]. cbn [read_digits].
  pose proof (recv_at 1 (measured ds c) q e a) as Hr. change (Z.to_nat 1) with 1%nat in Hr.
  destruct Hcase as [(Hs & ? & ?)|(l1 & l2 & Hs & -> & Hlen & ? & ? & _)]; rewrite Hs in Hr.
  { left. rewrite (bind_ok _ _ _ _ _ Hr). split; [|done]. by run_at. }
  right. destruct l1; [|cbn in Hlen; lia]. split; [|done]. rewrite (bind_ok _ _ _ _ _ Hr).
  pose proof (digits_value_range ds) as Hv. pose proof (land_127_range d) as Hd.
  assert (H128 : 128 ^ zlen ds <= 2097152).
  { change 2097152 with (128 ^ 3). apply Z.pow_le_mono_r; lia. }
  assert (Hpos : 0 < 128 ^ zlen ds) by (apply Z.pow_pos_nonneg; lia).
  assert (Hlen' : zlen (ds ++ [d]) = zlen ds + 1) by (rewrite length_app; cbn; lia).
  assert (Ec : s8 (- zlen ds - 1) = - zlen (ds ++ [d])).
  { unfold s8. rewrite signed_small by (change (2 ^ (8 - 1)) with 128; lia). lia. }
  assert (Em : u32 (128 ^ zlen ds * 128) = 128 ^ zlen (ds ++ [d])).
  { rewrite u32_small, Hlen', Z.pow_add_r by lia. lia. }
  assert (Ev : u32 (digits_value ds + Z.land d 127 * 128 ^ zlen ds) = digits_value (ds ++ [d])).
  { rewrite u32_small, digits_value_snoc by nia. lia. }
  rewrite (bind_ok _ _ _ _ _ (set_client_at _ _ _ _ _)).
  change (remaining_count (measured ds c)) with (- zlen ds). rewrite Ec.
  set (c1 := update remaining_count _ _).
  run_first ltac:(apply client_now_at).
  change (remaining_count c1) with (- zlen (ds ++ [d])).
  rewrite (proj2 (Z.ltb_ge _ _)) by lia.
  set (m := (mqtt_parser_command message0 b) <| m_length := digits_value ds |>).
  rewrite (bind_ok (the_packet c1) _ _ m (at_ c1 q' e a)) by done.
  change (m_length m) with (digits_value ds). change (remaining_mult c1) with (128 ^ zlen ds).
  rewrite Ev, (bind_ok _ _ _ _ _ (set_client_at _ _ _ _ _)). cbv beta.
  change (remaining_mult c1) with (128 ^ zlen ds). rewrite Em.
  change (update remaining_mult (128 ^ zlen (ds ++ [d]))
    (update in_packet (Some (m <| m_length := digits_value (ds ++ [d]) |>)) c1))
    with (measured (ds ++ [d]) c).
  by destruct (Z.land d 128 =? 0).
Qed.

(** All digits, or a pause among them. *)
Lemma read_digits_at fuel ds ds2 c q e a l :
  cuts q -> bytes_of q = ds2 ++ l -> digits_ok ds2 ->
  (length ds + length ds2 <= 4)%nat -> (length ds2 <= fuel)%nat ->
  exists q', cuts q' /\
    ((exists ds3 ds4, ds2 = ds3 ++ ds4 /\ digits_ok ds4 /\
        read_digits n fd fuel (at_ (measured ds c) q e a) =
          Ok (inl 1, at_ (measured (ds ++ ds3) c) q' EAGAIN a) /\
        bytes_of q' = ds4 ++ l /\ S (pauses q') = pauses q) \/
     (read_digits n fd fuel (at_ (measured ds c) q e a) =
        Ok (inr 1, at_ (measured (ds ++ ds2) c) q' e a) /\
      bytes_of q' = l /\ pauses q' = pauses q)).
Proof using.
  revert fuel ds q. induction ds2 as [|d ds2 IH]; intros fuel ds q Hq Hb Hok Hlen Hfuel; [done|].
  destruct fuel as [|fuel]; [cbn in Hfuel; lia|]. cbn [app length] in *.
  destruct (read_digit fuel ds d c q e a (ds2 ++ l)) as (q1 & Hq1 & Hcase); [done|done|lia|].
  destruct Hcase as [(Hrun & Hb1 & Hp1)|(Hrun & Hb1 & Hp1)].
  { exists q1. split; [done|]. left. exists [], (d :: ds2). by rewrite app_nil_r. }
  rewrite Hrun. destruct ds2 as [|d2 ds2].
  - cbn in Hok. rewrite Hok. exists q1. split; [done|]. by right.
  - destruct Hok as [Hd Hok]. rewrite (proj2 (Z.eqb_neq _ _)) by done.
    destruct (IH fuel (ds ++ [d]) q1) as (q' & Hq' & Hcase);
      [done|done|done|rewrite length_app; cbn [length] in *; lia|cbn [length] in *; lia|].
    exists q'. split; [done|]. rewrite <- !app_assoc in Hcase. cbn [app] in Hcase.
    destruct Hcase as [(ds3 & ds4 & E & Hok4 & Hrun' & Hb' & Hp')|(Hrun' & Hb' & Hp')].
    + left. exists (d :: ds3), ds4. rewrite Hrun'. rewrite <- app_assoc. cbn [app].
      split_and!; [by rewrite E|done|done|done|lia].
    + right. rewrite Hrun'. split_and!; [done|done|lia].
Qed.

(** The client when the length is known and [got] of the payload has come;
    [todo] is still to come. *)
Definition filled (ds got todo : list Z) (c : client) : client :=
  (measured ds c) <| remaining_count := zlen ds |>
    <| in_payload := match got ++ todo with
                     | [] => in_payload c
                     | _ => Some (got ++ replicate (length todo) 0)
                     end |>
    <| in_to_process := zlen todo |>
    <| in_cur := zlen got |>.

Definition alloc_for (payload : list Z) (a : alloc) : alloc :=
  match payload with [] => a | _ => bump a end.

(** [read_length] once the digits are read *)
Lemma read_length_done ds payload c q e a rlen q' e' :
  digits_value ds = zlen payload -> (0 < length ds <= 4)%nat ->
  in_to_process c = 0 -> in_cur c = 0 -> memory_available a ->
  forall c0, remaining_count c0 <= 0 ->
  read_digits n fd digits_fuel (at_ c0 q e a) = Ok (inr 1, at_ (measured ds c) q' e' a) ->
  read_length n fd rlen (at_ c0 q e a) =
  Ok (inr 1, at_ (filled ds [] payload c) q' e' (alloc_for payload a)).
Proof using.
  intros Hv Hds Htp Hcur Ha c0 Hc0 Hrun. unfold read_length.
  run_first ltac:(apply client_now_at). rewrite (proj2 (Z.leb_le _ _)) by done.
  rewrite (bind_ok _ _ _ _ _ Hrun). cbv iota.
  rewrite (bind_ok _ _ _ _ _ (set_client_at _ _ _ _ _)). cbv beta.
  change (remaining_count (measured ds c)) with (- zlen ds).
  assert (E : s8 (- zlen ds * -1) = zlen ds).
  { unfold s8. rewrite signed_small by (change (2 ^ (8 - 1)) with 128; lia). lia. }
  rewrite E. run_first ltac:(apply client_now_at).
  set (m := (mqtt_parser_command message0 b) <| m_length := digits_value ds |>).
  set (c1 := update remaining_count _ _).
  rewrite (bind_ok (the_packet c1) _ _ m (at_ c1 q' e' a)) by done.
  change (m_length m) with (digits_value ds). rewrite Hv. destruct payload as [|x payload].
  - cbn [length Z.of_nat Z.ltb]. change (0 <? 0) with false. cbv iota.
    assert (Ec : c1 = filled ds [] [] c).
    { unfold c1, filled, measured. cbn. by rewrite Htp, Hcur. }
    by rewrite Ec.
  - rewrite (proj2 (Z.ltb_lt _ _)) by (cbn [length]; lia).
    rewrite (bind_ok _ _ _ _ _ (alloc_at _ _ _ _ _ _ _ (malloc_available a Ha))). cbv iota.
    rewrite (bind_ok _ _ _ _ _ (set_client_at _ _ _ _ _)). cbv beta.
    rewrite Nat2Z.id. do 3 f_equal.
    unfold c1, filled, measured. cbn. by rewrite Hcur.
Qed.

(** *** The payload *)

Lemma store_payload_at ds got l todo c :
  l <> [] ->
  store_payload (in_payload (filled ds got (l ++ todo) c)) (zlen got) l =
  Ok (in_payload (filled ds (got ++ l) todo c)).
Proof using.
  intros Hl. cbn [in_payload filled update].
  destruct (got ++ l ++ todo) as [|x t] eqn:E.
  { apply app_eq_nil in E as [_ E]. by apply app_eq_nil in E as [E _]. }
  rewrite <- app_assoc, E. unfold store_payload.
  rewrite length_app, length_replicate, length_app. rewrite (proj2 (Z.ltb_ge _ _)) by lia.
  rewrite Nat2Z.id, take_app_length, replicate_add, <- app_assoc. do 3 f_equal.
  rewrite drop_app_ge by lia. replace (length got + length l - length got)%nat with (length l) by lia.
  f_equal. by rewrite drop_app_length' by (by rewrite length_replicate).
Qed.

Lemma read_payload_at fuel ds got todo c q e a rlen l :
  cuts q -> bytes_of q = todo ++ l -> (2 + length q <= fuel)%nat ->
  zlen got + zlen todo < 2 ^ 32 -> 0 < rlen \/ todo <> [] ->
  exists q', cuts q' /\
    ((exists got' todo', todo = got' ++ todo' /\ todo' <> [] /\
        read_payload n fd fuel rlen (at_ (filled ds got todo c) q e a) =
          Ok (inl 1, at_ (filled ds (got ++ got') todo' c) q' EAGAIN a) /\
        bytes_of q' = todo' ++ l /\ S (pauses q') = pauses q) \/
     (exists rlen', 0 < rlen' /\ read_payload n fd fuel rlen (at_ (filled ds got todo c) q e a) =
        Ok (inr rlen', at_ (filled ds (got ++ todo) [] c) q' e a) /\
      bytes_of q' = l /\ pauses q' = pauses q)).
Proof using.
  revert got todo q rlen. induction fuel as [|fuel IH]; intros got todo q rlen Hq Hb Hf Hlen Hr;
    [lia|].
  cbn [read_payload]. run_first ltac:(apply client_now_at).
  change (in_to_process (filled ds got todo c)) with (zlen todo).
  destruct todo as [|x todo].
  { exists q. split; [done|]. right. exists rlen. rewrite app_nil_r. by destruct Hr. }
  rewrite (proj2 (Z.ltb_lt _ _)) by (cbn [length]; lia).
  destruct (recv_script_cases (length (x :: todo)) q x (todo ++ l)) as (q1 & Hq1 & Hcase);
    [done|done|cbn; lia|].
  pose proof (recv_at (zlen (x :: todo)) (filled ds got (x :: todo) c) q e a) as Hrecv.
  rewrite Nat2Z.id in Hrecv.
  destruct Hcase as [(Hs & Hb1 & Hp1)|(l1 & l2 & Hs & Hl & Hlen1 & Hb1 & Hp1 & Hdec)];
    rewrite Hs in Hrecv; rewrite (bind_ok _ _ _ _ _ Hrecv); cbv iota.
  { exists q1. split; [done|]. left. exists [], (x :: todo). rewrite app_nil_r.
    split_and!; [done|done| |done|done]. by run_at. }
  cbn [length] in Hlen1.
  assert (exists todo', todo = l1 ++ todo' /\ l2 = todo' ++ l) as (todo' & -> & ->).
  { exists (drop (length l1) todo). split.
    - rewrite <- (take_drop (length l1) todo) at 1. f_equal.
      assert (take (length l1) (todo ++ l) = l1) as E by (by rewrite Hl, take_app_length).
      by rewrite take_app_le in E by lia.
    - assert (drop (length l1) (todo ++ l) = l2) as <- by (by rewrite Hl, drop_app_length).
      by rewrite drop_app_le by lia. }
  pose proof (store_payload_at ds got (x :: l1) todo' c) as Hst. cbn [app] in Hst.
  change (in_cur (filled ds got (x :: l1 ++ todo') c)) with (zlen got).
  rewrite Hst by done. erewrite bind_ok by reflexivity.
  rewrite (bind_ok _ _ _ _ _ (set_client_at _ _ _ _ _)). cbv beta.
  change (in_to_process (filled ds got (x :: l1 ++ todo') c)) with (zlen (x :: l1 ++ todo')).
  cbn [length] in Hlen, Hdec. rewrite length_app in Hlen, Hlen1, Hdec.
  assert (Ep : u32 (zlen (x :: l1 ++ todo') - zlen (x :: l1)) = zlen todo').
  { cbn [length]. rewrite length_app, u32_small; lia. }
  assert (Ec : u32 (zlen got + zlen (x :: l1)) = zlen (got ++ x :: l1)).
  { cbn [length]. rewrite length_app, u32_small; cbn [length]; lia. }
  change (in_cur (filled ds got (x :: l1 ++ todo') c)) with (zlen got).
  rewrite Ep, Ec. change (update in_cur _ _) with (filled ds (got ++ x :: l1) todo' c).
  assert (Hr1 : 0 < zlen (x :: l1)) by (cbn [length]; lia).
  destruct todo' as [|y todo'].
  - exists q1. split; [done|]. right. exists (zlen (x :: l1)). rewrite app_nil_r in *.
    split; [done|]. split; [|done]. destruct fuel as [|fuel]; [lia|]. cbn [read_payload].
    by run_first ltac:(apply client_now_at).
  - destruct (IH (got ++ x :: l1) (y :: todo') q1 (zlen (x :: l1))) as (q' & Hq' & Hcase);
      [done|done|cbn [length] in *; lia|rewrite length_app; cbn [length] in *; lia|by left|].
    exists q'. split; [done|]. rewrite <- !app_assoc in Hcase. cbn [app] in Hcase.
    destruct Hcase as [(g2 & t2 & -> & Ht2 & Hrun & Hb' & Hp')|(r' & Hr' & Hrun & Hb' & Hp')].
    + left. exists (x :: l1 ++ g2), t2. rewrite <- !app_assoc in Hrun. cbn [app] in Hrun.
      split_and!; [cbn [app]; by rewrite <- app_assoc|done|done|done|lia].
    + right. exists r'. split_and!; [done|done|done|lia].
Qed.
End reader.

(** ** A whole packet *)

(** [loop_run] calls [loop_read] again as long as it returns a positive
    number. *)
Fixpoint polls (n : nat) (fd : Z) (k : nat) : M world Z :=
  match k with
  | O => loop_read n fd EPOLLIN
  | S k' => let* r := loop_read n fd EPOLLIN in if 0 <? r then polls n fd k' else ret r
  end.

(** Between two packets *)
Definition idle (c : client) : Prop :=
  in_packet c = None /\ remaining_count c = 0 /\ in_to_process c = 0 /\ in_cur c = 0.

Section packet.
Context (n : nat) (fd : Z) (w : world) (c : client) (a : alloc).
(** The packet: command byte, digits of the remaining length, payload; and
    what follows it in the stream. *)
Context (b : Z) (ds payload rest : list Z).
Hypothesis Hb : Z.land (Z.shiftr b 4) 15 <> 0.
Hypothesis Hds : digits_ok ds /\ (length ds <= 4)%nat.
Hypothesis Hlen : digits_value ds = zlen payload.
Hypothesis Hc : in_packet c = Some message0 /\ remaining_count c = 0 /\
  in_to_process c = 0 /\ in_cur c = 0.
Hypothesis Ha : memory_available a.

Inductive stage : Type :=
| at_command
| at_digits (ds3 ds4 : list Z)
| at_payload (got todo : list Z).

Definition stage_ok (st : stage) : Prop :=
  match st with
  | at_command => True
  | at_digits ds3 ds4 => ds = ds3 ++ ds4 /\ digits_ok ds4
  | at_payload got todo => payload = got ++ todo /\ todo <> []
  end.
Definition stage_todo (st : stage) : list Z :=
  match st with
  | at_command => b :: ds ++ payload
  | at_digits _ ds4 => ds4 ++ payload
  | at_payload _ todo => todo
  end.
Definition stage_client (st : stage) : client :=
  match st with
  | at_command => c
  | at_digits ds3 _ => measured b ds3 c
  | at_payload got todo => filled b ds got todo c
  end.
Definition stage_alloc (st : stage) : alloc :=
  match st with at_payload _ _ => alloc_for payload a | _ => a end.

(** The world at a stage, with the rest of the script. *)
Definition at_stage (st : stage) (q : list rx) (e : errno_t) : world :=
  at_ n fd w (stage_client st) q e (stage_alloc st).
Definition complete (q : list rx) (e : errno_t) : world :=
  at_ n fd w (filled b ds payload [] c) q e (alloc_for payload a).

(** What a part [m] of [loop_read] leads to from script [q]: a pause at a
    later stage, or the packet. *)
Definition reads (m : world -> outcome (Z * world)) (w0 : world) (q : list rx) (e : errno_t) : Prop :=
  exists q', cuts q' /\
    ((exists st, stage_ok st /\ m w0 = Ok (1, at_stage st q' EAGAIN) /\
        bytes_of q' = stage_todo st ++ rest /\ S (pauses q') = pauses q) \/
     (exists rlen, 0 < rlen /\ m w0 = process_packet n rlen (complete q' e) /\
        bytes_of q' = rest /\ pauses q' = pauses q)).

Lemma payload_bound : zlen payload < 2 ^ 32.
Proof using Hds Hlen.
  rewrite <- Hlen. pose proof (digits_value_range ds). destruct Hds as [_ H4].
  assert (128 ^ zlen ds <= 128 ^ 4) by (apply Z.pow_le_mono_r; lia).
  change (128 ^ 4) with 268435456 in *. change (2 ^ 32) with 4294967296. lia.
Qed.

Definition payload_phase (rlen : Z) : M world Z :=
  let* fuel := payload_fuel fd in
  andthen (read_payload n fd fuel rlen) (process_packet n).

Lemma payload_fuel_at c0 q e a0 :
  payload_fuel fd (at_ n fd w c0 q e a0) = Ok (S (S (length q)), at_ n fd w c0 q e a0).
Proof using. unfold payload_fuel, gets, at_. cbn. by rewrite lookup_total_insert_eq. Qed.

Lemma payload_reads got todo q e rlen :
  cuts q -> bytes_of q = todo ++ rest -> payload = got ++ todo -> 0 < rlen \/ todo <> [] ->
  reads (payload_phase rlen) (at_ n fd w (filled b ds got todo c) q e (alloc_for payload a)) q e.
Proof using Hds Hlen.
  intros Hq Hbq Hp Hr. pose proof payload_bound as Hbound.
  assert (E : payload_phase rlen (at_ n fd w (filled b ds got todo c) q e (alloc_for payload a)) =
    andthen (read_payload n fd (S (S (length q))) rlen) (process_packet n)
      (at_ n fd w (filled b ds got todo c) q e (alloc_for payload a))).
  { unfold payload_phase. by rewrite (bind_ok _ _ _ _ _ (payload_fuel_at _ _ _ _)). }
  unfold reads. rewrite E. clear E.
  rewrite Hp, length_app in Hbound.
  destruct (read_payload_at n fd w b (S (S (length q))) ds got todo c q e (alloc_for payload a)
    rlen rest) as (q' & Hq' & Hcase); try done; try lia.
  exists q'. split; [done|].
  destruct Hcase as [(g2 & t2 & Et & Ht2 & Hrun & Hb' & Hp')|(r' & Hr' & Hrun & Hb' & Hp')];
    unfold andthen; rewrite (bind_ok _ _ _ _ _ Hrun).
  - left. exists (at_payload (got ++ g2) t2).
    split; [split; [by rewrite Hp, Et, app_assoc|done]|done].
  - right. exists r'. unfold complete. by rewrite <- Hp.
Qed.

(** From the remaining length on, [ds3] being read. *)
Definition length_phase (rlen : Z) : M world Z :=
  andthen (read_length n fd rlen) payload_phase.

Lemma length_reads ds3 ds4 q e rlen :
  cuts q -> bytes_of q = ds4 ++ payload ++ rest -> ds = ds3 ++ ds4 -> digits_ok ds4 ->
  reads (length_phase rlen) (at_ n fd w (measured b ds3 c) q e a) q e.
Proof using Hds Hlen Hc Ha.
  intros Hq Hbq Hd Hok. destruct Hds as [Hdok H4]. destruct Hc as (_ & _ & Htp & Hcur).
  rewrite Hd, length_app in H4.
  destruct (read_digits_at n fd w b digits_fuel ds3 ds4 c q e a (payload ++ rest))
    as (q1 & Hq1 & Hcase); [done|done|done|lia|unfold digits_fuel; lia|].
  assert (Hle : remaining_count (measured b ds3 c) <= 0).
  { change (- zlen ds3 <= 0). lia. }
  destruct Hcase as [(d5 & d6 & Ed & Hok6 & Hrun & Hb' & Hp')|(Hrun & Hb' & Hp')].
  - exists q1. split; [done|]. left. exists (at_digits (ds3 ++ d5) d6).
    split; [split; [by rewrite Hd, Ed, app_assoc|done]|].
    split; [|split; [cbn [stage_todo]; by rewrite <- app_assoc|done]].
    unfold length_phase, andthen. erewrite bind_ok; cycle 1.
    { unfold read_length. rewrite (bind_ok _ _ _ _ _ (client_now_at _ _ _ _ _ _ _)).
      rewrite (proj2 (Z.leb_le _ _)) by done. rewrite (bind_ok _ _ _ _ _ Hrun). done. }
    done.
  - rewrite <- Hd in Hrun. assert (0 < length ds <= 4)%nat.
    { rewrite Hd, length_app. destruct ds4; [done|cbn [length] in *; lia]. }
    pose proof (read_length_done n fd w b ds payload c q e a rlen q1 e Hlen ltac:(done) Htp Hcur
      Ha (measured b ds3 c) Hle Hrun) as Hrl.
    destruct (payload_reads [] payload q1 e 1) as (q' & Hq' & Hcase); [done|done|done|by left|].
    exists q'. split; [done|]. unfold length_phase, andthen.
    rewrite (bind_ok _ _ _ _ _ Hrl). rewrite <- Hp'. exact Hcase.
Qed.

Lemma loop_read_phases (w0 : world) :
  loop_read n fd EPOLLIN w0 = andthen (read_command n fd (-1)) length_phase w0.
Proof using bd_ok.
  unfold loop_read. rewrite platform_err, Z.land_diag, (proj2 (Z.eqb_neq EPOLLIN 0)) by apply platform_in.
  assert (Hhup : negb MTCP && negb (Z.land EPOLLIN EPOLLHUP =? 0) = false).
  { destruct MTCP eqn:E; [done|]. by rewrite platform_hup. }
  by rewrite Hhup.
Qed.

(** One call of [loop_read], from any stage. *)
Lemma stage_reads st q e :
  stage_ok st -> cuts q -> bytes_of q = stage_todo st ++ rest ->
  reads (loop_read n fd EPOLLIN) (at_stage st q e) q e.
Proof using All.
  intros Hst Hq Hbq.
  assert (Hty : type (mqtt_parser_command message0 b) <> 0) by exact Hb.
  destruct st as [|ds3 ds4|got todo]; cbn [stage_ok stage_todo] in *.
  - destruct Hc as (Hin & Hrc & _). cbn [app] in Hbq. rewrite <- app_assoc in Hbq.
    destruct (read_command_first n fd w (-1) c q e a b _ Hin Hq Hbq) as (q1 & Hq1 & Hcase).
    destruct Hcase as [(Hrun & Hb' & Hp')|(Hrun & Hb' & Hp')].
    + exists q1. split; [done|]. left. exists at_command.
      split_and!; [done| |by rewrite Hb'; cbn; rewrite <- app_assoc|done].
      rewrite loop_read_phases. unfold andthen. by rewrite (bind_ok _ _ _ _ _ Hrun).
    + rewrite <- (measured_nil b c Hrc) in Hrun.
      destruct (length_reads [] ds q1 e 1) as (q' & Hq' & Hcase); [done|done|done|by apply Hds|].
      exists q'. split; [done|]. rewrite loop_read_phases. unfold andthen at 1.
      change (at_stage at_command q e) with (at_ n fd w c q e a).
      unfold andthen. rewrite (bind_ok _ _ _ _ _ Hrun). rewrite <- Hp'. exact Hcase.
  - destruct Hst as [Hd Hok]. rewrite <- app_assoc in Hbq.
    pose proof (read_command_later n fd w (-1) (measured b ds3 c) q e a _ eq_refl Hty) as Hrun.
    destruct (length_reads ds3 ds4 q e (-1)) as (q' & Hq' & Hcase); [done..|].
    exists q'. split; [done|]. rewrite loop_read_phases. unfold andthen at 1 2.
    change (at_stage (at_digits ds3 ds4) q e) with (at_ n fd w (measured b ds3 c) q e a).
    rewrite !(bind_ok _ _ _ _ _ Hrun). exact Hcase.
  - destruct Hst as [Hp Htodo].
    pose proof (read_command_later n fd w (-1) (filled b ds got todo c) q e (alloc_for payload a)
      _ eq_refl Hty) as Hrun.
    destruct (payload_reads got todo q e (-1)) as (q' & Hq' & Hcase); [done|done|done|by right|].
    exists q'. split; [done|]. rewrite loop_read_phases.
    change (at_stage (at_payload got todo) q e)
      with (at_ n fd w (filled b ds got todo c) q e (alloc_for payload a)).
    assert (Hrl : forall r, length_phase r (at_ n fd w (filled b ds got todo c) q e (alloc_for payload a)) =
      payload_phase r (at_ n fd w (filled b ds got todo c) q e (alloc_for payload a))).
    { intros r. unfold length_phase, andthen at 1.
      erewrite (bind_ok (read_length n fd r) _ _ (inr r)); [reflexivity|].
      unfold read_length. rewrite (bind_ok _ _ _ _ _ (client_now_at _ _ _ _ _ _ _)).
      change (remaining_count (filled b ds got todo c)) with (zlen ds).
      rewrite (proj2 (Z.leb_gt _ _)); [done|]. destruct Hds as [Hd _].
      destruct ds; [done|cbn [length]; lia]. }
    unfold andthen. rewrite (bind_ok _ _ _ _ _ Hrun), Hrl. exact Hcase.
Qed.

(** As many calls as there are pauses, and one more. *)
Lemma polls_stage k st q e :
  pauses q = k -> stage_ok st -> cuts q -> bytes_of q = stage_todo st ++ rest ->
  exists j rlen q' e', (j <= k)%nat /\ 0 < rlen /\ cuts q' /\ bytes_of q' = rest /\
    polls n fd j (at_stage st q e) = process_packet n rlen (complete q' e').
Proof using All.
  revert st q e. induction k as [|k IH]; intros st q e Hk Hst Hq Hbq;
    destruct (stage_reads st q e Hst Hq Hbq) as (q' & Hq' & Hcase);
    destruct Hcase as [(st' & Hst' & Hrun & Hb' & Hp')|(rlen & Hr & Hrun & Hb' & Hp')].
  1: lia.
  1, 3: exists O, rlen, q', e; split_and!; [lia|done|done|done|exact Hrun].
  destruct (IH st' q' EAGAIN) as (j & rlen & q2 & e2 & Hj & Hr & Hq2 & Hb2 & Hrun2);
    [lia|done|done|done|].
  exists (S j), rlen, q2, e2. split_and!; [lia|done|done|done|].
  cbn [polls]. rewrite (bind_ok _ _ _ _ _ Hrun). exact Hrun2.
Qed.
End packet.
End build.
