(* ===== verification/InputSpec.v ===== *)
(** * Input: the theorems

    [loop_read] on the bytes of a packet, cut in any way, and on what the
    serialiser writes; lengths it refuses. *)

From S2P Require Import Prelude.
From S2P Require Import Mqtt.
From S2P Require Import Serialiser.
From S2P Require Import SerialiserFacts.
From S2P Require Import Parser.
From S2P Require Import Substree.
From S2P Require Import UtHash.
From S2P Require Import Broker.
From S2P Require Import Handler.
From S2P Require Import EventIO.
From S2P Require Import InputFacts.

Section build.
Context {bd : Build} {bd_ok : BuildOk bd}.

(** The client that has read a packet: command byte [b], digits [ds], and the
    payload. *)
Definition packet_read (b : Z) (ds payload : list Z) (c : client) : client :=
  filled b ds payload [] (started c).

Lemma read_any_cut n fd w c a b ds payload rest q e :
  idle c -> memory_available a ->
  Z.land (Z.shiftr b 4) 15 <> 0 -> digits_ok ds /\ (length ds <= 4)%nat ->
  digits_value ds = zlen payload ->
  cuts q -> bytes_of q = (b :: ds ++ payload) ++ rest ->
  exists j rlen q' e', (j <= pauses q)%nat /\ 0 < rlen /\ cuts q' /\ bytes_of q' = rest /\
    polls n fd j (at_ n fd w c q e a) =
    process_packet n rlen
      (at_ n fd w (packet_read b ds payload c) q' e' (alloc_for payload (bump a))).
Proof.
  intros (Hin & Hrc & Htp & Hcur) Ha Hb Hds Hlen Hq Hbq.
  assert (Ha' : memory_available (bump a)) by (apply memory_available_next; [done|lia]).
  destruct (polls_stage n fd w (started c) (bump a) b ds payload rest Hb Hds Hlen
    (conj eq_refl (conj Hrc (conj Htp Hcur))) Ha' (pauses q) at_command q e)
    as (j & rlen & q' & e' & Hj & Hr & Hq' & Hb' & Hrun); [done|done|done|done|].
  exists j, rlen, q', e'. split_and!; [done|done|done|done|]. etrans; [|exact Hrun].
  assert (Hfirst : loop_read n fd EPOLLIN (at_ n fd w c q e a) =
    loop_read n fd EPOLLIN (at_ n fd w (started c) q e (bump a))).
  { rewrite !loop_read_phases. unfold andthen at 1 2. unfold bind.
    by rewrite (read_command_new n fd w (-1) c q e a). }
  destruct j; cbn [polls]; [exact Hfirst|]. unfold bind. by rewrite Hfirst.
Qed.

(** C3: an idle client that is sent a packet (command byte of a type other than
    0, one to four digits of remaining length, payload of that length) reads it
    in at most one call of [loop_read] more than the socket ran dry, each
    earlier call asking to be called again; the call that completes the packet
    goes on to process it from a client that does not depend on how the bytes
    were cut, and leaves the bytes after the packet in the socket. *)
Theorem packet_read_any_cut n fd w c a b ds payload rest q e :
  idle c -> memory_available a ->
  Z.land (Z.shiftr b 4) 15 <> 0 -> digits_ok ds /\ (length ds <= 4)%nat ->
  digits_value ds = zlen payload ->
  cuts q -> bytes_of q = (b :: ds ++ payload) ++ rest ->
  exists j rlen q' e', (j <= pauses q)%nat /\ 0 < rlen /\ cuts q' /\ bytes_of q' = rest /\
    polls n fd j (at_ n fd w c q e a) =
    process_packet n rlen
      (at_ n fd w (packet_read b ds payload c) q' e' (alloc_for payload (bump a))).
Proof. apply read_any_cut. Qed.

(** ** Lengths the serialiser writes *)

Lemma land_low d k : 0 <= d < 128 -> k = 127 \/ k = 128 ->
  Z.land d k = if k =? 127 then d else 0.
Proof.
  intros Hd Hk. assert (H : check_below 128 (fun d =>
    (Z.land d 127 =? d) && (Z.land d 128 =? 0) && (Z.land (Z.lor d 128) 127 =? d) &&
    negb (Z.land (Z.lor d 128) 128 =? 0)) = true) by (vm_compute; reflexivity).
  pose proof (check_below_correct _ _ H d Hd) as E. cbv beta in E.
  rewrite !andb_true_iff, !Z.eqb_eq in E. destruct Hk as [-> | ->]; cbn; tauto.
Qed.

Lemma land_more d : 0 <= d < 128 ->
  Z.land (Z.lor d 128) 127 = d /\ Z.land (Z.lor d 128) 128 <> 0.
Proof.
  intros Hd. assert (H : check_below 128 (fun d => (Z.land (Z.lor d 128) 127 =? d) &&
    negb (Z.land (Z.lor d 128) 128 =? 0)) = true) by (vm_compute; reflexivity).
  pose proof (check_below_correct _ _ H d Hd) as E. cbv beta in E.
  rewrite andb_true_iff, negb_true_iff, Z.eqb_eq, Z.eqb_neq in E. tauto.
Qed.

Lemma encode_digits_ok fuel n :
  (0 < fuel)%nat -> 0 <= n < 128 ^ Z.of_nat fuel ->
  digits_ok (encode_digits fuel n) /\ digits_value (encode_digits fuel n) = n.
Proof.
  revert n. induction fuel as [|fuel IH]; intros n Hf Hn; [lia|].
  cbn [encode_digits]. pose proof (digit_range n) as Hd.
  pose proof (Z.div_mod n 128 ltac:(lia)) as Hdm.
  assert (0 <= n / 128) by (apply Z.div_pos; lia).
  rewrite Nat2Z.inj_succ, Z.pow_succ_r in Hn by lia.
  destruct (Z.ltb_spec 0 (n / 128)) as [Hmore|Hlast].
  - destruct (land_more _ Hd) as [E1 E2].
    assert (n / 128 < 128 ^ Z.of_nat fuel) by (apply Z.div_lt_upper_bound; lia).
    assert (0 < fuel)%nat.
    { destruct fuel; [|lia]. change (128 ^ Z.of_nat 0) with 1 in *. lia. }
    destruct (IH (n / 128)) as [Hok Hv]; [done|lia|].
    destruct (encode_digits fuel (n / 128)) as [|d ds] eqn:E; [done|].
    cbn [digits_ok digits_value] in *. rewrite E1, Hv. split; [by split|lia].
  - cbn [digits_ok digits_value]. rewrite !land_low by (auto; lia). cbn. lia.
Qed.

Lemma encode_length_ok n :
  0 <= n <= 268435455 ->
  (digits_ok (encode_length n) /\ (length (encode_length n) <= 4)%nat) /\
  digits_value (encode_length n) = n.
Proof.
  intros Hn. destruct (encode_digits_ok length_fuel n) as [Hok Hv];
    [unfold length_fuel; lia|change (128 ^ Z.of_nat length_fuel) with 34359738368; lia|].
  pose proof (length_encode_length n Hn) as Hl. unfold length_field_size in Hl.
  split_and!; [done| |done]. repeat case_match; lia.
Qed.

(** C18: every packet the serialiser writes for a message of a type other than 0
    whose length field is the length of its body is read back, however it is
    cut on the way: the header byte, the length and the body reach
    [process_packet] as they were written. *)
Theorem serialised_packet_read n fd w c a m rest q e :
  idle c -> memory_available a -> message_ok m ->
  m_length m = zlen (encode_body m) -> Z.land (Z.shiftr (u8 (header_byte m)) 4) 15 <> 0 ->
  cuts q -> bytes_of q = encode m ++ rest ->
  exists j rlen q' e', (j <= pauses q)%nat /\ 0 < rlen /\ bytes_of q' = rest /\
    polls n fd j (at_ n fd w c q e a) =
    process_packet n rlen
      (at_ n fd w (packet_read (u8 (header_byte m)) (encode_length (m_length m)) (encode_body m) c)
         q' e' (alloc_for (encode_body m) (bump a))).
Proof.
  intros Hc Ha Hm Hl Hb Hq Hbq. destruct (encode_length_ok (m_length m)) as [Hds Hv];
    [apply Hm|].
  destruct (read_any_cut n fd w c a (u8 (header_byte m)) (encode_length (m_length m))
    (encode_body m) rest q e) as (j & rlen & q' & e' & ? & ? & ? & ? & ?); try done.
  - by rewrite Hv.
  - by exists j, rlen, q', e'.
Qed.

(** ** Lengths of more than four digits *)

Lemma read_digits_more n fd w b fuel ds ds2 c q e a l :
  cuts q -> pauses q = O -> bytes_of q = ds2 ++ l ->
  Forall (fun d => Z.land d 128 <> 0) ds2 -> (length ds + length ds2 <= 4)%nat ->
  exists q', cuts q' /\ bytes_of q' = l /\ pauses q' = O /\
    read_digits n fd (length ds2 + fuel) (at_ n fd w (measured b ds c) q e a) =
    read_digits n fd fuel (at_ n fd w (measured b (ds ++ ds2) c) q' e a).
Proof.
  revert ds q. induction ds2 as [|d ds2 IH]; intros ds q Hq Hp Hb Hd Hlen.
  { exists q. by rewrite app_nil_r. }
  apply Forall_cons in Hd as [Hd Hd2]. cbn [app length] in *.
  destruct (read_digit n fd w b (length ds2 + fuel) ds d c q e a (ds2 ++ l) Hq Hb)
    as (q1 & Hq1 & [(_ & _ & ?)|(Hrun & Hb1 & Hp1)]); [lia|lia|].
  destruct (IH (ds ++ [d]) q1) as (q' & Hq' & Hb' & Hp' & Hrun');
    [done|lia|done|done|rewrite length_app; cbn; lia|].
  exists q'. split_and!; [done..|]. cbn [Nat.add]. rewrite Hrun, (proj2 (Z.eqb_neq _ _)) by done.
  rewrite <- app_assoc in Hrun'. exact Hrun'.
Qed.

Lemma read_digit_fifth n fd w b fuel ds d c q e a l :
  cuts q -> pauses q = O -> bytes_of q = d :: l -> length ds = 4%nat ->
  exists w', read_digits n fd (S fuel) (at_ n fd w (measured b ds c) q e a) = Ok (inl (-1), w').
Proof.
  intros Hq Hp Hb Hds. destruct (recv_script_cases 1 q d l Hq Hb) as (q' & _ & Hcase); [lia|].
  pose proof (recv_at n fd w 1 (measured b ds c) q e a) as Hr. change (Z.to_nat 1) with 1%nat in Hr.
  destruct Hcase as [(_ & _ & ?)|(l1 & l2 & Hs & _ & Hlen & _)]; [lia|]. rewrite Hs in Hr.
  destruct l1; [|cbn in Hlen; lia]. eexists. cbn [read_digits].
  rewrite (bind_ok _ _ _ _ _ Hr), (bind_ok _ _ _ _ _ (set_client_at _ _ _ _ _ _ _ _)). cbv beta.
  rewrite (bind_ok _ _ _ _ _ (client_now_at _ _ _ _ _ _ _)).
  change (remaining_count (measured b ds c)) with (- zlen ds). rewrite Hds.
  change (remaining_count (update remaining_count (s8 (- Z.of_nat 4 - 1)) _)) with (-5). done.
Qed.

(** A fifth digit of the remaining length is refused: [loop_read] returns
    -1, which has the client removed. *)
Theorem long_length_refused n fd w c a b d1 d2 d3 d4 d5 rest q e :
  idle c -> memory_available a -> Z.land (Z.shiftr b 4) 15 <> 0 ->
  Forall (fun d => Z.land d 128 <> 0) [d1; d2; d3; d4] ->
  cuts q -> pauses q = O -> bytes_of q = b :: d1 :: d2 :: d3 :: d4 :: d5 :: rest ->
  exists w', loop_read n fd EPOLLIN (at_ n fd w c q e a) = Ok (-1, w').
Proof.
  intros (Hin & Hrc & Htp & Hcur) Ha Hb Hd Hq Hp Hbq.
  repeat (apply Forall_cons in Hd as [? Hd]).
  assert (Hfirst : loop_read n fd EPOLLIN (at_ n fd w c q e a) =
    loop_read n fd EPOLLIN (at_ n fd w (started c) q e (bump a))).
  { rewrite !loop_read_phases. unfold andthen at 1 2. unfold bind.
    by rewrite (read_command_new n fd w (-1) c q e a). }
  rewrite Hfirst, loop_read_phases.
  destruct (read_command_first n fd w (-1) (started c) q e (bump a) b _ eq_refl Hq Hbq)
    as (q0 & Hq0 & [(_ & _ & ?)|(Hrun & Hb0 & Hp0)]); [lia|].
  unfold andthen at 1. rewrite (bind_ok _ _ _ _ _ Hrun).
  rewrite <- (measured_nil b (started c) Hrc) in *.
  destruct (read_digits_more n fd w b 1 [] [d1; d2; d3; d4] (started c) q0 e (bump a) (d5 :: rest))
    as (q1 & Hq1 & Hb1 & Hp1 & Hrun1); [done|lia|done|by repeat constructor|cbn; lia|].
  destruct (read_digit_fifth n fd w b 0 ([] ++ [d1; d2; d3; d4]) d5 (started c) q1 e (bump a) rest)
    as (w' & Hrun2); [done|done|done|done|].
  exists w'. unfold length_phase, andthen at 1. erewrite bind_ok; cycle 1.
  { unfold read_length. rewrite (bind_ok _ _ _ _ _ (client_now_at _ _ _ _ _ _ _)).
    change (remaining_count (measured b [] (started c))) with 0. change (0 <=? 0) with true.
    cbv iota. rewrite (bind_ok (read_digits n fd digits_fuel) _ _ _ _ (eq_trans Hrun1 Hrun2)).
    reflexivity. }
  done.
Qed.
End build.
