(* ===== verification/HandlerFacts.v ===== *)
(** * Commands: what they queue, and for whom *)

From S2P Require Import Prelude.
From S2P Require Import Topic.
From S2P Require Import Mqtt.
From S2P Require Import Serialiser.
From S2P Require Import SerialiserFacts.
From S2P Require Import Utility.
From S2P Require Import Substree.
From S2P Require Import Tokenise.
From S2P Require Import SubstreeFacts.
From S2P Require Import SubAddFacts.
From S2P Require Import Broker.
From S2P Require Import Handler.

Section build.
Context {bd : Build} {bd_ok : BuildOk bd}.


Lemma wp_with_alloc_unchecked (Q : loc -> broker -> Prop) (E : fault -> Prop) (s : broker) :
  (forall l a, alloc_le (ss_alloc s) a -> Q l (s <| ss_alloc := a |>)) ->
  (~ memory_available (ss_alloc s) -> E NullDeref) ->
  wp (with_alloc malloc_unchecked) Q E s.
Proof.
  intros HQ HE. apply wp_zoom, wp_malloc_unchecked.
  - apply HQ, alloc_le_bump.
  - intros Hf. apply HE. intros Ha. by rewrite Ha in Hf by lia.
Qed.

(** The only fault of the code that queues packets: memory ran out. *)
Definition out_of_memory (s : broker) : fault -> Prop :=
  fun f => f = NullDeref /\ ~ memory_available (ss_alloc s).

Lemma out_of_memory_le s s' f :
  alloc_le (ss_alloc s) (ss_alloc s') -> out_of_memory s' f -> out_of_memory s f.
Proof. intros Hle [-> Hn]. split; [done|]. eauto with mumq. Qed.

Lemma with_alloc_twice (s : broker) a a' : (s <| ss_alloc := a |>) <| ss_alloc := a' |> = s <| ss_alloc := a' |>.
Proof. done. Qed.

(** The packet that carries a message. *)
Definition packet_of (m : mqtt_message) : packet :=
  {| send_buf := encode m; wcur := 0; wlen := Z.of_nat (length (encode m)) |}.

Lemma wp_new_packet m (Q : packet -> broker -> Prop) E s :
  message_ok m ->
  (forall a, alloc_le (ss_alloc s) a -> Q (packet_of m) (s <| ss_alloc := a |>)) ->
  (forall f, out_of_memory s f -> E f) ->
  wp (new_packet m) Q E s.
Proof.
  intros Hm HQ HE. unfold new_packet.
  apply wp_bind, wp_with_alloc_unchecked; cycle 1.
  { intros Hn. by apply HE. }
  intros _ a1 Ha1. cbv zeta. apply wp_bind, wp_with_alloc_unchecked; cycle 1.
  { intros Hn. apply HE. split; [done|]. cbn in Hn. eauto with mumq. }
  intros _ a2 Ha2. cbn in Ha2. pose proof (size_encode m Hm) as Hsize.
  rewrite Hsize, (u32_small (Z.of_nat _)) by (split; [lia|apply Hm]).
  apply wp_bind. eapply wp_lift.
  - pose proof (write_encode m (replicate (Z.to_nat (Z.of_nat (length (encode m)))) 0) Hm) as Hw.
    rewrite Hsize in Hw. apply Hw. rewrite length_replicate. lia.
  - apply wp_ret, (HQ a2). by etrans.
Qed.

(** Queueing changes one client, and of it only the queue. *)
Definition queued (n : nat) (p : packet) (s s' : broker) : Prop :=
  ss_roots s' = ss_roots s /\ ss_locked s' = ss_locked s /\
  ss_clients s' = <[n := enqueue p (ss_clients s !!! n)]> (ss_clients s) /\
  alloc_le (ss_alloc s) (ss_alloc s').

Lemma wp_send_message m n (Q : unit -> broker -> Prop) E s :
  message_ok m ->
  (forall s', queued n (packet_of m) s s' -> Q tt s') ->
  (forall f, out_of_memory s f -> E f) ->
  wp (let* p := new_packet m in on_client n (enqueue p)) Q E s.
Proof.
  intros Hm HQ HE. apply wp_bind, wp_new_packet; [done| |done].
  intros a Ha. apply wp_on_client, HQ. by split_and!.
Qed.

(** ** Acknowledgements *)

Lemma ack_packet_ok c cmd len rc m :
  ack_packet c cmd len rc = Some m -> 0 <= len <= 268435455 -> message_ok m.
Proof.
  unfold ack_packet. intros Hm Hlen.
  assert (Hb : forall n, (length (encode_digits 5 n) <= 5)%nat).
  { intros n. cbn. repeat case_match; cbn; lia. }
  specialize (Hb len).
  repeat case_match; simplify_eq; (split_and!; [cbn; lia..|done|done|]);
    unfold encode, encode_length, length_fuel; rewrite !length_app; cbn -[encode_digits]; lia.
Qed.

(** The bytes of the three acknowledgements. *)
Lemma encode_connack c rc :
  0 <= rc < 256 ->
  encode <$> ack_packet c MQTT_TYPE_CONNACK 2 rc = Some [32; 2; 0; rc].
Proof.
  intros H. change (Some [32; 2; 0; u8 rc] = Some [32; 2; 0; rc]). by rewrite u8_small.
Qed.

Lemma wp_ack_msg n cmd len rc m (Q : unit -> broker -> Prop) E s :
  ack_packet (ss_clients s !!! n) cmd len rc = Some m -> 0 <= len <= 268435455 ->
  (forall s', queued n (packet_of m) s s' -> Q tt s') ->
  (forall f, out_of_memory s f -> E f) ->
  wp (ack_msg n cmd len rc) Q E s.
Proof.
  intros Hm Hlen HQ HE. unfold ack_msg. apply wp_bind, wp_get_client. rewrite Hm.
  apply wp_send_message; [by eapply ack_packet_ok|done|done].
Qed.

(** ** Publications *)

(** The bytes of a publication: a fixed header byte, the remaining length, the
    topic behind the prefix of [WRITE_STRING], the content. *)
Definition publish_bytes (topic content : list Z) : list Z :=
  48 :: encode_length (2 + zlen topic + zlen content)
    ++ c_prefix (zlen topic) ++ topic ++ content.

Definition deliverable (topic content : list Z) : Prop :=
  bytes topic /\ bytes content /\ 2 + zlen topic + zlen content <= 268435455.

Lemma length_encode_digits fuel n : (length (encode_digits fuel n) <= fuel)%nat.
Proof. revert n. induction fuel; intros n; cbn; [lia|]. case_match; cbn; [|lia]. specialize (IHfuel (n/128)). lia. Qed.

Lemma load_buffer (l rest : list Z) n :
  n = zlen l -> bytes l ->
  let b := {| b_length := n; b_data := Some (l ++ rest) |} in
  buffer_bytes b = l /\ valid_buffer b.
Proof.
  intros -> Hl b. assert (E : load_bytes (b_data b) (b_length b) = Ok l) by by apply load_bytes_app.
  assert (E' : buffer_bytes b = l) by (unfold buffer_bytes; by rewrite E).
  split; [done|]. unfold valid_buffer. by rewrite E'.
Qed.

Lemma publish_packet_fields topic content rest :
  deliverable topic content ->
  let m := publish_packet topic (content ++ rest) (zlen content) in
  message_ok m /\ encode m = publish_bytes topic content.
Proof.
  intros (Ht & Hc & Hlen) m.
  assert (Hs : s32 (zlen topic) = zlen topic).
  { apply signed_small; [lia|]. change (2 ^ (32 - 1)) with 2147483648. lia. }
  assert (Hl : m_length m = 2 + zlen topic + zlen content).
  { unfold m, publish_packet. cbn. rewrite Hs, u32_small; lia. }
  destruct (load_buffer topic [0] (u32 (zlen topic))) as [Ht1 Ht2];
    [rewrite u32_small; lia|done|].
  destruct (load_buffer content rest (zlen content)) as [Hc1 Hc2]; [done|done|].
  assert (Htn : topic_name (publish m) = {| b_length := u32 (zlen topic); b_data := Some (topic ++ [0]) |}).
  { unfold m, publish_packet. cbn. by rewrite Hs. }
  assert (Henc : encode m = publish_bytes topic content).
  { unfold encode, publish_bytes, encode_body. rewrite Hl. change (u8 (header_byte m)) with 48.
    change (type m =? MQTT_TYPE_PUBLISH) with true. cbv iota. rewrite Htn. cbn [app].
    unfold c_field. cbn [b_length]. rewrite Ht1, u32_small by lia.
    rewrite <- app_assoc. do 4 f_equal. exact Hc1. }
  split; [|done]. split_and!.
  - rewrite Hl. lia.
  - rewrite Hl. lia.
  - intros _. by rewrite Htn.
  - done.
  - rewrite Henc. unfold publish_bytes. cbn [length]. rewrite !length_app.
    pose proof (length_encode_digits length_fuel (2 + zlen topic + zlen content)) as Hd.
    unfold encode_length, length_fuel in *. cbn [length c_prefix]. lia.
Qed.

Definition publication (topic content : list Z) : packet :=
  {| send_buf := publish_bytes topic content; wcur := 0;
     wlen := Z.of_nat (length (publish_bytes topic content)) |}.

Lemma wp_publish_msg topic content rest n (Q : unit -> broker -> Prop) E s :
  deliverable topic content ->
  (forall s', queued n (publication topic content) s s' -> Q tt s') ->
  (forall f, out_of_memory s f -> E f) ->
  wp (publish_msg topic (content ++ rest) (zlen content) n) Q E s.
Proof.
  intros Hd HQ HE. destruct (publish_packet_fields topic content rest Hd) as [Hok Henc].
  apply wp_send_message; [done| |done]. unfold packet_of. rewrite Henc. exact HQ.
Qed.

(** The clients a list of leaves is delivered to, with repetitions. *)
Definition targets (cl : clients) (ls : list subleaf) : list nat :=
  filter (fun n => is_subscribe (cl !!! n) = true) (sl_context <$> ls).

Fixpoint enqueue_times (k : nat) (p : packet) (c : client) : client :=
  match k with O => c | S k' => enqueue p (enqueue_times k' p c) end.

Lemma enqueue_times_swap k p c : enqueue_times k p (enqueue p c) = enqueue p (enqueue_times k p c).
Proof. induction k as [|k IH]; [done|]. cbn. by rewrite IH. Qed.

Definition multiplicity (n : nat) (l : list nat) : nat := length (filter (eq n) l).

(** Every client has got a packet for each time it is a target. *)
Definition delivered (p : packet) (l : list nat) (s s' : broker) : Prop :=
  ss_roots s' = ss_roots s /\ ss_locked s' = ss_locked s /\
  alloc_le (ss_alloc s) (ss_alloc s') /\
  forall n, ss_clients s' !!! n = enqueue_times (multiplicity n l) p (ss_clients s !!! n).

Lemma queued_lookup n p s s' m :
  queued n p s s' ->
  ss_clients s' !!! m = if decide (m = n) then enqueue p (ss_clients s !!! n) else ss_clients s !!! m.
Proof.
  intros (_ & _ & -> & _). case_decide as E.
  - subst m. by rewrite lookup_total_insert_eq.
  - by rewrite lookup_total_insert_ne.
Qed.

Lemma targets_ext cl cl' ls :
  (forall n, is_subscribe (cl' !!! n) = is_subscribe (cl !!! n)) -> targets cl' ls = targets cl ls.
Proof.
  intros Heq. unfold targets. apply list_filter_iff. intros n. by rewrite Heq.
Qed.

Lemma wp_deliver topic content rest ls (Q : unit -> broker -> Prop) E s :
  deliverable topic content ->
  (forall s', delivered (publication topic content) (targets (ss_clients s) ls) s s' -> Q tt s') ->
  (forall f, out_of_memory s f -> E f) ->
  wp (iter (process_leaf (publish_msg topic (content ++ rest) (zlen content))) ls) Q E s.
Proof.
  intros Hd. revert Q s. induction ls as [|x ls IH]; intros Q s HQ HE.
  { apply wp_ret, HQ. by split_and!. }
  cbn [iter]. apply wp_bind. unfold process_leaf at 1. apply wp_bind, wp_gets.
  cbn [cs_is_subscribe clients_store]. unfold targets in HQ. cbn [fmap list_fmap] in HQ.
  destruct (is_subscribe (ss_clients s !!! sl_context x)) eqn:Es.
  - rewrite filter_cons_True in HQ by done.
    apply wp_publish_msg; [done| |done]. intros s1 Hq. apply IH.
    + intros s' (Hr & Hl & Ha & Hc). apply HQ. destruct Hq as (Hr1 & Hl1 & Hc1 & Ha1).
      split_and!; [congruence|congruence|by etrans|]. intros n. rewrite Hc.
      erewrite queued_lookup by by split_and!.
      rewrite (targets_ext (ss_clients s)); cycle 1.
      { intros m. rewrite Hc1. destruct (decide (m = sl_context x)) as [->|Hne].
        - by rewrite lookup_total_insert_eq.
        - by rewrite lookup_total_insert_ne. }
      unfold multiplicity. case_decide as E1.
      * subst n. rewrite filter_cons_True by done. cbn [length enqueue_times].
        apply enqueue_times_swap.
      * by rewrite filter_cons_False.
    + intros f Hf. apply HE. eapply out_of_memory_le; [by apply Hq|done].
  - rewrite filter_cons_False in HQ by (by rewrite Es). apply wp_ret. by apply IH.
Qed.
End build.
