(* ===== verification/HandlerSafe.v ===== *)
(** * Commands are safe, whatever the message

    [handle_mqtt_command] on any message the parser can leave, with memory and
    the lock of the tree free: it returns, gives the lock back, and leaves
    alone what the reader keeps in the clients; its only fault is the read past
    the payload of the topic validators. *)

From S2P Require Import Prelude.
From S2P Require Import Topic.
From S2P Require Import Utility.
From S2P Require Import Mqtt.
From S2P Require Import Serialiser.
From S2P Require Import SerialiserFacts.
From S2P Require Import Parser.
From S2P Require Import ParserFacts.
From S2P Require Import ParserTyped.
From S2P Require Import Substree.
From S2P Require Import Tokenise.
From S2P Require Import SubstreeFacts.
From S2P Require Import SubAddFacts.
From S2P Require Import Broker.
From S2P Require Import Handler.
From S2P Require Import BrokerInv.
From S2P Require Import HandlerFacts.

Section build.
Context {bd : Build} {bd_ok : BuildOk bd}.

(** ** What commands leave alone *)

Record calm (s s' : broker) : Prop := {
  calm_locked : ss_locked s' = ss_locked s;
  calm_alloc : alloc_le (ss_alloc s) (ss_alloc s');
  calm_readers k : reader_of (ss_clients s' !!! k) = reader_of (ss_clients s !!! k) }.

#[export] Instance calm_preorder : PreOrder calm.
Proof.
  split.
  - done.
  - intros s1 s2 s3 [] []. split; [congruence|by etrans|]. intros k. by rewrite calm_readers1.
Qed.

(** Where commands run: memory, a free lock, descriptors in the table. *)
Record open_broker (s : broker) : Prop := {
  open_memory : memory_available (ss_alloc s);
  open_lock : ss_locked s = false;
  open_sock k : 0 <= sock (ss_clients s !!! k) < max_fd }.

Lemma open_calm s s' : calm s s' -> open_broker s -> open_broker s'.
Proof.
  intros [] []. split; [by eapply alloc_le_available|congruence|]. intros k.
  specialize (calm_readers0 k). unfold reader_of in calm_readers0. injection calm_readers0 as -> _.
  done.
Qed.

Definition overread : fault -> Prop := eq OutOfBounds.

(** [m] is safe, and its result has [R]. *)
Definition safely {A} (R : A -> Prop) (m : M broker A) : Prop :=
  forall s, open_broker s -> wp m (fun a s' => R a /\ calm s s') overread s.

Lemma safely_ret {A} (R : A -> Prop) a : R a -> safely R (ret a).
Proof. intros Ha s _. by split. Qed.

Lemma safely_bind {A B} (R : A -> Prop) (R' : B -> Prop) (m : M broker A) k :
  safely R m -> (forall a, R a -> safely R' (k a)) -> safely R' (bind m k).
Proof.
  intros Hm Hk s Hs. apply wp_bind. eapply wp_conseq; [by apply Hm| |done].
  intros a s1 [Ha H1]. eapply wp_conseq; [apply (Hk a Ha s1); by eapply open_calm| |done].
  intros b s2 [Hb H2]. split; [done|by etrans].
Qed.

Lemma safely_conseq {A} (R R' : A -> Prop) (m : M broker A) :
  safely R m -> (forall a, R a -> R' a) -> safely R' m.
Proof.
  intros Hm HR s Hs. eapply wp_conseq; [by apply Hm| |done]. intros a s' [Ha Hc]. auto.
Qed.

Definition always {A} : A -> Prop := fun _ => True.

Lemma safely_any {A} (R : A -> Prop) (m : M broker A) : safely R m -> safely always m.
Proof. intros Hm. by eapply safely_conseq. Qed.

Lemma safely_lift {A} (R : A -> Prop) (m : outcome A) :
  (m = Fault OutOfBounds \/ exists a, m = Ok a /\ R a) -> safely R (lift m).
Proof. intros [->|(a & -> & Ha)] s Hs; [done|by split]. Qed.

Lemma safely_get n :
  safely (fun c => 0 <= sock c < max_fd) (get_client n).
Proof. intros s Hs. split; [apply Hs|done]. Qed.

Lemma safely_on_client n f :
  (forall c, reader_of (f c) = reader_of c) -> safely always (on_client n f).
Proof.
  intros Hf s Hs. apply wp_on_client. split; [done|]. split; [done|done|]. cbn. intros k.
  destruct (decide (k = n)) as [->|Hne].
  - by rewrite lookup_total_insert_eq.
  - by rewrite lookup_total_insert_ne.
Qed.

Lemma safely_iter {A} (f : A -> M broker unit) l :
  (forall x, safely always (f x)) -> safely always (iter f l).
Proof.
  intros Hf. induction l as [|x l IH]; [by apply safely_ret|]. by eapply safely_bind.
Qed.

Lemma calm_with_alloc s a : alloc_le (ss_alloc s) a -> calm s (s <| ss_alloc := a |>).
Proof. by split. Qed.

Lemma safely_malloc : safely always (with_alloc malloc_unchecked).
Proof.
  intros s Hs. apply wp_with_alloc_unchecked.
  - intros l a Ha. split; [done|by apply calm_with_alloc].
  - intros Hn. destruct Hs. by destruct Hn.
Qed.

(** A rule that says when memory ran out *)
Lemma out_of_memory_open s f : open_broker s -> out_of_memory s f -> overread f.
Proof. intros [Hm _ _] [_ Hn]. by destruct Hn. Qed.

(** ** Queueing *)

Lemma reader_of_enqueue p c : reader_of (enqueue p c) = reader_of c.
Proof. done. Qed.

Lemma queued_calm n p s s' : queued n p s s' -> calm s s'.
Proof.
  intros Hq. pose proof Hq as (_ & Hl & _ & Ha). split; [done|done|]. intros k.
  rewrite (queued_lookup _ _ _ _ _ Hq). case_decide as E; [by subst k|done].
Qed.

Lemma safely_ack n cmd len rc :
  (forall c, is_Some (ack_packet c cmd len rc)) -> 0 <= len <= 268435455 ->
  safely always (ack_msg n cmd len rc).
Proof.
  intros Hack Hlen s Hs. destruct (Hack (ss_clients s !!! n)) as [m Hm].
  eapply wp_ack_msg; [exact Hm|done| |intros f; by apply out_of_memory_open].
  intros s' Hq. split; [done|by eapply queued_calm].
Qed.

Lemma safely_publish_msg topic content rest n :
  deliverable topic content ->
  safely always (publish_msg topic (content ++ rest) (Z.of_nat (length content)) n).
Proof.
  intros Hd s Hs. eapply wp_publish_msg; [done| |intros f; by apply out_of_memory_open].
  intros s' Hq. split; [done|by eapply queued_calm].
Qed.

(** ** The tree, well formed or not *)

Lemma safely_tokenise sub :
  no_nul sub -> safely (fun r => exists t ts, r = Some (t :: ts)) (with_alloc (_sub_topic_tokenise sub)).
Proof.
  intros Hn s Hs. apply wp_zoom. eapply wp_conseq; [by apply wp_tokenise| |done].
  intros r a (Ha & [->|[_ Hna]]); [|destruct Hs; by destruct Hna].
  split; [|by apply calm_with_alloc]. pose proof (tokens_not_nil sub).
  destruct (tokens sub) as [|t ts]; [done|eauto].
Qed.

Lemma safely_subscribe n sub q : no_nul sub -> safely always (mqtt3_sub_add n sub q).
Proof.
  intros Hn s Hs. eapply wp_conseq; [apply wp_mqtt3_sub_add; [done|apply Hs]| |done].
  intros rc s' (Ha & Hw & _ & [(_ & Hl & _)|(_ & Hna & _)]); [|destruct Hs; by destruct Hna].
  split; [done|]. split; [destruct Hs; congruence|done|]. clear - Hw. intros k.
  induction Hw as [|cl1 cl2 cl3 [l ->] _ IH]; [done|]. rewrite IH. cbn.
  destruct (decide (k = n)) as [->|Hne].
  - by rewrite lookup_total_insert_eq.
  - by rewrite lookup_total_insert_ne.
Qed.

Section search.
Context (callback : nat -> M broker unit).
Context (Hcb : forall n, safely always (callback n)).

Lemma safely_process h : safely always (_subs_process callback h).
Proof using Hcb.
  apply safely_iter. intros leaf. unfold process_leaf.
  apply (safely_bind always); [by intros s Hs|]. intros [] _; [done|by apply safely_ret].
Qed.

Lemma safely_search h toks : safely always (_sub_search callback h toks).
Proof using Hcb.
  revert toks. induction h as [a t ls cs IH] using subhier_ind'. intros toks.
  cbn [_sub_search]. induction cs as [|b cs IHcs]; [by apply safely_ret|].
  apply Forall_cons in IH as [Hb IH]. pose proof (safely_process b) as Hp.
  assert (Hr : safely always (ret (S := broker) tt)) by by apply safely_ret.
  apply (safely_bind always); [|intros _ _; by apply IHcs].
  assert (Hhash : safely always (if bool_decide (sh_topic b = [HASH]) && bool_decide (sh_children b = [])
    then _subs_process callback b else ret tt)) by by destruct (_ && _).
  destruct toks as [|t0 toks]; [done|].
  destruct (bool_decide (sh_topic b = t0) || bool_decide (sh_topic b = [PLUS])); [|done].
  apply (safely_bind always); [apply Hb|]. intros _ _. by destruct toks.
Qed.

Lemma safely_tree_process topic :
  no_nul topic -> safely always (mqtt3_sub_tree_process callback topic).
Proof using Hcb.
  intros Hn. unfold mqtt3_sub_tree_process. eapply safely_bind; [by apply safely_tokenise|].
  intros r (t & ts & ->). apply (safely_bind always); [by intros s Hs|]. intros roots _.
  apply (safely_bind always); [|intros _ _; by apply safely_ret]. apply safely_iter. intros h.
  unfold search_root. case_match; [apply safely_search|by apply safely_ret].
Qed.
End search.

(** ** The commands *)

Lemma pub_topic_valid_outcome p :
  pub_topic_valid p = Fault OutOfBounds \/ exists a, pub_topic_valid p = Ok a /\ True.
Proof.
  destruct p as [mem|]; [|right; eauto]. unfold pub_topic_valid. generalize 0.
  induction mem as [|c mem IH]; intros len; cbn; [by left|]. repeat case_match; eauto.
Qed.

Lemma load_outcome mem i :
  load (Some mem) i = Fault OutOfBounds \/ exists a, load (Some mem) i = Ok a.
Proof. unfold load. repeat case_match; eauto. Qed.

Lemma sub_topic_valid_outcome p :
  sub_topic_valid p = Fault OutOfBounds \/ exists a, sub_topic_valid p = Ok a /\ True.
Proof.
  destruct p as [mem|]; [|right; eauto]. unfold sub_topic_valid.
  assert (Hall : forall c len, sub_topic_valid_loop mem c len = Fault OutOfBounds \/
    exists a, sub_topic_valid_loop mem c len = Ok a /\ True); [|apply Hall].
  induction mem as [|s0 mem IH]; intros c len; cbn [sub_topic_valid_loop]; [by left|].
  case_match; [right; eauto|]. match goal with |- obind ?bad _ = _ \/ _ =>
    assert (Hbad : bad = Fault OutOfBounds \/ exists a, bad = Ok a) end.
  { destruct (load_outcome mem 0) as [->|[s1 ->]]; cbn [obind]; repeat case_match; eauto. }
  destruct Hbad as [->|[[] ->]]; cbn [obind]; eauto.
Qed.

Lemma c_string_split mem s : c_string mem = Some s -> exists rest, mem = s ++ 0 :: rest.
Proof.
  revert s. induction mem as [|b mem IH]; intros s; cbn; [done|].
  destruct (Z.eqb_spec b 0) as [->|Hb]; intros Hs; simplify_eq; [by exists mem|].
  destruct (c_string mem) as [s'|]; simplify_eq/=. destruct (IH s' eq_refl) as [rest ->]. by exists rest.
Qed.

Lemma as_string_prefix l :
  no_nul (as_string (l ++ [0])) /\ exists rest, l ++ [0] = as_string (l ++ [0]) ++ 0 :: rest.
Proof.
  unfold as_string. destruct (c_string (l ++ [0])) as [s|] eqn:E; cbn.
  - split; [by eapply c_string_no_nul|by apply c_string_split].
  - exfalso. clear - E. induction l as [|b l IH]; cbn in E; [done|].
    destruct (b =? 0); [done|]. destruct (c_string (l ++ [0])); [done|by apply IH].
Qed.

Lemma as_string_bytes l :
  bytes l -> bytes (as_string (l ++ [0])) /\ (length (as_string (l ++ [0%Z])) <= length l)%nat.
Proof.
  intros Hl. destruct (as_string_prefix l) as (_ & rest & E). split.
  - assert (Hb : bytes (l ++ [0])) by (apply Forall_app; split; [done|by repeat constructor]).
    rewrite E in Hb. by apply Forall_app in Hb as [? _].
  - apply (f_equal length) in E. rewrite !length_app in E. cbn in E. lia.
Qed.

Lemma safely_copy b : valid_buffer b -> safely (eq (buffer_bytes b ++ [0])) (copy_terminated b).
Proof.
  intros (_ & _ & Hload). unfold copy_terminated. eapply safely_bind; [apply safely_malloc|].
  intros _ _. apply (safely_bind (eq (buffer_bytes b))).
  - apply safely_lift. rewrite Hload. eauto.
  - intros l <-. by apply safely_ret.
Qed.

(** A message the parser is done with: its payload has at most the bytes that
    four digits of a remaining length can count. *)
Record parsed (data : ptr) (len : Z) (m : mqtt_message) : Prop := {
  parsed_block : block data len;
  parsed_len : len <= 268435455;
  parsed_typed : typed data len m;
  parsed_complete : message_complete len m }.

Section commands.
Context (data : ptr) (len : Z) (m : mqtt_message) (Hm : parsed data len m) (n : nat).

Lemma parsed_field b : field data len b -> valid_buffer b.
Proof using Hm. destruct Hm. apply field_valid; [done|]. change (2 ^ 32) with 4294967296. lia. Qed.

Lemma safely_handle_publish : type m = MQTT_TYPE_PUBLISH -> safely always (handle_publish n m).
Proof using Hm.
  intros Hty. unfold handle_publish. pose proof Hm as [_ Hlen Ht Hc].
  destruct Ht as [_ _ [Htn Hct _] _]. apply parsed_field in Htn, Hct.
  pose proof (proj1 Hc Hty) as Hsum.
  case_match; [|by apply safely_ret]. destruct (b_data _) eqn:Ed; [|by apply safely_ret].
  eapply safely_bind; [apply safely_lift, pub_topic_valid_outcome|]. intros _ _.
  eapply safely_bind; [by apply safely_copy|]. intros _ <-.
  eapply safely_bind; [by apply safely_copy|]. intros _ <-.
  apply (safely_bind always); [by apply safely_on_client|]. intros _ _.
  apply (safely_bind always); [|intros _ _; by apply safely_ret].
  destruct Htn as (Hl1 & Hb1 & _), Hct as (Hl2 & Hb2 & _). rewrite Hl2.
  destruct (as_string_bytes _ Hb1) as [Hs1 Hs2].
  apply safely_tree_process; [|apply as_string_prefix]. intros k. apply safely_publish_msg.
  split_and!; [done|done|lia].
Qed.

Lemma safely_handle_connect base : base_ok base -> safely always (handle_connect base n m).
Proof using Hm.
  intros Hbase. unfold handle_connect. apply (safely_bind always); cycle 1.
  { intros rc _. eapply safely_bind; [apply safely_ack; [by eexists|lia]|].
    intros _ _. by apply safely_ret. }
  case_match eqn:E1; [by apply safely_ret|]. apply Z.ltb_ge in E1.
  case_match eqn:E2; [|by apply safely_ret].
  eapply safely_bind; [apply safely_get|]. intros c Hc.
  apply (safely_bind always); [|intros [] _; by apply safely_ret]. unfold add_client.
  apply (safely_bind always).
  { apply safely_lift. right. rewrite client_index_ok by done. by eexists. }
  intros k _. apply (safely_bind always).
  { apply safely_lift. right. unfold store_id. destruct Hm as [Hb Hl [[Hf _ _ _] _ _ _] _].
    apply Forall_cons in Hf as [_ Hf]. apply Forall_cons in Hf as [Hf _].
    apply parsed_field in Hf as (Hlen & _ & ->). cbn [obind].
    rewrite (proj2 (Nat.ltb_ge _ _)) by (unfold id_size; lia). by eexists. }
  intros l _. apply (safely_bind always); [by apply safely_on_client|].
  intros _ _. by apply safely_ret.
Qed.

Lemma safely_subscribe_topic name q :
  valid_buffer name ->
  safely always (subscribe_topic n m name {| tp_name := Some name; tp_qos := Some q |}).
Proof using.
  intros Hn. unfold subscribe_topic.
  eapply safely_bind; [apply safely_lift, sub_topic_valid_outcome|]. intros _ _.
  eapply safely_bind; [apply safely_get|]. intros c _. case_match; [|by apply safely_ret].
  eapply safely_bind; [by apply safely_copy|]. intros _ <-.
  apply (safely_bind always); [by apply safely_on_client|]. intros _ _. cbn [tp_qos].
  eapply safely_bind; [apply safely_subscribe, as_string_prefix|]. intros rc _.
  apply (safely_bind always); [|intros _ _; by apply safely_ret].
  case_match; [by apply safely_on_client|by apply safely_ret].
Qed.

Lemma safely_handle_subscribe : type m = MQTT_TYPE_SUBSCRIBE -> safely always (handle_subscribe n m).
Proof using Hm.
  intros Hty. unfold handle_subscribe. destruct (proj2 (parsed_complete _ _ _ Hm) Hty) as (b & q & Hp).
  assert (Hb : valid_buffer b).
  { apply parsed_field. destruct (parsed_typed _ _ _ Hm) as [_ _ _ [_ Hs]]. rewrite Hp in Hs. apply Hs. }
  rewrite Hp. cbn [tp_name]. apply (safely_bind always); cycle 1.
  { intros rc _. eapply safely_bind; [apply safely_ack; [by eexists|lia]|].
    intros _ _. by apply safely_ret. }
  destruct (b_data b); [by apply safely_subscribe_topic|by apply safely_ret].
Qed.

(** The command, and then the message is freed. *)
Lemma wp_handle base s :
  base_ok base -> open_broker s -> in_packet (ss_clients s !!! n) = Some m ->
  wp (handle_mqtt_command base n)
     (fun _ s' => exists s1, calm s s1 /\
        s' = s1 <| ss_clients := <[n := (ss_clients s1 !!! n) <| in_packet := None |>]> (ss_clients s1) |>)
     overread s.
Proof using Hm.
  intros Hbase Hs Hp. unfold handle_mqtt_command. apply wp_bind, wp_get_client. rewrite Hp.
  apply wp_bind. eapply wp_conseq with (Q := fun _ s1 => calm s s1); [|intros rc s1 H1|done].
  - assert (Hsafe : forall k : M broker Z, safely always k -> wp k (fun _ s1 => calm s s1) overread s).
    { intros k Hk. eapply wp_conseq; [by apply Hk| |done]. by intros a s1 [_ H1]. }
    assert (Hret : forall z : Z, wp (ret z) (fun _ s1 => calm s s1) overread s) by done.
    destruct (Z.eqb_spec (type m) MQTT_TYPE_PUBLISH).
    { apply Hsafe. eapply safely_bind; [by apply safely_handle_publish|].
      intros _ _. by apply safely_ret. }
    case_match; [by apply Hsafe, safely_handle_connect|].
    destruct (Z.eqb_spec (type m) MQTT_TYPE_SUBSCRIBE); [by apply Hsafe, safely_handle_subscribe|].
    case_match; [|repeat case_match; apply Hret].
    apply Hsafe. eapply safely_bind; [apply safely_ack; [by eexists|lia]|].
    intros _ _. by apply safely_ret.
  - apply wp_bind, wp_on_client, wp_ret. by exists s1.
Qed.
End commands.
End build.
