(* ===== verification/HandlerSpec.v ===== *)
(** * Commands: the theorems

    One theorem per command of [handle_mqtt_command], with its result, what it
    queues and what it leaves as it was. *)

From S2P Require Import Prelude.
From S2P Require Import Topic.
From S2P Require Import Mqtt.
From S2P Require Import Serialiser.
From S2P Require Import SerialiserFacts.
From S2P Require Import Utility.
From S2P Require Import Substree.
From S2P Require Import Tokenise.
From S2P Require Import SubstreeFacts.
From S2P Require Import SubAddFacts.
From S2P Require Import Broker.
From S2P Require Import Handler.
From S2P Require Import HandlerFacts.

Section build.
Context {bd : Build} {bd_ok : BuildOk bd}.

Definition with_client (n : nat) (c : client) (s : broker) : broker :=
  s <| ss_clients := <[n := c]> (ss_clients s) |>.

Lemma with_client_lookup n c s m :
  ss_clients (with_client n c s) !!! m = if decide (m = n) then c else ss_clients s !!! m.
Proof.
  cbn. case_decide as E.
  - subst m. by rewrite lookup_total_insert_eq.
  - by rewrite lookup_total_insert_ne.
Qed.

(** Rule for the whole handler: run the case, then drop the message. *)
Definition close_packet (n : nat) (s : broker) : broker :=
  with_client n ((ss_clients s !!! n) <| in_packet := None |>) s.

Section handler.
Context (base_sock : Z) (n : nat) (s : broker) (m : mqtt_message).
Hypothesis Hin : in_packet (ss_clients s !!! n) = Some m.
Implicit Types (Q : Z -> broker -> Prop) (E : fault -> Prop).

Lemma wp_handle_publish_case Q E :
  type m = MQTT_TYPE_PUBLISH ->
  wp (handle_publish n m) (fun _ s' => Q 0 (close_packet n s')) E s ->
  wp (handle_mqtt_command base_sock n) Q E s.
Proof using Hin.
  intros Ht Hwp. unfold handle_mqtt_command. apply wp_bind, wp_get_client. rewrite Hin, Ht.
  cbn [Z.eqb]. apply wp_bind. change (MQTT_TYPE_PUBLISH =? MQTT_TYPE_PUBLISH) with true.
  cbv iota. apply wp_bind. eapply wp_conseq; [exact Hwp| |done].
  intros [] s' HQ. apply wp_ret, wp_bind, wp_on_client, wp_ret. exact HQ.
Qed.

Lemma wp_handle_connect_case Q E :
  type m = MQTT_TYPE_CONNECT ->
  wp (handle_connect base_sock n m) (fun rc s' => Q rc (close_packet n s')) E s ->
  wp (handle_mqtt_command base_sock n) Q E s.
Proof using Hin.
  intros Ht Hwp. unfold handle_mqtt_command. apply wp_bind, wp_get_client. rewrite Hin, Ht.
  apply wp_bind. change (MQTT_TYPE_CONNECT =? MQTT_TYPE_PUBLISH) with false.
  change (MQTT_TYPE_CONNECT =? MQTT_TYPE_CONNECT) with true. cbv iota.
  eapply wp_conseq; [exact Hwp| |done].
  intros rc s' HQ. apply wp_bind, wp_on_client, wp_ret. exact HQ.
Qed.

Lemma wp_handle_subscribe_case Q E :
  type m = MQTT_TYPE_SUBSCRIBE ->
  wp (handle_subscribe n m) (fun rc s' => Q rc (close_packet n s')) E s ->
  wp (handle_mqtt_command base_sock n) Q E s.
Proof using Hin.
  intros Ht Hwp. unfold handle_mqtt_command. apply wp_bind, wp_get_client. rewrite Hin, Ht.
  apply wp_bind. change (MQTT_TYPE_SUBSCRIBE =? MQTT_TYPE_PUBLISH) with false.
  change (MQTT_TYPE_SUBSCRIBE =? MQTT_TYPE_CONNECT) with false.
  change (MQTT_TYPE_SUBSCRIBE =? MQTT_TYPE_SUBSCRIBE) with true. cbv iota.
  eapply wp_conseq; [exact Hwp| |done].
  intros rc s' HQ. apply wp_bind, wp_on_client, wp_ret. exact HQ.
Qed.
End handler.

(** ** PUBLISH *)

Lemma wp_copy_terminated b l (Q : list Z -> broker -> Prop) E s :
  load_bytes (b_data b) (b_length b) = Ok l ->
  (forall a, alloc_le (ss_alloc s) a -> Q (l ++ [0]) (s <| ss_alloc := a |>)) ->
  (forall f, out_of_memory s f -> E f) ->
  wp (copy_terminated b) Q E s.
Proof.
  intros Hl HQ HE. unfold copy_terminated. apply wp_bind, wp_with_alloc_unchecked; cycle 1.
  { intros Hn. by apply HE. }
  intros _ a Ha. apply wp_bind. eapply wp_lift; [done|]. by apply wp_ret, HQ.
Qed.

Lemma as_string_terminated t : no_nul t -> as_string (t ++ [0]) = t.
Proof. intros Ht. unfold as_string. by rewrite c_string_app. Qed.

(** The clients a publication to these filters is queued for, with
    repetitions *)
Definition recipients (s : broker) (fs : list (list level)) : list nat :=
  targets (ss_clients s) (flat_map (filter_leaves (ss_roots s)) fs).

Lemma wp_sub_tree_process topic content rest (s : broker) (Q : Z -> broker -> Prop) E :
  deliverable topic content -> no_nul topic -> wildcard_free topic = true ->
  tree_ok (ss_roots s) -> memory_available (ss_alloc s) ->
  (forall s' fs, matching (ss_roots s) (tokens topic) fs ->
     delivered (publication topic content) (recipients s fs) s s' -> Q 0 s') ->
  (forall f, out_of_memory s f -> E f) ->
  wp (mqtt3_sub_tree_process (publish_msg topic (content ++ rest) (zlen content)) topic) Q E s.
Proof.
  intros Hd Hn Hw [Hwf Hr] Ha HQ HE.
  destruct (tree_process_matching (publish_msg topic (content ++ rest) (zlen content)) topic s)
    as (fs & a & Hfs & Hle & Hrun); [done..|]. unfold wp. rewrite Hrun.
  set (ls := flat_map (filter_leaves (ss_roots s)) fs).
  assert (Hwp : wp (iter (process_leaf (publish_msg topic (content ++ rest) (zlen content))) ls
    ;;; ret 0) Q E (s <| ss_alloc := a |>)); [|exact Hwp].
  apply wp_bind, wp_deliver; [done| |].
  - intros s' (? & ? & ? & ?). apply wp_ret, (HQ _ fs); [done|].
    split_and!; [done|done|by etrans|done].
  - intros f Hf. apply HE. eapply out_of_memory_le; [|exact Hf]. done.
Qed.

Lemma enqueue_times_field {A} (f : client -> A) k p c :
  (forall c, f (enqueue p c) = f c) -> f (enqueue_times k p c) = f c.
Proof. intros Hf. induction k as [|k IH]; [done|]. cbn. by rewrite Hf. Qed.

Lemma enqueue_times_close k p c :
  (enqueue_times k p c) <| in_packet := None |> = enqueue_times k p (c <| in_packet := None |>).
Proof. induction k as [|k IH]; [done|]. cbn [enqueue_times]. rewrite <- IH. reflexivity. Qed.

Definition mem_of (b : mqtt_buffer) (l rest : list Z) : Prop :=
  b = {| b_length := zlen l; b_data := Some (l ++ rest) |}.

Lemma wp_handle_publish base n m topic content trest crest v s :
  in_packet (ss_clients s !!! n) = Some m -> type m = MQTT_TYPE_PUBLISH -> qos m = 0 ->
  mem_of (topic_name (publish m)) topic trest -> mem_of (Mqtt.content (publish m)) content crest ->
  pub_topic_valid (Some (topic ++ trest)) = Ok v ->
  deliverable topic content -> no_nul topic -> wildcard_free topic = true ->
  tree_ok (ss_roots s) -> memory_available (ss_alloc s) ->
  wp (handle_mqtt_command base n) (fun rc s' => rc = 0 /\ exists fs,
    matching (ss_roots s) (tokens topic) fs /\
    ss_roots s' = ss_roots s /\ ss_locked s' = ss_locked s /\
    forall k, ss_clients s' !!! k =
      enqueue_times (multiplicity k (recipients s fs)) (publication topic content)
        (if decide (k = n)
         then (ss_clients s !!! n) <| last_mid := pub_message_id (publish m) |>
                                   <| in_packet := None |>
         else ss_clients s !!! k)) no_fault s.
Proof.
  intros Hin Ht Hq Htn Hcn Hv Hd Hnn Hw Hok Ha.
  eapply wp_handle_publish_case; [done|done|]. unfold handle_publish. rewrite Hq.
  change (0 =? 0) with true. cbv iota zeta. rewrite Htn, Hcn. cbn [b_data].
  apply wp_bind. eapply wp_lift; [done|].
  assert (Hm : forall a f, alloc_le (ss_alloc s) a -> out_of_memory (s <| ss_alloc := a |>) f -> no_fault f).
  { intros a f Hle [_ Hna]. apply Hna. cbn. eauto with mumq. }
  apply wp_bind. eapply wp_copy_terminated;
    [by apply load_bytes_app| |intros f [_ ?]; done].
  intros a1 Ha1. apply wp_bind. eapply wp_copy_terminated;
    [by apply load_bytes_app| |intros f Hf; by eapply Hm].
  intros a2 Ha2. cbn in Ha2. rewrite as_string_terminated by done. cbn [b_length].
  assert (Ha12 : alloc_le (ss_alloc s) a2) by by etrans.
  apply wp_bind, wp_on_client, wp_bind, wp_sub_tree_process; try done.
  - cbn. eauto with mumq.
  - intros s' fs Hfs (Hr & Hl & Hle & Hc). apply wp_ret. split; [done|]. exists fs.
    cbn in Hr, Hl, Hfs. split_and!; [done|done|done|]. intros k.
    unfold close_packet. rewrite with_client_lookup.
    assert (Htg : recipients (s <| ss_alloc := a2 |> <| ss_clients :=
      <[n := (ss_clients s !!! n) <| last_mid := pub_message_id (publish m) |>]> (ss_clients s) |>) fs =
      recipients s fs).
    { apply targets_ext. intros i. cbn. destruct (decide (i = n)) as [->|Hne].
      - by rewrite lookup_total_insert_eq.
      - by rewrite lookup_total_insert_ne. }
    assert (Hc' : forall i, ss_clients s' !!! i =
      enqueue_times (multiplicity i (recipients s fs)) (publication topic content)
        (<[n := (ss_clients s !!! n) <| last_mid := pub_message_id (publish m) |>]>
          (ss_clients s) !!! i)).
    { intros i. rewrite <- Htg. apply Hc. }
    case_decide as Ek; rewrite Hc'.
    + subst k. by rewrite lookup_total_insert_eq, enqueue_times_close.
    + by rewrite lookup_total_insert_ne.
  - intros f [_ Hna]. apply Hna. cbn. eauto with mumq.
Qed.

(** C4: a PUBLISH of QoS 0 on a topic without wildcards is answered 0 and
    queues one packet, the topic and the content behind a fixed header, for
    every leaf of a subscribing client under each filter that matches; nothing
    else changes but the sender's last packet identifier and its message,
    which is dropped.  (The validator must have found the end of the topic.) *)
Theorem handle_publish_correct base n m topic content trest crest v s :
  in_packet (ss_clients s !!! n) = Some m -> type m = MQTT_TYPE_PUBLISH -> qos m = 0 ->
  mem_of (topic_name (publish m)) topic trest -> mem_of (Mqtt.content (publish m)) content crest ->
  pub_topic_valid (Some (topic ++ trest)) = Ok v ->
  deliverable topic content -> no_nul topic -> wildcard_free topic = true ->
  tree_ok (ss_roots s) -> memory_available (ss_alloc s) ->
  exists s' fs, handle_mqtt_command base n s = Ok (0, s') /\
    matching (ss_roots s) (tokens topic) fs /\
    ss_roots s' = ss_roots s /\ ss_locked s' = ss_locked s /\
    forall k, ss_clients s' !!! k =
      enqueue_times (multiplicity k (recipients s fs)) (publication topic content)
        (if decide (k = n)
         then (ss_clients s !!! n) <| last_mid := pub_message_id (publish m) |>
                                   <| in_packet := None |>
         else ss_clients s !!! k).
Proof.
  intros Hin Ht Hq Htn Hcn Hv Hd Hnn Hw Hok Ha.
  pose proof (wp_handle_publish base n m topic content trest crest v s
    Hin Ht Hq Htn Hcn Hv Hd Hnn Hw Hok Ha) as Hwp.
  apply wp_elim in Hwp as (rc & s' & Hrun & -> & fs & Hs'). by exists s', fs.
Qed.

(** ** CONNECT *)

Definition raw_packet (l : list Z) : packet :=
  {| send_buf := l; wcur := 0; wlen := zlen l |}.

Lemma packet_of_connack c rc m :
  0 <= rc < 256 -> ack_packet c MQTT_TYPE_CONNACK 2 rc = Some m ->
  packet_of m = raw_packet [32; 2; 0; rc].
Proof.
  intros Hrc Hm. pose proof (encode_connack c rc Hrc) as He. rewrite Hm in He.
  apply (inj Some) in He. unfold packet_of. by rewrite He.
Qed.

(** The client after [add_client]. *)
Definition identified (l : list Z) (c : client) : client :=
  c <| id := l ++ replicate (id_size - length l) 0 |> <| num_sending_pack := 0 |>
    <| state := cs_connected |>.

Lemma wp_add_client base fd l rest n (Q : bool -> broker -> Prop) E s :
  client_index base fd = Ok n -> (length l <= id_size)%nat ->
  Q true (with_client n (identified l (ss_clients s !!! n)) s) ->
  wp (add_client {| b_length := zlen l; b_data := Some (l ++ rest) |} base fd) Q E s.
Proof.
  intros Hn Hl HQ. unfold add_client. apply wp_bind. eapply wp_lift; [done|].
  apply wp_bind. eapply wp_lift; [by apply store_id_ok|].
  by apply wp_bind, wp_on_client, wp_ret.
Qed.

Lemma wp_connack n rc (Q : unit -> broker -> Prop) E s :
  0 <= rc < 256 ->
  (forall s', queued n (raw_packet [32; 2; 0; rc]) s s' -> Q tt s') ->
  (forall f, out_of_memory s f -> E f) ->
  wp (ack_msg n MQTT_TYPE_CONNACK 2 rc) Q E s.
Proof.
  intros Hrc HQ HE. eapply wp_ack_msg; [reflexivity|lia| |done].
  intros s' Hs'. apply HQ. rewrite <- (packet_of_connack client0 rc _ Hrc eq_refl). exact Hs'.
Qed.

Definition connect_code (l : list Z) : Z := if 23 <? zlen l then 2 else 0.
Definition connect_client (l : list Z) (c : client) : client :=
  if (0 <? zlen l) && (zlen l <=? 23) then identified l c else c.

Definition others_same (n : nat) (s s' : broker) : Prop :=
  ss_roots s' = ss_roots s /\ ss_locked s' = ss_locked s /\
  forall k, k <> n -> ss_clients s' !!! k = ss_clients s !!! k.

Lemma others_same_queued n p s s' : queued n p s s' -> others_same n s s'.
Proof.
  intros Hq. pose proof Hq as (Hr & Hl & _). split_and!; [done|done|].
  intros k Hk. erewrite queued_lookup by done. by rewrite decide_False.
Qed.

Lemma others_same_with_client n c s : others_same n s (with_client n c s).
Proof. split_and!; [done..|]. intros k Hk. by rewrite with_client_lookup, decide_False. Qed.

Lemma others_same_trans n s1 s2 s3 :
  others_same n s1 s2 -> others_same n s2 s3 -> others_same n s1 s3.
Proof.
  intros (A1 & B1 & C1) (A2 & B2 & C2). split_and!; [congruence|congruence|].
  intros k Hk. by rewrite C2, C1.
Qed.

(** C21: a CONNECT with an identifier of 1 to 23 bytes makes the client connected
    under it and is accepted; a longer one is answered with code 2, which also
    has the client removed; an empty one is accepted without making the client
    connected.  The CONNACK is queued in each case; no other client, and
    nothing of the tree, changes. *)
Theorem handle_connect_correct base n m l rest s :
  in_packet (ss_clients s !!! n) = Some m -> type m = MQTT_TYPE_CONNECT ->
  mem_of (client_id (connect m)) l rest ->
  client_index base (sock (ss_clients s !!! n)) = Ok n -> memory_available (ss_alloc s) ->
  exists s', handle_mqtt_command base n s = Ok (connect_code l, s') /\
    others_same n s s' /\
    ss_clients s' !!! n =
      (enqueue (raw_packet [32; 2; 0; connect_code l])
         (connect_client l (ss_clients s !!! n))) <| in_packet := None |>.
Proof.
  intros Hin Ht Hb Hn Ha.
  enough (Hwp : wp (handle_mqtt_command base n) (fun rc s' => rc = connect_code l /\
    others_same n s s' /\ ss_clients s' !!! n =
      (enqueue (raw_packet [32; 2; 0; connect_code l])
         (connect_client l (ss_clients s !!! n))) <| in_packet := None |>) no_fault s).
  { apply wp_elim in Hwp as (rc & s' & Hrun & -> & Hs'). by exists s'. }
  eapply wp_handle_connect_case; [done|done|]. unfold handle_connect. rewrite Hb. cbn [b_length].
  assert (Hack : forall s1 c rc, alloc_le (ss_alloc s) (ss_alloc s1) -> others_same n s s1 ->
    ss_clients s1 !!! n = c -> 0 <= rc < 256 ->
    wp (ack_msg n MQTT_TYPE_CONNACK 2 rc ;;; ret rc)
      (fun rc' s' => rc' = rc /\ others_same n s (close_packet n s') /\
         ss_clients (close_packet n s') !!! n =
           (enqueue (raw_packet [32; 2; 0; rc]) c) <| in_packet := None |>) no_fault s1).
  { intros s1 c rc Hle Ho Hc Hrc. apply wp_bind, wp_connack; [done| |].
    - intros s2 Hq. apply wp_ret. split_and!; [done| |].
      + eapply others_same_trans; [exact Ho|]. eapply others_same_trans;
          [by eapply others_same_queued|apply others_same_with_client].
      + unfold close_packet. rewrite with_client_lookup, decide_True by done.
        erewrite queued_lookup by done. by rewrite decide_True, Hc.
    - intros f [_ Hna]. apply Hna. eauto with mumq. }
  assert (Hrefl : others_same n s s) by by split_and!.
  unfold connect_code, connect_client. apply wp_bind.
  destruct (Z.ltb_spec 23 (zlen l)) as [Hlong|Hlong].
  { apply wp_ret. rewrite (proj2 (Z.leb_gt _ _)), andb_false_r by lia. by apply Hack. }
  rewrite (proj2 (Z.leb_le _ _)), andb_true_r by lia.
  destruct (Z.ltb_spec 0 (zlen l)) as [Hpos|Hpos].
  - apply wp_bind, wp_get_client, wp_bind. eapply wp_add_client;
      [done|unfold id_size; lia|]. apply wp_ret.
    apply Hack; [done|apply others_same_with_client| |lia].
    by rewrite with_client_lookup, decide_True.
  - apply wp_ret. by apply Hack.
Qed.

(** ** SUBSCRIBE *)

Definition suback_bytes (mid rc : Z) : list Z :=
  [144; 3; u8 (Z.shiftr mid 8); u8 (Z.land mid 255); rc].

Lemma packet_of_suback c rc m :
  0 <= rc < 256 -> ack_packet c MQTT_TYPE_SUBACK 3 rc = Some m ->
  packet_of m = raw_packet (suback_bytes (last_mid c) rc).
Proof.
  intros Hrc Hm.
  assert (E : Some (encode m) = Some (suback_bytes (last_mid c) rc)).
  { change (encode <$> Some m = Some (suback_bytes (last_mid c) rc)). rewrite <- Hm.
    change (Some (suback_bytes (last_mid c) (u8 rc)) = Some (suback_bytes (last_mid c) rc)).
    by rewrite u8_small. }
  apply (inj Some) in E. unfold packet_of. by rewrite E.
Qed.

Lemma wp_suback n rc (Q : unit -> broker -> Prop) E s :
  0 <= rc < 256 ->
  (forall s', queued n (raw_packet (suback_bytes (last_mid (ss_clients s !!! n)) rc)) s s' -> Q tt s') ->
  (forall f, out_of_memory s f -> E f) ->
  wp (ack_msg n MQTT_TYPE_SUBACK 3 rc) Q E s.
Proof.
  intros Hrc HQ HE. eapply wp_ack_msg; [reflexivity|lia| |done].
  intros s' Hs'. apply HQ. erewrite <- packet_of_suback; [exact Hs'|done|reflexivity].
Qed.

(** The node list is all that adding a subscription writes of a client. *)
Lemma subs_written_clients n (cl cl' : clients) :
  subs_written n cl cl' ->
  (forall k, k <> n -> cl' !!! k = cl !!! k) /\
  exists l, cl' !!! n = (cl !!! n) <| subs := l |>.
Proof.
  induction 1 as [cl|cl1 cl2 cl3 [l ->] _ [IH1 [l' IH2]]].
  - split; [done|]. exists (subs (cl !!! n)). by destruct (cl !!! n).
  - cbn [cs_set_subs clients_store] in *. split.
    + intros k Hk. by rewrite IH1, lookup_total_insert_ne by done.
    + exists l'. rewrite IH2, lookup_total_insert_eq. done.
Qed.

Section subscribe.
Context (base : Z) (n : nat) (m : mqtt_message) (s : broker).
Context (topic rest : list Z) (b : mqtt_buffer) (q : Z).
Hypothesis Hin : in_packet (ss_clients s !!! n) = Some m.
Hypothesis Ht : type m = MQTT_TYPE_SUBSCRIBE.
Hypothesis Htp : topics (subscribe m) = Some {| tp_name := Some b; tp_qos := Some q |}.
Hypothesis Hb : mem_of b topic rest.
Hypothesis Hv : exists v, sub_topic_valid (Some (topic ++ rest)) = Ok v.
Hypothesis Ha : memory_available (ss_alloc s).

(** The SUBACK, and dropping the message. *)
Lemma wp_finish_subscribe s1 rc (Q : Z -> broker -> Prop) :
  alloc_le (ss_alloc s) (ss_alloc s1) -> 0 <= rc < 256 ->
  (forall s', others_same n s1 s' ->
     ss_clients s' !!! n =
       (enqueue (raw_packet (suback_bytes (last_mid (ss_clients s1 !!! n)) rc))
          (ss_clients s1 !!! n)) <| in_packet := None |> -> Q rc s') ->
  wp (ack_msg n MQTT_TYPE_SUBACK 3 rc ;;; ret rc)
     (fun rc' s' => Q rc' (close_packet n s')) no_fault s1.
Proof using Ha.
  intros Hle Hrc HQ. apply wp_bind, wp_suback; [done| |].
  - intros s2 Hq. apply wp_ret, HQ.
    + eapply others_same_trans; [by eapply others_same_queued|apply others_same_with_client].
    + unfold close_packet. rewrite with_client_lookup, decide_True by done.
      erewrite queued_lookup by done. by rewrite decide_True.
  - intros f [_ Hna]. apply Hna. eauto with mumq.
Qed.

Lemma wp_subscribe_start (Q : Z -> broker -> Prop) E :
  wp (let* rc := subscribe_topic n m b {| tp_name := Some b; tp_qos := Some q |} in
      ack_msg n MQTT_TYPE_SUBACK 3 rc ;;; ret rc)
     (fun rc s' => Q rc (close_packet n s')) E s ->
  wp (handle_mqtt_command base n) Q E s.
Proof using Hin Ht Htp Hb.
  intros Hwp. eapply wp_handle_subscribe_case; [done|done|]. unfold handle_subscribe.
  rewrite Htp. cbn [tp_name]. rewrite Hb in *. exact Hwp.
Qed.

(** What becomes of the broker when client [n] subscribes to [topic]; [l] is the
    client's new list of tree nodes. *)
Record after_subscribe (l : list (option loc)) (s' : broker) : Prop := {
  sd_locked : ss_locked s' = false;
  sd_leaves f : filter_leaves (ss_roots s') f =
    if decide (f = tokens topic)
    then insert_leaf (ss_clients s) n q (filter_leaves (ss_roots s) f)
    else filter_leaves (ss_roots s) f;
  sd_others k : k <> n -> ss_clients s' !!! k = ss_clients s !!! k;
  sd_client : ss_clients s' !!! n =
    (enqueue (raw_packet (suback_bytes (sub_message_id (subscribe m)) 0))
       ((ss_clients s !!! n) <| last_mid := sub_message_id (subscribe m) |>
          <| subs := l |> <| is_subscribe := true |>)) <| in_packet := None |> }.

(** Leaves are told apart by the identifiers of their clients only. *)
Lemma insert_leaf_same_id (cl : gmap nat client) c ls :
  id c = id (cl !!! n) -> insert_leaf (<[n := c]> cl) n q ls = insert_leaf cl n q ls.
Proof using.
  intros Hid. apply insert_leaf_ext. intros k.
  change (default [] (c_string (id (<[n := c]> cl !!! k))) = default [] (c_string (id (cl !!! k)))).
  destruct (decide (k = n)) as [->|Hk]; [by rewrite lookup_total_insert_eq, Hid|].
  by rewrite lookup_total_insert_ne.
Qed.

(** C5: a SUBSCRIBE of a connected client is answered 0 with a SUBACK that
    carries its packet identifier; the client is subscribed, its leaf stored
    under the filter with the QoS asked for, every other filter has the
    leaves it had, and no other client changes.  The verdict of the validator
    makes no difference. *)
Theorem handle_subscribe_correct :
  no_nul topic -> state (ss_clients s !!! n) = cs_connected -> ss_locked s = false ->
  exists s' l, handle_mqtt_command base n s = Ok (0, s') /\ after_subscribe l s'.
Proof using All.
  intros Hn Hst Hlk. destruct Hv as [v Hv'].
  pose (Post := fun (rc : Z) (s' : broker) => rc = 0 /\ exists l, after_subscribe l s').
  enough (Hwp : wp (handle_mqtt_command base n) Post no_fault s).
  { apply wp_elim in Hwp as (rc & s' & Hrun & -> & l & Hs'). by exists s', l. }
  apply (wp_subscribe_start Post). apply wp_bind. unfold subscribe_topic. rewrite Hb. cbn [b_data].
  apply wp_bind. eapply wp_lift; [done|]. apply wp_bind, wp_get_client.
  rewrite Hst, bool_decide_eq_true_2 by done.
  apply wp_bind. eapply wp_copy_terminated;
    [by apply load_bytes_app| |intros f [_ Hna]; done].
  intros a1 Ha1. apply wp_bind, wp_on_client. cbn [tp_qos]. rewrite as_string_terminated by done.
  set (c1 := (ss_clients _ !!! n) <| last_mid := _ |>).
  set (s1 := _ <| ss_clients := _ |>).
  apply wp_bind. eapply wp_conseq; [by apply wp_mqtt3_sub_add| |done].
  intros rc s2 (Hle & Hw & _ & Hres).
  assert (Hma : memory_available (ss_alloc s1)) by (cbn; eauto with mumq).
  destruct Hres as [(-> & Hl2 & Hadd)|(_ & Hna & _)]; [|done].
  apply subs_written_clients in Hw as [Hw1 [l Hw2]].
  change (ss_clients s1) with (<[n := c1]> (ss_clients s)) in *.
  rewrite lookup_total_insert_eq in Hw2.
  change (u8 0) with 0. change (0 =? 0) with true. cbv iota.
  apply wp_bind, wp_on_client, wp_ret, (wp_finish_subscribe _ 0 Post); [cbn; by etrans|done|].
  intros s' (Hr' & Hl' & Ho) Hcn. split; [done|]. exists l. split.
  - by rewrite Hl'.
  - intros f. rewrite Hr'. etrans; [apply Hadd|]. case_decide; [|done]. by apply insert_leaf_same_id.
  - intros k Hk. rewrite Ho by done. cbn. rewrite lookup_total_insert_ne by done.
    rewrite Hw1 by done. by rewrite lookup_total_insert_ne.
  - rewrite Hcn. cbn. rewrite lookup_total_insert_eq, Hw2. done.
Qed.

(** A SUBSCRIBE of a client that is not connected leaves the tree alone and
    is answered 128, which has the client removed; the SUBACK queued for it
    carries the identifier of an earlier packet, not its own. *)
Theorem handle_subscribe_refused :
  state (ss_clients s !!! n) <> cs_connected ->
  exists s', handle_mqtt_command base n s = Ok (128, s') /\ others_same n s s' /\
    ss_clients s' !!! n =
      (enqueue (raw_packet (suback_bytes (last_mid (ss_clients s !!! n)) 128))
         (ss_clients s !!! n)) <| in_packet := None |>.
Proof using All.
  intros Hst. destruct Hv as [v Hv'].
  pose (Post := fun (rc : Z) (s' : broker) => rc = 128 /\ others_same n s s' /\
    ss_clients s' !!! n =
      (enqueue (raw_packet (suback_bytes (last_mid (ss_clients s !!! n)) 128))
         (ss_clients s !!! n)) <| in_packet := None |>).
  enough (Hwp : wp (handle_mqtt_command base n) Post no_fault s).
  { apply wp_elim in Hwp as (rc & s' & Hrun & -> & Hs'). by exists s'. }
  apply (wp_subscribe_start Post). apply wp_bind. unfold subscribe_topic. rewrite Hb. cbn [b_data].
  apply wp_bind. eapply wp_lift; [done|]. apply wp_bind, wp_get_client.
  rewrite bool_decide_eq_false_2 by done. apply wp_ret, (wp_finish_subscribe _ 128 Post); [done|done|].
  intros s' Ho Hcn. by split_and!.
Qed.
End subscribe.

(** ** The other commands *)

Definition other_code (m : mqtt_message) : Z :=
  if type m =? MQTT_TYPE_DISCONNECT then 1 else 0.
Definition other_client (m : mqtt_message) (c : client) : client :=
  if type m =? MQTT_TYPE_PINGREQ then enqueue (raw_packet [208; 0]) c else c.

(** PINGREQ is answered with a PINGRESP, DISCONNECT with code 1, which has
    the client removed; UNSUBSCRIBE, a PUBLISH of QoS 1 or 2 and every other
    type with code 0 and nothing queued: neither an acknowledgement nor, for
    the PUBLISH, a delivery.  Nothing else changes. *)
Theorem handle_other_correct base n m s :
  in_packet (ss_clients s !!! n) = Some m ->
  type m <> MQTT_TYPE_CONNECT -> type m <> MQTT_TYPE_SUBSCRIBE ->
  (type m = MQTT_TYPE_PUBLISH -> qos m <> 0) -> memory_available (ss_alloc s) ->
  exists s', handle_mqtt_command base n s = Ok (other_code m, s') /\ others_same n s s' /\
    ss_clients s' !!! n = (other_client m (ss_clients s !!! n)) <| in_packet := None |>.
Proof.
  intros Hin Hc Hs Hp Ha. pose (Post := fun (rc : Z) (s' : broker) => rc = other_code m /\
    others_same n s s' /\
    ss_clients s' !!! n = (other_client m (ss_clients s !!! n)) <| in_packet := None |>).
  enough (Hwp : wp (handle_mqtt_command base n) Post no_fault s).
  { apply wp_elim in Hwp as (rc & s' & Hrun & -> & Hs'). by exists s'. }
  assert (Hplain : forall rc, rc = other_code m -> other_client m (ss_clients s !!! n) = ss_clients s !!! n ->
    Post rc (close_packet n s)).
  { intros rc Hrc Ho. split; [done|split]; [apply others_same_with_client|].
    unfold close_packet. by rewrite with_client_lookup, decide_True, Ho by done. }
  destruct (Z.eqb_spec (type m) MQTT_TYPE_PUBLISH) as [Et|Ep].
  { eapply wp_handle_publish_case; [done|done|]. unfold handle_publish.
    rewrite (proj2 (Z.eqb_neq _ _)) by auto. apply wp_ret, Hplain;
      [unfold other_code|unfold other_client]; by rewrite Et. }
  unfold handle_mqtt_command. apply wp_bind, wp_get_client. rewrite Hin. apply wp_bind.
  rewrite (proj2 (Z.eqb_neq (type m) MQTT_TYPE_PUBLISH)),
    (proj2 (Z.eqb_neq (type m) MQTT_TYPE_CONNECT)),
    (proj2 (Z.eqb_neq (type m) MQTT_TYPE_SUBSCRIBE)) by done.
  destruct (Z.eqb_spec (type m) MQTT_TYPE_PINGREQ) as [Et|Eq].
  - assert (Eo : other_code m = 0) by (unfold other_code; by rewrite Et).
    assert (Ec : other_client m = enqueue (raw_packet [208; 0])).
    { unfold other_client. by rewrite Et. }
    apply wp_bind. eapply wp_ack_msg; [reflexivity|lia| |].
    + intros s' Hq. apply wp_ret, wp_bind, wp_on_client, wp_ret. split; [done|split].
      * eapply others_same_trans; [by eapply others_same_queued|apply others_same_with_client].
      * rewrite Ec. transitivity (ss_clients (close_packet n s') !!! n); [done|].
        unfold close_packet.
        rewrite with_client_lookup, decide_True by done. erewrite queued_lookup by done.
        by rewrite decide_True.
    + intros f [_ Hna]. done.
  - destruct (Z.eqb_spec (type m) MQTT_TYPE_UNSUBSCRIBE) as [Et|Eu];
      [|destruct (Z.eqb_spec (type m) MQTT_TYPE_DISCONNECT) as [Et|Ed]];
      apply wp_ret, wp_bind, wp_on_client, wp_ret, Hplain; unfold other_code, other_client;
      rewrite ?Et; try done; by rewrite !(proj2 (Z.eqb_neq _ _)).
Qed.
End build.
