(* ===== verification/ReaderSafe.v ===== *)
(** * Reading is safe, whatever arrives

    The invariant of the reader's part of a client between two calls of
    [loop_read], and that every call keeps it, whatever the bytes, ends and
    errors on the socket. *)

From S2P Require Import Prelude.
From S2P Require Import Mqtt.
From S2P Require Import Parser.
From S2P Require Import ParserFacts.
From S2P Require Import Substree.
From S2P Require Import UtHash.
From S2P Require Import Broker.
From S2P Require Import Handler.
From S2P Require Import EventIO.
From S2P Require Import BrokerInv.
From S2P Require Import InputFacts.
From S2P Require Import ParserTyped.
From S2P Require Import HandlerFacts.
From S2P Require Import HandlerSafe.

Section build.
Context {bd : Build} {bd_ok : BuildOk bd}.

(** ** The invariant *)

Definition no_payload (c : client) : Prop :=
  in_payload c = None /\ in_to_process c = 0 /\ in_cur c = 0.

(** The digits read so far: [remaining_count] is minus their number.  A
    message of type 0 has its command byte read again, so that the multiplier
    means nothing. *)
Record counting (m : mqtt_message) (c : client) : Prop := {
  counting_count : -4 <= remaining_count c <= 0;
  counting_length : 0 <= m_length m < 128 ^ (- remaining_count c);
  counting_mult : type m = 0 \/ 1 <= remaining_mult c <= 128 ^ (- remaining_count c);
  counting_payload : no_payload c }.

(** The payload, of which [in_cur] bytes have been read. *)
Record filling (m : mqtt_message) (c : client) : Prop := {
  filling_count : 1 <= remaining_count c <= 4;
  filling_cur : 0 <= in_cur c;
  filling_left : 0 <= in_to_process c;
  filling_sum : m_length m = in_cur c + in_to_process c;
  filling_length : m_length m < 128 ^ 4;
  filling_block : block (in_payload c) (m_length m) }.

Definition reader_ok (c : client) : Prop :=
  match in_packet c with
  | None => remaining_count c = 0 /\ no_payload c
  | Some m => header_only m /\ (counting m c \/ filling m c)
  end.

Lemma reader_ok_fields c c' :
  in_packet c' = in_packet c -> remaining_count c' = remaining_count c ->
  remaining_mult c' = remaining_mult c -> in_payload c' = in_payload c ->
  in_to_process c' = in_to_process c -> in_cur c' = in_cur c -> reader_ok c -> reader_ok c'.
Proof.
  intros H1 H2 H3 H4 H5 H6 Hok. unfold reader_ok in *. rewrite H1.
  destruct (in_packet c) as [m|].
  - destruct Hok as [Hm [[]|[]]]; (split; [done|]); [left|right]; split; unfold no_payload in *;
      rewrite ?H2, ?H3, ?H4, ?H5, ?H6; done.
  - unfold no_payload in *. by rewrite H2, H4, H5, H6.
Qed.

Lemma reader_ok_ext c c' : reader_of c' = reader_of c -> reader_ok c -> reader_ok c'.
Proof. unfold reader_of. intros [= _ H1 _ H2 H3 H4 H5 H6]. by apply reader_ok_fields. Qed.

Lemma reader_ok_client0 : reader_ok client0.
Proof. unfold reader_ok, no_payload. cbn. by split_and!. Qed.

Lemma reader_ok_clean c : reader_ok (clean_context c).
Proof. unfold reader_ok, no_payload, clean_context, free_mqtt_msg. cbn. by split_and!. Qed.

(** What may arrive: bytes. *)
Definition scripts_ok (o : os) : Prop := forall fd, Forall (fun x => bytes (rx_bytes x)) (os_rx o !!! fd).

Lemma scripts_insert (o : os) q fd :
  scripts_ok o -> Forall (fun x => bytes (rx_bytes x)) q ->
  scripts_ok (o <| os_rx := <[fd := q]> (os_rx o) |>).
Proof.
  intros Ho Hq k. cbn. destruct (decide (k = fd)) as [->|Hne].
  - by rewrite lookup_total_insert_eq.
  - rewrite lookup_total_insert_ne by done. apply Ho.
Qed.

(** One [recv] of a script: at most [k] bytes, at least one, or none. *)
Lemma recv_script_any k q r q' :
  (0 < k)%nat -> Forall (fun x => bytes (rx_bytes x)) q -> recv_script k q = (r, q') ->
  Forall (fun x => bytes (rx_bytes x)) q' /\ (length q' <= length q)%nat /\
  match r with
  | inl [] | inr _ => True
  | inl l => bytes l /\ (length l <= k)%nat /\ (length l = k \/ (length q' < length q)%nat)
  end.
Proof.
  intros Hk Hq. destruct q as [|x q]; cbn [recv_script]; [by intros [= <- <-]|].
  apply Forall_cons in Hq as [Hx Hq]. destruct x as [b l| |e]; [|by intros [= <- <-]; split_and!; [constructor|..]
    |intros [= <- <-]; split_and!; [done|cbn; lia|done]].
  destruct k as [|k]; [lia|]. cbn [take drop rx_bytes] in *. intros [= <- <-].
  apply Forall_cons in Hx as [Hb Hl]. pose proof (length_take l k) as Hlen.
  assert (Ht : bytes (b :: take k l)) by (constructor; [done|by apply Forall_take]).
  destruct (drop k l) as [|b' l'] eqn:Ed.
  - split_and!; [done|cbn; lia|done|cbn; lia|right; cbn; lia].
  - assert (length (drop k l) <> 0)%nat as Hd by by rewrite Ed. rewrite length_drop in Hd.
    split_and!; [|done|done|cbn; lia|left; cbn; lia].
    constructor; [|done]. cbn [rx_bytes]. rewrite <- Ed. by apply Forall_drop.
Qed.

(** ** Running the reader *)

Section reading.
Context (n : nat) (fd : Z) (w0 : world).
Hypothesis Hsock : forall k, 0 <= sock (ss_clients (w_broker w0) !!! k) < max_fd.
Hypothesis Hbase : base_ok (base_sock (w_ep w0)).

(** The client is [c], [q] is left to be received on its socket, and of the
    rest of the world [w0] nothing has changed that matters here. *)
Record at_client (c : client) (q : list rx) (w : world) : Prop := {
  ac_client : ss_clients (w_broker w) !!! n = c;
  ac_sock : 0 <= sock c < max_fd;
  ac_others k : k <> n ->
    reader_of (ss_clients (w_broker w) !!! k) = reader_of (ss_clients (w_broker w0) !!! k);
  ac_locked : ss_locked (w_broker w) = false;
  ac_memory : memory_available (ss_alloc (w_broker w));
  ac_script : os_rx (w_os w) !!! fd = q;
  ac_scripts : scripts_ok (w_os w);
  ac_ep : w_ep w = w_ep w0;
  ac_accept : os_accept (w_os w) = os_accept (w_os w0);
  ac_out : os_tx (w_os w) = os_tx (w_os w0) /\ os_trace (w_os w) = os_trace (w_os w0) }.

Lemma wp_client_now c q (Q : client -> world -> Prop) E w :
  at_client c q w -> Q c w -> wp (client_now n) Q E w.
Proof using.
  intros [] HQ. unfold client_now, in_broker. apply wp_zoom, wp_get_client. cbn.
  rewrite ac_client0. by destruct w.
Qed.

Lemma wp_set_client f c q (Q : unit -> world -> Prop) E w :
  at_client c q w -> sock (f c) = sock c -> (forall w', at_client (f c) q w' -> Q tt w') ->
  wp (set_client n f) Q E w.
Proof using.
  intros [] Hf HQ. unfold set_client, in_broker. apply wp_zoom, wp_on_client, HQ.
  split; cbn; try done.
  - by rewrite lookup_total_insert_eq, ac_client0.
  - by rewrite Hf.
  - intros k Hk. rewrite lookup_total_insert_ne by done. by apply ac_others0.
Qed.

Lemma wp_recv k c q (Q : option (list Z) -> world -> Prop) E w :
  at_client c q w -> 0 < k ->
  (forall r q' w', at_client c q' w' -> (length q' <= length q)%nat ->
     match r with
     | Some ((_ :: _) as l) => bytes l /\ Z.of_nat (length l) <= k /\
         (Z.of_nat (length l) = k \/ (length q' < length q)%nat)
     | _ => True
     end -> Q r w') ->
  wp (recv fd k) Q E w.
Proof using.
  intros [] Hk HQ. unfold recv, in_os. apply wp_zoom. unfold wp.
  destruct (recv_script (Z.to_nat k) (os_rx (w_os w) !!! fd)) as [r q'] eqn:Er.
  pose proof Er as Hr. apply recv_script_any in Hr as (Hq' & Hlen & Hr); [|lia|apply ac_scripts0].
  rewrite ac_script0 in *.
  assert (Hat : forall o', os_rx o' = <[fd := q']> (os_rx (w_os w)) ->
    os_accept o' = os_accept (w_os w) -> os_tx o' = os_tx (w_os w) ->
    os_trace o' = os_trace (w_os w) -> at_client c q' (w <| w_os := o' |>)).
  { intros o' Hrx Hac Htx Htr.
    split; cbn; try done; [by rewrite Hrx, lookup_total_insert_eq| |congruence|by rewrite Htx, Htr].
    intros k'. rewrite Hrx. apply (scripts_insert (w_os w) q' fd ac_scripts0 Hq'). }
  destruct r as [[|b l]|e]; cbn.
  - eapply HQ; [by apply Hat|done|done].
  - destruct Hr as (Hb & Hl & Hs). eapply HQ; [by apply Hat|done|].
    split_and!; [done|lia|destruct Hs; [left; lia|by right]].
  - eapply HQ; [by apply Hat|done|done].
Qed.

Lemma wp_recv_failed r (Q : Z -> world -> Prop) E w :
  (forall z, Q z w) -> wp (recv_failed r) Q E w.
Proof using. intros HQ. unfold recv_failed, errno. destruct r; [apply HQ|]. apply wp_bind, wp_gets, wp_ret, HQ. Qed.

Lemma wp_alloc_message c q (Q : mqtt_message -> world -> Prop) E w :
  at_client c q w -> (forall w', at_client c q w' -> Q message0 w') ->
  wp (in_broker (with_alloc mqtt_message_init)) Q E w.
Proof using.
  intros [] HQ. unfold in_broker, with_alloc, mqtt_message_init. apply wp_zoom, wp_zoom, wp_bind.
  apply wp_malloc_unchecked; [|intros Hf; by rewrite ac_memory0 in Hf by lia].
  apply wp_ret, HQ. split; cbn; try done. by apply memory_available_next; [|lia].
Qed.

Lemma wp_alloc_payload c q (Q : option loc -> world -> Prop) E w :
  at_client c q w -> (forall l w', at_client c q w' -> Q (Some l) w') ->
  wp (in_broker (with_alloc malloc)) Q E w.
Proof using.
  intros [] HQ. unfold in_broker, with_alloc. apply wp_zoom, wp_zoom. unfold wp, malloc.
  rewrite ac_memory0 by lia. apply HQ. split; cbn; try done. by apply memory_available_next; [|lia].
Qed.

(** Run the next step of the reader. *)
Ltac read_step :=
  lazymatch goal with
  | |- wp (bind _ _) _ _ _ => apply wp_bind
  | |- wp (ret _) _ _ _ => apply wp_ret
  | |- wp (client_now _) _ _ _ => eapply wp_client_now; [eassumption|]
  | H : at_client _ _ ?w |- wp (set_client _ _) _ _ ?w =>
      eapply wp_set_client; [exact H|reflexivity|]; clear w H; intros ?w ?Hw
  | |- wp (recv_failed _) _ _ _ => apply wp_recv_failed; intros ?z
  | |- wp (the_packet _) _ _ _ => unfold the_packet
  end; cbv beta.

Definition counted (m : mqtt_message) (c : client) : Prop :=
  counting m c /\ 1 <= remaining_mult c <= 128 ^ (- remaining_count c).

Lemma power_pos k : 0 <= k -> 1 <= 128 ^ k.
Proof using. intros Hk. pose proof (Z.pow_pos_nonneg 128 k). lia. Qed.

Definition reads_on (Q : Z + Z -> world -> Prop) : Prop :=
  forall z c q w, at_client c q w -> (0 < z -> reader_ok c) -> Q (inl z) w.

Lemma wp_read_command rlen c q (Q : Z + Z -> world -> Prop) w :
  at_client c q w -> reader_ok c -> reads_on Q ->
  (forall r c' m q' w', at_client c' q' w' -> in_packet c' = Some m -> header_only m ->
     counted m c' \/ filling m c' -> Q (inr r) w') ->
  wp (read_command n fd rlen) Q overread w.
Proof using.
  intros Hw Hok Hl Hr. unfold read_command.
  assert (Hstart : forall m c q w, at_client c q w -> in_packet c = Some m -> header_only m ->
    counting m c \/ filling m c ->
    wp (let* c := client_now n in
        let* m := the_packet c in
        if type m =? 0 then
          let* r := recv fd 1 in
          match r with
          | Some [byte] =>
              set_client n (fun c => c <| in_packet := Some (mqtt_parser_command m byte) |>
                                       <| remaining_mult := 1 |>) ;;;
              ret (inr 1)
          | _ => let* rc := recv_failed r in ret (inl rc)
          end
        else ret (inr rlen)) Q overread w).
  { clear c q w Hw Hok. intros m c q w Hw Hp Hm Hc. repeat read_step. rewrite Hp. repeat read_step.
    destruct (Z.eqb_spec (type m) 0) as [Hty|Hty]; cycle 1.
    { read_step. eapply Hr; [exact Hw|exact Hp|exact Hm|]. destruct Hc as [Hc|]; [left|by right].
      split; [done|]. by destruct Hc as [_ _ [] _]. }
    read_step. eapply wp_recv; [exact Hw|lia|]. clear w Hw. intros r q' w Hw _ Hrx.
    assert (Hfail : forall r, wp (let* rc := recv_failed r in ret (inl rc)) Q overread w).
    { intros r'. repeat read_step. eapply Hl; [exact Hw|]. intros _. unfold reader_ok. by rewrite Hp. }
    destruct r as [[|byte [|]]|]; try apply Hfail. clear Hfail. repeat read_step.
    eapply Hr; [exact Hw|reflexivity|exact Hm|]. clear - Hc. destruct Hc as [[]|[]].
    - left. pose proof (power_pos (- remaining_count c)). split; [|cbn; lia].
      split; [done|done|right; cbn; lia|done].
    - right. by split. }
  read_step. eapply wp_client_now; [exact Hw|]. apply wp_bind.
  unfold reader_ok in Hok. destruct (in_packet c) as [m|] eqn:Ep.
  - destruct Hok as [Hm Hc]. apply wp_ret. by eapply Hstart.
  - destruct Hok as (Hcount & Hpay). apply wp_bind. eapply wp_alloc_message; [exact Hw|].
    clear w Hw. intros w Hw. read_step. eapply Hstart; [exact Hw|reflexivity|done|left].
    split; cbn; [lia| |by left|done]. rewrite Hcount. by split.
Qed.

(** The digits have been read. *)
Record digits_done (m : mqtt_message) (c : client) : Prop := {
  done_count : -4 <= remaining_count c <= -1;
  done_length : 0 <= m_length m < 128 ^ 4;
  done_payload : no_payload c }.

Lemma one_more_digit k d mult len :
  0 <= k <= 3 -> 0 <= len < 128 ^ k -> 0 <= d < 128 -> 1 <= mult <= 128 ^ k ->
  u32 (len + d * mult) = len + d * mult /\ u32 (mult * 128) = mult * 128 /\
  0 <= len + d * mult < 128 ^ (k + 1) /\ 1 <= mult * 128 <= 128 ^ (k + 1) /\ 128 ^ (k + 1) <= 128 ^ 4.
Proof using.
  intros Hk Hl Hd Hm. assert (E : 128 ^ (k + 1) = 128 * 128 ^ k).
  { rewrite Z.pow_add_r by lia. change (128 ^ 1) with 128. lia. }
  assert (H4 : 128 ^ (k + 1) <= 128 ^ 4) by (apply Z.pow_le_mono_r; lia).
  change (128 ^ 4) with 268435456 in *. rewrite E in *. generalize dependent (128 ^ k). intros p **.
  assert (0 <= d * mult <= 127 * p) by nia. rewrite !u32_small by lia. lia.
Qed.

Lemma wp_read_digits fuel c m q (Q : Z + Z -> world -> Prop) w :
  at_client c q w -> in_packet c = Some m -> header_only m -> counted m c ->
  5 + remaining_count c <= Z.of_nat fuel -> reads_on Q ->
  (forall r c' m' q' w', at_client c' q' w' -> in_packet c' = Some m' -> header_only m' ->
     digits_done m' c' -> Q (inr r) w') ->
  wp (read_digits n fd fuel) Q overread w.
Proof using.
  intros Hw Hp Hm Hc Hf Hl Hr. revert c m q w Hw Hp Hm Hc Hf.
  induction fuel as [|fuel IH]; intros c m q w Hw Hp Hm Hc Hf.
  { destruct Hc as [[] _]. lia. }
  cbn [read_digits]. read_step. eapply wp_recv; [exact Hw|lia|]. clear w Hw. intros r q' w Hw _ Hrx.
  assert (Hfail : forall r, wp (let* rc := recv_failed r in ret (inl rc)) Q overread w).
  { intros r'. repeat read_step. eapply Hl; [exact Hw|]. intros _. unfold reader_ok. rewrite Hp.
    split; [done|]. left. apply Hc. }
  destruct r as [[|byte [|]]|]; try apply Hfail. clear Hfail. do 4 read_step. cbn.
  destruct Hc as [[Hcount Hlen _ Hpay] Hmult].
  assert (Hs8 : s8 (remaining_count c - 1) = remaining_count c - 1).
  { apply signed_small; [lia|]. change (2 ^ (8 - 1)) with 128. lia. }
  rewrite Hs8. destruct (Z.ltb_spec (remaining_count c - 1) (-4)).
  { read_step. eapply Hl; [exact Hw|lia]. }
  do 2 read_step. cbn. rewrite Hp. repeat read_step. cbn.
  set (k := - remaining_count c). pose proof (land_127_range byte) as Hd.
  destruct (one_more_digit k (Z.land byte 127) (remaining_mult c) (m_length m))
    as (E1 & E2 & Hlen' & Hmult' & H4); [lia|done|done|done|].
  assert (Ek : - (remaining_count c - 1) = k + 1) by lia.
  case_match.
  - read_step. eapply Hr; [exact Hw|reflexivity|exact Hm|]. split; cbn; [lia| |done]. rewrite E1. lia.
  - eapply IH; [exact Hw|reflexivity|exact Hm| |cbn; lia].
    split; [split|]; cbn; rewrite ?Hs8, ?Ek, ?E1, ?E2; [lia|lia|by right|done|done].
Qed.

Lemma wp_read_length rlen c m q (Q : Z + Z -> world -> Prop) w :
  at_client c q w -> in_packet c = Some m -> header_only m -> counted m c \/ filling m c ->
  reads_on Q ->
  (forall r c' m' q' w', at_client c' q' w' -> in_packet c' = Some m' -> header_only m' ->
     filling m' c' -> Q (inr r) w') ->
  wp (read_length n fd rlen) Q overread w.
Proof using.
  intros Hw Hp Hm Hc Hl Hr. unfold read_length. do 2 read_step.
  destruct Hc as [Hc|Hc]; cycle 1.
  { rewrite (proj2 (Z.leb_gt _ _)) by (destruct Hc; lia). read_step. by eapply Hr. }
  rewrite (proj2 (Z.leb_le _ _)) by (destruct Hc as [[] _]; lia). read_step.
  eapply (wp_read_digits digits_fuel c m); [done|done|done|done| | |].
  { destruct Hc as [[] _]. unfold digits_fuel. lia. }
  { intros z c' q' w' Hw' Hz. read_step. by eapply Hl. }
  clear w Hw c q Hp m Hm Hc. intros r c m q w Hw Hp Hm [Hcount Hlen (Hp1 & Hp2 & Hp3)].
  assert (Hs8 : s8 (remaining_count c * -1) = - remaining_count c).
  { unfold s8. rewrite signed_small; [lia|lia|]. change (2 ^ (8 - 1)) with 128. lia. }
  do 6 read_step. cbn. rewrite Hp. read_step.
  destruct (Z.ltb_spec 0 (m_length m)) as [Hpos|Hzero]; cycle 1.
  { read_step. eapply Hr; [exact Hw|exact Hp|exact Hm|].
    split; cbn; rewrite ?Hs8, ?Hp1, ?Hp2, ?Hp3; cbn; lia. }
  read_step. eapply wp_alloc_payload; [exact Hw|]. clear w Hw. intros l w Hw. repeat read_step.
  eapply Hr; [exact Hw|exact Hp|exact Hm|].
  split; cbn; rewrite ?Hs8, ?Hp3, ?length_replicate; try lia. split; [lia|].
  apply Forall_replicate. unfold is_byte. lia.
Qed.

Lemma filling_small m c : filling m c -> u32 (in_cur c) = in_cur c /\ m_length m < 2 ^ 32.
Proof using.
  intros []. change (128 ^ 4) with 268435456 in *. change (2 ^ 32) with 4294967296.
  rewrite u32_small; lia.
Qed.

(** A piece of the payload goes where it belongs. *)
Lemma store_piece m c l :
  filling m c -> bytes l -> (0 < length l)%nat -> Z.of_nat (length l) <= in_to_process c ->
  exists p, store_payload (in_payload c) (in_cur c) l = Ok p /\ block p (m_length m) /\
    u32 (in_to_process c - Z.of_nat (length l)) = in_to_process c - Z.of_nat (length l) /\
    u32 (in_cur c + Z.of_nat (length l)) = in_cur c + Z.of_nat (length l).
Proof using.
  intros [Hcount Hcur Hleft Hsum Hlen Hb] Hl H0 Hle. change (128 ^ 4) with 268435456 in *.
  unfold store_payload. destruct (in_payload c) as [mem|]; cbn [block] in Hb; [|lia].
  destruct Hb as [Hmem Hbytes]. rewrite (proj2 (Z.ltb_ge _ _)) by lia.
  eexists. split; [reflexivity|]. rewrite !u32_small by lia. split_and!; [|done|done].
  cbn [block]. split.
  - rewrite !length_app, length_take, length_drop. lia.
  - unfold bytes. rewrite !Forall_app. split_and!; [by apply Forall_take|done|by apply Forall_drop].
Qed.

Lemma wp_read_payload fuel rlen c m q (Q : Z + Z -> world -> Prop) w :
  at_client c q w -> in_packet c = Some m -> header_only m -> filling m c ->
  (length q + 1 < fuel)%nat \/ (in_to_process c = 0 /\ (0 < fuel)%nat) ->
  reads_on Q ->
  (forall r c' q' w', at_client c' q' w' -> in_packet c' = Some m -> filling m c' ->
     in_to_process c' = 0 -> Q (inr r) w') ->
  wp (read_payload n fd fuel rlen) Q overread w.
Proof using.
  intros Hw Hp Hm Hc Hf Hl Hr. revert rlen c q w Hw Hp Hc Hf.
  induction fuel as [|fuel IH]; intros rlen c q w Hw Hp Hc Hf; [lia|].
  cbn [read_payload]. do 2 read_step.
  destruct (Z.ltb_spec 0 (in_to_process c)) as [Hpos|Hzero]; cycle 1.
  { read_step. eapply Hr; [exact Hw|exact Hp|exact Hc|]. destruct Hc. lia. }
  read_step. eapply wp_recv; [exact Hw|lia|]. clear w Hw. intros r q' w Hw Hq Hrx.
  assert (Hfail : forall r, wp (let* rc := recv_failed r in ret (inl rc)) Q overread w).
  { intros r'. repeat read_step. eapply Hl; [exact Hw|]. intros _. unfold reader_ok. rewrite Hp.
    split; [done|by right]. }
  destruct r as [[|b l0]|]; try apply Hfail. clear Hfail. destruct Hrx as (Hlb & Hle & Hend).
  set (l := b :: l0) in *. assert (Hlpos : (0 < length l)%nat) by (cbn; lia).
  clearbody l. clear b l0.
  destruct (store_piece m c l Hc Hlb Hlpos Hle) as (p & Hst & Hblock & E1 & E2).
  apply wp_bind. eapply wp_lift; [exact Hst|]. do 2 read_step.
  eapply IH; [exact Hw|exact Hp| |].
  - destruct Hc. split; cbn; rewrite ?E1, ?E2; try lia; done.
  - cbn. rewrite E1. destruct Hf as [Hf|Hf]; [|lia]. destruct Hend as [Hend|Hend]; [right|left]; lia.
Qed.

(** *** The parser and the command *)

Lemma parser_keeps_memory data len s rc s' :
  memory_available (ps_alloc s) -> mqtt_parser_execute data len s = Ok (rc, s') ->
  memory_available (ps_alloc s').
Proof using.
  revert s rc s'. assert (Hp : preserves (fun s => memory_available (ps_alloc s)) (mqtt_parser_execute data len));
    [|intros s rc s' Hs; by apply Hp].
  unfold mqtt_parser_execute. generalize parser_fuel. intros fuel.
  induction fuel as [|fuel IH]; [by intros s a s' _|]. cbn [parser_loop].
  apply preserves_bind; [|intros [|]; [apply preserves_ret|done]].
  unfold parser_step. apply preserves_bind; [apply preserves_gets|]. intros st.
  assert (Hmod : forall f, (forall s, ps_alloc (f s) = ps_alloc s) ->
    preserves (fun s => memory_available (ps_alloc s)) (modify f)).
  { intros f Hf. apply preserves_modify. intros s. by rewrite Hf. }
  assert (Hmal : preserves (fun s => memory_available (ps_alloc s))
    (zoom ps_alloc (fun a s => s <| ps_alloc := a |>) malloc_unchecked)).
  { intros s a s' Hs. unfold zoom, malloc_unchecked, malloc, bind. rewrite Hs by lia.
    intros [= _ <-]. by apply memory_available_next; [|cbn; lia]. }
  destruct st; cbn [parser_case];
    unfold parse_initial, parse_default, parse_protocol_name, parse_protocol_version, parse_flags,
      parse_keep_alive, parse_client_identifier, parse_will_topic, parse_will_message,
      parse_username, parse_password, parse_publish_topic_name, parse_publish_message_id,
      parse_subscribe, parse_connack, parse_publish_message, parse_subscribe_topic_name,
      parse_variable_header, parse_topic_qos, optional_field, read_field, need, read_u16, READ_STRING,
      READ_MESSAGE, available, data_at, advance, set_state, set_error, set_message, break, return_rc;
    repeat first [preserves_rule | assumption | by apply Hmod].
Qed.

Lemma wp_run_parser c m q (Q : mqtt_parser_rc * Z -> world -> Prop) w :
  at_client c q w -> in_packet c = Some m -> header_only m -> block (in_payload c) (m_length m) ->
  m_length m < 2 ^ 32 -> p_state (in_parser c) = MQTT_PARSER_STATE_INITIAL ->
  (forall rc nread p m' w', final_rc rc ->
     (rc = MQTT_PARSER_RC_DONE ->
        typed (in_payload c) (m_length m) m' /\ message_complete (m_length m) m') ->
     at_client (c <| in_parser := p |> <| in_packet := Some m' |>) q w' -> Q (rc, nread) w') ->
  wp (run_parser n 0) Q overread w.
Proof using.
  intros Hw Hp Hm Hb Hl Hst HQ. unfold run_parser. do 4 read_step. rewrite Hp. read_step.
  apply wp_bind, wp_gets. apply wp_bind. pose proof Hw as [].
  set (ps := {| ps_parser := in_parser c; ps_message := m; ps_nread := 0; ps_alloc := _ |}).
  pose proof (parser_run_typed (in_payload c) (m_length m) ps Hb Hl Hst eq_refl Hm) as Hty.
  pose proof (parser_keeps_memory (in_payload c) (m_length m) ps) as Hmem.
  unfold wp in Hty. unfold wp at 1. unfold lift.
  destruct (mqtt_parser_execute (in_payload c) (m_length m) ps) as [[rc ps']|f|]; [|
    destruct Hty as [_ [->|[_ Hn]]]; [done|by destruct Hn]|done].
  destruct Hty as (Ht & Hrc & _ & Hdone). specialize (Hmem rc ps' ac_memory0 eq_refl).
  cbv beta iota. apply wp_bind. unfold in_broker. apply wp_zoom, wp_modify. cbv beta.
  set (w1 := w <| w_broker := _ |>). assert (Hw1 : at_client c q w1) by by split.
  clearbody w1. clear w Hw ac_client0 ac_sock0 ac_others0 ac_locked0 ac_memory0 ac_script0 ac_scripts0
    ac_ep0 ac_accept0 ac_out0 ps Hmem.
  repeat read_step. eapply HQ; [exact Hrc| |exact Hw]. auto.
Qed.

Lemma reader_sock c c' : reader_of c' = reader_of c -> sock c' = sock c.
Proof using. by intros [= -> _]. Qed.

Lemma at_client_open c q w : at_client c q w -> open_broker (w_broker w).
Proof using Hsock.
  intros []. split; [done|done|]. intros k. destruct (decide (k = n)) as [->|Hk].
  - by rewrite ac_client0.
  - by rewrite (reader_sock _ _ (ac_others0 k Hk)).
Qed.

(** The command of a parsed message *)
Lemma wp_command c m data len q (Q : Z -> world -> Prop) w :
  at_client c q w -> in_packet c = Some m -> parsed data len m ->
  (forall rc c' w', reader_of c' = reader_of (c <| in_packet := None |>) -> at_client c' q w' -> Q rc w') ->
  wp (in_broker (handle_mqtt_command (base_sock (w_ep w)) n)) Q overread w.
Proof using Hsock Hbase.
  intros Hw Hp Hm HQ. pose proof Hw as []. rewrite ac_ep0. unfold in_broker. apply wp_zoom.
  eapply wp_conseq; [eapply (wp_handle data len m Hm n);
    [done|by eapply at_client_open|by rewrite ac_client0]| |done].
  intros rc s' (s1 & [Hl Ha Hr] & ->).
  assert (Hc1 : reader_of ((ss_clients s1 !!! n) <| in_packet := None |>) =
    reader_of (c <| in_packet := None |>)).
  { specialize (Hr n). rewrite ac_client0 in Hr. unfold reader_of in *. cbn. congruence. }
  eapply HQ; [exact Hc1|]. split; cbn; try done.
  - by rewrite lookup_total_insert_eq.
  - apply reader_sock in Hc1. cbn in Hc1. by rewrite Hc1.
  - intros k Hk. rewrite lookup_total_insert_ne by done. by rewrite Hr, ac_others0.
  - congruence.
  - by eapply alloc_le_available.
Qed.

Lemma wp_process_packet rlen c m q (Q : Z -> world -> Prop) w :
  at_client c q w -> in_packet c = Some m -> header_only m -> filling m c -> in_to_process c = 0 ->
  (forall z c' w', at_client c' q w' -> (0 < z -> reader_ok c') -> Q z w') ->
  wp (process_packet n rlen) Q overread w.
Proof using Hsock Hbase.
  intros Hw Hp Hm Hc H0 HQ. destruct (filling_small m c Hc) as [_ Hsmall].
  unfold process_packet. do 2 read_step. unfold parse_fuel. cbn [parse_loop]. do 2 read_step.
  eapply wp_run_parser; [exact Hw|exact Hp|exact Hm|apply Hc|done|reflexivity|].
  clear w Hw. intros rc nread p m' w Hrc Hdone Hw. cbv beta iota zeta.
  destruct Hrc as [->|[->| ->]]; [repeat read_step; by eapply HQ..|].
  destruct (Hdone eq_refl) as [Ht Hcomp]. read_step. apply wp_bind, wp_gets. read_step.
  eapply wp_command; [exact Hw|reflexivity| |].
  { split; [apply Hc| |exact Ht|exact Hcomp]. destruct Hc. change (128 ^ 4) with 268435456 in *. lia. }
  clear w Hw. intros rc c' w Hr Hw. destruct (rc =? 0); [|read_step; by eapply HQ].
  repeat read_step. eapply HQ; [exact Hw|]. intros _. unfold reader_of in Hr. injection Hr as _ E1 _ E2 _ _ E5 E6.
  unfold reader_ok, no_payload. cbn in *. rewrite E1, E2, E5, E6. by split_and!.
Qed.

(** One call of [loop_read] *)
Lemma wp_loop_read events c q (Q : Z -> world -> Prop) w :
  at_client c q w -> reader_ok c ->
  (forall z c' q' w', at_client c' q' w' -> (0 < z -> reader_ok c') -> Q z w') ->
  wp (loop_read n fd events) Q overread w.
Proof using Hsock Hbase.
  intros Hw Hok HQ. unfold loop_read.
  case_match; [read_step; by eapply HQ|]. case_match; [read_step; by eapply HQ|].
  case_match; [read_step; by eapply HQ|].
  assert (Hon : forall k : Z -> M world Z, reads_on (fun a s' =>
    wp (match a with inl rc => ret rc | inr r => k r end) Q overread s')).
  { intros k z c' q' w' Hw' Hz. read_step. by eapply HQ. }
  unfold andthen at 1. read_step. eapply wp_read_command; [exact Hw|exact Hok|apply Hon|].
  clear w Hw c q Hok. intros r c m q w Hw Hp Hm Hc.
  unfold andthen at 1. read_step. eapply wp_read_length; [exact Hw|exact Hp|exact Hm|exact Hc|apply Hon|].
  clear w Hw c q m Hp Hm Hc r. intros r c m q w Hw Hp Hm Hc.
  unfold payload_fuel. apply wp_bind, wp_gets. destruct Hw as []. pose proof ac_script0 as Hq.
  assert (Hw : at_client c q w) by by split. rewrite Hq. unfold andthen. read_step.
  eapply wp_read_payload; [exact Hw|exact Hp|exact Hm|exact Hc|left; lia|apply Hon|].
  clear - Hsock Hbase HQ Hm. intros r c q w Hw Hp Hc H0.
  eapply wp_process_packet; [exact Hw|exact Hp|exact Hm|exact Hc|exact H0|].
  intros z c' w' Hw' Hz. by eapply HQ.
Qed.
End reading.
End build.
