(* ===== verification/OutputSpec.v ===== *)
(** * Output: the theorems

    Sending the queue of a client: safety for every behaviour of [send], order
    and completeness while the socket takes something, and what becomes of the
    packet when it blocks. *)

From S2P Require Import Prelude.
From S2P Require Import Mqtt.
From S2P Require Import Substree.
From S2P Require Import UtHash.
From S2P Require Import Broker.
From S2P Require Import Handler.
From S2P Require Import EventIO.
From S2P Require Import BrokerInv.
From S2P Require Import OutputFacts.

Section build.
Context {bd : Build} {bd_ok : BuildOk bd}.

(** ** Safety for any behaviour of the network *)

Definition to_send (c : client) : nat :=
  length (sending_packet c) + match sending_cur_packet c with Some _ => 1 | None => 0 end.

Lemma take_packet_cur c :
  client_ok c -> (0 < to_send c)%nat ->
  exists p, sending_cur_packet (take_packet c) = Some p /\ packet_ok p /\
    Forall packet_ok (sending_packet (take_packet c)) /\
    (S (length (sending_packet (take_packet c))) = to_send c)%nat.
Proof.
  intros (_ & Hq & Hcur & _) Hn. unfold take_packet, to_send in *.
  destruct (sending_cur_packet c) as [p|] eqn:Ec.
  - exists p. destruct (sending_packet c) as [|p' q] eqn:Eq; cbn; rewrite ?Ec, ?Eq; cbn;
      split_and!; try done; try lia; by constructor.
  - destruct (sending_packet c) as [|p q] eqn:Eq; [cbn in Hn; lia|].
    apply Forall_cons in Hq as [Hp Hq]. exists p. cbn. split_and!; [done|done|done|lia].
Qed.

(** One packet, whatever [send] answers: it is used up. *)
Lemma send_one_any n w c q e tr :
  client_ok c -> (0 < to_send c)%nat ->
  exists c' q' e' tr', send_one n (out_ n w c q e tr) = Ok (false, out_ n w c' q' e' tr') /\
    id c' = id c /\ Forall packet_ok (sending_packet c') /\ sending_cur_packet c' = None /\
    (S (to_send c') = to_send c)%nat /\ num_sending_pack c' = num_sending_pack c - 1 /\
    reader_of c' = reader_of c /\ sends_on (sock c) q tr q' tr'.
Proof.
  intros Hok Hn. destruct (take_packet_cur c Hok Hn) as (p & Hp & (Hl & Hw & Hlt) & Hq & Hlen).
  destruct (send_loop_any n w (S (S (length q))) (take_packet c) p q e tr)
    as (p' & q' & e' & tr' & (Hb & Hl' & Hu) & Hon & Hrun); [done|done|done|lia|lia|].
  assert (Hsock : sock (take_packet c) = sock c).
  { unfold take_packet. by destruct (sending_packet c), (sending_cur_packet c). }
  rewrite Hsock in Hon. set (c1 := (take_packet c) <| sending_cur_packet := Some p' |>).
  exists (sent_one c1), q', e', tr'. split.
  { eapply send_one_out; [exact Hrun|reflexivity|lia]. }
  unfold c1, sent_one, to_send in *. cbn. split_and!; [|done|done|cbn in *; lia| | |done];
    unfold take_packet; by destruct (sending_packet c), (sending_cur_packet c).
Qed.

Lemma send_many_any n w k c q e tr :
  client_ok c -> Z.of_nat k <= num_sending_pack c ->
  exists c' q' e' tr', send_many n k (out_ n w c q e tr) = Ok (tt, out_ n w c' q' e' tr') /\
    client_ok c' /\ num_sending_pack c' = num_sending_pack c - Z.of_nat k /\
    reader_of c' = reader_of c /\ sends_on (sock c) q tr q' tr'.
Proof.
  revert c q e tr. induction k as [|k IH]; intros c q e tr Hok Hk.
  { exists c, q, e, tr. split_and!; [done|done|lia|done|apply sends_on_none]. }
  pose proof Hok as (Hid & Hfa & Hcur & Hnum).
  assert (Hn : (Z.of_nat (to_send c) >= num_sending_pack c)).
  { unfold to_send. destruct (sending_cur_packet c); lia. }
  destruct (send_one_any n w c q e tr Hok) as (c1 & q1 & e1 & tr1 & Hrun & Hid1 & Hq1 & Hc1 & Hn1 & Hnum1 & Hr1 & Hon1);
    [lia|].
  assert (Hok1 : client_ok c1).
  { unfold client_ok, to_send in *. rewrite Hid1, Hc1 in *. split_and!; [done|done|done|lia|lia]. }
  destruct (IH c1 q1 e1 tr1 Hok1) as (c' & q' & e' & tr' & Hrun' & Hok' & Hnum' & Hr' & Hon'); [lia|].
  assert (Hsock : sock c1 = sock c) by by injection Hr1. rewrite Hsock in Hon'.
  exists c', q', e', tr'. split_and!; [|done|lia|congruence|by eapply sends_on_trans].
  cbn [send_many]. by rewrite (bind_ok _ _ _ _ _ Hrun).
Qed.

Lemma send_client_eq n w :
  send_client n w =
  (if num_sending_pack (ss_clients (w_broker w) !!! n) <? 1 then ret tt
   else send_many n (Z.to_nat (num_sending_pack (ss_clients (w_broker w) !!! n)))) w.
Proof.
  unfold send_client. erewrite bind_ok; [reflexivity|]. by destruct w as [[] ? ?].
Qed.

Lemma send_many_start n w k :
  (0 < k)%nat ->
  send_many n k w =
  send_many n k (out_ n w (ss_clients (w_broker w) !!! n) (os_tx (w_os w)) (os_errno (w_os w))
    (os_trace (w_os w))).
Proof.
  intros Hk. destruct k as [|k]; [lia|]. cbn [send_many]. unfold bind at 1 2. unfold send_one.
  rewrite (bind_ok _ _ _ _ _ (set_out _ _ _ _ _ _ _)). erewrite bind_ok; [reflexivity|].
  by destruct w as [[] ? []].
Qed.

(** What sending leaves alone *)
Record sends_only (w w' : world) : Prop := {
  sends_alloc : ss_alloc (w_broker w') = ss_alloc (w_broker w);
  sends_locked : ss_locked (w_broker w') = ss_locked (w_broker w);
  sends_ep : w_ep w' = w_ep w;
  sends_rx : os_rx (w_os w') = os_rx (w_os w);
  sends_accept : os_accept (w_os w') = os_accept (w_os w);
  sends_readers k : reader_of (ss_clients (w_broker w') !!! k) = reader_of (ss_clients (w_broker w) !!! k) }.

Lemma send_client_run n w :
  broker_ok (w_broker w) ->
  exists w', send_client n w = Ok (tt, w') /\ broker_ok (w_broker w') /\ sends_only w w' /\
    num_sending_pack (ss_clients (w_broker w') !!! n) = 0 /\
    (forall k, k <> n -> ss_clients (w_broker w') !!! k = ss_clients (w_broker w) !!! k) /\
    sends_on (sock (ss_clients (w_broker w) !!! n)) (os_tx (w_os w)) (os_trace (w_os w))
      (os_tx (w_os w')) (os_trace (w_os w')).
Proof.
  intros Hok. set (c := ss_clients (w_broker w) !!! n).
  pose proof (Hok n) as Hc. fold c in Hc. pose proof Hc as (_ & _ & _ & Hnum).
  destruct (Z.lt_ge_cases (num_sending_pack c) 1) as [Hlt|Hge].
  { exists w. split_and!; [|done|done|fold c; lia|done|apply sends_on_none].
    rewrite send_client_eq. fold c. by rewrite (proj2 (Z.ltb_lt _ _)). }
  rewrite send_client_eq. fold c. rewrite (proj2 (Z.ltb_ge _ _)) by done.
  rewrite send_many_start by lia. fold c.
  destruct (send_many_any n w (Z.to_nat (num_sending_pack c)) c (os_tx (w_os w)) (os_errno (w_os w))
    (os_trace (w_os w)) Hc) as (c' & q' & e' & tr' & Hrun & Hok' & Hn' & Hr' & Hon); [lia|].
  eexists. split; [exact Hrun|]. cbn. split_and!.
  - intros k. cbn. destruct (decide (k = n)) as [->|Hk].
    + by rewrite lookup_total_insert_eq.
    + by rewrite lookup_total_insert_ne.
  - split; cbn; [done..|]. intros k. destruct (decide (k = n)) as [->|Hk].
    + by rewrite lookup_total_insert_eq.
    + by rewrite lookup_total_insert_ne.
  - rewrite lookup_total_insert_eq. lia.
  - intros k Hk. by rewrite lookup_total_insert_ne.
  - exact Hon.
Qed.

Lemma send_client_any n w :
  broker_ok (w_broker w) ->
  exists w', send_client n w = Ok (tt, w') /\ broker_ok (w_broker w') /\ w_ep w' = w_ep w /\
    num_sending_pack (ss_clients (w_broker w') !!! n) = 0 /\
    forall k, k <> n -> ss_clients (w_broker w') !!! k = ss_clients (w_broker w) !!! k.
Proof.
  intros Hok. destruct (send_client_run n w Hok) as (w' & Hrun & Hok' & Hs & Hn & Ho & _).
  exists w'. destruct Hs. by split_and!.
Qed.

(** C9: sending is safe whatever the network does: with every client
    consistent, [send_client] returns after finitely many calls of [send],
    without a NULL dereference, with every client consistent, the count of the
    client down to 0, and nothing but it changed; in particular the branch that
    removes the client on an error is never taken. *)
Theorem send_client_safe n w :
  broker_ok (w_broker w) ->
  exists w', send_client n w = Ok (tt, w') /\ broker_ok (w_broker w') /\ w_ep w' = w_ep w /\
    num_sending_pack (ss_clients (w_broker w') !!! n) = 0 /\
    forall k, k <> n -> ss_clients (w_broker w') !!! k = ss_clients (w_broker w) !!! k.
Proof. apply send_client_any. Qed.

(** ** A network that never blocks *)

Definition takes_only (q : list tx) : Prop :=
  Forall (fun x => match x with Takes _ => True | TxError _ => False end) q.

(** The bytes a trace has handed to a socket. *)
Definition sent_bytes (fd : Z) (tr : list syscall) : list Z :=
  flat_map (fun s => match s with Sent fd' l => if fd' =? fd then l else [] | _ => [] end) tr.

Lemma sent_bytes_app fd t1 t2 : sent_bytes fd (t1 ++ t2) = sent_bytes fd t1 ++ sent_bytes fd t2.
Proof. apply flat_map_app. Qed.

Lemma sent_bytes_one fd l : sent_bytes fd [Sent fd l] = l.
Proof. cbn. by rewrite Z.eqb_refl, app_nil_r. Qed.

Lemma only_to_other fd fd' tr : only_to fd tr -> fd' <> fd -> sent_bytes fd' tr = [].
Proof.
  intros Ht Hne. induction Ht as [|s tr [l ->] _ IH]; [done|]. cbn.
  by rewrite (proj2 (Z.eqb_neq _ _)).
Qed.

#[local] Hint Resolve only_to_one : mumq.

Lemma send_loop_takes n w fuel c p q e tr :
  sending_cur_packet c = Some p -> packet_ok p -> takes_only q -> (S (length q) < fuel)%nat ->
  exists p' q' tr', used_up p p' /\ takes_only q' /\ only_to (sock c) tr' /\
    sent_bytes (sock c) tr' = drop (Z.to_nat (wcur p)) (send_buf p) /\
    send_loop n fuel (out_ n w c q e tr) =
    Ok (false, out_ n w (c <| sending_cur_packet := Some p' |>) q' e (tr ++ tr')).
Proof.
  revert c p q tr. induction fuel as [|fuel IH]; intros c p q tr Hp (Hl & Hw & Hlt) Hq Hf; [lia|].
  destruct (Z.lt_ge_cases (wcur p) (wlen p)) as [Hmore|Hdone]; cycle 1.
  { exists p, q, []. rewrite app_nil_r, drop_ge by lia.
    rewrite (send_finished n w fuel c p) by done. split_and!; try done; [by constructor|].
    do 3 f_equal. destruct c; cbn in *; by subst. }
  set (l := drop (Z.to_nat (wcur p)) (send_buf p)).
  assert (Hlen : zlen l = wlen p - wcur p) by (unfold l; rewrite length_drop; lia).
  change (2 ^ 32) with 4294967296 in *.
  assert (Hstep : exists k q', (0 < k <= length l)%nat /\ takes_only q' /\
    send (sock c) l (out_ n w c q e tr) =
      Ok (Z.of_nat k, out_ n w c q' e (tr ++ [Sent (sock c) (take k l)])) /\
    ((S (length q') < fuel)%nat \/ (k = length l /\ (0 < fuel)%nat))).
  { destruct q as [|[k|e0] q]; cbn [length] in Hf.
    - exists (length l), []. split_and!; [lia|lia|done| |right; lia].
      rewrite send_end. by rewrite take_ge.
    - apply Forall_cons in Hq as [_ Hq]. exists (Nat.min (S k) (length l)), q.
      split_and!; [lia|lia|done|apply send_takes|left; lia].
    - by apply Forall_cons in Hq as [[] _]. }
  destruct Hstep as (k & q' & Hk & Hq' & Hs & Hnext).
  rewrite (send_round n w fuel c p q e tr (Z.of_nat k) q' e _ Hp Hmore
    ltac:(rewrite u32_small; lia) Hs).
  rewrite (u32_small (Z.of_nat k)), u32_small by lia.
  set (p1 := p <| wcur := wcur p + Z.of_nat k |>).
  assert (Hp1 : packet_ok p1) by (unfold packet_ok, p1; cbn; lia).
  assert (Hdrop : drop (Z.to_nat (wcur p1)) (send_buf p1) = drop k l).
  { unfold l, p1. cbn. rewrite drop_drop. f_equal. lia. }
  destruct Hnext as [Hf'|[Hend Hf']].
  - destruct (IH (c <| sending_cur_packet := Some p1 |>) p1 q' (tr ++ [Sent (sock c) (take k l)]))
      as (p' & q2 & tr2 & (Hb & Hl' & Hu) & Hq2 & Ht2 & Hsent & Hrun); [done|done|done|done|].
    exists p', q2, ([Sent (sock c) (take k l)] ++ tr2).
    split; [split_and!; [exact Hb|exact Hl'|exact Hu]|]. split; [exact Hq2|].
    split; [apply Forall_app; split; [apply only_to_one|exact Ht2]|].
    split; [|rewrite app_assoc; exact Hrun].
    rewrite sent_bytes_app, sent_bytes_one. change (sock (_ <| _ := _ |>)) with (sock c) in Hsent.
    etrans; [|apply (take_drop k)]. f_equal. by rewrite <- Hdrop.
  - destruct fuel as [|fuel]; [lia|]. exists p1, q', [Sent (sock c) (take k l)].
    assert (Hend1 : wlen p1 <= wcur p1) by (unfold p1; cbn; lia).
    split; [by split_and!|]. split; [done|]. split; [apply only_to_one|].
    split; [rewrite sent_bytes_one, take_ge; [done|lia]|].
    by apply (send_finished n w fuel _ p1).
Qed.

Lemma send_one_takes n w c p ps q e tr :
  sending_cur_packet c = None -> sending_packet c = p :: ps -> packet_ok p -> wcur p = 0 ->
  takes_only q ->
  exists c' q' tr', takes_only q' /\ only_to (sock c) tr' /\ sent_bytes (sock c) tr' = send_buf p /\
    send_one n (out_ n w c q e tr) = Ok (false, out_ n w c' q' e (tr ++ tr')) /\
    sending_cur_packet c' = None /\ sending_packet c' = ps /\ sock c' = sock c /\
    num_sending_pack c' = num_sending_pack c - 1.
Proof.
  intros Hcur Hps Hp Hw Hq. set (c1 := take_packet c).
  assert (Hc1 : c1 = c <| sending_cur_packet := Some p |> <| sending_packet := ps |>
    <| num_sending_pack := num_sending_pack c - 1 |>).
  { unfold c1, take_packet. by rewrite Hps, Hcur. }
  assert (Hc1p : sending_cur_packet c1 = Some p) by (by rewrite Hc1).
  destruct (send_loop_takes n w (S (S (length q))) c1 p q e tr Hc1p Hp Hq)
    as (p' & q' & tr' & (Hb & Hl' & Hu) & Hq' & Ht' & Hsent & Hrun); [lia|].
  exists (sent_one (c1 <| sending_cur_packet := Some p' |>)), q', tr'.
  assert (Hsock : sock c1 = sock c) by (by rewrite Hc1).
  rewrite Hsock in Ht'. rewrite Hsock, Hw in Hsent. split_and!; [done|done|done| |done| | |].
  - eapply send_one_out; [exact Hrun|reflexivity|lia].
  - change (sending_packet c1 = ps). by rewrite Hc1.
  - exact Hsock.
  - change (num_sending_pack c1 = num_sending_pack c - 1). by rewrite Hc1.
Qed.

Lemma send_many_takes n w ps c q e tr :
  sending_cur_packet c = None -> sending_packet c = ps ->
  Forall (fun p => packet_ok p /\ wcur p = 0) ps -> takes_only q ->
  exists c' q' tr', takes_only q' /\ only_to (sock c) tr' /\
    sent_bytes (sock c) tr' = concat (send_buf <$> ps) /\
    send_many n (length ps) (out_ n w c q e tr) = Ok (tt, out_ n w c' q' e (tr ++ tr')) /\
    sending_cur_packet c' = None /\ sending_packet c' = [] /\
    num_sending_pack c' = num_sending_pack c - zlen ps.
Proof.
  revert c q tr. induction ps as [|p ps IH]; intros c q tr Hcur Hps Hall Hq.
  { exists c, q, []. rewrite app_nil_r. split_and!; [done|by constructor|done|done|done|done|cbn; lia]. }
  apply Forall_cons in Hall as [[Hp Hw] Hall].
  destruct (send_one_takes n w c p ps q e tr) as
    (c1 & q1 & tr1 & Hq1 & Ht1 & Hs1 & Hrun1 & Hcur1 & Hps1 & Hsock & Hn1); [done..|].
  destruct (IH c1 q1 (tr ++ tr1)) as (c' & q' & tr' & Hq' & Ht' & Hs' & Hrun' & ? & ? & Hn'); [done..|].
  exists c', q', (tr1 ++ tr'). rewrite sent_bytes_app, Hs1. rewrite Hsock in Hs', Ht'. rewrite Hs'.
  split_and!; [done|by apply Forall_app|done| |done|done|cbn [length]; lia].
  cbn [length send_many]. rewrite (bind_ok _ _ _ _ _ Hrun1), app_assoc. exact Hrun'.
Qed.

(** A client whose queue is all to be sent, from its beginning *)
Definition drained (c : client) : Prop :=
  sending_packet c = [] /\ sending_cur_packet c = None /\ num_sending_pack c = 0.

Record outgoing (c : client) : Prop := {
  outgoing_cur : sending_cur_packet c = None;
  outgoing_num : num_sending_pack c = zlen (sending_packet c);
  outgoing_all : Forall (fun p => packet_ok p /\ wcur p = 0) (sending_packet c) }.

Lemma send_client_takes n w :
  outgoing (ss_clients (w_broker w) !!! n) -> takes_only (os_tx (w_os w)) ->
  let c := ss_clients (w_broker w) !!! n in
  exists w' tr', send_client n w = Ok (tt, w') /\
    os_trace (w_os w') = os_trace (w_os w) ++ tr' /\ only_to (sock c) tr' /\
    sent_bytes (sock c) tr' = concat (send_buf <$> sending_packet c) /\
    drained (ss_clients (w_broker w') !!! n) /\ takes_only (os_tx (w_os w')) /\
    w_ep w' = w_ep w /\
    forall k, k <> n -> ss_clients (w_broker w') !!! k = ss_clients (w_broker w) !!! k.
Proof.
  intros [Hcur Hnum Hall] Hq c. fold c in Hcur, Hnum, Hall. rewrite send_client_eq. fold c.
  rewrite Hnum. destruct (sending_packet c) as [|p ps] eqn:Eps.
  { exists w, []. rewrite app_nil_r. fold c. by split_and!; [| |constructor|..]. }
  rewrite (proj2 (Z.ltb_ge _ _)) by (cbn [length]; lia). rewrite Nat2Z.id.
  rewrite send_many_start by (cbn; lia). fold c.
  destruct (send_many_takes n w (p :: ps) c (os_tx (w_os w)) (os_errno (w_os w)) (os_trace (w_os w))
    Hcur Eps Hall Hq) as (c' & q' & tr' & Hq' & Ht & Hs & Hrun & Hc1 & Hc2 & Hc3).
  eexists _, tr'. split; [exact Hrun|]. cbn [w_broker w_os w_ep].
  split_and!; [done|done|done| |done|done|].
  - unfold drained. cbn. rewrite lookup_total_insert_eq. split_and!; [done|done|lia].
  - intros k Hk. cbn. by rewrite lookup_total_insert_ne.
Qed.

(** C10: as long as [send] takes something each time, however little, one pass
    hands the socket every byte of every queued packet, in the order of the
    queue, and leaves the queue empty. *)
Theorem send_client_fifo n w c :
  ss_clients (w_broker w) !!! n = c ->
  sending_cur_packet c = None -> num_sending_pack c = zlen (sending_packet c) ->
  Forall (fun p => packet_ok p /\ wcur p = 0) (sending_packet c) -> takes_only (os_tx (w_os w)) ->
  exists w' tr', send_client n w = Ok (tt, w') /\
    os_trace (w_os w') = os_trace (w_os w) ++ tr' /\
    sent_bytes (sock c) tr' = concat (send_buf <$> sending_packet c) /\
    sending_packet (ss_clients (w_broker w') !!! n) = [] /\
    sending_cur_packet (ss_clients (w_broker w') !!! n) = None /\
    num_sending_pack (ss_clients (w_broker w') !!! n) = 0.
Proof.
  intros <- Hcur Hnum Hall Hq.
  destruct (send_client_takes n w (Build_outgoing _ Hcur Hnum Hall) Hq)
    as (w' & tr' & Hrun & Htr & _ & Hs & (? & ? & ?) & _).
  by exists w', tr'.
Qed.

(** ** A socket that would block *)

Lemma send_one_start n w :
  send_one n w =
  send_one n (out_ n w (ss_clients (w_broker w) !!! n) (os_tx (w_os w)) (os_errno (w_os w))
    (os_trace (w_os w))).
Proof.
  unfold send_one. rewrite (bind_ok _ _ _ _ _ (set_out _ _ _ _ _ _ _)).
  erewrite bind_ok; [reflexivity|]. by destruct w as [[] ? []].
Qed.

Section blocked.
Context (n : nat) (w : world) (c : client) (p : packet) (ps : list packet) (e0 : errno_t).
Hypothesis Hc : ss_clients (w_broker w) !!! n = c.
Hypothesis Hcur : sending_cur_packet c = None.
Hypothesis Hps : sending_packet c = p :: ps.
Hypothesis Hp : packet_ok p /\ wcur p = 0 /\ 0 < wlen p.

Let c1 := c <| sending_cur_packet := Some p |> <| sending_packet := ps |>
            <| num_sending_pack := num_sending_pack c - 1 |>.

Lemma take_c1 : take_packet c = c1.
Proof using Hcur Hps. unfold take_packet. by rewrite Hps, Hcur. Qed.

(** When the socket would block (or fails) before the first byte, the
    packet is not kept for later but dropped: nothing is sent, and the
    client goes on with the next packet. *)
Theorem send_blocked_drops q :
  os_tx (w_os w) = TxError e0 :: q ->
  exists w', send_one n w = Ok (false, w') /\ os_trace (w_os w') = os_trace (w_os w) /\
    sending_packet (ss_clients (w_broker w') !!! n) = ps /\
    sending_cur_packet (ss_clients (w_broker w') !!! n) = None.
Proof using All.
  intros Hq. destruct Hp as ((Hl & Hw & Hlt) & Hw0 & Hpos).
  change (2 ^ 32) with 4294967296 in *.
  rewrite send_one_start, Hc, Hq. set (p1 := p <| wcur := 4294967295 |>).
  set (c2 := c1 <| sending_cur_packet := Some p1 |>).
  exists (out_ n w (sent_one c2) q e0 (os_trace (w_os w))). split.
  - eapply (send_one_out n w c _ _ _ c2 p1); [|done|cbn; change (2 ^ 32) with 4294967296 in *; lia].
    rewrite take_c1. erewrite (send_round n w _ c1 p); [|done|lia| |apply send_error]; [|done].
    rewrite Hw0. apply (send_finished n w _ _ p1); [done|].
    cbn. change (2 ^ 32) with 4294967296 in *. lia.
  - cbn. rewrite lookup_total_insert_eq. by split_and!.
Qed.

(** When it would block after some bytes, the last byte sent is sent
    again: the receiver gets the packet with a byte doubled. *)
Theorem send_blocked_repeats k :
  Z.of_nat (S k) < wlen p -> os_tx (w_os w) = [Takes k; TxError e0] ->
  exists w', send_one n w = Ok (false, w') /\
    os_trace (w_os w') = os_trace (w_os w) ++
      [Sent (sock c) (take (S k) (send_buf p)); Sent (sock c) (drop k (send_buf p))].
Proof using All.
  intros Hk Hq. destruct Hp as ((Hl & Hw & Hlt) & Hw0 & Hpos).
  change (2 ^ 32) with 4294967296 in *.
  rewrite send_one_start, Hc, Hq.
  assert (Hmin : Nat.min (S k) (length (send_buf p)) = S k) by lia.
  set (p1 := p <| wcur := Z.of_nat (S k) |>). set (p2 := p <| wcur := Z.of_nat k |>).
  set (p3 := p <| wcur := wlen p |>).
  set (tr1 := os_trace (w_os w) ++ [Sent (sock c) (take (S k) (send_buf p))]).
  set (tr2 := tr1 ++ [Sent (sock c) (drop k (send_buf p))]).
  exists (out_ n w (sent_one (c1 <| sending_cur_packet := Some p3 |>)) [] e0 tr2).
  split; [|unfold tr2, tr1; cbn; by rewrite <- app_assoc].
  eapply (send_one_out n w c _ _ _ (c1 <| sending_cur_packet := Some p3 |>) p3); [|done|done].
  rewrite take_c1. change (S (S (length [Takes k; TxError e0]))) with 4%nat.
  assert (Es : forall e, send (sock c1) (drop (Z.to_nat (wcur p)) (send_buf p))
    (out_ n w c1 [Takes k; TxError e0] e (os_trace (w_os w))) =
    Ok (Z.of_nat (S k), out_ n w c1 [TxError e0] e tr1)).
  { intros e. rewrite Hw0. change (drop (Z.to_nat 0) (send_buf p)) with (send_buf p).
    by rewrite send_takes, Hmin. }
  assert (Hsk : u32 (Z.of_nat (S k)) = Z.of_nat (S k)) by (rewrite u32_small; lia).
  assert (Hr0 : 0 < u32 (Z.of_nat (S k))) by lia.
  assert (Hw1 : wcur p < wlen p) by lia.
  rewrite (send_round n w _ c1 p _ _ _ _ _ _ _ eq_refl Hw1 Hr0 (Es _)).
  rewrite Hw0, Hsk. change (0 + Z.of_nat (S k)) with (Z.of_nat (S k)). rewrite Hsk.
  change (p <| wcur := Z.of_nat (S k) |>) with p1.
  erewrite (send_round n w _ _ p1);
    [|reflexivity|exact Hk| |apply send_error]; [|done].
  assert (E2 : u32 (wcur p1 + u32 (-1)) = Z.of_nat k).
  { change (wcur p1) with (Z.of_nat (S k)). change (u32 (-1)) with 4294967295.
    unfold u32, wrap. change (2 ^ 32) with 4294967296.
    rewrite <- (Z.mod_unique _ 4294967296 1 (Z.of_nat k)); lia. }
  rewrite E2.
  change (p1 <| wcur := Z.of_nat k |>) with p2.
  assert (Hlast : zlen (drop k (send_buf p)) = wlen p - Z.of_nat k) by (rewrite length_drop; lia).
  erewrite (send_round n w _ _ p2); [|reflexivity|cbn; lia| |apply send_end]; cycle 1.
  { change (Z.to_nat (wcur p2)) with (Z.to_nat (Z.of_nat k)).
    rewrite Nat2Z.id. change (send_buf p2) with (send_buf p). rewrite Hlast, u32_small; lia. }
  change (Z.to_nat (wcur p2)) with (Z.to_nat (Z.of_nat k)). rewrite Nat2Z.id.
  change (send_buf p2) with (send_buf p). change (wcur p2) with (Z.of_nat k).
  rewrite Hlast, (u32_small (wlen p - _)), u32_small by lia.
  replace (Z.of_nat k + (wlen p - Z.of_nat k)) with (wlen p) by lia.
  by apply (send_finished n w _ _ p3).
Qed.
End blocked.
End build.
