(* ===== verification/LoopSpec.v ===== *)
(** * The event loop: what holds in every round *)

From S2P Require Import Prelude.
From S2P Require Import Mqtt.
From S2P Require Import Parser.
From S2P Require Import Substree.
From S2P Require Import UtHash.
From S2P Require Import Broker.
From S2P Require Import Handler.
From S2P Require Import EventIO.
From S2P Require Import BrokerInv.
From S2P Require Import OutputFacts.
From S2P Require Import OutputSpec.

Section build.
Context {bd : Build} {bd_ok : BuildOk bd}.

(** ** What the commands keep, the reader keeps *)

Section reader.
Context (n : nat) (B : Z -> Prop) (P : broker -> Prop) (HP : closed n B P).

Definition lifted (w : world) : Prop := B (base_sock (w_ep w)) /\ P (w_broker w).

Lemma preserves_in_broker {A} (m : M broker A) : preserves P m -> preserves lifted (in_broker m).
Proof using.
  intros Hm w a w' Hw. unfold in_broker, zoom. destruct (m (w_broker w)) as [[b s]| |] eqn:E; [|done|done].
  intros [= _ <-]. split; [apply Hw|]. eapply Hm; [apply Hw|exact E].
Qed.

Lemma preserves_in_os {A} (m : M os A) : preserves lifted (in_os m).
Proof using. by apply preserves_zoom. Qed.
#[local] Hint Resolve preserves_in_os : mumq.

Lemma preserves_recv fd k : preserves lifted (recv fd k).
Proof using. apply preserves_in_os. Qed.
#[local] Hint Resolve preserves_recv : mumq.

Lemma preserves_recv_failed r : preserves lifted (recv_failed r).
Proof using. unfold recv_failed, errno. preserves_tac. Qed.
#[local] Hint Resolve preserves_recv_failed : mumq.

Lemma preserves_client_now m : preserves lifted (client_now m).
Proof using. apply preserves_in_broker, preserves_gets. Qed.
#[local] Hint Resolve preserves_client_now : mumq.

Lemma preserves_the_packet c : preserves lifted (the_packet c).
Proof using. unfold the_packet. preserves_tac. Qed.
#[local] Hint Resolve preserves_the_packet : mumq.

Lemma preserves_alloc {A} (m : M alloc A) : preserves lifted (in_broker (with_alloc m)).
Proof using HP. by eapply preserves_in_broker, preserves_with_alloc. Qed.
#[local] Hint Resolve preserves_alloc : mumq.

(** The reader writes none of the fields the property speaks of. *)
Ltac plain_field :=
  apply preserves_in_broker; eapply preserves_field; [exact HP|]; intros ?; by split_and!.
Ltac read_tac := repeat first [preserves_rule | assumption | solve [auto with mumq] | plain_field].

Section loop_read.
Context (fd : Z).

Lemma preserves_read_command rlen : preserves lifted (read_command n fd rlen).
Proof using HP. unfold read_command. read_tac. Qed.

Lemma preserves_read_digits fuel : preserves lifted (read_digits n fd fuel).
Proof using HP. induction fuel as [|fuel IH]; [done|]. cbn [read_digits]. read_tac. Qed.
#[local] Hint Resolve preserves_read_digits : mumq.

Lemma preserves_read_length rlen : preserves lifted (read_length n fd rlen).
Proof using HP. unfold read_length. read_tac. Qed.

Lemma preserves_read_payload fuel rlen : preserves lifted (read_payload n fd fuel rlen).
Proof using HP.
  revert rlen. induction fuel as [|fuel IH]; intros rlen; [done|]. cbn [read_payload]. read_tac.
Qed.

Lemma preserves_run_parser nread : preserves lifted (run_parser n nread).
Proof using HP. unfold run_parser. read_tac. by eapply preserves_in_broker, preserves_rest. Qed.
#[local] Hint Resolve preserves_run_parser : mumq.

Lemma preserves_parse_loop fuel nread : preserves lifted (parse_loop n fuel nread).
Proof using HP.
  revert nread. induction fuel as [|fuel IH]; intros nread; [done|]. cbn [parse_loop]. read_tac.
Qed.
#[local] Hint Resolve preserves_parse_loop : mumq.

Lemma preserves_process_packet rlen : preserves lifted (process_packet n rlen).
Proof using HP.
  unfold process_packet. apply preserves_bind; [plain_field|intros ?].
  apply preserves_bind; [apply preserves_parse_loop|intros parsed].
  destruct parsed; [|apply preserves_ret].
  apply (preserves_bind_in _ (fun e => B (base_sock e))); [apply preserves_gets| |].
  { intros w e w' [HB _] [= <- _]. exact HB. }
  intros e HB. read_tac. apply preserves_in_broker. by eapply preserves_handle.
Qed.
#[local] Hint Resolve preserves_read_command preserves_read_length preserves_read_payload
  preserves_process_packet : mumq.

Lemma preserves_loop_read events : preserves lifted (loop_read n fd events).
Proof using HP. unfold loop_read, andthen, payload_fuel. read_tac. Qed.
End loop_read.
End reader.

(** ** The invariant of the clients *)

Definition world_ok (w : world) : Prop := broker_ok (w_broker w).

Lemma world_ok_broker {A} (m : M broker A) : preserves broker_ok m -> preserves world_ok (in_broker m).
Proof.
  intros Hm w a w' Hw Hrun.
  by apply (preserves_in_broker (fun _ => True) broker_ok m Hm w a w' (conj I Hw) Hrun).
Qed.
Lemma world_ok_alloc {A} (m : M alloc A) : preserves world_ok (in_broker (with_alloc m)).
Proof. apply world_ok_broker, (preserves_with_alloc _ _ _ (broker_ok_closed 0)). Qed.
Lemma world_ok_loop_read n fd events : preserves world_ok (loop_read n fd events).
Proof.
  intros w a w' Hw Hrun.
  by apply (preserves_loop_read n _ _ (broker_ok_closed n) fd events w a w' (conj I Hw) Hrun).
Qed.
Lemma world_ok_os {A} (m : M os A) : preserves world_ok (in_os m).
Proof. by apply preserves_zoom. Qed.
Lemma world_ok_trace c : preserves world_ok (trace c).
Proof. apply world_ok_os. Qed.
Lemma world_ok_ep (f : world -> epollop) : preserves world_ok (modify (fun w => w <| w_ep := f w |>)).
Proof. by apply preserves_modify. Qed.
Lemma world_ok_client_of fd : preserves world_ok (client_of fd).
Proof. unfold client_of. preserves_tac. Qed.
#[local] Hint Resolve world_ok_alloc world_ok_loop_read world_ok_client_of world_ok_trace world_ok_os
  world_ok_ep : mumq.

Ltac client_change :=
  apply world_ok_broker, preserves_on_client;
  first [exact clean_context_ok | intros ? Hc; exact Hc].
Ltac loop_tac := repeat first [preserves_rule | assumption | solve [auto with mumq] | client_change].

Lemma preserves_remove_client fd : preserves world_ok (remove_client fd).
Proof. unfold remove_client, disconnect_sock. loop_tac. Qed.
#[local] Hint Resolve preserves_remove_client : mumq.

Lemma preserves_handle_event ev : preserves world_ok (handle_event ev).
Proof. unfold handle_event, accept_connection, accept, add_sock. loop_tac. Qed.

Lemma preserves_send_client n : preserves world_ok (send_client n).
Proof.
  intros w [] w' Hw Hrun. destruct (send_client_any n w Hw) as (w2 & Hrun2 & Hok & _).
  rewrite Hrun in Hrun2. by simplify_eq.
Qed.
#[local] Hint Resolve preserves_send_client : mumq.

Lemma preserves_send_all fuel context : preserves world_ok (send_all fuel context).
Proof.
  revert context. induction fuel as [|fuel IH]; intros [n|]; cbn [send_all]; loop_tac. done.
Qed.
#[local] Hint Resolve preserves_send_all : mumq.

Lemma preserves_loop_rounds waits : preserves world_ok (loop_rounds waits).
Proof.
  induction waits as [|[events|] waits IH]; cbn [loop_rounds]; [loop_tac| |loop_tac].
  apply preserves_bind; [|done]. unfold loop_round.
  apply preserves_bind; [apply preserves_iter, preserves_handle_event|intros _]. loop_tac.
Qed.

(** The event loop keeps every client consistent, in every run that stays
    clear of undefined behaviour, whatever connections, bytes, events and
    errors the system produces, and however much memory there is. *)
Theorem loop_run_ok waits w w' :
  broker_ok (w_broker w) -> loop_run waits w = Ok (tt, w') -> broker_ok (w_broker w').
Proof.
  intros Hw Hrun. revert Hrun. assert (Hp : preserves world_ok (loop_run waits)); [|by apply Hp].
  unfold loop_run. pose proof (preserves_loop_rounds waits). loop_tac.
Qed.

(** ** The pass over the clients *)

Lemma send_all_any l1 l2 w fuel :
  broker_ok (w_broker w) -> represents (contexts_by_ptr (w_ep w)) (l1 ++ l2) ->
  (length l2 <= fuel)%nat ->
  exists w', send_all fuel (first_or l2 None) w = Ok (tt, w') /\
    iter send_client l2 w = Ok (tt, w') /\ broker_ok (w_broker w') /\
    w_ep w' = w_ep w /\
    (forall n, n ∈ l2 -> num_sending_pack (ss_clients (w_broker w') !!! n) = 0) /\
    (forall n, n ∉ l2 -> ss_clients (w_broker w') !!! n = ss_clients (w_broker w) !!! n).
Proof.
  revert l1 w fuel. induction l2 as [|n l2 IH]; intros l1 w fuel Hok Hr Hf.
  { exists w. destruct fuel; cbn; (split_and!; [done|done|done|done| |done]); intros n Hn;
      by apply elem_of_nil in Hn. }
  destruct fuel as [|fuel]; cbn [length] in Hf; [lia|]. cbn [first_or send_all].
  destruct (send_client_any n w Hok) as (w1 & Hrun & Hok1 & Hep & Hn1 & Ho1).
  rewrite (bind_ok _ _ _ _ _ Hrun). erewrite bind_ok by reflexivity. cbv beta.
  rewrite Hep, (represents_next _ _ _ _ Hr).
  destruct (IH (l1 ++ [n]) w1 fuel Hok1) as (w' & Hrun' & Hit & Hok' & Hep' & Hn' & Ho');
    [by rewrite Hep, <- app_assoc|lia|].
  exists w'. assert (Hnd : n ∉ l2).
  { destruct Hr as (Hnd & _). apply NoDup_app in Hnd as (_ & _ & Hnd).
    by apply NoDup_cons in Hnd as [? _]. }
  split_and!; [done|by cbn [iter]; rewrite (bind_ok _ _ _ _ _ Hrun)|done|congruence| |].
  - intros k Hk. apply elem_of_cons in Hk as [->|Hk]; [by rewrite Ho'|by apply Hn'].
  - intros k Hk. rewrite not_elem_of_cons in Hk. destruct Hk as [Hk1 Hk2]. by rewrite Ho', Ho1.
Qed.

End build.
