(* ===== verification/LoopSafe.v ===== *)
(** * The event loop is safe

    Whatever arrives and fails: with memory, a free lock, events the system may
    report, and room for the connections, a run of the loop goes on, keeps every client
    consistent, and has no fault but the read past the payload of a PUBLISH or
    SUBSCRIBE. *)

From S2P Require Import Prelude.
From S2P Require Import Mqtt.
From S2P Require Import Parser.
From S2P Require Import Substree.
From S2P Require Import UtHash.
From S2P Require Import Broker.
From S2P Require Import Handler.
From S2P Require Import EventIO.
From S2P Require Import BrokerInv.
From S2P Require Import OutputFacts.
From S2P Require Import OutputSpec.
From S2P Require Import HandlerSafe.
From S2P Require Import ReaderSafe.
From S2P Require Import LoopSpec.

Section invariant.
Context {bd : Build}.

(** ** The invariant of a loop *)

(** The client at [&g_broker->clients[epoll_op->base_sock + fd]] *)
Definition slot (w : world) (fd : Z) : nat := Z.to_nat (base_sock (w_ep w) + fd).

(** [l] are the clients of its table, in order; [x] is a client that is about
    to be removed, of whose reader nothing is known. *)
Record good_but (x : option nat) (l : list nat) (w : world) : Prop := {
  good_clients : world_ok w;
  good_readers k : x <> Some k -> reader_ok (ss_clients (w_broker w) !!! k);
  good_open : open_broker (w_broker w);
  good_scripts : scripts_ok (w_os w);
  good_base : base_ok (base_sock (w_ep w));
  good_table : represents (contexts_by_ptr (w_ep w)) l;
  good_size : Z.of_nat (length l) <= MAX_FD_PER_LOOP;
  good_span k : k ∈ l -> exists fd, 0 <= fd < max_fd /\ k = slot w fd }.
End invariant.
Abbreviation good := (good_but None).

Section build.
Context {bd : Build} {bd_ok : BuildOk bd}.

(** A connection that [accept] may answer: its descriptor is not in use. *)
Definition accept_fresh (l : list nat) (w : world) : Prop :=
  match os_accept (w_os w) with
  | conn :: _ => 0 < conn < max_fd -> slot w conn ∉ l
  | [] => True
  end.

(** The next connection comes to a table that is full. *)
Definition crowded (l : list nat) (w : world) : bool :=
  match os_accept (w_os w) with
  | conn :: _ => (0 <? conn) && (conn <? max_fd) && (MAX_FD_PER_LOOP <=? Z.of_nat (length l))
  | [] => false
  end.

(** What [epoll_wait] may report: each descriptor once, and only the
    listening socket and those of the clients in the table. *)
Record reportable (l : list nat) (w : world) (events : list (Z * Z)) : Prop := {
  reported_once : NoDup (events.*1);
  reported_known fd : fd ∈ events.*1 -> fd <> l_sock (w_ep w) ->
    0 <= fd < max_fd /\ slot w fd ∈ l;
  reported_accept : l_sock (w_ep w) ∈ events.*1 -> accept_fresh l w }.

Lemma slot_ep w w' fd : base_sock (w_ep w') = base_sock (w_ep w) -> slot w' fd = slot w fd.
Proof. unfold slot. by intros ->. Qed.

Lemma slot_inj w fd fd' :
  base_ok (base_sock (w_ep w)) -> 0 <= fd < max_fd -> 0 <= fd' < max_fd ->
  slot w fd = slot w fd' -> fd = fd'.
Proof. unfold slot, base_ok. lia. Qed.

(** The sockets of mTCP are too few for a table to be full when one more comes. *)
Lemma mtcp_room l w :
  good l w -> accept_fresh l w -> MTCP = true -> crowded l w = false.
Proof using bd_ok.
  intros [] Hnew Hm. unfold accept_fresh, crowded in *. destruct (os_accept (w_os w)) as [|conn q]; [done|].
  destruct (Z.ltb_spec 0 conn), (Z.ltb_spec conn max_fd); try done. apply Z.leb_gt.
  assert (Hsub : slot w conn :: l ⊆+ (fun i => slot w (Z.of_nat i)) <$> seq 0 (Z.to_nat max_fd)).
  { apply NoDup_submseteq.
    - apply NoDup_cons. split; [apply Hnew; lia|]. by destruct good_table0 as (Hnd & _).
    - intros k Hk. assert (Hfd : exists fd, 0 <= fd < max_fd /\ k = slot w fd).
      { apply elem_of_cons in Hk as [->|Hk]; [exists conn; lia|by apply good_span0]. }
      destruct Hfd as (fd & Hfd & ->). apply list_elem_of_fmap. exists (Z.to_nat fd).
      rewrite elem_of_seq, Z2Nat.id by lia. split; [done|lia]. }
  apply submseteq_length in Hsub. rewrite length_fmap, length_seq in Hsub. cbn [length] in Hsub.
  assert (Hmax : max_fd = MAX_FD_PER_LOOP) by (unfold max_fd; by rewrite Hm).
  unfold MAX_FD_PER_LOOP in *. lia.
Qed.

Lemma wp_client_of fd (Q : nat -> world -> Prop) E w :
  base_ok (base_sock (w_ep w)) -> 0 <= fd < max_fd -> Q (slot w fd) w -> wp (client_of fd) Q E w.
Proof.
  intros Hb Hfd HQ. unfold client_of. apply wp_bind, wp_gets. eapply wp_lift; [|done].
  by apply client_index_ok.
Qed.

(** ** Removing a client *)

Lemma good_remove l1 n l2 u w :
  good_but (Some n) (l1 ++ n :: l2) w -> represents u (l1 ++ l2) ->
  forall w', w_broker w' = (w_broker w) <| ss_clients :=
       <[n := clean_context (ss_clients (w_broker w) !!! n)]> (ss_clients (w_broker w)) |> ->
  w_ep w' = (w_ep w) <| contexts_by_ptr := u |> -> os_rx (w_os w') = os_rx (w_os w) ->
  good (l1 ++ l2) w'.
Proof.
  intros [] Hu w' Hb He Hrx. destruct good_open0. unfold world_ok, broker_ok in *.
  assert (Hcl : forall k, ss_clients (w_broker w') !!! k =
    if decide (k = n) then clean_context (ss_clients (w_broker w) !!! n) else ss_clients (w_broker w) !!! k).
  { intros k. rewrite Hb. cbn. case_decide as E; [subst k; by rewrite lookup_total_insert_eq|].
    by rewrite lookup_total_insert_ne. }
  split.
  - intros k. rewrite Hcl. case_decide; [by apply clean_context_ok|done].
  - intros k _. rewrite Hcl. case_decide; [apply reader_ok_clean|apply good_readers0; congruence].
  - split; [by rewrite Hb|by rewrite Hb|]. intros k. rewrite Hcl.
    pose proof max_fd_pos. case_decide; [cbn; lia|done].
  - intros k. rewrite Hrx. apply good_scripts0.
  - by rewrite He.
  - by rewrite He.
  - rewrite !length_app in *. cbn in good_size0. lia.
  - intros k Hk. destruct (good_span0 k) as (fd & Hfd & ->).
    { rewrite elem_of_app, elem_of_cons in *. tauto. }
    exists fd. split; [done|]. symmetry. apply slot_ep. by rewrite He.
Qed.

(** The same scripts and a trace that has grown by [tr] *)
Record os_after (tr : list syscall) (o o' : os) : Prop := {
  oa_rx : os_rx o' = os_rx o;
  oa_tx : os_tx o' = os_tx o;
  oa_trace : os_trace o' = os_trace o ++ tr }.

Lemma wp_remove_run l1 l2 fd (Q : unit -> world -> Prop) E w :
  represents (contexts_by_ptr (w_ep w)) (l1 ++ slot w fd :: l2) ->
  Z.of_nat (length (l1 ++ slot w fd :: l2)) <= MAX_FD_PER_LOOP ->
  base_ok (base_sock (w_ep w)) -> 0 <= fd < max_fd ->
  (forall u w', represents u (l1 ++ l2) ->
     w_broker w' = change_client (slot w fd) clean_context (w_broker w) ->
     w_ep w' = (w_ep w) <| contexts_by_ptr := u |> ->
     os_accept (w_os w') = os_accept (w_os w) ->
     os_after [EpollDel fd; if MTCP then MtcpClose fd else Close fd] (w_os w) (w_os w') -> Q tt w') ->
  wp (remove_client fd) Q E w.
Proof.
  intros Hr Hlen Hb Hfd HQ. unfold remove_client.
  apply wp_bind, wp_client_of; [done|done|]. apply wp_bind, wp_gets.
  destruct (HASH_DEL_run_correct _ _ _ _ Hr) as (u & Hdel & Hu).
  { unfold MAX_FD_PER_LOOP in *. change (2 ^ 32) with 4294967296. lia. }
  apply wp_bind. eapply wp_lift; [exact Hdel|]. apply wp_bind, wp_modify.
  apply wp_bind, wp_zoom, wp_on_client.
  unfold disconnect_sock, trace, in_os. apply wp_bind, wp_zoom, wp_modify, wp_zoom, wp_modify.
  eapply HQ; [exact Hu|done|done|done|]. split; [done|done|]. cbn. by rewrite <- app_assoc.
Qed.

Lemma wp_remove_client l1 l2 fd (Q : unit -> world -> Prop) E w :
  good_but (Some (slot w fd)) (l1 ++ slot w fd :: l2) w -> 0 <= fd < max_fd ->
  (forall w', good (l1 ++ l2) w' -> l_sock (w_ep w') = l_sock (w_ep w) ->
     base_sock (w_ep w') = base_sock (w_ep w) -> os_accept (w_os w') = os_accept (w_os w) -> Q tt w') ->
  wp (remove_client fd) Q E w.
Proof.
  intros Hg Hfd HQ. pose proof Hg as []. apply (wp_remove_run l1 l2); [done|done|done|done|].
  intros u w' Hu Hb He Hac []. apply HQ; [|by rewrite He|by rewrite He|done].
  by eapply (good_remove l1 (slot w fd) l2 u w).
Qed.

(** ** The event of a client *)

Lemma good_at_client l n fd w :
  good l w -> at_client n fd w (ss_clients (w_broker w) !!! n) (os_rx (w_os w) !!! fd) w.
Proof. intros []. destruct good_open0. by split. Qed.

Lemma at_client_good l n fd w c q w' :
  good l w -> at_client n fd w c q w' -> world_ok w' ->
  good_but (Some n) l w' /\ (reader_ok c -> good l w').
Proof.
  intros [] Hw Hok. pose proof Hw as []. destruct good_open0.
  assert (Hreaders : forall k, k <> n -> reader_ok (ss_clients (w_broker w') !!! k)).
  { intros k Hk. eapply reader_ok_ext; [by apply ac_others|by apply good_readers0]. }
  assert (Ho : open_broker (w_broker w')) by (eapply at_client_open; [done|exact Hw]).
  split.
  - split; try done; try congruence; [intros k Hk; apply Hreaders; congruence|..];
      unfold slot; by rewrite ac_ep.
  - intros Hc. split; try done; try congruence; [|unfold slot; by rewrite ac_ep..]. intros k _.
    destruct (decide (k = n)) as [->|Hk]; [by rewrite ac_client|by apply Hreaders].
Qed.

(** [accept] answers the descriptor of client [k]. *)
Definition accepts (w : world) (k : nat) : Prop :=
  exists conn q, os_accept (w_os w) = conn :: q /\ 0 < conn < max_fd /\ k = slot w conn.

(** What the rest of a round needs to stay reportable *)
Record rest_of (l : list nat) (fd : Z) (w : world) (l' : list nat) (w' : world) : Prop := {
  rest_sock : l_sock (w_ep w') = l_sock (w_ep w);
  rest_base : base_sock (w_ep w') = base_sock (w_ep w);
  rest_in k : fd = l_sock (w_ep w) \/ k <> slot w fd -> k ∈ l -> k ∈ l';
  rest_new k : k ∈ l' -> k ∈ l \/ (fd = l_sock (w_ep w) /\ accepts w k);
  rest_accept : fd <> l_sock (w_ep w) -> accept_fresh l w -> accept_fresh l' w' }.

Lemma wp_client_event l fd events w :
  good l w -> fd <> l_sock (w_ep w) -> 0 <= fd < max_fd -> slot w fd ∈ l ->
  wp (handle_event (fd, events)) (fun _ w' => exists l', good l' w' /\ rest_of l fd w l' w') overread w.
Proof.
  intros Hg Hfd Hr Hin. unfold handle_event. apply wp_bind, wp_gets.
  rewrite (proj2 (Z.eqb_neq _ _)) by done. cbn [negb]. pose proof Hg as [].
  apply wp_bind, wp_client_of; [done|done|]. apply wp_bind.
  set (n := slot w fd).
  assert (Hread : wp (loop_read n fd events)
    (fun z w' => exists c q, at_client n fd w c q w' /\ (0 < z -> reader_ok c)) overread w).
  { eapply wp_loop_read; [apply good_open0|done|by apply (good_at_client l)|by apply good_readers0|].
    intros z c q w' Hw Hz. by exists c, q. }
  apply (wp_preserves world_ok) in Hread; [|apply world_ok_loop_read|done].
  eapply wp_conseq; [exact Hread| |done]. clear Hread. intros z w' [(c & q & Hw & Hz) Hok].
  destruct (at_client_good l n fd w c q w' Hg Hw Hok) as [Hbut Hgood]. destruct Hw.
  destruct (Z.leb_spec z 0) as [Hneg|Hpos]; cycle 1.
  { apply wp_ret. exists l. split; [by apply Hgood, Hz|]. split; [by rewrite ac_ep..|done|by left|].
    intros _. unfold accept_fresh, slot. by rewrite ac_accept, ac_ep. }
  assert (Hn : slot w' fd = n) by (apply slot_ep; by rewrite ac_ep).
  apply list_elem_of_split in Hin as (l1 & l2 & ->).
  apply (wp_remove_client l1 l2); [rewrite Hn; exact Hbut|done|]. intros w2 Hg2 Hls Hbs Hac.
  exists (l1 ++ l2). split; [done|]. split.
  - by rewrite Hls, ac_ep.
  - by rewrite Hbs, ac_ep.
  - intros k [Hk|Hk]; [done|]. rewrite !elem_of_app, elem_of_cons. tauto.
  - intros k. rewrite !elem_of_app, elem_of_cons. tauto.
  - intros _. unfold accept_fresh, slot. rewrite Hac, ac_accept, Hbs, ac_ep. case_match; [done|].
    intros Ha Hc Hi. apply (Ha Hc). rewrite elem_of_app, elem_of_cons in *. tauto.
Qed.

(** ** A connection *)

Lemma good_add l n f w u :
  good l w -> represents u (l ++ [n]) -> Z.of_nat (length l) < MAX_FD_PER_LOOP ->
  (exists fd, 0 <= fd < max_fd /\ n = slot w fd) ->
  (forall c, client_ok c -> client_ok (f c)) -> (forall c, reader_ok c -> reader_ok (f c)) ->
  (forall c, 0 <= sock (f c) < max_fd) ->
  forall w', w_broker w' = (w_broker w) <| ss_clients :=
       <[n := f (ss_clients (w_broker w) !!! n)]> (ss_clients (w_broker w)) |> ->
  w_ep w' = (w_ep w) <| contexts_by_ptr := u |> -> os_rx (w_os w') = os_rx (w_os w) ->
  good (l ++ [n]) w'.
Proof.
  intros [] Hu Hl Hn Hf1 Hf2 Hf3 w' Hb He Hrx. destruct good_open0. unfold world_ok, broker_ok in *.
  assert (Hcl : forall k, ss_clients (w_broker w') !!! k =
    if decide (k = n) then f (ss_clients (w_broker w) !!! n) else ss_clients (w_broker w) !!! k).
  { intros k. rewrite Hb. cbn. case_decide as E; [subst k; by rewrite lookup_total_insert_eq|].
    by rewrite lookup_total_insert_ne. }
  split.
  - intros k. rewrite Hcl. case_decide; [by apply Hf1|done].
  - intros k _. rewrite Hcl. case_decide; [by apply Hf2, good_readers0|by apply good_readers0].
  - split; [by rewrite Hb|by rewrite Hb|]. intros k. rewrite Hcl. by case_decide.
  - intros k. rewrite Hrx. apply good_scripts0.
  - by rewrite He.
  - by rewrite He.
  - rewrite length_app. cbn. lia.
  - intros k [Hk|Hk%list_elem_of_singleton]%elem_of_app; [apply good_span0 in Hk|subst k; rename Hn into Hk];
      destruct Hk as (fd & Hfd & ->); exists fd; (split; [done|]); symmetry; apply slot_ep; by rewrite He.
Qed.

(** What becomes of the client whose connection is accepted *)
Definition accepted (conn th : Z) (c : client) : client := c <| sock := conn |> <| epoll_id := th |>.

Lemma wp_listening_run l fd events (Q : unit -> world -> Prop) E w :
  represents (contexts_by_ptr (w_ep w)) l -> base_ok (base_sock (w_ep w)) -> fd = l_sock (w_ep w) ->
  accept_fresh l w -> crowded l w = false ->
  (forall w' tr, w_broker w' = w_broker w -> w_ep w' = w_ep w ->
     (tr = [] \/ exists conn, tr = [Close conn]) -> os_after tr (w_os w) (w_os w') -> Q tt w') ->
  (forall conn q w', os_accept (w_os w) = conn :: q -> 0 < conn < max_fd ->
     slot w conn ∉ l -> Z.of_nat (length l) < MAX_FD_PER_LOOP ->
     w_broker w' = change_client (slot w conn) (accepted conn (th_id (w_ep w))) (w_broker w) ->
     w_ep w' = (w_ep w) <| contexts_by_ptr := HASH_ADD_PTR (slot w conn) (contexts_by_ptr (w_ep w)) |> ->
     os_after [EpollAdd conn] (w_os w) (w_os w') -> Q tt w') ->
  wp (handle_event (fd, events)) Q E w.
Proof.
  intros Hr Hb -> Hac Hroom Hnone Hadd. unfold handle_event. apply wp_bind, wp_gets.
  rewrite Z.eqb_refl. cbn [negb]. apply wp_bind. unfold accept_fresh, crowded in *.
  unfold accept_connection, accept. apply wp_bind, wp_bind, wp_gets.
  destruct (os_accept (w_os w)) as [|conn q] eqn:Hq.
  { apply wp_ret. change (Q tt w). apply (Hnone w []); [done|done|by left|].
    split; [done|done|by rewrite app_nil_r]. }
  apply wp_bind, wp_zoom, wp_modify, wp_ret.
  destruct (Z.leb_spec conn 0).
  { apply wp_ret, wp_ret. eapply (Hnone _ []); [done|done|by left|].
    split; [done|done|by rewrite app_nil_r]. }
  destruct (Z.leb_spec max_fd conn).
  { unfold trace, in_os. apply wp_bind, wp_zoom, wp_modify, wp_ret, wp_ret.
    eapply (Hnone _ [Close conn]); [done|done|right; by exists conn|by split]. }
  pose proof (Hac ltac:(done)) as Hnew. rewrite !(proj2 (Z.ltb_lt _ _)) in Hroom by done. apply Z.leb_gt in Hroom.
  apply wp_ret. rewrite (proj2 (Z.eqb_neq _ _)) by (unfold INVALID_SOCKET; lia). cbn [negb].
  apply wp_bind, wp_client_of; [done|lia|].
  apply wp_bind, wp_zoom, wp_on_client. rewrite (HASH_COUNT_eq _ _ Hr). unfold s32.
  unfold MAX_FD_PER_LOOP in *. rewrite signed_small by (change (2 ^ (32 - 1)) with 2147483648; lia).
  rewrite (proj2 (Z.ltb_lt _ _)) by done.
  unfold add_sock, trace, in_os. apply wp_bind, wp_zoom, wp_modify, wp_modify.
  eapply (Hadd conn q); [done|lia|done|done|done|done|by split].
Qed.

Lemma wp_listening_event l fd events w :
  good l w -> fd = l_sock (w_ep w) -> accept_fresh l w -> crowded l w = false ->
  wp (handle_event (fd, events)) (fun _ w' => exists l', good l' w' /\ rest_of l fd w l' w') overread w.
Proof.
  intros Hg Hfd Hac Hroom. pose proof Hg as []. eapply wp_listening_run; [done|done|done|done|done| |].
  - intros w' tr Hb He _ [Hrx _ _]. exists l. split.
    + destruct good_open0. split; unfold world_ok, slot; rewrite ?Hb, ?He; try done.
      intros k. rewrite Hrx. apply good_scripts0.
    + split; [by rewrite He..|done|by left|]. intros Hne. by destruct Hne.
  - intros conn q w' Hq Hconn Hnew Hsize Hb He [Hrx _ _]. exists (l ++ [slot w conn]). split.
    + eapply (good_add l (slot w conn)); [exact Hg| |exact Hsize|by exists conn; split; [lia|]| | | |exact Hb|exact He|exact Hrx].
      * apply HASH_ADD_run_correct; [done|done|].
        unfold MAX_FD_PER_LOOP in *. change (2 ^ 32) with 4294967296. lia.
      * done.
      * intros c. by apply reader_ok_fields.
      * intros c. cbn. lia.
    + split; [by rewrite He..| | |intros Hne; by destruct Hne].
      * intros k _ Hk. apply elem_of_app. by left.
      * intros k [Hk|Hk%list_elem_of_singleton]%elem_of_app; [by left|right]. split; [done|].
        by exists conn, q.
Qed.

(** ** A round *)

(** An event that brings a connection to a full table.  It is asked about on the
    sockets of the kernel only. *)
Definition overfull (l : list nat) (w : world) (ev : Z * Z) : bool :=
  negb MTCP && (ev.1 =? l_sock (w_ep w)) && crowded l w.

Lemma overfull_room l fd ev w :
  good l w -> accept_fresh l w -> overfull l w (fd, ev) = false -> fd = l_sock (w_ep w) ->
  crowded l w = false.
Proof using bd_ok.
  unfold overfull. intros Hg Hf Ho ->. destruct MTCP eqn:E; [by apply mtcp_room|].
  cbn [fst] in Ho. by rewrite Z.eqb_refl in Ho.
Qed.

Lemma wp_event l fd ev events w :
  good l w -> reportable l w ((fd, ev) :: events) -> overfull l w (fd, ev) = false ->
  wp (handle_event (fd, ev))
    (fun _ w' => exists l', good l' w' /\ reportable l' w' events /\ rest_of l fd w l' w') overread w.
Proof.
  intros Hg [] Hroom. cbn [fst fmap list_fmap] in *. apply NoDup_cons in reported_once0 as [Hnin Hnd].
  assert (Hev : wp (handle_event (fd, ev))
    (fun _ w' => exists l', good l' w' /\ rest_of l fd w l' w') overread w).
  { destruct (decide (fd = l_sock (w_ep w))) as [Heq|Hne].
    - assert (Hac : accept_fresh l w) by (apply reported_accept0; rewrite Heq; by left).
      apply wp_listening_event; [done|done|done|]. by eapply overfull_room.
    - destruct (reported_known0 fd ltac:(by left) Hne). by apply wp_client_event. }
  eapply wp_conseq; [exact Hev| |done]. intros [] w' (l' & Hg' & Hrest). exists l'. split; [done|].
  split; [|done]. destruct Hrest. split; [done| |].
  - intros k Hk Hne. rewrite rest_sock0 in Hne.
    destruct (reported_known0 k ltac:(by right) Hne) as [Hr Hin]. split; [done|].
    rewrite (slot_ep w w' k) by done.
    apply rest_in0; [|done]. destruct (decide (fd = l_sock (w_ep w))) as [Heq|Hfd]; [by left|right].
    intros E. apply Hnin. destruct (reported_known0 fd ltac:(by left) Hfd) as [Hr' _].
    apply slot_inj in E; [by rewrite <- E|apply Hg|done|done].
  - rewrite rest_sock0. intros Hls. apply rest_accept0; [|apply reported_accept0; by right].
    intros ->. done.
Qed.

(** A run over [events] comes to a full table. *)
Fixpoint events_overfull (events : list (Z * Z)) (w : world) : bool :=
  match events with
  | [] => false
  | ev :: events' =>
      overfull (table_of (contexts_by_ptr (w_ep w))) w ev ||
      match handle_event ev w with Ok (_, w') => events_overfull events' w' | _ => false end
  end.

Lemma wp_events l events w :
  good l w -> reportable l w events -> events_overfull events w = false ->
  wp (iter handle_event events) (fun _ w' => exists l', good l' w') overread w.
Proof.
  revert l w. induction events as [|[fd ev] events IH]; intros l w Hg Hr Hroom.
  { apply wp_ret. by exists l. }
  cbn [iter events_overfull] in *. apply orb_false_iff in Hroom as [Hroom Hlater].
  rewrite (table_of_eq _ _ (good_table _ _ _ Hg)) in Hroom. apply wp_bind.
  pose proof (wp_event l fd ev events w Hg Hr Hroom) as Hev. unfold wp in Hev. unfold wp at 1.
  destruct (handle_event (fd, ev) w) as [[[] w']| |]; [|done|done].
  destruct Hev as (l' & Hg' & Hr' & _). by eapply IH.
Qed.

Lemma good_sends l w w' : good l w -> world_ok w' -> sends_only w w' -> good l w'.
Proof.
  intros [] Hok []. destruct good_open0. split; try done; try congruence.
  - intros k _. eapply reader_ok_ext; [by apply sends_readers|by apply good_readers0].
  - split; [by rewrite sends_alloc|by rewrite sends_locked|]. intros k.
    by rewrite (reader_sock _ _ (sends_readers k)).
  - intros fd. rewrite sends_rx. apply good_scripts0.
  - unfold slot. by rewrite sends_ep.
Qed.

Lemma wp_send_all l l1 l2 w fuel :
  good l w -> l = l1 ++ l2 -> (length l2 <= fuel)%nat ->
  wp (send_all fuel (first_or l2 None)) (fun _ w' => good l w') overread w.
Proof.
  revert l1 w fuel. induction l2 as [|n l2 IH]; intros l1 w fuel Hg Hl Hf.
  { destruct fuel; by apply wp_ret. }
  destruct fuel as [|fuel]; cbn [length] in Hf; [lia|]. cbn [first_or send_all].
  destruct (send_client_run n w (good_clients _ _ _ Hg)) as (w1 & Hrun & Hok & Hs & _).
  pose proof (good_sends l w w1 Hg Hok Hs) as Hg1.
  apply wp_bind. eapply wp_ok; [exact Hrun|]. apply wp_bind, wp_gets. subst l.
  rewrite (represents_next _ _ _ _ (good_table _ _ _ Hg1)).
  apply (IH (l1 ++ [n])); [done|by rewrite <- app_assoc|lia].
Qed.

Lemma wp_loop_round l events w :
  good l w -> reportable l w events -> events_overfull events w = false ->
  wp (loop_round events) (fun _ w' => exists l', good l' w') overread w.
Proof.
  intros Hg Hr Hroom. unfold loop_round. apply wp_bind.
  eapply wp_conseq; [by eapply wp_events| |done]. intros [] w' (l' & Hg').
  pose proof (good_table _ _ _ Hg') as Ht. apply wp_bind, wp_gets.
  rewrite (HASH_COUNT_eq _ _ Ht), Nat2Z.id. pose proof Ht as (_ & -> & _).
  eapply wp_conseq; [by apply (wp_send_all l' [] l')| |done].
  intros [] w2 Hg2. by exists l'.
Qed.

(** ** The loop *)

(** Events that the system may report: in each round those that are possible
    in the state the loop has reached. *)
Fixpoint possible (waits : list (option (list (Z * Z)))) (w : world) : Prop :=
  match waits with
  | Some events :: waits' =>
      reportable (table_of (contexts_by_ptr (w_ep w))) w events /\
      (forall w', loop_round events w = Ok (tt, w') -> possible waits' w')
  | _ => True
  end.

(** In the run a connection comes to a full table of the kernel's sockets. *)
Fixpoint run_overfull (waits : list (option (list (Z * Z)))) (w : world) : bool :=
  match waits with
  | Some events :: waits' =>
      events_overfull events w ||
      match loop_round events w with Ok (_, w') => run_overfull waits' w' | _ => false end
  | _ => false
  end.

(** On mTCP there is no such run. *)
Lemma mtcp_never_overfull waits w : MTCP = true -> run_overfull waits w = false.
Proof using.
  intros Hm. assert (Hev : forall events w, events_overfull events w = false).
  { induction events as [|ev events IH]; intros w0; [done|]. cbn [events_overfull].
    unfold overfull. rewrite Hm. cbn [negb andb orb]. by destruct (handle_event ev w0) as [[]| |]. }
  revert w. induction waits as [|[events|] waits IH]; intros w; [done| |done].
  cbn [run_overfull]. rewrite Hev. cbn [orb]. by destruct (loop_round events w) as [[]| |].
Qed.

Lemma wp_loop_rounds waits l w :
  good l w -> possible waits w -> run_overfull waits w = false ->
  wp (loop_rounds waits) (fun _ w' => exists l', good l' w') overread w.
Proof.
  revert l w. induction waits as [|[events|] waits IH]; intros l w Hg Hp Hroom;
    [apply wp_ret; by exists l| |apply wp_ret; by exists l].
  cbn [loop_rounds run_overfull] in *. destruct Hp as [Hr Hp]. apply orb_false_iff in Hroom as [Hroom Hlater].
  apply wp_bind. rewrite (table_of_eq _ _ (good_table _ _ _ Hg)) in Hr.
  pose proof (wp_loop_round l events w Hg Hr Hroom) as Hround.
  unfold wp in Hround. unfold wp at 1. destruct (loop_round events w) as [[[] w']| |]; [|done|done].
  destruct Hround as [l' Hg']. eapply IH; [exact Hg'|by apply Hp|done].
Qed.

(** The same, computed *)
#[export] Instance accept_fresh_dec l w : Decision (accept_fresh l w).
Proof. unfold accept_fresh. destruct (os_accept (w_os w)); apply _. Defined.

Definition reportable_b (l : list nat) (w : world) (events : list (Z * Z)) : bool :=
  bool_decide (NoDup (events.*1)) &&
  forallb (fun fd => (fd =? l_sock (w_ep w)) ||
    ((0 <=? fd) && (fd <? max_fd) && bool_decide (slot w fd ∈ l))) (events.*1) &&
  bool_decide (accept_fresh l w).

Lemma reportable_b_ok l w events : reportable_b l w events = true -> reportable l w events.
Proof.
  unfold reportable_b. rewrite !andb_true_iff, forallb_forall, !bool_decide_eq_true.
  intros [[Hnd Hall] Hac]. split; [done| |done]. intros fd Hin Hne.
  specialize (Hall fd (proj1 (list_elem_of_In _ _) Hin)).
  rewrite orb_true_iff, !andb_true_iff, bool_decide_eq_true in Hall.
  destruct Hall as [E|[[H1 H2] H3]]; [by apply Z.eqb_eq in E|]. split; [|done]. blia.
Qed.

Fixpoint possible_b (waits : list (option (list (Z * Z)))) (w : world) : bool :=
  match waits with
  | Some events :: waits' =>
      reportable_b (table_of (contexts_by_ptr (w_ep w))) w events &&
      match loop_round events w with Ok (_, w') => possible_b waits' w' | _ => true end
  | _ => true
  end.

Lemma possible_b_ok waits w : possible_b waits w = true -> possible waits w.
Proof.
  revert w. induction waits as [|[events|] waits IH]; intros w; [done| |done].
  cbn [possible_b possible]. rewrite andb_true_iff. intros [Hr Hp].
  split; [by apply reportable_b_ok|]. intros w' Hrun. rewrite Hrun in Hp. by apply IH.
Qed.

(** The state in which [loop_run] begins to wait *)
Definition entered (w : world) : world :=
  w <| w_broker := (w_broker w) <| ss_alloc :=
         (ss_alloc (w_broker w)) <| al_next := S (al_next (ss_alloc (w_broker w))) |> |> |>
    <| w_ep := (w_ep w) <| base_sock := base_of (th_id (w_ep w)) |> |>.

(** A loop that has just been started is in such a state. *)
Lemma good_start roots a e o :
  memory_available a -> scripts_ok o -> base_ok (base_sock e) -> contexts_by_ptr e = ut_empty ->
  good [] {| w_broker := broker_init roots a; w_ep := e; w_os := o |}.
Proof.
  intros Ha Ho Hb He. assert (Hc : forall k, (∅ : gmap nat client) !!! k = client0).
  { intros k. by rewrite lookup_total_empty. }
  split.
  - intros k. cbn. rewrite Hc. apply client0_ok.
  - intros k _. cbn. rewrite Hc. apply reader_ok_client0.
  - split; [done|done|]. intros k. cbn. rewrite Hc. cbn. pose proof max_fd_pos. lia.
  - done.
  - done.
  - cbn. rewrite He. apply represents_empty.
  - done.
  - by intros k Hk%elem_of_nil.
Qed.

End build.
