(* ===== verification/Delivery.v ===== *)
(** * From one client to the others: a publication through the event loop

    What the parser, the handler, the search of the tree, the queues and the
    sending pass do together, in one round of [loop_run]. *)

From S2P Require Import Prelude.
From S2P Require Import Topic.
From S2P Require Import Utility.
From S2P Require Import Mqtt.
From S2P Require Import Parser.
From S2P Require Import Serialiser.
From S2P Require Import SerialiserFacts.
From S2P Require Import ParserSpec.
From S2P Require Import Substree.
From S2P Require Import SubstreeFacts.
From S2P Require Import SubAddFacts.
From S2P Require Import UtHash.
From S2P Require Import Broker.
From S2P Require Import Handler.
From S2P Require Import HandlerFacts.
From S2P Require Import HandlerSpec.
From S2P Require Import EventIO.
From S2P Require Import BrokerInv.
From S2P Require Import InputFacts.
From S2P Require Import InputSpec.
From S2P Require Import OutputSpec.
From S2P Require Import LoopSpec.
From S2P Require Import LoopSafe.

Section build.
Context {bd : Build} {bd_ok : BuildOk bd}.

(** What the sending pass uses of a client *)
Definition outbox (c : client) :=
  (sock c, sending_packet c, sending_cur_packet c, num_sending_pack c).

Lemma outgoing_ext c c' : outbox c' = outbox c -> outgoing c -> outgoing c'.
Proof. intros [= _ H2 H3 H4] []. split; by rewrite ?H2, ?H3, ?H4. Qed.

Lemma outbox_enqueue k p c c' :
  outbox c' = outbox c -> outbox (enqueue_times k p c') = outbox (enqueue_times k p c).
Proof.
  intros Hc. induction k as [|k IH]; [done|]. cbn [enqueue_times].
  injection IH as H1 H2 H3 H4. unfold outbox, enqueue. cbn. by rewrite H1, H2, H3, H4.
Qed.

Lemma queue_enqueue k p c :
  sending_packet (enqueue_times k p c) = sending_packet c ++ replicate k p.
Proof.
  induction k as [|k IH]; [by rewrite app_nil_r|]. cbn [enqueue_times].
  change (sending_packet (enqueue p ?c)) with (sending_packet c ++ [p]).
  rewrite IH, <- app_assoc. f_equal. symmetry. apply (replicate_S_end k p).
Qed.

Lemma outgoing_enqueue k p c :
  outgoing c -> packet_ok p -> wcur p = 0 -> outgoing (enqueue_times k p c).
Proof.
  intros Hc Hp Hw. induction k as [|k IH]; [done|]. destruct IH. split; cbn; [done| |].
  - rewrite length_app. cbn. lia.
  - apply Forall_app. split; [done|]. by apply Forall_singleton.
Qed.

(** ** The pass over the clients, when every socket takes something *)

(** The socket of the client [k] in a loop whose part of the table begins at
    [base] *)
Definition fd_of (base : Z) (k : nat) : Z := Z.of_nat k - base.

(** The clients of the table can be sent to, each on its own socket. *)
Definition sendable (w : world) (k : nat) : Prop :=
  outgoing (ss_clients (w_broker w) !!! k) /\
  sock (ss_clients (w_broker w) !!! k) = fd_of (base_sock (w_ep w)) k.

Definition queued_bytes (w : world) (k : nat) : list Z :=
  concat (send_buf <$> sending_packet (ss_clients (w_broker w) !!! k)).

Lemma send_all_takes l1 l2 w fuel :
  represents (contexts_by_ptr (w_ep w)) (l1 ++ l2) -> (length l2 <= fuel)%nat ->
  (forall k, k ∈ l2 -> sendable w k) -> takes_only (os_tx (w_os w)) ->
  exists w' tr, send_all fuel (first_or l2 None) w = Ok (tt, w') /\
    os_trace (w_os w') = os_trace (w_os w) ++ tr /\
    forall k, sent_bytes (fd_of (base_sock (w_ep w)) k) tr =
      if decide (k ∈ l2) then queued_bytes w k else [].
Proof.
  revert l1 w fuel. induction l2 as [|n l2 IH]; intros l1 w fuel Hr Hf Hsend Hq.
  { exists w, []. rewrite app_nil_r. by destruct fuel. }
  destruct fuel as [|fuel]; cbn [length] in Hf; [lia|]. cbn [first_or send_all].
  destruct (Hsend n ltac:(by left)) as [Hout Hsock].
  destruct (send_client_takes n w Hout Hq)
    as (w1 & tr1 & Hrun & Htr & Ht & Hs & _ & Hq1 & Hep & Ho).
  assert (Hnew : n ∉ l2).
  { destruct Hr as (Hnd & _). apply NoDup_app in Hnd as (_ & _ & Hnd).
    by apply NoDup_cons in Hnd as [? _]. }
  rewrite Hsock in Ht, Hs.
  rewrite (bind_ok _ _ _ _ _ Hrun). erewrite bind_ok by reflexivity. cbv beta.
  rewrite Hep, (represents_next _ _ _ _ Hr).
  destruct (IH (l1 ++ [n]) w1 fuel) as (w' & tr2 & Hrun' & Htr' & Hs');
    [by rewrite Hep, <- app_assoc|lia| |done|].
  - intros k Hk. unfold sendable. rewrite Hep, Ho by (by intros ->). apply Hsend. by right.
  - exists w', (tr1 ++ tr2). split; [exact Hrun'|]. split; [by rewrite Htr', Htr, app_assoc|].
    intros k. rewrite Hep in Hs'. rewrite sent_bytes_app, Hs'. unfold queued_bytes.
    destruct (decide (k = n)) as [->|Hk].
    + rewrite Hs, decide_False, decide_True by (done || by left). apply app_nil_r.
    + rewrite (only_to_other (fd_of (base_sock (w_ep w)) n)) by (done || unfold fd_of; lia). rewrite Ho by done. cbn [app].
      apply decide_ext. rewrite elem_of_cons. naive_solver.
Qed.


Lemma publication_ok topic content : deliverable topic content -> packet_ok (publication topic content).
Proof.
  intros Hd. destruct (publish_packet_fields topic content [] Hd) as [(_ & _ & _ & Hlt) Henc].
  rewrite Henc in Hlt. unfold packet_ok. cbn [wlen wcur send_buf publication]. lia.
Qed.

(** ** The publication, from the socket to the queues *)

(** A PUBLISH of QoS 0 as a client sends it: command byte [b], digits [ds] of
    the remaining length, topic, content.  The validator of topics, which looks
    for a NUL, must stop inside the payload. *)
Record publish_request (b : Z) (ds topic body : list Z) : Prop := {
  rq_type : type (mqtt_parser_command message0 b) = MQTT_TYPE_PUBLISH;
  rq_qos : qos (mqtt_parser_command message0 b) = 0;
  rq_digits : digits_ok ds /\ (length ds <= 4)%nat;
  rq_length : digits_value ds = zlen (enc_str topic ++ body);
  rq_topic : bytes topic /\ no_nul topic /\ wildcard_free topic = true /\ zlen topic < 65536;
  rq_body : bytes body /\ 2 <= zlen body;
  rq_stops : exists v, pub_topic_valid (Some (topic ++ body)) = Ok v }.

Section request.
Context (b : Z) (ds topic body : list Z) (Hrq : publish_request b ds topic body).
Abbreviation payload := (enc_str topic ++ body).

Lemma payload_size : zlen payload = 2 + zlen topic + zlen body /\ zlen payload < 128 ^ 4.
Proof using Hrq.
  split; [rewrite length_app; cbn [enc_str enc16 app length]; lia|].
  destruct Hrq as [_ _ [_ Hds] <- _ _ _]. pose proof (digits_value_range ds).
  pose proof (Z.pow_le_mono_r 128 (zlen ds) 4). lia.
Qed.

Lemma request_deliverable : deliverable topic body.
Proof using Hrq.
  pose proof payload_size as [Hl Hs]. change (128 ^ 4) with 268435456 in Hs.
  destruct Hrq. split_and!; [tauto|tauto|lia].
Qed.

Definition request_message : mqtt_message :=
  (mqtt_parser_command message0 b) <| m_length := digits_value ds |>.

Section processing.
Context (n : nat) (fd : Z) (w : world).
Abbreviation c := (ss_clients (w_broker w) !!! n).

Lemma wp_parse_request q e a er c1 (Q : mqtt_parser_rc * Z -> world -> Prop) E :
  in_packet c1 = Some request_message ->
  in_parser c1 = {| p_state := MQTT_PARSER_STATE_INITIAL; p_error := er |} ->
  in_payload c1 = Some payload ->
  Q (MQTT_PARSER_RC_DONE, zlen payload)
    (at_ n fd w (c1 <| in_packet := Some (published request_message topic body 0 body) |>) q e a) ->
  wp (run_parser n 0) Q E (at_ n fd w c1 q e a).
Proof using Hrq.
  intros Hm Hst Hp HQ. pose proof payload_size as [_ Hs]. change (128 ^ 4) with 268435456 in Hs.
  unfold run_parser.
  apply wp_bind. eapply wp_ok; [apply client_now_at|]. unfold the_packet. rewrite Hm.
  apply wp_bind, wp_ret, wp_bind, wp_gets. apply wp_bind. eapply wp_lift.
  { rewrite Hp, Hst. cbn [m_length request_message update]. rewrite (rq_length _ _ _ _ Hrq).
    destruct Hrq. apply (publish_parses request_message er);
      [done|unfold str_ok; tauto|lia|done| |tauto].
    change (has_message_id request_message) with
      (has_message_id (mqtt_parser_command message0 b)).
    unfold has_message_id. by rewrite rq_qos0. }
  cbn [ps_alloc done_with]. apply wp_bind.
  eapply (wp_ok _ tt (at_ n fd w c1 q e a)); [reflexivity|].
  apply wp_bind. eapply wp_ok; [apply set_client_at|]. apply wp_ret.
  replace (c1 <| in_parser := _ |> <| in_packet := _ |>)
    with (c1 <| in_packet := Some (published request_message topic body 0 body) |>); [done|].
  destruct c1. cbn in *. by subst.
Qed.

(** What a request leaves behind: a packet in the queue of every recipient;
    nothing has been sent yet. *)
Record queued_for (fs : list (list level)) (w' : world) : Prop := {
  qf_ep : w_ep w' = w_ep w;
  qf_tx : os_tx (w_os w') = os_tx (w_os w);
  qf_trace : os_trace (w_os w') = os_trace (w_os w);
  qf_boxes k : outbox (ss_clients (w_broker w') !!! k) =
    outbox (enqueue_times (multiplicity k (recipients (w_broker w) fs)) (publication topic body)
      (ss_clients (w_broker w) !!! k)) }.

Lemma recipients_at c1 q e a fs :
  is_subscribe c1 = is_subscribe c ->
  recipients (w_broker (at_ n fd w c1 q e a)) fs = recipients (w_broker w) fs.
Proof using.
  intros Hc. apply targets_ext. intros i. cbn. destruct (decide (i = n)) as [->|Hne].
  - by rewrite lookup_total_insert_eq.
  - by rewrite lookup_total_insert_ne.
Qed.

Lemma wp_handle_request rlen c2 q e a :
  tree_ok (ss_roots (w_broker w)) -> memory_available a ->
  is_subscribe c2 = is_subscribe c -> outbox c2 = outbox c ->
  in_packet c2 = Some (published request_message topic body 0 body) ->
  wp (let* e := gets w_ep in
      let* rc := in_broker (handle_mqtt_command (base_sock e) n) in
      if rc =? 0 then set_client n (fun c => c <| in_payload := None |>) ;;; ret rlen
      else ret (-1))
    (fun rc w' => rc = rlen /\ exists fs,
       matching (ss_roots (w_broker w)) (tokens topic) fs /\ queued_for fs w')
    no_fault (at_ n fd w c2 q e a).
Proof using Hrq.
  intros Htree Ha Hsub Hbox Hin. apply wp_bind, wp_gets. apply wp_bind, wp_zoom.
  set (s := w_broker (at_ n fd w c2 q e a)).
  assert (Hlook : ss_clients s !!! n = c2) by (cbn; by rewrite lookup_total_insert_eq).
  pose proof request_deliverable as Hd. destruct (rq_stops _ _ _ _ Hrq) as [v Hv].
  destruct Hrq as [Hty Hqos _ _ (_ & Hnul & Hwild & _) _ _].
  rewrite <- Hlook in Hin.
  eapply wp_conseq; [exact (wp_handle_publish _ n _ topic body body [] v s Hin Hty Hqos
    eq_refl eq_refl Hv Hd Hnul Hwild Htree Ha)| |done].
  intros rc s' (-> & fs & Hfs & _ & _ & Hcl). cbv beta.
  rewrite Z.eqb_refl. apply wp_bind, wp_zoom, wp_on_client, wp_ret. split; [done|].
  exists fs. split; [exact Hfs|]. subst s.
  rewrite (recipients_at c2 q e a fs Hsub) in Hcl.
  split; [done..|]. intros k. cbn [w_broker update ss_clients].
  assert (Hk : outbox (ss_clients s' !!! k) =
    outbox (enqueue_times (multiplicity k (recipients (w_broker w) fs)) (publication topic body)
      (ss_clients (w_broker w) !!! k))).
  { rewrite Hcl. apply outbox_enqueue. destruct (decide (k = n)) as [->|Hk].
    - by rewrite Hlook.
    - cbn. by rewrite lookup_total_insert_ne. }
  destruct (decide (k = n)) as [->|Hne]; [by rewrite lookup_total_insert_eq|].
  by rewrite lookup_total_insert_ne.
Qed.

Lemma wp_process_publish rlen q e a :
  tree_ok (ss_roots (w_broker w)) -> memory_available a ->
  wp (process_packet n rlen)
    (fun rc w' => rc = rlen /\ exists fs,
       matching (ss_roots (w_broker w)) (tokens topic) fs /\ queued_for fs w')
    no_fault (at_ n fd w (packet_read b ds payload c) q e a).
Proof using Hrq.
  intros Htree Ha. unfold process_packet. apply wp_bind. eapply wp_ok; [apply set_client_at|].
  apply wp_bind. cbn [parse_loop parse_fuel]. apply wp_bind.
  eapply wp_parse_request; [reflexivity|reflexivity| |].
  { cbn. rewrite app_nil_r. pose proof payload_size as [Hl _].
    by destruct payload as [|x l]; [cbn in Hl; lia|]. }
  apply wp_ret, wp_handle_request; [done|done|reflexivity..].
Qed.
End processing.
End request.

(** ** A round *)

(** A publication is to be read from the socket [fd] of a client. *)
Record incoming (b : Z) (ds topic body : list Z) (fd : Z) (w : world) : Prop := {
  pub_request : publish_request b ds topic body;
  pub_tree : tree_ok (ss_roots (w_broker w));
  pub_memory : memory_available (ss_alloc (w_broker w));
  pub_base : base_ok (base_sock (w_ep w));
  pub_fd : 0 <= fd < max_fd /\ fd <> l_sock (w_ep w);
  pub_client : is_Some (ss_clients (w_broker w) !! slot w fd) /\
               idle (ss_clients (w_broker w) !!! slot w fd);
  pub_script : exists q rest, os_rx (w_os w) !! fd = Some q /\ cuts q /\ pauses q = O /\
                 bytes_of q = (b :: ds ++ enc_str topic ++ body) ++ rest }.

(** The same in a loop whose clients can be sent to *)
Record publishing (b : Z) (ds topic body : list Z) (fd : Z) (l : list nat) (w : world) : Prop := {
  pub_incoming : incoming b ds topic body fd w;
  pub_table : represents (contexts_by_ptr (w_ep w)) l;
  pub_clients k : k ∈ l -> sendable w k;
  pub_tx : takes_only (os_tx (w_os w)) }.

Lemma at_here n fd w c q :
  ss_clients (w_broker w) !! n = Some c -> os_rx (w_os w) !! fd = Some q ->
  w = at_ n fd w c q (os_errno (w_os w)) (ss_alloc (w_broker w)).
Proof.
  intros Hc Hq. destruct w as [[] ? []]. unfold at_. cbn in *. by rewrite !insert_id.
Qed.

Lemma wp_publication_event b ds topic body fd w :
  incoming b ds topic body fd w ->
  wp (handle_event (fd, EPOLLIN))
    (fun _ w' => exists fs, matching (ss_roots (w_broker w)) (tokens topic) fs /\
       queued_for topic body w fs w') no_fault w.
Proof.
  intros []. destruct pub_fd0 as [Hfd Hne], pub_client0 as [[c Hc] Hidle].
  destruct pub_script0 as (q & rest & Hq & Hcuts & Hp & Hb).
  pose proof (lookup_total_correct _ _ _ Hc) as Hct. rewrite Hct in Hidle.
  destruct (read_any_cut (slot w fd) fd w c (ss_alloc (w_broker w)) b ds
    (enc_str topic ++ body) rest q (os_errno (w_os w)) Hidle pub_memory0)
    as (j & rlen & q' & e' & Hj & Hr & _ & _ & Hrun);
    [|apply pub_request0|apply pub_request0|done|done|].
  { intros E. pose proof (rq_type _ _ _ _ pub_request0) as Hty.
    change (Z.land (Z.shiftr b 4) 15 = MQTT_TYPE_PUBLISH) in Hty. by rewrite E in Hty. }
  rewrite Hp in Hj. assert (j = O) as -> by lia. cbn [polls] in Hrun.
  rewrite <- (at_here _ _ _ _ _ Hc Hq) in Hrun.
  set (a' := alloc_for _ _) in Hrun. assert (Ha' : memory_available a').
  { unfold a', alloc_for. destruct (enc_str topic ++ body);
      repeat (apply memory_available_next; [|cbn; lia]); done. }
  pose proof (wp_process_publish b ds topic body pub_request0 (slot w fd) fd w rlen q' e' a'
    pub_tree0 Ha') as Hwp. rewrite Hct in Hwp. unfold wp in Hwp at 1. rewrite <- Hrun in Hwp.
  unfold handle_event. apply wp_bind, wp_gets. rewrite (proj2 (Z.eqb_neq _ _)) by done. cbn [negb].
  apply wp_bind, wp_client_of; [done|done|]. apply wp_bind.
  eapply wp_conseq; [exact Hwp| |done]. intros rc w' [-> Hw']. cbv beta.
  rewrite (proj2 (Z.leb_gt _ _)) by done. by apply wp_ret.
Qed.

Section round.
Context (b : Z) (ds topic body : list Z) (fd : Z) (l : list nat) (w : world).
Hypothesis Hpub : publishing b ds topic body fd l w.

(** C1: a publication of QoS 0 arrives where it should.  When a whole PUBLISH of
    QoS 0 waits on a client's socket, in whatever pieces, whose topic has no
    wildcard and whose content has at least two bytes, one round of the event
    loop reads it and sends, to every client of the loop, the bytes that were
    queued for it and then the publication, once for every leaf of the client
    under each filter that matches the topic; on other descriptors it sends
    nothing.  It takes that [malloc] does not fail, that the sockets take some
    bytes each time, that a NUL or a wildcard follows the topic, where its
    validator stops, that the sender is between two packets, that the packets in
    the queues are the ones counted, with none half sent, and that the tree is
    well formed, as valid filters leave it.  (What is published with another QoS
    is not delivered: [handle_other_correct]; what is shorter loses its sender:
    [parser_publish_short]; an invalid filter can hide leaves:
    [hash_child_silences].) *)
Theorem publication_delivered :
  exists w' tr fs, loop_round [(fd, EPOLLIN)] w = Ok (tt, w') /\
    os_trace (w_os w') = os_trace (w_os w) ++ tr /\
    matching (ss_roots (w_broker w)) (tokens topic) fs /\
    forall k, sent_bytes (fd_of (base_sock (w_ep w)) k) tr =
      if decide (k ∈ l)
      then queued_bytes w k ++
           concat (replicate (multiplicity k (recipients (w_broker w) fs)) (publish_bytes topic body))
      else [].
Proof using Hpub bd_ok.
  destruct Hpub as [Hin ? ? ?]. pose proof (wp_publication_event _ _ _ _ _ _ Hin) as Hev. destruct Hin.
  apply wp_elim in Hev as ([] & w1 & Hrun & fs & Hfs & []).
  pose proof (request_deliverable b ds topic body pub_request0) as Hd.
  pose proof (publication_ok topic body Hd) as Hok.
  assert (Hpass : exists w' tr, send_all (length l) (first_or l None) w1 = Ok (tt, w') /\
    os_trace (w_os w') = os_trace (w_os w1) ++ tr /\
    forall k, sent_bytes (fd_of (base_sock (w_ep w1)) k) tr =
      if decide (k ∈ l) then queued_bytes w1 k else []).
  { apply (send_all_takes []); [by rewrite qf_ep0|done| |by rewrite qf_tx0].
    intros k Hk. destruct (pub_clients0 k Hk) as [Hout Hsock]. split.
    - eapply outgoing_ext; [apply qf_boxes0|]. by apply outgoing_enqueue.
    - pose proof (qf_boxes0 k) as [= -> _ _ _]. by rewrite qf_ep0, enqueue_times_field. }
  destruct Hpass as (w' & tr & Hrun' & Htr & Hs). exists w', tr, fs. split_and!.
  - unfold loop_round. cbn [iter]. rewrite (bind_ok _ _ _ _ _ (eq_trans (bind_ok _ _ _ _ _ Hrun) eq_refl)).
    erewrite bind_ok by reflexivity. rewrite qf_ep0.
    rewrite (HASH_COUNT_eq _ _ pub_table0), Nat2Z.id. pose proof pub_table0 as (_ & -> & _).
    exact Hrun'.
  - by rewrite Htr, qf_trace0.
  - done.
  - intros k. rewrite qf_ep0 in Hs. rewrite Hs. case_decide; [|done]. unfold queued_bytes.
    pose proof (qf_boxes0 k) as [= _ -> _ _]. rewrite queue_enqueue, fmap_app, concat_app.
    f_equal. by rewrite fmap_replicate.
Qed.
End round.
End build.
