(* ===== verification/System.v ===== *)
(** * Several event loops: the threads of the broker

    [run_worker] starts one event loop per core; the loops share the broker
    (tree, clients, allocator) and have each their epoll descriptor, their table
    of clients and their thread-local errno.  A step of a thread is the handling
    of one event, or the sending for one client; the steps of the threads are
    interleaved in any order. *)

From S2P Require Import Prelude.
From S2P Require Import Mqtt.
From S2P Require Import Substree.
From S2P Require Import UtHash.
From S2P Require Import Broker.
From S2P Require Import Handler.
From S2P Require Import EventIO.
From S2P Require Import BrokerInv.
From S2P Require Import OutputSpec.
From S2P Require Import HandlerSafe.
From S2P Require Import ReaderSafe.
From S2P Require Import LoopSpec.
From S2P Require Import LoopSafe.

Section build.
Context {bd : Build} {bd_ok : BuildOk bd}.

(** ** Threads *)

(** Where in [while (1)] of [loop_run] a thread is: in [epoll_wait], before the
    events it still has to handle, or before the clients it still has to send
    for. *)
Inductive phase : Type :=
| Waiting
| Handling (events : list (Z * Z))
| Sending (context : option nat).

#[export] Instance phase_eq_dec : EqDecision phase.
Proof. solve_decision. Defined.

Record thread : Type := { t_ep : epollop; t_os : os; t_phase : phase }.
Record system : Type := { sy_broker : broker; sy_threads : list thread }.

Definition view (b : broker) (t : thread) : world :=
  {| w_broker := b; w_ep := t_ep t; w_os := t_os t |}.

(** One step of a thread: the phase after it *)
Definition next_step (p : phase) : M world phase :=
  match p with
  | Waiting => ret Waiting
  | Handling (ev :: events) => handle_event ev ;;; ret (Handling events)
  | Handling [] => let* e := gets w_ep in ret (Sending (ut_head (contexts_by_ptr e)))
  | Sending (Some n) =>
      send_client n ;;;
      let* e := gets w_ep in ret (Sending (hh_next (hh_of (contexts_by_ptr e) n)))
  | Sending None => ret Waiting
  end.

Definition put_thread (i : nat) (p : phase) (w : world) (s : system) : system := {|
  sy_broker := w_broker w;
  sy_threads := <[i := {| t_ep := w_ep w; t_os := w_os w; t_phase := p |}]> (sy_threads s) |}.

(** Thread [i] makes a step. *)
Definition step_thread (i : nat) (s : system) : outcome system :=
  match sy_threads s !! i with
  | None => Ok s
  | Some t =>
      let? r := next_step (t_phase t) (view (sy_broker s) t) in
      Ok (put_thread i r.1 r.2 s)
  end.

(** [epoll_wait] of thread [i] answers [events]. *)
Definition wake (i : nat) (events : list (Z * Z)) (s : system) : system :=
  match sy_threads s !! i with
  | None => s
  | Some t => put_thread i (Handling events) (view (sy_broker s) t) s
  end.

(** The clients of a thread *)
Definition members (t : thread) : list nat := table_of (contexts_by_ptr (t_ep t)).

(** On the sockets of the kernel a thread that is about to take a connection is
    given a descriptor that is not in use in another one: descriptors belong to
    the whole process.  Those of mTCP belong to a thread. *)
Definition fresh_accept (s : system) (t : thread) : Prop :=
  match t_phase t with
  | Handling ((fd, _) :: _) =>
      MTCP = false -> fd = l_sock (t_ep t) ->
      forall k, accepts (view (sy_broker s) t) k -> forall u, u ∈ sy_threads s -> k ∉ members u
  | _ => True
  end.

(** The next step of thread [i] brings no connection to a full table. *)
Definition roomy (s : system) (i : nat) : Prop :=
  forall t, sy_threads s !! i = Some t ->
  match t_phase t with
  | Handling (ev :: _) => overfull (members t) (view (sy_broker s) t) ev = false
  | _ => True
  end.

(** The moves of the system, with what the operating system may do: which thread
    goes on is left open. *)
Inductive move (s : system) : nat -> outcome system -> Prop :=
| move_wake i t events :
    sy_threads s !! i = Some t -> t_phase t = Waiting ->
    reportable (members t) (view (sy_broker s) t) events ->
    move s i (Ok (wake i events s))
| move_step i t :
    sy_threads s !! i = Some t -> t_phase t <> Waiting -> fresh_accept s t ->
    move s i (step_thread i s).

(** The states the system comes to as long as no connection comes to a full
    table *)
Inductive reach (s : system) : system -> Prop :=
| reach_refl : reach s s
| reach_move s1 i s2 : reach s s1 -> roomy s1 i -> move s1 i (Ok s2) -> reach s s2.

(** ** One thread left alone is [loop_round] *)

Fixpoint steps (k i : nat) (s : system) : outcome system :=
  match k with
  | O => Ok s
  | S k' => let? s' := step_thread i s in steps k' i s'
  end.

Lemma step_thread_put i p w s :
  (i < length (sy_threads s))%nat ->
  step_thread i (put_thread i p w s) =
  let? r := next_step p w in Ok (put_thread i r.1 r.2 s).
Proof.
  intros Hi. unfold step_thread, put_thread at 1. cbn [sy_threads].
  rewrite list_lookup_insert_eq by done.
  change (view _ _) with (Build_world (w_broker w) (w_ep w) (w_os w)).
  replace (Build_world _ _ _) with w by by destruct w. cbn [t_phase].
  destruct (next_step p w) as [[p' w']| |]; [|done|done]. cbn.
  unfold put_thread. cbn. by rewrite list_insert_insert_eq.
Qed.

(** What a round that is being run comes to *)
Definition comes_to (i : nat) (s : system) (s1 : system) (r : outcome (unit * world)) : Prop :=
  match r with
  | Ok (_, w') => exists k, steps k i s1 = Ok (put_thread i Waiting w' s)
  | Fault f => exists k, steps k i s1 = Fault f
  | NoFuel => True
  end.

Lemma comes_to_step i s s1 s2 r :
  step_thread i s1 = Ok s2 -> comes_to i s s2 r -> comes_to i s s1 r.
Proof.
  intros Hs. destruct r as [[[] w']|f|]; [| |done]; intros [k Hk]; exists (S k); cbn [steps];
    by rewrite Hs.
Qed.

Section solo.
Context (i : nat) (s : system).
Hypothesis Hi : (i < length (sy_threads s))%nat.

Lemma solo_send fuel n w :
  comes_to i s (put_thread i (Sending n) w s) (send_all fuel n w).
Proof using Hi.
  revert n w. induction fuel as [|fuel IH]; intros [n|] w; [done| | |];
    try (exists 1%nat; cbn [steps]; by rewrite step_thread_put).
  cbn [send_all]. unfold bind. destruct (send_client n w) as [[[] w1]|f|] eqn:E; [| |done].
  - eapply comes_to_step; [|apply IH]. rewrite step_thread_put by done.
    cbn [next_step]. by rewrite (bind_ok _ _ _ _ _ E).
  - exists 1%nat. cbn [steps]. rewrite step_thread_put by done. cbn [next_step]. unfold bind. by rewrite E.
Qed.

Lemma solo_events events w :
  comes_to i s (put_thread i (Handling events) w s) (loop_round events w).
Proof using Hi.
  revert w. induction events as [|ev events IH]; intros w.
  { eapply comes_to_step; [rewrite step_thread_put by done; reflexivity|]. apply solo_send. }
  unfold loop_round. cbn [iter]. destruct (handle_event ev w) as [[[] w1]|f|] eqn:E.
  - eapply comes_to_step.
    { rewrite step_thread_put by done. cbn [next_step]. rewrite (bind_ok _ _ _ _ _ E). reflexivity. }
    specialize (IH w1). unfold loop_round, bind in *. by rewrite E.
  - unfold bind. rewrite E. exists 1%nat. cbn [steps]. rewrite step_thread_put by done.
    cbn [next_step]. unfold bind. by rewrite E.
  - unfold bind. by rewrite E.
Qed.
End solo.

(** The steps of a thread that no other interrupts are those of a round
    of [loop_run]: when the round returns they lead to the same state, with the
    thread waiting again, and when it faults they lead to the same fault. *)
Theorem uninterrupted_round i t events s :
  sy_threads s !! i = Some t ->
  comes_to i s (wake i events s) (loop_round events (view (sy_broker s) t)).
Proof.
  intros Hi. unfold wake. rewrite Hi. apply solo_events. by eapply lookup_lt_Some.
Qed.

(** ** The invariant of the system *)

(** What is left of a round agrees with the thread's table. *)
Definition phase_ok (b : broker) (t : thread) : Prop :=
  match t_phase t with
  | Waiting => True
  | Handling events => reportable (members t) (view b t) events
  | Sending n => exists l1 l2, members t = l1 ++ l2 /\ n = first_or l2 None
  end.

Record thread_ok (b : broker) (t : thread) : Prop := {
  th_good : good (members t) (view b t);
  th_phase : phase_ok b t }.

Record system_ok (s : system) : Prop := {
  sok_base i t : sy_threads s !! i = Some t ->
    Z.of_nat i < g_core_limit /\ base_sock (t_ep t) = base_of (Z.of_nat i);
  sok_threads i t : sy_threads s !! i = Some t -> thread_ok (sy_broker s) t;
  sok_apart i j t u n : sy_threads s !! i = Some t -> sy_threads s !! j = Some u ->
    n ∈ members t -> n ∈ members u -> i = j }.

(** What the other threads do to the broker is all that a thread sees of them. *)
Lemma good_share l w l' w' :
  good l w -> good l' w' ->
  good l {| w_broker := w_broker w'; w_ep := w_ep w; w_os := w_os w |}.
Proof. intros [] []. by split. Qed.

Lemma phase_share b b' t : phase_ok b t -> phase_ok b' t.
Proof. unfold phase_ok. destruct (t_phase t); [done| |done]. intros []. by split. Qed.

Lemma good_members l p w :
  good l w -> members {| t_ep := w_ep w; t_os := w_os w; t_phase := p |} = l.
Proof. intros []. by apply table_of_eq. Qed.

Lemma lookup_put i p w s j t :
  sy_threads (put_thread i p w s) !! j = Some t ->
  (j = i /\ t = {| t_ep := w_ep w; t_os := w_os w; t_phase := p |}) \/
  (j <> i /\ sy_threads s !! j = Some t).
Proof.
  cbn. intros H. destruct (decide (j = i)) as [->|Hne]; [left|right; by rewrite list_lookup_insert_ne in H].
  pose proof (lookup_lt_Some _ _ _ H) as Hlt. rewrite length_insert in Hlt.
  rewrite list_lookup_insert_eq in H by done. by injection H as <-.
Qed.

Lemma system_ok_put i t l' p w' s :
  system_ok s -> sy_threads s !! i = Some t -> good l' w' ->
  base_sock (w_ep w') = base_sock (t_ep t) -> phase_ok (w_broker w') {| t_ep := w_ep w'; t_os := w_os w'; t_phase := p |} ->
  (forall n j u, n ∈ l' -> sy_threads s !! j = Some u -> n ∈ members u -> j = i) ->
  system_ok (put_thread i p w' s).
Proof.
  intros [Hbase Hth Hap] Hi Hg Hb Hp Hnew. split.
  - intros j u [[-> ->]|[_ Hj]]%lookup_put; [|by apply Hbase]. cbn. rewrite Hb. by apply Hbase.
  - intros j u [[-> ->]|[Hne Hj]]%lookup_put.
    + split; [|done]. rewrite (good_members l') by done. by destruct w'.
    + destruct (Hth j u Hj) as [Hgu Hpu]. split; [|by eapply phase_share].
      by apply (good_share _ _ l' w' Hgu).
  - intros j k u v n Hj Hk Hnu Hnv. apply lookup_put in Hj, Hk.
    destruct Hj as [[-> ->]|[Hne Hj]], Hk as [[-> ->]|[Hne' Hk]]; [done| | |by eapply Hap].
    + rewrite (good_members l') in Hnu by done. symmetry. by eapply Hnew.
    + rewrite (good_members l') in Hnv by done. by eapply Hnew.
Qed.

(** The outcome of a step that the invariant allows *)
Definition fine (r : outcome system) : Prop :=
  match r with Ok s => system_ok s | Fault f => overread f | NoFuel => False end.

(** A client that is taken in is in the table of no other thread. *)
Lemma accepts_apart i t fd k s j u :
  system_ok s -> sy_threads s !! i = Some t ->
  (MTCP = false -> fd = l_sock (t_ep t) -> forall k, accepts (view (sy_broker s) t) k ->
     forall u, u ∈ sy_threads s -> k ∉ members u) ->
  fd = l_sock (t_ep t) -> accepts (view (sy_broker s) t) k ->
  sy_threads s !! j = Some u -> k ∈ members u -> j = i.
Proof.
  intros Hok Hi Hfresh Hfd Hacc Hj Hu. destruct MTCP eqn:Hb; cycle 1.
  { destruct (Hfresh eq_refl Hfd k Hacc u); [by eapply list_elem_of_lookup_2|done]. }
  destruct Hacc as (conn & q & _ & Hconn & Hk).
  destruct (sok_threads s Hok j u Hj) as [Hgu _]. apply (good_span _ _ _ Hgu) in Hu as (fd' & Hfd' & Hk').
  pose proof (sok_base s Hok i t Hi) as [_ Hbi]. pose proof (sok_base s Hok j u Hj) as [_ Hbj].
  unfold slot in Hk, Hk'. cbn [view w_ep] in *. rewrite Hbi in Hk. rewrite Hbj in Hk'.
  unfold base_of, max_fd, MAX_FD_PER_LOOP in *. rewrite Hb in *. lia.
Qed.

Lemma wp_next i t s :
  system_ok s -> sy_threads s !! i = Some t -> fresh_accept s t -> roomy s i ->
  wp (next_step (t_phase t)) (fun p w' => system_ok (put_thread i p w' s)) overread
    (view (sy_broker s) t).
Proof.
  intros Hok Hi Hfresh Hroom. specialize (Hroom t Hi). destruct (sok_threads s Hok i t Hi) as [Hg Hp].
  set (w := view (sy_broker s) t) in *. set (l := members t) in *.
  assert (Hsame : forall p w', good l w' -> base_sock (w_ep w') = base_sock (t_ep t) ->
    phase_ok (w_broker w') {| t_ep := w_ep w'; t_os := w_os w'; t_phase := p |} ->
    system_ok (put_thread i p w' s)).
  { intros p w' Hg' Hb' Hp'. eapply system_ok_put; [done|exact Hi|exact Hg'|done|done|].
    intros n j u Hn Hj Hu. by eapply (sok_apart s Hok j i u t n). }
  unfold fresh_accept, phase_ok in *. destruct (t_phase t) as [|[|[fd ev] events]|[n|]]; cbn [next_step].
  - by apply wp_ret, Hsame.
  - apply wp_bind, wp_gets, wp_ret, Hsame; [done|done|]. exists [], l.
    split; [by apply (good_members l)|]. by destruct Hg as [_ _ _ _ _ (_ & -> & _) _ _].
  - apply wp_bind. eapply wp_conseq; [by eapply wp_event| |done].
    intros [] w' (l' & Hg' & Hr & Hrest). apply wp_ret.
    eapply system_ok_put; [done|exact Hi|exact Hg'|exact (rest_base _ _ _ _ _ Hrest)| |].
    + unfold phase_ok. cbn [t_phase]. rewrite (good_members l') by done. by destruct w'.
    + intros k j u Hk Hj Hu. destruct (rest_new _ _ _ _ _ Hrest k Hk) as [Hkl|[Hfd Hacc]].
      * by eapply (sok_apart s Hok j i u t k).
      * by eapply (accepts_apart i t fd k s j u).
  - destruct Hp as (l1 & l2 & Hl & Hn). change (members t) with l in Hl. destruct l2 as [|n' l2]; [done|]. injection Hn as <-.
    destruct (send_client_run n w (good_clients _ _ _ Hg)) as (w1 & Hrun & Hbo & Hs & _).
    pose proof (good_sends l w w1 Hg Hbo Hs) as Hg1.
    apply wp_bind. eapply wp_ok; [exact Hrun|]. apply wp_bind, wp_gets, wp_ret, Hsame;
      [done|by rewrite (sends_ep _ _ Hs)|].
    exists (l1 ++ [n]), l2. rewrite (good_members l) by done. rewrite <- app_assoc. split; [exact Hl|].
    pose proof (good_table _ _ _ Hg1) as Ht. rewrite Hl in Ht. apply (represents_next _ _ _ _ Ht).
  - by apply wp_ret, Hsame.
Qed.

Lemma move_fine s i r : system_ok s -> roomy s i -> move s i r -> fine r.
Proof.
  intros Hok Hroom Hm. revert Hroom. destruct Hm as [j t events Hi Hw Hr|j t Hi Hw Hf]; intros Hroom; cbn.
  - unfold wake. rewrite Hi. destruct (sok_threads s Hok j t Hi) as [Hg _].
    eapply system_ok_put; [done|exact Hi|exact Hg|done| |].
    + unfold phase_ok. cbn [t_phase]. by rewrite (good_members (members t)).
    + intros n k u Hn Hk Hu. by eapply (sok_apart s Hok k j u t n).
  - pose proof (wp_next j t s Hok Hi Hf Hroom) as Hwp. unfold wp, step_thread in *. rewrite Hi.
    by destruct (next_step (t_phase t) _) as [[p w']| |].
Qed.

Lemma reach_ok s s' : system_ok s -> reach s s' -> system_ok s'.
Proof. intros Hok. induction 1 as [|s1 i s2 _ IH Hroom Hm]; [done|]. exact (move_fine s1 i _ IH Hroom Hm). Qed.

(** The threads as [run_worker] starts them, when [loop_run] has set their part
    of the table: no clients yet *)
Record started (ts : list thread) : Prop := {
  started_limit : Z.of_nat (length ts) <= g_core_limit;
  started_base i t : ts !! i = Some t -> base_sock (t_ep t) = base_of (Z.of_nat i);
  started_empty t : t ∈ ts ->
    t_phase t = Waiting /\ contexts_by_ptr (t_ep t) = ut_empty /\ scripts_ok (t_os t) }.

Lemma started_ok roots a ts :
  memory_available a -> started ts ->
  system_ok {| sy_broker := broker_init roots a; sy_threads := ts |}.
Proof.
  intros Ha [Hlim Hbase Hts]. assert (Hm : forall t, t ∈ ts -> members t = []).
  { intros t Ht. unfold members. by destruct (Hts t Ht) as (_ & -> & _). }
  assert (Hlt : forall i t, ts !! i = Some t -> Z.of_nat i < g_core_limit).
  { intros i t Hi. apply lookup_lt_Some in Hi. lia. }
  split; cbn [sy_threads sy_broker].
  - intros i t Hi. split; [by eapply Hlt|by apply Hbase].
  - intros i t Hi. pose proof (Hlt i t Hi). pose proof (Hbase i t Hi) as Hb.
    apply list_elem_of_lookup_2 in Hi. destruct (Hts t Hi) as (Hw & He & Ho).
    split; [|unfold phase_ok; by rewrite Hw]. rewrite (Hm t Hi). apply good_start; [done|done| |done].
    rewrite Hb. apply base_of_ok. lia.
  - intros i j t u n Hi _ Hn. apply list_elem_of_lookup_2 in Hi. rewrite (Hm t Hi) in Hn.
    by apply elem_of_nil in Hn.
Qed.

End build.
