(* ===== verification/Relay.v ===== *)
(** * Between the event loops: what reaches a client

    A client is followed through the interleaved steps of all the threads: what
    has been handed to its socket and what is queued for it only ever grows at
    its end, so that a publication one loop has handled is sent by another. *)

From S2P Require Import Prelude.
From S2P Require Import Topic.
From S2P Require Import Mqtt.
From S2P Require Import Parser.
From S2P Require Import Substree.
From S2P Require Import SubstreeFacts.
From S2P Require Import UtHash.
From S2P Require Import Broker.
From S2P Require Import Handler.
From S2P Require Import EventIO.
From S2P Require Import BrokerInv.
From S2P Require Import HandlerFacts.
From S2P Require Import HandlerSpec.
From S2P Require Import HandlerSafe.
From S2P Require Import ReaderSafe.
From S2P Require Import OutputFacts.
From S2P Require Import OutputSpec.
From S2P Require Import LoopSpec.
From S2P Require Import LoopSafe.
From S2P Require Import Delivery.
From S2P Require Import System.

Section build.
Context {bd : Build} {bd_ok : BuildOk bd}.

Abbreviation client_at b k := (ss_clients b !!! k) (only parsing).
Abbreviation unsent := (Forall (fun p => packet_ok p /\ wcur p = 0)) (only parsing).

(** ** A queue that grows at its end *)

Definition extends (c c' : client) : Prop :=
  sock c' = sock c /\ sending_cur_packet c' = sending_cur_packet c /\
  exists ps, sending_packet c' = sending_packet c ++ ps /\
    num_sending_pack c' = num_sending_pack c + zlen ps /\ unsent ps.

#[export] Instance extends_preorder : PreOrder extends.
Proof.
  split.
  - intros c. split_and!; [done|done|]. exists []. rewrite app_nil_r. split_and!; [done|cbn; lia|constructor].
  - intros c1 c2 c3 (Hs & Hc & ps & Hq & Hn & Ha) (Hs' & Hc' & ps' & Hq' & Hn' & Ha').
    split_and!; [congruence|congruence|]. exists (ps ++ ps').
    rewrite Hq', Hq, Hn', Hn, app_assoc, length_app. split_and!; [done|lia|by apply Forall_app].
Qed.

Lemma extends_enqueue p c : packet_ok p -> wcur p = 0 -> extends c (enqueue p c).
Proof. intros Hp Hw. split_and!; [done|done|]. exists [p]. by split_and!; [..|constructor]. Qed.

Lemma extends_outgoing c c' : extends c c' -> outgoing c -> outgoing c'.
Proof.
  intros (_ & Hc & ps & Hq & Hn & Ha) []. split; [congruence| |].
  - rewrite Hn, Hq, length_app. lia.
  - rewrite Hq. by apply Forall_app.
Qed.

(** ** Commands of other clients *)

Section commands.
Context (base : Z) (n k : nat) (b0 : broker).
Hypothesis Hnk : n <> k.
Hypothesis Hsock : sock (client_at b0 n) = fd_of base n.

Definition kept (b : broker) : Prop :=
  (forall m, sock (client_at b m) = sock (client_at b0 m)) /\ extends (client_at b0 k) (client_at b k).

Lemma change_client_at m f (b : broker) i :
  client_at (change_client m f b) i = if decide (i = m) then f (client_at b m) else client_at b i.
Proof using.
  cbn. case_decide as E; [subst i; apply lookup_total_insert_eq|by apply lookup_total_insert_ne].
Qed.

Lemma kept_closed : closed n (eq base) kept.
Proof using Hnk Hsock.
  split.
  - intros b b' E. unfold kept. by rewrite E.
  - intros f b Hf [Hs Hq]. split.
    + intros m. rewrite change_client_at. case_decide as E; [subst m|apply Hs].
      destruct (Hf (client_at b n)) as (_ & -> & _). apply Hs.
    + by rewrite change_client_at, decide_False.
  - intros m p b Hp Hw [Hs Hq]. split.
    + intros i. rewrite change_client_at. case_decide as E; [subst i|]; apply Hs.
    + rewrite change_client_at. case_decide as E; [subst m|done].
      etrans; [exact Hq|by apply extends_enqueue].
  - intros base' i l b <- Hi _ [Hs Hq]. rewrite Hs, Hsock in Hi. unfold client_index, fd_of in Hi.
    destruct (_ && _); [|done]. injection Hi as Hi. assert (i = n) as -> by lia. split.
    + intros m. rewrite change_client_at. case_decide as E; [subst m|]; apply Hs.
    + by rewrite change_client_at, decide_False.
Qed.
End commands.

Lemma kept_refl k b : kept k b b.
Proof. by split. Qed.

Lemma wp_both {S A} (m : M S A) (Q Q' : A -> S -> Prop) E s :
  wp m Q E s -> wp m Q' E s -> wp m (fun a s' => Q a s' /\ Q' a s') E s.
Proof. unfold wp. by destruct (m s) as [[a s']| |]. Qed.

(** ** One event, seen from client [k] *)

(** Its queue may have grown; nothing has been sent to it. *)
Record lets (k : nat) (w w' : world) : Prop := {
  lets_base : base_sock (w_ep w') = base_sock (w_ep w);
  lets_queue : extends (client_at (w_broker w) k) (client_at (w_broker w') k);
  lets_tx : exists q, os_tx (w_os w) = q ++ os_tx (w_os w');
  lets_sent : sent_bytes (fd_of (base_sock (w_ep w)) k) (os_trace (w_os w')) =
              sent_bytes (fd_of (base_sock (w_ep w)) k) (os_trace (w_os w)) }.

Lemma lets_refl k w : lets k w w.
Proof. split; [done|done|by exists []|done]. Qed.

(** The socket of every client of a table is its place in the part of the
    clients that the loop has. *)
Definition socks_ok (base : Z) (b : broker) (l : list nat) : Prop :=
  forall m, m ∈ l -> sock (client_at b m) = fd_of base m.

(** After a step of a loop with the clients [l]: who is in none of its tables
    keeps the socket, its own sockets are right, and [k] is still there. *)
Record socks_after (k : nat) (l : list nat) (w w' : world) : Prop := {
  sa_same m : m ∉ l -> m ∉ table_of (contexts_by_ptr (w_ep w')) ->
    sock (client_at (w_broker w') m) = sock (client_at (w_broker w) m);
  sa_own : socks_ok (base_sock (w_ep w')) (w_broker w') (table_of (contexts_by_ptr (w_ep w')));
  sa_stays : k ∈ l -> k ∈ table_of (contexts_by_ptr (w_ep w')) }.

Lemma socks_unchanged k l w w' :
  socks_ok (base_sock (w_ep w)) (w_broker w) l -> represents (contexts_by_ptr (w_ep w')) l ->
  base_sock (w_ep w') = base_sock (w_ep w) ->
  (forall m, sock (client_at (w_broker w') m) = sock (client_at (w_broker w) m)) ->
  socks_after k l w w'.
Proof.
  intros Hs Ht Hb Hw. split; rewrite ?(table_of_eq _ _ Ht); [done| |done].
  intros m Hm. rewrite Hb, Hw. by apply Hs.
Qed.

Lemma sent_none fd tr :
  (forall s, s ∈ tr -> match s with Sent _ _ => False | _ => True end) -> sent_bytes fd tr = [].
Proof.
  intros H. unfold sent_bytes in *. induction tr as [|s tr IH]; [done|]. cbn. rewrite IH.
  - pose proof (H s ltac:(by left)). by destruct s.
  - intros s' Hs'. apply H. by right.
Qed.

Lemma lets_after k w w' tr :
  base_sock (w_ep w') = base_sock (w_ep w) -> extends (client_at (w_broker w) k) (client_at (w_broker w') k) -> os_after tr (w_os w) (w_os w') ->
  (forall s, s ∈ tr -> match s with Sent _ _ => False | _ => True end) -> lets k w w'.
Proof.
  intros Hb Hq [Hrx Htx Htr] Hs. split; [done|done|by exists []|].
  rewrite Htr, sent_bytes_app, (sent_none _ tr Hs). apply app_nil_r.
Qed.

Section event.
Context (l : list nat) (k : nat) (w : world).
Hypothesis Hg : good l w.
Hypothesis Hsocks : socks_ok (base_sock (w_ep w)) (w_broker w) l.

Lemma wp_listening_lets fd ev :
  fd = l_sock (w_ep w) -> accept_fresh l w -> crowded l w = false -> ~ accepts w k ->
  wp (handle_event (fd, ev)) (fun _ w' => lets k w w' /\ socks_after k l w w') overread w.
Proof using Hg Hsocks.
  intros Hfd Hac Hroom Hk. pose proof (good_table _ _ _ Hg) as Ht. pose proof (good_base _ _ _ Hg) as Hb0.
  eapply wp_listening_run; [done|done|done|done|done| |].
  - intros w' tr Hb He Htr Ho. split; [eapply lets_after; [by rewrite He|by rewrite Hb|exact Ho|]|].
    + intros s Hs. destruct Htr as [->|[conn ->]]; [by apply elem_of_nil in Hs|].
      by apply list_elem_of_singleton in Hs as ->.
    + apply socks_unchanged; [done|by rewrite He..|by rewrite Hb].
  - intros conn q w' Hq Hconn Hnew Hsize Hb He Ho.
    assert (Hkc : slot w conn <> k) by (intros <-; apply Hk; by exists conn, q).
    split; [eapply lets_after; [by rewrite He| |exact Ho|]|].
    + rewrite Hb, change_client_at, decide_False by (by intros ->). done.
    + intros s Hs. by apply list_elem_of_singleton in Hs as ->.
    + assert (Hat : forall m, sock (client_at (w_broker w') m) =
        if decide (m = slot w conn) then conn else sock (client_at (w_broker w) m)).
      { intros m. rewrite Hb, change_client_at. by case_decide. }
      assert (Ht' : table_of (contexts_by_ptr (w_ep w')) = l ++ [slot w conn]).
      { rewrite He. apply table_of_eq, HASH_ADD_run_correct; [done|done|].
        unfold MAX_FD_PER_LOOP in *. change (2 ^ 32) with 4294967296. lia. }
      split; rewrite ?Ht'.
      * intros m _ Hm. rewrite Hat, decide_False; [done|]. intros ->. apply Hm.
        rewrite elem_of_app, list_elem_of_singleton. by right.
      * intros m. rewrite elem_of_app, list_elem_of_singleton, Hat. intros Hm.
        assert (Hbs : base_sock (w_ep w') = base_sock (w_ep w)) by by rewrite He.
        rewrite Hbs. case_decide as E; [|apply Hsocks; tauto].
        subst m. unfold fd_of, slot. destruct Hb0. lia.
      * rewrite elem_of_app. by left.
Qed.

Lemma wp_client_lets fd ev :
  fd <> l_sock (w_ep w) -> 0 <= fd < max_fd -> slot w fd ∈ l -> slot w fd <> k ->
  wp (handle_event (fd, ev)) (fun _ w' => lets k w w' /\ socks_after k l w w') overread w.
Proof using Hg Hsocks.
  intros Hfd Hr Hin Hk. unfold handle_event. apply wp_bind, wp_gets.
  rewrite (proj2 (Z.eqb_neq _ _)) by done. cbn [negb]. pose proof Hg as [Hclients Hreaders Hopen Hscripts Hbase Htable Hsize Hspan].
  apply wp_bind, wp_client_of; [done|done|]. apply wp_bind. set (n := slot w fd) in *.
  assert (Hread : wp (loop_read n fd ev)
    (fun z w' => exists c q, at_client n fd w c q w' /\ (0 < z -> reader_ok c)) overread w).
  { eapply wp_loop_read; [apply Hopen|done|by apply (good_at_client l)|by apply Hreaders|].
    intros z c q w' Hw Hz. by exists c, q. }
  apply (wp_preserves (lifted (eq (base_sock (w_ep w))) (kept k (w_broker w)))) in Hread;
    [|apply preserves_loop_read, kept_closed; [done|by apply Hsocks]|by split; [|apply kept_refl]].
  eapply wp_conseq; [exact Hread| |done]. clear Hread.
  intros z w' [(c & q & [] & _) [_ [Hs Hq]]]. destruct ac_out as [Htx Htr].
  assert (Hlets : lets k w w') by (split; [by rewrite ac_ep|done|by exists []; rewrite Htx|by rewrite Htr]).
  assert (Ht' : represents (contexts_by_ptr (w_ep w')) l) by by rewrite ac_ep.
  destruct (z <=? 0); cycle 1.
  { apply wp_ret. split; [done|]. apply socks_unchanged; [done|done|by rewrite ac_ep|done]. }
  assert (Hn : slot w' fd = n) by (apply slot_ep; by rewrite ac_ep).
  apply list_elem_of_split in Hin as (l1 & l2 & ->).
  eapply (wp_remove_run l1 l2); [rewrite Hn; exact Ht'|by rewrite Hn|by rewrite ac_ep|done|]. rewrite Hn.
  intros u w2 Hu Hb He _ Ho. split.
  - destruct Hlets as [Hb1 Hq0 [q0 Hq0'] Hs0]. split.
    + by rewrite He.
    + rewrite Hb, change_client_at, decide_False by (by intros ->). exact Hq0.
    + exists q0. by rewrite (oa_tx _ _ _ Ho).
    + rewrite (oa_trace _ _ _ Ho), sent_bytes_app, Hs0. destruct MTCP; apply app_nil_r.
  - assert (Hat : forall m, m <> n -> sock (client_at (w_broker w2) m) = sock (client_at (w_broker w) m)).
    { intros m Hm. by rewrite Hb, change_client_at, decide_False. }
    assert (Hl : table_of (contexts_by_ptr (w_ep w2)) = l1 ++ l2) by by rewrite He; apply table_of_eq.
    split; rewrite ?Hl; [| |rewrite !elem_of_app, elem_of_cons; intros [?|[?|?]]; [by left|congruence|by right]].
    + intros m Hm _. apply Hat. intros ->. apply Hm. rewrite elem_of_app, elem_of_cons. tauto.
    + intros m Hm. destruct Htable as (Hnd & _). rewrite <- Permutation_middle, NoDup_cons in Hnd.
      assert (Hbs : base_sock (w_ep w2) = base_sock (w_ep w)) by by rewrite He; cbn; rewrite ac_ep.
      rewrite Hbs, Hat by (intros ->; tauto). apply Hsocks. rewrite elem_of_app, elem_of_cons in *. tauto.
Qed.
End event.

(** ** A step of a thread *)

(** The bytes on their way to client [k], whose socket thread [j] writes to:
    what has been sent, then what is queued *)
Definition stream (j k : nat) (s : system) : list Z :=
  match sy_threads s !! j with
  | Some t => sent_bytes (fd_of (base_sock (t_ep t)) k) (os_trace (t_os t)) ++
              concat (send_buf <$> sending_packet (client_at (sy_broker s) k))
  | None => []
  end.

(** Client [k] is one of thread [j], and can be sent to. *)
Record flows (j k : nat) (s : system) : Prop := {
  fl_ok : system_ok s;
  fl_socks i t : sy_threads s !! i = Some t -> socks_ok (base_sock (t_ep t)) (sy_broker s) (members t);
  fl_out : outgoing (client_at (sy_broker s) k);
  fl_thread : exists t, sy_threads s !! j = Some t /\ k ∈ members t /\ takes_only (os_tx (t_os t)) }.

(** The next step of thread [i] is not about a command of client [k]. *)
Definition silent (k i : nat) (s : system) : Prop :=
  forall t, sy_threads s !! i = Some t ->
  match t_phase t with
  | Handling ((fd, _) :: _) => fd <> l_sock (t_ep t) -> slot (view (sy_broker s) t) fd <> k
  | _ => True
  end.

(** The system goes on, without commands of client [k], and without a connection
    that comes to a full table. *)
Inductive quiet (k : nat) (s : system) : system -> Prop :=
| quiet_refl : quiet k s s
| quiet_move s1 i s2 :
    quiet k s s1 -> silent k i s1 -> roomy s1 i -> move s1 i (Ok s2) -> quiet k s s2.

Lemma lets_send n k l w w' :
  good l w -> socks_ok (base_sock (w_ep w)) (w_broker w) l -> n ∈ l -> n <> k ->
  send_client n w = Ok (tt, w') -> lets k w w' /\ socks_after k l w w'.
Proof.
  intros Hg Hs Hn Hne Hrun.
  destruct (send_client_run n w (good_clients _ _ _ Hg)) as (w1 & Hrun1 & _ & Hso & _ & Ho & Hq).
  rewrite Hrun in Hrun1. injection Hrun1 as <-. rewrite (Hs n Hn) in Hq.
  destruct Hq as [Htx (tr & Htr & Hto)]. split.
  - split; [by rewrite (sends_ep _ _ Hso)|by rewrite Ho|exact Htx|]. rewrite Htr, sent_bytes_app.
    rewrite (only_to_other (fd_of (base_sock (w_ep w)) n) _ tr) by (done || unfold fd_of; lia).
    apply app_nil_r.
  - apply socks_unchanged; [done|rewrite (sends_ep _ _ Hso); apply Hg|by rewrite (sends_ep _ _ Hso)|].
    intros m. apply (reader_sock _ _ (sends_readers _ _ Hso m)).
Qed.

(** Every step but the sending for [k] *)
Lemma wp_next_lets k i t s :
  system_ok s -> sy_threads s !! i = Some t -> socks_ok (base_sock (t_ep t)) (sy_broker s) (members t) ->
  fresh_accept s t -> roomy s i -> silent k i s -> t_phase t <> Sending (Some k) ->
  (exists u, u ∈ sy_threads s /\ k ∈ members u) ->
  let w := view (sy_broker s) t in
  wp (next_step (t_phase t)) (fun _ w' => lets k w w' /\ socks_after k (members t) w w') overread w.
Proof.
  intros Hok Hi Hsocks Hfresh Hroom Hsil Hnk (u & Hu & Hku) w. specialize (Hroom t Hi).
  destruct (sok_threads s Hok i t Hi) as [Hg Hp]. fold w in Hg.
  specialize (Hsil t Hi). unfold fresh_accept, phase_ok in *.
  assert (Hsame : lets k w w /\ socks_after k (members t) w w).
  { split; [apply lets_refl|by apply socks_unchanged; [|apply Hg|..]]. }
  destruct (t_phase t) as [|[|[fd ev] events]|[n|]]; cbn [next_step].
  - by apply wp_ret.
  - by apply wp_bind, wp_gets, wp_ret.
  - apply wp_bind. eapply wp_conseq; [|intros ? ? HQ; apply wp_ret; exact HQ|done].
    destruct (decide (fd = l_sock (w_ep w))) as [Hl|Hl].
    + assert (Hac : accept_fresh (members t) w) by (apply Hp; rewrite Hl; by left).
      apply wp_listening_lets; [done|done|done|done|by eapply overfull_room|]. intros Hacc.
      apply list_elem_of_lookup_1 in Hu as [j Hj].
      pose proof (accepts_apart i t fd k s j u Hok Hi Hfresh Hl Hacc Hj Hku) as ->.
      rewrite Hi in Hj. injection Hj as <-. destruct Hacc as (conn & q & Hq & Hc & ->).
      unfold accept_fresh in Hac. rewrite Hq in Hac. by apply Hac.
    + destruct (reported_known _ _ _ Hp fd) as [Hr Hin]; [by left|done|].
      apply wp_client_lets; [done|done|done|done|done|by apply Hsil].
  - destruct Hp as (l1 & l2 & Hl & Hn). destruct l2 as [|n' l2]; [done|]. injection Hn as <-.
    destruct (send_client_run n w (good_clients _ _ _ Hg)) as (w1 & Hrun & _).
    apply wp_bind. eapply wp_ok; [exact Hrun|]. apply wp_bind, wp_gets, wp_ret.
    apply (lets_send n k (members t) w w1); [done|done| |by intros ->|done].
    rewrite Hl, elem_of_app, elem_of_cons. tauto.
  - by apply wp_ret.
Qed.

Lemma flows_put i j k t p w' s :
  flows j k s -> sy_threads s !! i = Some t -> system_ok (put_thread i p w' s) ->
  socks_after k (members t) (view (sy_broker s) t) w' -> outgoing (client_at (w_broker w') k) ->
  (takes_only (os_tx (t_os t)) -> takes_only (os_tx (w_os w'))) ->
  flows j k (put_thread i p w' s).
Proof.
  intros [Hok Hsocks _ (u & Hj & Hk & Htx)] Hi Hok' [Hsame Hown Hstay] Ho Hq.
  set (t' := {| t_ep := w_ep w'; t_os := w_os w'; t_phase := p |}).
  assert (Hi' : sy_threads (put_thread i p w' s) !! i = Some t').
  { cbn. rewrite list_lookup_insert_eq; [done|by eapply lookup_lt_Some]. }
  split; [done| |done|].
  - intros m v [[-> ->]|[Hne Hm]]%lookup_put; [exact Hown|]. intros x Hx. cbn. rewrite Hsame.
    + by apply (Hsocks m v).
    + intros Hxt. apply Hne. by apply (sok_apart s Hok m i v t x).
    + intros Hxt. apply Hne. apply (sok_apart _ Hok' m i v t' x); [|done..].
      cbn. by rewrite list_lookup_insert_ne by done.
  - destruct (decide (i = j)) as [->|Hne].
    + rewrite Hi in Hj. injection Hj as <-. exists t'. split_and!; [done| |by apply Hq].
      by apply Hstay.
    + exists u. cbn. by rewrite list_lookup_insert_ne.
Qed.

Lemma stream_put i j k t p w' s l :
  sy_threads s !! i = Some t ->
  (exists ps, sending_packet (client_at (w_broker w') k) =
     sending_packet (client_at (sy_broker s) k) ++ ps /\ l = concat (send_buf <$> ps)) ->
  base_sock (w_ep w') = base_sock (t_ep t) ->
  (i = j -> sent_bytes (fd_of (base_sock (t_ep t)) k) (os_trace (w_os w')) =
            sent_bytes (fd_of (base_sock (t_ep t)) k) (os_trace (t_os t))) ->
  is_Some (sy_threads s !! j) ->
  stream j k (put_thread i p w' s) = stream j k s ++ l.
Proof.
  intros Hi (ps & Hq & ->) Hb Hs [u Hj]. unfold stream. cbn [sy_threads sy_broker put_thread].
  destruct (decide (i = j)) as [<-|Hne].
  - rewrite list_lookup_insert_eq by (by eapply lookup_lt_Some). rewrite Hi. cbn [t_os t_ep].
    by rewrite Hb, Hs, Hq, fmap_app, concat_app, app_assoc.
  - rewrite list_lookup_insert_ne, Hj by done. by rewrite Hq, fmap_app, concat_app, app_assoc.
Qed.

Lemma flows_lets i j k t p w' s :
  flows j k s -> sy_threads s !! i = Some t -> system_ok (put_thread i p w' s) ->
  lets k (view (sy_broker s) t) w' -> socks_after k (members t) (view (sy_broker s) t) w' ->
  flows j k (put_thread i p w' s) /\ exists l, stream j k (put_thread i p w' s) = stream j k s ++ l.
Proof.
  intros Hf Hi Hok' [Hb Hq [q Htx] Hs] Ha. split.
  - eapply flows_put; [done|exact Hi|done|done| |].
    + eapply extends_outgoing; [exact Hq|apply Hf].
    + cbn in Htx. rewrite Htx. unfold takes_only. rewrite Forall_app. tauto.
  - destruct Hq as (_ & _ & ps & Hq & _). exists (concat (send_buf <$> ps)).
    eapply stream_put; [exact Hi|by exists ps|done|done|]. destruct (fl_thread _ _ _ Hf) as (u & -> & _). done.
Qed.

(** The sending for [k] hands over all that is queued. *)
Lemma flows_send j k t s :
  flows j k s -> sy_threads s !! j = Some t -> t_phase t = Sending (Some k) ->
  exists p w', step_thread j s = Ok (put_thread j p w' s) /\
    flows j k (put_thread j p w' s) /\
    sent_bytes (fd_of (base_sock (t_ep t)) k) (os_trace (w_os w')) = stream j k s /\
    stream j k (put_thread j p w' s) = stream j k s.
Proof.
  intros Hf Hj Hp. pose proof Hf as [Hok Hsocks Hout (t' & Hj' & Hk & Htx)].
  rewrite Hj in Hj'. injection Hj' as <-. set (w := view (sy_broker s) t).
  pose proof (th_good _ _ (sok_threads s Hok j t Hj)) as Hg. fold w in Hg.
  destruct (send_client_takes k w Hout Htx) as (w' & tr & Hrun & Htr & Hto & Hs & (Hqe & Hce & Hne) & Htx' & Hep & Ho).
  destruct (send_client_run k w (good_clients _ _ _ Hg)) as (w1 & Hrun1 & Hbo & Hso & _).
  rewrite Hrun in Hrun1. injection Hrun1 as <-.
  pose proof (Hsocks j t Hj k Hk) as Hsk. unfold view in w. cbn in Hs. rewrite Hsk in Hs.
  set (p := Sending (hh_next (hh_of (contexts_by_ptr (w_ep w')) k))).
  assert (Hstep : step_thread j s = Ok (put_thread j p w' s)).
  { unfold step_thread. rewrite Hj, Hp. cbn [next_step]. fold w.
    rewrite (bind_ok _ _ _ _ _ Hrun). reflexivity. }
  exists p, w'. split; [done|].
  assert (Hok' : system_ok (put_thread j p w' s)).
  { assert (Hm : move s j (Ok (put_thread j p w' s))).
    { rewrite <- Hstep. apply (move_step s j t); [done|by rewrite Hp|]. unfold fresh_accept. by rewrite Hp. }
    refine (move_fine _ _ _ Hok _ Hm). intros t1 Ht1. rewrite Hj in Ht1. injection Ht1 as <-. by rewrite Hp. }
  assert (Hstr : sent_bytes (fd_of (base_sock (t_ep t)) k) (os_trace (w_os w')) = stream j k s).
  { unfold stream. rewrite Hj, Htr, sent_bytes_app, Hs. done. }
  split_and!; [|done|].
  - eapply flows_put; [done|exact Hj|done| | |done].
    + apply socks_unchanged; [by apply (Hsocks j t)|rewrite Hep; apply Hg|by rewrite Hep|].
      intros m. apply (reader_sock _ _ (sends_readers _ _ Hso m)).
    + split; [done|by rewrite Hne, Hqe|by rewrite Hqe].
  - rewrite <- Hstr. unfold stream at 1. cbn [put_thread sy_threads sy_broker].
    rewrite list_lookup_insert_eq by (by eapply lookup_lt_Some). cbn [t_os t_ep]. rewrite Hqe, Hep. apply app_nil_r.
Qed.

(** ** Any number of steps *)

Lemma sending_member s i t n :
  system_ok s -> sy_threads s !! i = Some t -> t_phase t = Sending (Some n) -> n ∈ members t.
Proof.
  intros Hok Hi Hp. destruct (sok_threads s Hok i t Hi) as [_ Hph].
  unfold phase_ok in Hph. rewrite Hp in Hph. destruct Hph as (l1 & [|m l2] & -> & [=]). subst m.
  rewrite elem_of_app, elem_of_cons. tauto.
Qed.

Lemma flows_move i j k s s' :
  flows j k s -> silent k i s -> roomy s i -> move s i (Ok s') ->
  flows j k s' /\ exists l, stream j k s' = stream j k s ++ l.
Proof.
  intros Hf Hsil Hroom Hm. pose proof (move_fine _ _ _ (fl_ok _ _ _ Hf) Hroom Hm) as Hok'. cbn in Hok'.
  pose proof Hf as [Hok Hsocks _ (u & Hj & Hk & _)]. inversion Hm as [i1 t events Hi _ _ Hii E|i1 t Hi _ Hfr Hii E]; subst i1.
  - subst s'. unfold wake in *. rewrite Hi in *. apply (flows_lets i j k t); [done..|apply lets_refl|].
    apply socks_unchanged; [by apply (Hsocks i t)|apply (sok_threads s Hok i t Hi)|done|done].
  - destruct (decide (t_phase t = Sending (Some k))) as [Hp|Hp].
    { pose proof (sok_apart s Hok i j t u k Hi Hj (sending_member _ _ _ _ Hok Hi Hp) Hk) as ->.
      destruct (flows_send j k t s Hf Hi Hp) as (p & w' & Hstep & Hf' & _ & Hstr).
      rewrite Hstep in E. injection E as <-. split; [done|]. exists []. by rewrite app_nil_r. }
    pose proof (wp_next_lets k i t s Hok Hi (Hsocks i t Hi) Hfr Hroom Hsil Hp) as Hwp.
    cbv zeta in Hwp. unfold wp, step_thread in *. rewrite Hi in E.
    destruct (next_step (t_phase t) _) as [[p w']| |]; [|done|done]. cbn in E. injection E as <-.
    destruct Hwp as [Hl Ha]; [exists u; by split; [eapply list_elem_of_lookup_2|]|].
    by apply (flows_lets i j k t).
Qed.

Lemma flows_quiet j k s s' :
  flows j k s -> quiet k s s' -> flows j k s' /\ exists l, stream j k s' = stream j k s ++ l.
Proof.
  intros Hf. induction 1 as [|s1 i s2 _ [Hf1 [l1 H1]] Hsil Hroom Hm].
  { split; [done|]. exists []. by rewrite app_nil_r. }
  destruct (flows_move i j k s1 s2 Hf1 Hsil Hroom Hm) as [Hf2 [l2 H2]]. split; [done|].
  exists (l1 ++ l2). by rewrite H2, H1, app_assoc.
Qed.

(** A loop without events goes on to send for the first of its clients. *)
Lemma idle_thread k i t s :
  sy_threads s !! i = Some t -> t_phase t = Waiting ->
  let p := Sending (ut_head (contexts_by_ptr (t_ep t))) in
  quiet k s (put_thread i p (view (sy_broker s) t) s).
Proof.
  intros Hi Hw p. set (s1 := wake i [] s). set (w := view (sy_broker s) t).
  assert (E : s1 = put_thread i (Handling []) w s) by (unfold s1, wake; by rewrite Hi).
  assert (Hi1 : sy_threads s1 !! i = Some {| t_ep := t_ep t; t_os := t_os t; t_phase := Handling [] |}).
  { rewrite E. cbn. rewrite list_lookup_insert_eq; [done|by eapply lookup_lt_Some]. }
  eapply (quiet_move k s s1 i); [eapply (quiet_move k s s i); [constructor| | |]| | |].
  - intros u Hu. rewrite Hi in Hu. injection Hu as <-. by rewrite Hw.
  - intros u Hu. rewrite Hi in Hu. injection Hu as <-. by rewrite Hw.
  - apply (move_wake s i t); [done|done|]. split; [constructor|set_solver|set_solver].
  - intros u Hu. rewrite Hi1 in Hu. by injection Hu as <-.
  - intros u Hu. rewrite Hi1 in Hu. by injection Hu as <-.
  - replace (Ok _) with (step_thread i s1).
    + eapply (move_step s1 i); [exact Hi1|done|done].
    + rewrite E, step_thread_put by (by eapply lookup_lt_Some). done.
Qed.

(** A step of one thread leaves the others where they are. *)
Lemma step_other i j s s' :
  step_thread i s = Ok s' -> i <> j -> sy_threads s' !! j = sy_threads s !! j.
Proof.
  intros H Hne. unfold step_thread in H. destruct (sy_threads s !! i) as [t|]; [|by injection H as <-].
  destruct (next_step _ _) as [[p w']| |]; [|done|done]. cbn in H. injection H as <-. cbn.
  by rewrite list_lookup_insert_ne.
Qed.

(** ** A publication *)

(** What the step of the loop that reads a publication adds to every stream *)
Lemma publication_step b ds topic body fd events i j k t s :
  flows j k s -> sy_threads s !! i = Some t -> t_phase t = Handling ((fd, EPOLLIN) :: events) ->
  incoming b ds topic body fd (view (sy_broker s) t) -> slot (view (sy_broker s) t) fd <> k ->
  exists s' fs, step_thread i s = Ok s' /\
    matching (ss_roots (sy_broker s)) (tokens topic) fs /\ flows j k s' /\
    stream j k s' = stream j k s ++
      concat (replicate (multiplicity k (recipients (sy_broker s) fs)) (publish_bytes topic body)).
Proof.
  intros Hf Hi Hp Hin Hne. pose proof Hin as [Hrq _ _ _ [_ Hls] _ _].
  pose proof (wp_publication_event _ _ _ _ _ _ Hin) as Hev.
  apply wp_elim in Hev as ([] & w' & Hrun & fs & Hfs & [Hep _ Htrace Hboxes]).
  set (s' := put_thread i (Handling events) w' s). exists s', fs.
  assert (Hstep : step_thread i s = Ok s').
  { unfold step_thread. rewrite Hi, Hp. cbn [next_step]. by rewrite (bind_ok _ _ _ _ _ Hrun). }
  split; [exact Hstep|]. split; [exact Hfs|]. split.
  - apply (flows_move i j k s); [done| | |].
    + intros t' Hi'. rewrite Hi in Hi'. injection Hi' as <-. by rewrite Hp.
    + intros t' Hi'. rewrite Hi in Hi'. injection Hi' as <-. rewrite Hp. unfold overfull.
      cbn [fst]. rewrite (proj2 (Z.eqb_neq _ _) Hls). by rewrite andb_false_r.
    + rewrite <- Hstep. apply (move_step s i t); [done|by rewrite Hp|].
      unfold fresh_accept. by rewrite Hp.
  - pose proof (Hboxes k) as [= _ Hq _ _]. rewrite queue_enqueue in Hq.
    apply (stream_put i j k t); [exact Hi|..].
    + eexists. split; [exact Hq|]. by rewrite fmap_replicate.
    + by rewrite Hep.
    + intros _. by rewrite Htrace.
    + destruct (fl_thread _ _ _ Hf) as (u & -> & _). done.
Qed.

End build.
