(* ===== verification/Atomic.v ===== *)
(** * Sending while other threads queue

    The loop of [loop_run] that sends for a client holds [sending_lock] when it
    reads the number of packets and when it takes one; in between, other
    threads may append packets to any queue, under the same lock.  Here the
    sending is cut into the steps between which that can happen. *)

From S2P Require Import Prelude.
From S2P Require Import Mqtt.
From S2P Require Import Substree.
From S2P Require Import Broker.
From S2P Require Import Handler.
From S2P Require Import EventIO.
From S2P Require Import BrokerInv.
From S2P Require Import OutputFacts.
From S2P Require Import OutputSpec.

(** ** The steps *)

(** Where the sending for a client is: before it reads the count, before it
    takes a packet with so many still to be sent, inside [while (cur->wcur <
    cur->wlen)], or past the client. *)
Inductive place : Type :=
| Counting
| Taking (num_sending : nat)
| Writing (num_sending : nat)
| Passed.

Definition sending_step (n : nat) (pc : place) : M world place :=
  match pc with
  | Counting =>
      let* c := in_broker (get_client n) in
      ret (if num_sending_pack c <? 1 then Passed else Taking (Z.to_nat (num_sending_pack c)))
  | Taking O => ret Passed
  | Taking (S k) => in_broker (on_client n take_packet) ;;; ret (Writing k)
  | Writing k =>
      let* r := send_step n in
      match r with
      | None => ret (Writing k)
      | Some true => ret Passed
      | Some false => end_packet n ;;; ret (Taking k)
      end
  | Passed => ret Passed
  end.

(** A step of the sending thread, or of another one that queues a packet *)
Inductive act : Type :=
| Own
| Queue (m : nat) (p : packet).

Fixpoint interleaved (n : nat) (sched : list act) (pc : place) : M world place :=
  match sched with
  | [] => ret pc
  | Own :: sched' => let* pc' := sending_step n pc in interleaved n sched' pc'
  | Queue m p :: sched' => in_broker (on_client m (enqueue p)) ;;; interleaved n sched' pc
  end.

Fixpoint owns (sched : list act) : nat :=
  match sched with [] => O | Own :: l => S (owns l) | Queue _ _ :: l => owns l end.
Fixpoint others (sched : list act) : list (nat * packet) :=
  match sched with [] => [] | Own :: l => others l | Queue m p :: l => (m, p) :: others l end.

(** What the others have done, all at once *)
Definition queued (a : nat * packet) (w : world) : world :=
  w <| w_broker := change_client a.1 (enqueue a.2) (w_broker w) |>.
Definition all_queued (l : list (nat * packet)) (w : world) : world := foldl (fun w a => queued a w) w l.

(** ** Left alone, the steps are [send_client] *)

Abbreviation alone n k := (interleaved n (replicate k Own)).

Lemma alone_step n k pc w pc' w' :
  sending_step n pc w = Ok (pc', w') -> alone n (S k) pc w = alone n k pc' w'.
Proof. intros H. cbn [replicate interleaved]. by rewrite (bind_ok _ _ _ _ _ H). Qed.

Lemma alone_add n j k pc w pc' w' :
  alone n j pc w = Ok (pc', w') -> alone n (j + k) pc w = alone n k pc' w'.
Proof.
  revert pc w. induction j as [|j IH]; intros pc w H; [by injection H as -> ->|].
  cbn [replicate interleaved Nat.add] in *. unfold bind in *.
  destruct (sending_step n pc w) as [[pc1 w1]| |]; [by apply IH|done|done].
Qed.

Lemma owns_alone k : owns (replicate k Own) = k /\ others (replicate k Own) = [].
Proof. induction k as [|k [IH1 IH2]]; [done|]. cbn. by rewrite IH1, IH2. Qed.

Lemma alone_passed n k w : alone n k Passed w = Ok (Passed, w).
Proof. induction k as [|k IH]; [done|]. by erewrite alone_step. Qed.

Lemma loop_alone n k fuel w b w' :
  send_loop n fuel w = Ok (b, w') ->
  exists j, forall w2, (b = false -> end_packet n w' = Ok (tt, w2)) ->
    alone n j (Writing k) w = Ok (if b then (Passed, w') else (Taking k, w2)).
Proof.
  revert w. induction fuel as [|fuel IH]; intros w H; [done|]. cbn [send_loop] in H.
  apply bind_inv in H as (r & w1 & Hs & H). destruct r as [b1|].
  - injection H as -> ->. exists 1%nat. intros w2 H2.
    destruct b; [rewrite (alone_step n 0 _ _ Passed w')|rewrite (alone_step n 0 _ _ (Taking k) w2)];
      try done; cbn [sending_step]; rewrite (bind_ok _ _ _ _ _ Hs); [done|].
    by rewrite (bind_ok _ _ _ _ _ (H2 eq_refl)).
  - destruct (IH w1 H) as [j Hj]. exists (S j). intros w2 H2. rewrite <- (Hj w2 H2).
    apply alone_step. cbn [sending_step]. by rewrite (bind_ok _ _ _ _ _ Hs).
Qed.

Lemma one_alone n k w b w' :
  send_one n w = Ok (b, w') ->
  exists j, alone n j (Taking (S k)) w = Ok (if b then Passed else Taking k, w').
Proof.
  intros H. unfold send_one in H. apply bind_inv in H as ([] & w1 & Ht & H).
  apply bind_inv in H as (fuel & w2 & Hf & H). injection Hf as <- <-.
  apply bind_inv in H as (skip & w3 & Hl & H).
  destruct (loop_alone n k _ _ _ _ Hl) as [j Hj]. exists (S j).
  rewrite (alone_step n j _ _ (Writing k) w1) by (cbn [sending_step]; by rewrite (bind_ok _ _ _ _ _ Ht)).
  destruct skip.
  - injection H as <- <-. by apply (Hj w3).
  - apply bind_inv in H as ([] & w4 & He & H). injection H as <- <-. by apply Hj.
Qed.

Lemma many_alone n k w w' :
  send_many n k w = Ok (tt, w') -> exists j, alone n j (Taking k) w = Ok (Passed, w').
Proof.
  revert w. induction k as [|k IH]; intros w H.
  { injection H as <-. by exists 1%nat. }
  cbn [send_many] in H. apply bind_inv in H as (b & w1 & H1 & H).
  destruct (one_alone n k w b w1 H1) as [j Hj]. destruct b.
  - injection H as <-. by exists j.
  - destruct (IH w1 H) as [j' Hj']. exists (j + j')%nat. by rewrite (alone_add n j j' _ _ _ _ Hj).
Qed.

Lemma client_alone n w w' :
  send_client n w = Ok (tt, w') -> exists j, alone n (S j) Counting w = Ok (Passed, w').
Proof.
  intros H. unfold send_client in H. apply bind_inv in H as (c & w1 & Hc & H).
  assert (Hstep : sending_step n Counting w = Ok (if num_sending_pack c <? 1 then Passed
    else Taking (Z.to_nat (num_sending_pack c)), w1)).
  { cbn [sending_step]. by rewrite (bind_ok _ _ _ _ _ Hc). }
  destruct (num_sending_pack c <? 1).
  - injection H as <-. exists O. by rewrite (alone_step _ _ _ _ _ _ Hstep).
  - apply many_alone in H as [j Hj]. exists j. by rewrite (alone_step _ _ _ _ _ _ Hstep).
Qed.

(** ** What holds at each place *)

(** A packet that is being sent: its counter is a [uint32_t], and may be past
    the end. *)
Definition sendable_packet (p : packet) : Prop :=
  wlen p = zlen (send_buf p) /\ wlen p < 2 ^ 32 /\ 0 <= wcur p < 2 ^ 32.

Definition at_place (n : nat) (pc : place) (w : world) : Prop :=
  let c := ss_clients (w_broker w) !!! n in
  Forall packet_ok (sending_packet c) /\
  match pc with
  | Counting => False
  | Taking k => from_option packet_ok True (sending_cur_packet c) /\ (k <= to_send c)%nat
  | Writing k => (exists p, sending_cur_packet c = Some p /\ sendable_packet p) /\
      (k <= length (sending_packet c))%nat
  | Passed => True
  end.

Lemma packet_sendable p : packet_ok p -> sendable_packet p.
Proof. unfold packet_ok, sendable_packet. lia. Qed.

Definition changed (n : nat) (f : client -> client) (w : world) : world :=
  w <| w_broker := change_client n f (w_broker w) |>.

Lemma on_client_run n f w : in_broker (on_client n f) w = Ok (tt, changed n f w).
Proof. done. Qed.

Lemma client_run n b w :
  in_broker (get_client n) (w <| w_broker := b |>) = Ok (ss_clients b !!! n, w <| w_broker := b |>).
Proof. done. Qed.

Lemma changed_at n f w i :
  ss_clients (w_broker (changed n f w)) !!! i =
  if decide (i = n) then f (ss_clients (w_broker w) !!! n) else ss_clients (w_broker w) !!! i.
Proof.
  cbn. case_decide as E; [subst i; apply lookup_total_insert_eq|by apply lookup_total_insert_ne].
Qed.

Lemma send_answers fd l w :
  0 < zlen l < 2 ^ 32 ->
  exists r w', send fd l w = Ok (r, w') /\ 0 < u32 r /\ w_broker w' = w_broker w /\
    forall b, send fd l (w <| w_broker := b |>) = Ok (r, w' <| w_broker := b |>).
Proof.
  intros Hl. change (2 ^ 32) with 4294967296 in Hl. unfold send, bind, gets, trace, in_os, zoom.
  cbn [w_os update]. destruct (os_tx (w_os w)) as [|[k|e] q]; eexists _, _.
  - split; [reflexivity|]. split; [rewrite u32_small; lia|done].
  - split; [reflexivity|]. split; [rewrite u32_small; lia|done].
  - split; [reflexivity|]. done.
Qed.

Lemma send_step_answers n w p :
  sending_cur_packet (ss_clients (w_broker w) !!! n) = Some p -> sendable_packet p ->
  (wlen p <= wcur p /\ send_step n w = Ok (Some false, w)) \/
  (wcur p < wlen p /\ exists r w1, 0 < u32 r /\ w_broker w1 = w_broker w /\
    (forall b, sock (ss_clients b !!! n) = sock (ss_clients (w_broker w) !!! n) ->
       sending_cur_packet (ss_clients b !!! n) = Some p ->
       send_step n (w <| w_broker := b |>) =
       Ok (None, changed n (fun c => c <| sending_cur_packet :=
         Some (p <| wcur := u32 (wcur p + u32 r) |>) |>) (w1 <| w_broker := b |>)))).
Proof.
  intros Hp (Hl & Hlt & Hw).
  assert (Hcur : forall b, sending_cur_packet (ss_clients b !!! n) = Some p ->
    current_packet n (w <| w_broker := b |>) = Ok (p, w <| w_broker := b |>)).
  { intros b Hb. unfold current_packet, bind, in_broker, zoom, get_client, gets. cbn. by rewrite Hb. }
  destruct (Z.lt_ge_cases (wcur p) (wlen p)) as [Hmore|Hdone].
  - right. split; [done|].
    destruct (send_answers (sock (ss_clients (w_broker w) !!! n)) (drop (Z.to_nat (wcur p)) (send_buf p)) w)
      as (r & w1 & _ & Hr & Hb & Hs); [rewrite length_drop; lia|].
    exists r, w1. split_and!; [done|done|]. intros b Hsock Hb'. unfold send_step.
    rewrite (bind_ok _ _ _ _ _ (Hcur b Hb')), (proj2 (Z.ltb_lt _ _)) by done.
    rewrite (bind_ok _ _ _ _ _ (client_run n b w)), Hsock.
    rewrite (bind_ok _ _ _ _ _ (Hs b)), (proj2 (Z.leb_gt _ _)) by done.
    by rewrite (bind_ok _ _ _ _ _ (on_client_run _ _ _)).
  - left. split; [done|]. unfold send_step. specialize (Hcur (w_broker w) Hp).
    replace (w <| w_broker := w_broker w |>) with w in Hcur by by destruct w.
    by rewrite (bind_ok _ _ _ _ _ Hcur), (proj2 (Z.ltb_ge _ _)).
Qed.

Lemma end_packet_run n w p :
  sending_cur_packet (ss_clients (w_broker w) !!! n) = Some p -> wlen p <= wcur p ->
  end_packet n w = Ok (tt, changed n sent_one w).
Proof.
  intros Hp Hw. unfold end_packet. rewrite (bind_ok _ _ _ _ _ (on_client_run _ _ _)).
  set (w1 := changed n _ w).
  assert (Hcur : current_packet n w1 = Ok (p, w1)).
  { unfold current_packet, bind, in_broker, zoom, get_client, gets. cbn.
    rewrite lookup_total_insert_eq. cbn. by rewrite Hp. }
  rewrite (bind_ok _ _ _ _ _ Hcur), (proj2 (Z.leb_le _ _)), on_client_run by done.
  unfold w1, changed, change_client. cbn. by rewrite lookup_total_insert_eq, insert_insert_eq.
Qed.

(** ** Steps and queuing commute *)

Lemma changed_comm m n f g w :
  (m = n -> f (g (ss_clients (w_broker w) !!! n)) = g (f (ss_clients (w_broker w) !!! n))) ->
  changed m f (changed n g w) = changed n g (changed m f w).
Proof.
  intros H. unfold changed, change_client. cbn. do 2 f_equal.
  destruct (decide (m = n)) as [->|Hne].
  - by rewrite !lookup_total_insert_eq, !insert_insert_eq, H.
  - rewrite !lookup_total_insert_ne by done. by rewrite insert_insert_ne.
Qed.

Lemma take_enqueue p c :
  (0 < to_send c)%nat -> enqueue p (take_packet c) = take_packet (enqueue p c).
Proof.
  destruct c as []. unfold to_send, take_packet, enqueue. cbn. intros H.
  destruct sending_packet as [|p1 q], sending_cur_packet as [p2|]; cbn in *; try lia; cbn; f_equal; lia.
Qed.

Lemma queued_client m p w n :
  let c := ss_clients (w_broker w) !!! n in
  let c' := ss_clients (w_broker (queued (m, p) w)) !!! n in
  sock c' = sock c /\ sending_cur_packet c' = sending_cur_packet c.
Proof.
  cbv zeta. change (queued (m, p) w) with (changed m (enqueue p) w). rewrite changed_at.
  by case_decide as E; [subst n|].
Qed.

(** A step is made, and makes no difference to what others queue. *)
Definition goes (n : nat) (pc : place) (w : world) : Prop :=
  exists pc' w', sending_step n pc w = Ok (pc', w') /\ at_place n pc' w' /\
    forall a, sending_step n pc (queued a w) = Ok (pc', queued a w').

Lemma taking_goes n k w : at_place n (Taking (S k)) w -> goes n (Taking (S k)) w.
Proof.
  intros [Hq [Hcur Hk]]. exists (Writing k), (changed n take_packet w). split; [done|]. split.
  - unfold at_place, to_send, take_packet in *. rewrite changed_at, decide_True by done.
    destruct (ss_clients (w_broker w) !!! n) as []. cbn in *.
    destruct sending_packet as [|p1 q], sending_cur_packet as [p2|]; cbn in *; try lia;
      (split; [done || by inversion Hq|split; [eexists; split; [done|]|lia]]).
    + by apply packet_sendable.
    + by apply packet_sendable.
    + apply packet_sendable. by inversion Hq.
  - intros [m p]. cbn [sending_step]. rewrite (bind_ok _ _ _ _ _ (on_client_run _ _ _)).
    unfold ret. do 2 f_equal. symmetry. apply (changed_comm m n). intros ->. apply take_enqueue. lia.
Qed.

Lemma ending_goes n k p w :
  at_place n (Writing k) w -> sending_cur_packet (ss_clients (w_broker w) !!! n) = Some p ->
  sendable_packet p -> wlen p <= wcur p -> goes n (Writing k) w.
Proof.
  intros [Hq [_ Hk]] Hp Hok Hend. exists (Taking k), (changed n sent_one w).
  assert (Hrun : forall w, sending_cur_packet (ss_clients (w_broker w) !!! n) = Some p ->
    sending_step n (Writing k) w = Ok (Taking k, changed n sent_one w)).
  { intros w' Hp'. destruct (send_step_answers n w' p Hp' Hok) as [[_ Hs]|[Hm _]]; [|lia].
    cbn [sending_step]. rewrite (bind_ok _ _ _ _ _ Hs).
    by rewrite (bind_ok _ _ _ _ _ (end_packet_run n w' p Hp' Hend)). }
  split; [by apply Hrun|]. split.
  - unfold at_place, to_send. rewrite changed_at, decide_True by done. cbn. split_and!; [done|done|lia].
  - intros [m p']. destruct (queued_client m p' w n) as [_ Hc]. rewrite Hp in Hc.
    rewrite Hrun by done. do 2 f_equal. symmetry. by apply (changed_comm m n).
Qed.

Lemma writing_goes n k w : at_place n (Writing k) w -> goes n (Writing k) w.
Proof.
  intros Hat. pose proof Hat as [Hq [(p & Hp & Hok) Hk]].
  destruct (send_step_answers n w p Hp Hok) as [[Hend _]|(_ & r & w1 & _ & _ & Hs)].
  { by apply (ending_goes n k p). }
  set (F := fun c => c <| sending_cur_packet := Some (p <| wcur := u32 (wcur p + u32 r) |>) |>) in *.
  exists (Writing k), (changed n F (w1 <| w_broker := w_broker w |>)). split; [|split].
  - cbn [sending_step]. pose proof (Hs (w_broker w) eq_refl Hp) as H.
    replace (w <| w_broker := w_broker w |>) with w in H by by destruct w.
    by rewrite (bind_ok _ _ _ _ _ H).
  - unfold at_place. rewrite changed_at, decide_True by done. cbn. split; [done|]. split; [|done].
    eexists. split; [reflexivity|]. destruct Hok as (Hl & Hlt & _). split; [done|]. split; [done|].
    apply u32_range.
  - intros [m p']. destruct (queued_client m p' w n) as [Hk' Hc]. rewrite Hp in Hc.
    cbn [sending_step]. rewrite (bind_ok _ _ _ _ _ (Hs _ Hk' Hc)).
    unfold ret. do 2 f_equal. symmetry. by apply (changed_comm m n).
Qed.

Lemma step_goes n pc w : at_place n pc w -> goes n pc w.
Proof.
  intros Hat. destruct pc as [|[|k]|k|].
  - by destruct Hat.
  - destruct Hat as [Hq _]. by exists Passed, w.
  - by apply taking_goes.
  - by apply writing_goes.
  - by exists Passed, w.
Qed.

(** ** Any schedule *)

Lemma queued_place n m p pc w :
  packet_ok p -> at_place n pc w -> at_place n pc (queued (m, p) w).
Proof.
  intros Hp [Hq Hat]. unfold at_place in *. change (queued (m, p) w) with (changed m (enqueue p) w).
  rewrite changed_at. case_decide as E; [subst m|by split]. unfold to_send in *. cbn. rewrite length_app.
  split; [by apply Forall_app; split; [|apply Forall_singleton]|].
  destruct pc; [done|destruct Hat; split; [done|lia]..|done].
Qed.

Lemma step_all_queued n pc w l :
  at_place n pc w -> Forall (fun a => packet_ok a.2) l ->
  exists pc' w', sending_step n pc w = Ok (pc', w') /\ at_place n pc' w' /\
    sending_step n pc (all_queued l w) = Ok (pc', all_queued l w').
Proof.
  intros Hat Hl. revert w Hat. induction Hl as [|[m p] l Hp _ IH]; intros w Hat.
  { destruct (step_goes n pc w Hat) as (pc' & w' & Hs & Hat' & _). by exists pc', w'. }
  destruct (step_goes n pc w Hat) as (pc' & w' & Hs & Hat' & Hc).
  destruct (IH (queued (m, p) w)) as (pc2 & w2 & Hs2 & _ & Hl2); [by apply queued_place|].
  rewrite Hc in Hs2. injection Hs2 as <- <-. by exists pc', w'.
Qed.

Lemma interleaved_commutes n sched pc w l :
  at_place n pc w -> Forall (fun a => packet_ok a.2) (l ++ others sched) ->
  exists pc' w', alone n (owns sched) pc w = Ok (pc', w') /\
    interleaved n sched pc (all_queued l w) = Ok (pc', all_queued (l ++ others sched) w').
Proof.
  revert pc w l. induction sched as [|[|m p] sched IH]; intros pc w l Hat Hl; cbn [owns others] in *.
  - exists pc, w. by rewrite app_nil_r.
  - pose proof Hl as [Hl1 _]%Forall_app.
    destruct (step_all_queued n pc w l Hat Hl1) as (pc1 & w1 & Hs & Hat1 & Hl').
    destruct (IH pc1 w1 l Hat1 Hl) as (pc' & w' & Hrun & Hi). exists pc', w'. split.
    + by rewrite (alone_step _ _ _ _ _ _ Hs).
    + cbn [interleaved]. by rewrite (bind_ok _ _ _ _ _ Hl').
  - destruct (IH pc w (l ++ [(m, p)]) Hat) as (pc' & w' & Hrun & Hi); [by rewrite <- app_assoc|].
    exists pc', w'. split; [done|]. rewrite <- app_assoc in Hi. cbn [interleaved].
    rewrite (bind_ok _ _ _ _ _ (on_client_run _ _ _)).
    unfold all_queued in Hi at 1. rewrite foldl_app in Hi. exact Hi.
Qed.

Lemma counted_place n w pc w' :
  broker_ok (w_broker w) -> sending_step n Counting w = Ok (pc, w') -> w' = w /\ at_place n pc w.
Proof.
  intros Hok H. assert (Hc : in_broker (get_client n) w = Ok (ss_clients (w_broker w) !!! n, w)).
  { by destruct w. }
  cbn [sending_step] in H. rewrite (bind_ok _ _ _ _ _ Hc) in H. injection H as <- <-. split; [done|].
  destruct (Hok n) as (_ & Hq & Hcur & Hnum). unfold at_place, to_send. split; [done|].
  destruct (_ <? 1); [done|]. split; [done|]. destruct (sending_cur_packet _); lia.
Qed.

(** C11: sending is atomic.  Other threads may queue packets at any point where
    they can get the lock while the thread of a client sends for it: once that
    thread has made enough steps it has passed the client, without a fault,
    and the state is the one [send_client] leaves when it runs alone from the
    point where it read the count, with the packets of the others queued
    afterwards. *)
Theorem sending_is_atomic n w :
  broker_ok (w_broker w) ->
  exists enough w', send_client n w = Ok (tt, w') /\
    forall sched, (enough <= owns sched)%nat -> Forall (fun a => packet_ok a.2) (others sched) ->
      interleaved n (Own :: sched) Counting w = Ok (Passed, all_queued (others sched) w').
Proof.
  intros Hok. destruct (send_client_any n w Hok) as (w' & Hrun & _).
  destruct (client_alone n w w' Hrun) as [j Hj]. exists j, w'. split; [done|].
  intros sched Hn Hl. cbn [replicate interleaved] in *.
  destruct (sending_step n Counting w) as [[pc w1]| |] eqn:Hs; unfold bind in *; rewrite Hs in *; [|done|done].
  destruct (counted_place n w pc w1 Hok Hs) as [-> Hat].
  destruct (interleaved_commutes n sched pc w [] Hat Hl) as (pc' & w2 & Ha & Hi).
  replace (owns sched) with (j + (owns sched - j))%nat in Ha by lia.
  rewrite (alone_add n j _ _ _ _ _ Hj), alone_passed in Ha. injection Ha as <- <-. exact Hi.
Qed.
