(* ===== verification/EventSpec.v ===== *)
(** * The event loop: connections coming and going *)

From S2P Require Import Prelude.
From S2P Require Import Mqtt.
From S2P Require Import Parser.
From S2P Require Import Serialiser.
From S2P Require Import Substree.
From S2P Require Import UtHash.
From S2P Require Import Broker.
From S2P Require Import Handler.
From S2P Require Import EventIO.
From S2P Require Import LoopSafe.

Section build.
Context {bd : Build} {bd_ok : BuildOk bd}.

(** C38: removing a client of the table takes just it out of the table, makes it
    like a client that was never used and closes its socket; but the thread
    number, the count of packets sent, the packets queued for it and the list of
    its nodes stay, and so do the tree, with the leaves of the client, and all
    other clients.  So the next client on the same descriptor inherits the
    queue and the leaves. *)
Theorem remove_client_correct fd n l1 l2 w :
  client_index (base_sock (w_ep w)) fd = Ok n ->
  represents (contexts_by_ptr (w_ep w)) (l1 ++ n :: l2) -> Z.of_nat (length (l1 ++ n :: l2)) < 2 ^ 32 ->
  exists w', remove_client fd w = Ok (tt, w') /\
    represents (contexts_by_ptr (w_ep w')) (l1 ++ l2) /\
    ss_clients (w_broker w') !!! n =
      (let c := ss_clients (w_broker w) !!! n in
       {| sock := 0; epoll_id := epoll_id c; id := replicate 24 0; last_mid := 0; state := cs_new;
          in_packet := None; in_parser := parser0; out_packet := None; snd_num := snd_num c;
          sending_packet := sending_packet c; sending_cur_packet := None; num_sending_pack := 0;
          remaining_count := 0; remaining_mult := 0; in_payload := None; in_to_process := 0;
          in_cur := 0; is_subscribe := false; subs := subs c |}) /\
    (forall k, k <> n -> ss_clients (w_broker w') !!! k = ss_clients (w_broker w) !!! k) /\
    ss_roots (w_broker w') = ss_roots (w_broker w) /\
    os_trace (w_os w') = os_trace (w_os w) ++ [EpollDel fd; if MTCP then MtcpClose fd else Close fd].
Proof.
  intros Hn Hr Hlen. destruct (HASH_DEL_run_correct _ _ _ _ Hr Hlen) as (u' & Hdel & Hr').
  eexists. split.
  - unfold remove_client, client_of. erewrite bind_ok; cycle 1.
    { erewrite bind_ok by reflexivity. unfold lift. by rewrite Hn. }
    erewrite bind_ok by reflexivity. erewrite bind_ok; cycle 1.
    { unfold lift. by rewrite Hdel. }
    erewrite bind_ok by reflexivity. erewrite bind_ok by reflexivity. reflexivity.
  - cbn. split_and!; [done| | |done|by rewrite <- app_assoc].
    + rewrite lookup_total_insert_eq. by destruct (ss_clients (w_broker w) !!! n).
    + intros k Hk. by rewrite lookup_total_insert_ne.
Qed.

Section accepting.
Context (w : world) (events : Z) (conn : Z) (q : list Z) (l : list nat).
Hypothesis Hq : os_accept (w_os w) = conn :: q.
Hypothesis Hbase : base_ok (base_sock (w_ep w)).
Hypothesis Hr : represents (contexts_by_ptr (w_ep w)) l.

Lemma accept_any :
  accept w = Ok (conn, w <| w_os := (w_os w) <| os_accept := q |> |>).
Proof using Hq. unfold accept. erewrite bind_ok by reflexivity. by rewrite Hq. Qed.

(** A connection whose number is too high is closed, always by the [close] of
    the kernel: on mTCP, whose sockets have their own numbers, the connection
    stays open, and so does not what the kernel knows by that number. *)
Theorem handle_accept_refused :
  max_fd <= conn ->
  handle_event (l_sock (w_ep w), events) w =
  Ok (tt, w <| w_os := (w_os w) <| os_accept := q |> <| os_trace := os_trace (w_os w) ++ [Close conn] |> |>).
Proof using Hq bd_ok.
  intros Hc. pose proof max_fd_pos. unfold handle_event. erewrite bind_ok by reflexivity.
  rewrite Z.eqb_refl. cbn [negb]. erewrite bind_ok; cycle 1.
  { unfold accept_connection. rewrite (bind_ok _ _ _ _ _ accept_any).
    rewrite (proj2 (Z.leb_gt _ _)), (proj2 (Z.leb_le max_fd conn)) by lia.
    erewrite bind_ok by reflexivity. reflexivity. }
  by rewrite Z.eqb_refl.
Qed.

Hypothesis Hconn : 0 < conn < max_fd.

Lemma accept_run :
  accept_connection (l_sock (w_ep w)) w =
  Ok (conn, w <| w_os := (w_os w) <| os_accept := q |> |>).
Proof using Hq Hconn.
  unfold accept_connection. rewrite (bind_ok _ _ _ _ _ accept_any).
  by rewrite !(proj2 (Z.leb_gt _ _)) by lia.
Qed.

Lemma conn_index : client_index (base_sock (w_ep w)) conn = Ok (slot w conn).
Proof using Hconn Hbase. apply client_index_ok; [done|lia]. Qed.

(** A connection on a descriptor not in the table is added at its end,
    and watched; of the other clients none changes. *)
Theorem handle_accept_correct :
  slot w conn ∉ l -> Z.of_nat (length l) < MAX_FD_PER_LOOP ->
  exists w', handle_event (l_sock (w_ep w), events) w = Ok (tt, w') /\
    represents (contexts_by_ptr (w_ep w')) (l ++ [slot w conn]) /\
    sock (ss_clients (w_broker w') !!! slot w conn) = conn /\
    (forall k, k <> slot w conn ->
       ss_clients (w_broker w') !!! k = ss_clients (w_broker w) !!! k) /\
    os_trace (w_os w') = os_trace (w_os w) ++ [EpollAdd conn].
Proof using All.
  intros Hnew Hlen. unfold MAX_FD_PER_LOOP in Hlen. eexists. split.
  - unfold handle_event. erewrite bind_ok by reflexivity. rewrite Z.eqb_refl. cbn [negb].
    rewrite (bind_ok _ _ _ _ _ accept_run). unfold INVALID_SOCKET.
    rewrite (proj2 (Z.eqb_neq _ _)) by lia. cbn [negb]. unfold client_of.
    erewrite bind_ok; cycle 1.
    { erewrite bind_ok by reflexivity. cbn [w_ep update]. rewrite conn_index. reflexivity. }
    erewrite bind_ok by reflexivity.
    rewrite (HASH_COUNT_eq _ _ Hr). unfold s32.
    rewrite signed_small by (change (2 ^ (32 - 1)) with 2147483648; lia).
    unfold MAX_FD_PER_LOOP. rewrite (proj2 (Z.ltb_lt _ _)) by lia.
    erewrite bind_ok by reflexivity. reflexivity.
  - cbn. split_and!; [|by rewrite lookup_total_insert_eq| |done].
    + apply HASH_ADD_run_correct; [done|done|]. change (2 ^ 32) with 4294967296. lia.
    + intros k Hk. by rewrite lookup_total_insert_ne.
Qed.

(** With 32200 clients in the table, a connection makes the loop remove
    the listening socket instead of refusing it: the socket is closed, the
    whole table is lost, and the new connection stays open, unwatched. *)
Theorem handle_accept_full lsock_n :
  MAX_FD_PER_LOOP <= Z.of_nat (length l) < 2 ^ 31 ->
  client_index (base_sock (w_ep w)) (l_sock (w_ep w)) = Ok lsock_n ->
  hh_of (contexts_by_ptr (w_ep w)) lsock_n = hh0 ->
  exists w', handle_event (l_sock (w_ep w), events) w = Ok (tt, w') /\
    represents (contexts_by_ptr (w_ep w')) [] /\
    os_trace (w_os w') = os_trace (w_os w) ++
      [EpollDel (l_sock (w_ep w));
       if MTCP then MtcpClose (l_sock (w_ep w)) else Close (l_sock (w_ep w))] /\
    l_sock (w_ep w') = l_sock (w_ep w) /\ base_sock (w_ep w') = base_sock (w_ep w).
Proof using All.
  intros Hlen Hls Hhh. unfold MAX_FD_PER_LOOP in Hlen. change (2 ^ 31) with 2147483648 in Hlen.
  destruct (HASH_DEL_run_foreign _ _ _ Hr ltac:(destruct l; [cbn in Hlen; lia|done]) Hhh)
    as (u' & Hdel & Hr' & _).
  eexists. split.
  - unfold handle_event. erewrite bind_ok by reflexivity. rewrite Z.eqb_refl. cbn [negb].
    rewrite (bind_ok _ _ _ _ _ accept_run). unfold INVALID_SOCKET.
    rewrite (proj2 (Z.eqb_neq _ _)) by lia. cbn [negb]. unfold client_of at 1.
    erewrite bind_ok; cycle 1.
    { erewrite bind_ok by reflexivity. cbn [w_ep update]. rewrite conn_index. reflexivity. }
    erewrite bind_ok by reflexivity.
    rewrite (HASH_COUNT_eq _ _ Hr). unfold s32.
    rewrite signed_small by (change (2 ^ (32 - 1)) with 2147483648; lia).
    unfold MAX_FD_PER_LOOP. rewrite (proj2 (Z.ltb_ge _ _)) by lia.
    unfold remove_client, client_of. erewrite bind_ok; cycle 1.
    { erewrite bind_ok by reflexivity. cbn [w_ep update]. unfold lift.
      rewrite Hls. reflexivity. }
    erewrite bind_ok by reflexivity. erewrite bind_ok; cycle 1.
    { unfold lift. cbn [w_ep update]. rewrite Hdel. reflexivity. }
    erewrite bind_ok by reflexivity. erewrite bind_ok by reflexivity. reflexivity.
  - cbn. split_and!; [done|by rewrite <- app_assoc|done|done].
Qed.
End accepting.

(** A client that is not in a table any more cannot be removed: the table has no
    head. *)
Lemma lost_client_faults fd events w :
  represents (contexts_by_ptr (w_ep w)) [] -> base_ok (base_sock (w_ep w)) -> 0 <= fd < max_fd ->
  fd <> l_sock (w_ep w) -> Z.land events EPOLLERR <> 0 ->
  handle_event (fd, events) w = Fault NullDeref.
Proof using.
  intros (_ & Hhead & _) Hb Hfd Hls He. unfold handle_event. erewrite bind_ok by reflexivity.
  rewrite (proj2 (Z.eqb_neq _ _)) by done. cbn [negb].
  assert (Hc : client_of fd w = Ok (slot w fd, w)).
  { unfold client_of. erewrite bind_ok by reflexivity. unfold lift. by rewrite client_index_ok. }
  rewrite (bind_ok _ _ _ _ _ Hc). erewrite bind_ok; cycle 1.
  { unfold loop_read. destruct (_ && _); [reflexivity|].
    rewrite (proj2 (Z.eqb_neq _ _) He). reflexivity. }
  cbn [Z.leb Z.compare]. unfold remove_client. rewrite (bind_ok _ _ _ _ _ Hc).
  erewrite bind_ok by reflexivity. unfold bind, lift, HASH_DEL. cbn in Hhead. by rewrite Hhead.
Qed.

(** When a connection comes to a table of 32200 clients, the next client of the
    loop whose connection ends in an error brings the broker down. *)
Theorem full_table_crashes w events conn q l lsock_n fd err :
  os_accept (w_os w) = conn :: q -> base_ok (base_sock (w_ep w)) ->
  represents (contexts_by_ptr (w_ep w)) l -> 0 < conn < max_fd ->
  MAX_FD_PER_LOOP <= Z.of_nat (length l) < 2 ^ 31 ->
  client_index (base_sock (w_ep w)) (l_sock (w_ep w)) = Ok lsock_n ->
  hh_of (contexts_by_ptr (w_ep w)) lsock_n = hh0 ->
  0 <= fd < max_fd -> fd <> l_sock (w_ep w) -> Z.land err EPOLLERR <> 0 ->
  iter handle_event [(l_sock (w_ep w), events); (fd, err)] w = Fault NullDeref.
Proof using bd_ok.
  intros Hq Hb Hr Hconn Hlen Hls Hhh Hfd Hne He. cbn [iter].
  destruct (handle_accept_full w events conn q l Hq Hb Hr Hconn lsock_n Hlen Hls Hhh)
    as (w' & Hrun & Hr' & _ & Hl' & Hb').
  rewrite (bind_ok _ _ _ _ _ Hrun). unfold bind at 1.
  rewrite lost_client_faults; [done|done|by rewrite Hb'|done|by rewrite Hl'|done].
Qed.
End build.
