(* ===== verification/Scenarios.v ===== *)
(** * Small runs of the whole broker

    Concrete worlds, for the theorems about whole runs here and for examples
    elsewhere. *)

From S2P Require Import Prelude.
From S2P Require Import Topic.
From S2P Require Import Mqtt.
From S2P Require Import Parser.
From S2P Require Import Serialiser.
From S2P Require Import Substree.
From S2P Require Import SubstreeFacts.
From S2P Require Import UtHash.
From S2P Require Import Broker.
From S2P Require Import Handler.
From S2P Require Import EventIO.

(** Memory never runs out. *)
Definition plenty : alloc := {| al_next := 0; al_fail := fun _ => false |}.

(** The tree is made after the broker and its clients. *)
Definition broker0 : broker :=
  match init_tree (plenty <| al_next := 2%nat |>) with
  | Ok ((_, Some roots), a) => broker_init roots a
  | _ => broker_init [] plenty
  end.

Definition seg (l : list Z) : rx := match l with b :: l => Segment b l | [] => EndOfStream end.

(** Packets with short fields, as a client sends them *)
Definition connect_bytes (cid : list Z) : list Z :=
  [16; 12 + Z.of_nat (length cid); 0; 4; 77; 81; 84; 84; 4; 2; 0; 60; 0; Z.of_nat (length cid)] ++ cid.
Definition subscribe_bytes (topic : list Z) : list Z :=
  [130; 5 + Z.of_nat (length topic); 0; 1; 0; Z.of_nat (length topic)] ++ topic ++ [0].
(** The topic is followed by a NUL in the content, where the validator stops. *)
Definition publish_bytes0 (topic content : list Z) : list Z :=
  [48; 3 + Z.of_nat (length topic) + Z.of_nat (length content); 0; Z.of_nat (length topic)]
    ++ topic ++ 0 :: content.

(** A loop that listens on descriptor 3, with a script for each socket. *)
Definition start_world (rxs : gmap Z (list rx)) (conns : list Z) (txs : list tx) : world := {|
  w_broker := broker0;
  w_ep := {| l_sock := 3; base_sock := 0; th_id := 0; contexts_by_ptr := ut_empty |};
  w_os := {| os_rx := rxs; os_tx := txs; os_accept := conns; os_errno := EOTHER; os_trace := [] |} |}.

Definition trace_of (r : outcome (unit * world)) : option (list syscall) :=
  match r with Ok (_, w) => Some (os_trace (w_os w)) | _ => None end.

(** A client subscribes to "a/#", another publishes on "a/b": the message gets
    through, fragmented as it may be. *)
Definition ab : list Z := [97; 47; 98].
Definition good_run : outcome (unit * world) :=
  loop_run [Some [(3, 1)]; Some [(3, 1)]; Some [(5, 1)]; Some [(5, 1); (6, 1)]; Some [(5, 1)]; Some [(6, 1)]]
    (start_world
       (<[5 := [Segment 16 []; RxError EAGAIN; seg (drop 1 (connect_bytes [120])); seg (subscribe_bytes [97; 47; 35; 0])]]>
       (<[6 := [seg (connect_bytes [121] ++ publish_bytes0 ab [1; 2])]]> ∅)) [5; 6] []).

(** The subscription in [good_run] ends its filter with a NUL byte, which keeps
    the validator inside the payload. *)
Example good_run_trace :
  trace_of good_run = Some
    [EpollAdd 5; EpollAdd 6; Sent 5 [32; 2; 0; 0]; Sent 6 [32; 2; 0; 0]; Sent 5 [144; 3; 0; 1; 0];
     Sent 5 (48 :: 8 :: 0 :: 3 :: ab ++ [0; 1; 2])].
Proof. vm_compute. reflexivity. Qed.

(** ** A [#] node with a child is passed over *)

Section search.
Context {C : Type} `{ClientStore C} (callback : nat -> M (sstate C) unit).

(** Once a filter that continues after [#] has been accepted (the result
    of the validator is not used), the search passes over the [#] node: its
    leaves get nothing any more, whatever the topic. *)
Theorem hash_child_silences a t ls pre b post tokens s :
  sh_topic b = [HASH] -> sh_children b <> [] -> no_hash tokens ->
  _sub_search callback (Subhier a t ls (pre ++ b :: post)) tokens s =
  _sub_search callback (Subhier a t ls (pre ++ post)) tokens s.
Proof using.
  intros Hb Hc Hno. cbn [_sub_search]. revert s. induction pre as [|b0 pre IH]; intros s; cbn [app].
  - rewrite (bool_decide_eq_true_2 (sh_topic b = [HASH])), (bool_decide_eq_false_2 (_ = [])) by done.
    destruct tokens as [|t0 ts]; [done|]. apply Forall_cons in Hno as [Ht _].
    rewrite (bool_decide_eq_false_2 (sh_topic b = t0)) by congruence.
    by rewrite (bool_decide_eq_false_2 (sh_topic b = [PLUS])) by (by rewrite Hb).
  - apply bind_eq; [done|]. intros _ s'. apply IH.
Qed.
End search.

(** ** The next client on a descriptor *)

Definition long_id : list Z := replicate 24 97.

(** A client refused for its long identifier never gets the CONNACK with
    the refusal: the next client on the same descriptor does, in place of its
    own. *)
Theorem refusal_goes_to_next_client :
  trace_of (loop_run [Some [(3, 1)]; Some [(5, 1)]; Some [(3, 1)]; Some [(5, 1)]]
    (start_world (<[5 := [seg (connect_bytes long_id); seg (connect_bytes [120])]]> ∅) [5; 5] [])) =
  Some [EpollAdd 5; EpollDel 5; Close 5; EpollAdd 5; Sent 5 [32; 2; 0; 2]].
Proof. vm_compute. reflexivity. Qed.

(** A client that takes over a descriptor and subscribes to "c" is sent what
    is published on "a/b", to which the client before it had subscribed. *)
Theorem subscription_is_inherited :
  trace_of (loop_run [Some [(3, 1)]; Some [(3, 1)]; Some [(5, 1)]; Some [(5, 1)]; Some [(5, 17)];
      Some [(3, 1)]; Some [(5, 1)]; Some [(5, 1)]; Some [(6, 1)]]
    (start_world
       (<[5 := [seg (connect_bytes [120]); seg (subscribe_bytes (ab ++ [0]));
                seg (connect_bytes [122]); seg (subscribe_bytes [99; 0])]]>
       (<[6 := [seg (publish_bytes0 ab [1; 2])]]> ∅)) [5; 6; 5] [])) =
  Some [EpollAdd 5; EpollAdd 6; Sent 5 [32; 2; 0; 0]; Sent 5 [144; 3; 0; 1; 0];
        EpollDel 5; Close 5; EpollAdd 5; Sent 5 [32; 2; 0; 0]; Sent 5 [144; 3; 0; 1; 0];
        Sent 5 (48 :: 8 :: 0 :: 3 :: ab ++ [0; 1; 2])].
Proof. vm_compute. reflexivity. Qed.
