(* ===== verification/Bench.v ===== *)
(** * tools: what the load generators epsub.c and eppub.c share

    Both open [total_concurrency] connections to a broker from [core_limit]
    threads.  Here are their arguments, the numbers they compute from them,
    the division of the connections among the threads, the identifiers of the
    connections, and what the two programs see of libmosquitto, of the clock
    and of epoll: scripts of answers in the state, and a trace of calls. *)

From Stdlib Require Import Ascii String.
From S2P Require Import Prelude.

(** ** Strings and numbers of the C library *)

(** The characters of a literal *)
Definition lit (s : string) : list Z :=
  map (fun c => Z.of_nat (nat_of_ascii c)) (list_ascii_of_string s).
Arguments lit s%_string.

Definition is_space (c : Z) : bool := (c =? 32) || ((9 <=? c) && (c <=? 13)).
Definition is_digit (c : Z) : bool := (48 <=? c) && (c <=? 57).

Fixpoint skip_space (s : list Z) : list Z :=
  match s with
  | c :: s' => if is_space c then skip_space s' else s
  | [] => []
  end.
Fixpoint read_number (acc : Z) (s : list Z) : Z :=
  match s with
  | c :: s' => if is_digit c then read_number (10 * acc + (c - 48)) s' else acc
  | [] => acc
  end.

(** [atoi(s)]: undefined when the number is not an [int]. *)
Definition atoi (s : list Z) : outcome Z :=
  let n := match skip_space s with
           | 45 :: s' => - read_number 0 s'
           | 43 :: s' => read_number 0 s'
           | s' => read_number 0 s'
           end in
  if s32 n =? n then Ok n else Fault Overflow.

(** What the conversion [%d] prints. *)
Fixpoint show_digits (fuel : nat) (n : Z) : list Z :=
  match fuel with
  | O => []
  | S fuel' => if n <? 10 then [48 + n] else show_digits fuel' (n / 10) ++ [48 + n mod 10]
  end.
(** An [int] has at most ten digits. *)
Definition show_fuel : nat := 10.
Definition show_int (n : Z) : list Z :=
  if n <? 0 then 45 :: show_digits show_fuel (- n) else show_digits show_fuel n.

(** [sprintf] into [char buf[128]]: the text and its terminator must fit. *)
Definition buf_size : Z := 128.
Definition sprintf (text : list Z) : outcome (list Z) :=
  if Z.of_nat (length text) + 1 <=? buf_size then Ok text else Fault OutOfBounds.

(** [strncpy(dst, s, n)] into a zeroed array of [n + 1] characters *)
Definition strncpy (s : list Z) (n : nat) : list Z := take n s.

(** ** Time *)

Record timeval : Type := { tv_sec : Z; tv_usec : Z }.
#[export] Instance timeval_eq_dec : EqDecision timeval.
Proof. solve_decision. Defined.

(** [(b.tv_sec - a.tv_sec) * 1000000 + b.tv_usec - a.tv_usec], a [uint64_t] *)
Definition time_between (a b : timeval) : Z :=
  u64 ((tv_sec b - tv_sec a) * 1000000 + tv_usec b - tv_usec a).

Definition timeval_size : Z := 16.
Fixpoint little_endian (l : list Z) : Z :=
  match l with [] => 0 | b :: l' => b + 256 * little_endian l' end.
(** [memcpy(&tv, &payload[off], sizeof(struct timeval))] *)
Definition load_timeval (payload : list Z) (off : Z) : outcome timeval :=
  let? l := load_bytes (ptr_add (Some payload) off) timeval_size in
  Ok {| tv_sec := s64 (little_endian (take 8 l)); tv_usec := s64 (little_endian (drop 8 l)) |}.

(** The bytes of a number, and of a [struct timeval] *)
Fixpoint to_little_endian (n : nat) (z : Z) : list Z :=
  match n with O => [] | S n' => z mod 256 :: to_little_endian n' (z / 256) end.
Definition timeval_bytes (t : timeval) : list Z :=
  to_little_endian 8 (u64 (tv_sec t)) ++ to_little_endian 8 (u64 (tv_usec t)).

(** Memory that may not have been written: [None] is a byte of which nothing
    is known. *)
Abbreviation raw := (list (option Z)).

(** [memcpy(&payload[off], &t, sizeof(struct timeval))] *)
Definition store_timeval (payload : option raw) (off : Z) (t : timeval) : outcome (option raw) :=
  match payload with
  | None => Fault NullDeref
  | Some m =>
      if Z.of_nat (length m) <? off + timeval_size then Fault OutOfBounds
      else Ok (Some (take (Z.to_nat off) m ++ map Some (timeval_bytes t) ++
                     drop (Z.to_nat (off + timeval_size)) m))
  end.

(** ** Arguments *)

Record options : Type := {
  core_limit : Z; total_concurrency : Z; topic : option (list Z); is_unique : bool;
  client_id : option (list Z); size : Z; fio : bool; outfile : list Z }.
#[export] Instance eta_options : Eta options := fun o =>
  Build_options (core_limit o) (total_concurrency o) (topic o) (is_unique o) (client_id o)
    (size o) (fio o) (outfile o).

Definition MAX_FILE_LEN : Z := 128.

(** The [if]s of the loop over the arguments that both programs have, for
    [argv[i]] and [argv[i + 1]]: [None] is [return FALSE]. *)
Definition option_step (num_cores : Z) (flag value : list Z) (o : options)
    : outcome (option options) :=
  if bool_decide (flag = lit "-N") then
    let? n := atoi value in
    Ok (if num_cores <? n then None else Some (o <| core_limit := n |>))
  else if bool_decide (flag = lit "-p") then
    let? n := atoi value in Ok (Some (o <| total_concurrency := u64 n |>))
  else if bool_decide (flag = lit "-t") then Ok (Some (o <| topic := Some value |>))
  else if bool_decide (flag = lit "-u") then Ok (Some (o <| is_unique := true |>))
  else if bool_decide (flag = lit "-c") then Ok (Some (o <| client_id := Some value |>))
  else if bool_decide (flag = lit "-o") then
    if MAX_FILE_LEN <? Z.of_nat (length value) then Ok None
    else Ok (Some (o <| fio := true |>
                     <| outfile := strncpy value (Z.to_nat MAX_FILE_LEN) |>))
  else Ok (Some o).

(** [for (i = 3; i < argc - 1; i++)]: every argument but the last is tried as
    a flag, a value too. *)
Fixpoint options_loop (step : list Z -> list Z -> options -> outcome (option options))
    (args : list (list Z)) (o : options) : outcome (option options) :=
  match args with
  | flag :: ((value :: _) as args') =>
      let? r := step flag value o in
      match r with None => Ok None | Some o' => options_loop step args' o' end
  | _ => Ok (Some o)
  end.

(** ** The connections of each thread *)

(** [int] arithmetic is undefined out of range. *)
Definition int (z : Z) : outcome Z := if s32 z =? z then Ok z else Fault Overflow.

Record plan : Type := {
  p_core_limit : Z; concurrency : Z; concurrency_remainder_cnt : Z; max_fds : Z;
  total_flows : Z }.

(** From [if (total_concurrency < core_limit)] to [total_flows = ...]; the
    conversion of [core_limit] to [uint64_t] is the code's. *)
Definition make_plan (flows_per_con : Z) (o : options) : outcome plan :=
  let limit := if total_concurrency o <? u64 (core_limit o) then s32 (total_concurrency o)
               else core_limit o in
  let? (con, rem) :=
    if 0 <? total_concurrency o then
      if u64 limit =? 0 then Fault DivByZero
      else Ok (s32 (total_concurrency o / u64 limit), s32 (total_concurrency o mod u64 limit))
    else Ok (1, 0) in
  let? fds := int (con * 2) in
  Ok {| p_core_limit := limit; concurrency := con; concurrency_remainder_cnt := rem;
        max_fds := fds; total_flows := u64 (flows_per_con * total_concurrency o) |}.

Definition MAX_CPUS : Z := 16.

(** The loop that sets [cores[i]], [done[i]] and [concurs[i]] from [i] on, [n]
    times: the values of [concurs]. *)
Fixpoint set_concurs (n : nat) (i : Z) (con rem : Z) : outcome (list Z) :=
  match n with
  | O => Ok []
  | S n' =>
      if MAX_CPUS <=? i then Fault OutOfBounds
      else
        let? c := int (if 0 <? rem then con + 1 else con) in
        let? cs := set_concurs n' (i + 1) con (rem - 1) in
        Ok (c :: cs)
  end.

Definition concurs_of (p : plan) : outcome (list Z) :=
  set_concurs (Z.to_nat (p_core_limit p)) 0 (concurrency p) (concurrency_remainder_cnt p).

(** [concurs[i]], an element of a static array *)
Definition concurs_at (concurs : list Z) (i : Z) : outcome Z :=
  if (0 <=? i) && (i <? MAX_CPUS) then Ok (nth (Z.to_nat i) concurs 0) else Fault OutOfBounds.

(** The identifier of the connection a thread opens when [started] are open. *)
Definition connection_id (p : plan) (concurs : list Z) (core started : Z) : outcome Z :=
  let? id := int (core * concurrency p + started) in
  if started =? concurrency p then
    let? mine := concurs_at concurs core in
    let? last := concurs_at concurs (p_core_limit p - 1) in
    if last <? mine then int (p_core_limit p * last + core) else Ok id
  else Ok id.

(** The topic and the client identifier of a connection *)
Definition connection_topic (is_unique : bool) (topic : list Z) (id : Z) : outcome (list Z) :=
  sprintf (if is_unique then topic ++ show_int id else topic).
Definition connection_client (client_id : option (list Z)) (role : list Z) (id : Z)
    : outcome (list Z) :=
  sprintf (default role client_id ++ lit "-" ++ show_int id).

(** ** libmosquitto, the clock and epoll, as the programs see them *)

(** [enum mosquitto_state] *)
Inductive mosquitto_state : Type :=
| invalid
| closed
| connecting
| connected
| conacked
| disconnected
| will_disconnect.
#[export] Instance mosquitto_state_eq_dec : EqDecision mosquitto_state.
Proof. solve_decision. Defined.

(** The calls of interest, a payload with what is in memory where its pointer
    points. *)
Inductive call : Type :=
| Connect (client topic : list Z)
| EpollCtlAdd (fd events : Z)
| EpollCtlMod (fd events : Z)
| EpollCtlDel (fd : Z)
| CloseFd (fd : Z)
| Disconnect (mosq : loc)
| Destroy (mosq : loc)
| Subscribe (mosq : loc) (topic : list Z)
| Publish (mosq : loc) (topic : list Z) (payload : option raw)
| Printed (numbers : list Z).

(** What libmosquitto calls back while it reads from a socket or writes to it *)
Inductive callback : Type :=
| OnConnect (result : Z)
| OnMessage (payload : list Z)
| OnPublish (mid : Z).

(** Scripts of the answers of the calls in the order they are made; one that
    has ended answers success, or a clock that stands still. *)
Record env : Type := {
  e_now : timeval;
  e_clock : list timeval;
  e_connect : list Z;
  e_socket : list Z;
  e_request : list (Z * Z);
  e_read : list (list callback * Z);
  e_write : list (list callback * Z);
  e_trace : list call }.
#[export] Instance eta_env : Eta env := fun e =>
  Build_env (e_now e) (e_clock e) (e_connect e) (e_socket e) (e_request e) (e_read e)
    (e_write e) (e_trace e).

Definition gettimeofday : M env timeval :=
  let* q := gets e_clock in
  match q with
  | [] => gets e_now
  | t :: q' => modify (fun e => e <| e_clock := q' |> <| e_now := t |>) ;;; ret t
  end.
Definition record (c : call) : M env unit :=
  modify (fun e => e <| e_trace := e_trace e ++ [c] |>).

Definition MOSQ_ERR_SUCCESS : Z := 0.
Definition EPOLLIN : Z := 1.
Definition EPOLLOUT : Z := 4.
Definition EPOLLERR : Z := 8.

Definition mosquitto_connect (client topic : list Z) : M env Z :=
  record (Connect client topic) ;;;
  let* q := gets e_connect in
  match q with
  | [] => ret MOSQ_ERR_SUCCESS
  | r :: q' => modify (fun e => e <| e_connect := q' |>) ;;; ret r
  end.
Definition mosquitto_socket : M env Z :=
  let* q := gets e_socket in
  match q with
  | [] => ret 3
  | fd :: q' => modify (fun e => e <| e_socket := q' |>) ;;; ret fd
  end.
(** [mosquitto_subscribe] and [mosquitto_publish]: the result and the message
    identifier *)
Definition mosquitto_request (c : call) : M env (Z * Z) :=
  record c ;;;
  let* q := gets e_request in
  match q with
  | [] => ret (MOSQ_ERR_SUCCESS, 1)
  | r :: q' => modify (fun e => e <| e_request := q' |>) ;;; ret r
  end.
(** [mosquitto_loop_read] and [mosquitto_loop_write]: the callbacks they make,
    and their result *)
Definition mosquitto_loop_read : M env (list callback * Z) :=
  let* q := gets e_read in
  match q with
  | [] => ret ([], MOSQ_ERR_SUCCESS)
  | r :: q' => modify (fun e => e <| e_read := q' |>) ;;; ret r
  end.
Definition mosquitto_loop_write : M env (list callback * Z) :=
  let* q := gets e_write in
  match q with
  | [] => ret ([], MOSQ_ERR_SUCCESS)
  | r :: q' => modify (fun e => e <| e_write := q' |>) ;;; ret r
  end.

(** [if (min == 0 || t < min) min = t] *)
Definition take_min (min t : Z) : Z := if (min =? 0) || (t <? min) then t else min.
Definition take_max (max t : Z) : Z := if max <? t then t else max.

(** ** The heap *)

Section heap.
Context {W K V : Type} `{Countable K} (get : W -> gmap K V) (put : gmap K V -> W -> W) (x : fault).

(** An access to the object at [k], which faults with [x] when there is none *)
Definition deref (k : K) : M W V :=
  let* m := gets get in match m !! k with Some v => ret v | None => fail x end.
Definition assign (k : K) (f : V -> V) : M W unit :=
  let* v := deref k in modify (fun w => put (<[k := f v]> (get w)) w).
End heap.
