(* ===== verification/BenchFacts.v ===== *)
(** * tools: numbers, and the division of the connections among the threads *)

From Stdlib Require Import String.
From S2P Require Import Prelude.
From S2P Require Import Bench.

(** ** Counters *)

Lemma u64_add_l a b : u64 (u64 a + b) = u64 (a + b).
Proof. unfold u64, wrap. apply Z.add_mod_idemp_l. lia. Qed.

Lemma u64_u64 a : u64 (u64 a) = u64 a.
Proof. pose proof (u64_add_l a 0) as H. by rewrite !Z.add_0_r in H. Qed.

(** ** [atoi] reads back what [%d] prints *)

Definition digits_ok (l : list Z) : Prop := Forall (fun c => is_digit c = true) l.
Definition no_digit (s : list Z) : Prop := match s with c :: _ => is_digit c = false | [] => True end.

Lemma digit_char n : 0 <= n < 10 -> is_digit (48 + n) = true.
Proof. unfold is_digit. blia. Qed.

Lemma show_digits_ok fuel n : 0 <= n -> digits_ok (show_digits fuel n).
Proof.
  revert n. induction fuel as [|fuel IH]; intros n Hn; cbn [show_digits]; [constructor|].
  destruct (Z.ltb_spec n 10); [by repeat constructor; apply digit_char; lia|].
  apply Forall_app. split; [apply IH, Z.div_pos; lia|].
  repeat constructor. apply digit_char, Z.mod_pos_bound. lia.
Qed.

Lemma read_number_app acc l rest :
  digits_ok l -> read_number acc (l ++ rest) = read_number (read_number acc l) rest.
Proof.
  revert acc. induction l as [|c l IH]; intros acc Hl; [done|].
  apply Forall_cons in Hl as [Hc Hl]. cbn. rewrite Hc. by apply IH.
Qed.

Lemma read_show fuel n :
  0 <= n < 10 ^ Z.of_nat fuel -> read_number 0 (show_digits fuel n) = n.
Proof.
  revert n. induction fuel as [|fuel IH]; intros n Hn; [change (10 ^ Z.of_nat 0) with 1 in Hn; cbn; lia|].
  cbn [show_digits]. destruct (Z.ltb_spec n 10).
  - cbn. rewrite digit_char by lia. lia.
  - pose proof (Z.mod_pos_bound n 10 ltac:(lia)).
    rewrite read_number_app by (apply show_digits_ok, Z.div_pos; lia).
    rewrite IH.
    + cbn. rewrite digit_char by lia. rewrite (Z.div_mod n 10) at 3 by lia. lia.
    + split; [apply Z.div_pos; lia|]. apply Z.div_lt_upper_bound; [lia|].
      replace (10 * 10 ^ Z.of_nat fuel) with (10 ^ Z.of_nat (S fuel)); [lia|].
      rewrite Nat2Z.inj_succ, Z.pow_succ_r by lia. lia.
Qed.

Lemma show_digits_head fuel n :
  0 <= n -> match show_digits (S fuel) n with c :: _ => is_digit c = true | [] => False end.
Proof.
  intros Hn. pose proof (show_digits_ok (S fuel) n Hn) as Hd.
  destruct (show_digits (S fuel) n) as [|c l] eqn:E; [|by apply Forall_cons in Hd as [? _]].
  cbn [show_digits] in E. case_match; [done|]. by destruct (show_digits fuel (n / 10)).
Qed.

Definition is_int (n : Z) : Prop := - 2 ^ 31 <= n < 2 ^ 31.

Lemma s32_int n : is_int n -> s32 n = n.
Proof. unfold is_int. intros. unfold s32. apply signed_small; lia. Qed.

Lemma int_ok n : is_int n -> int n = Ok n.
Proof. intros Hn. unfold int. by rewrite s32_int, Z.eqb_refl. Qed.

Lemma skip_space_digit c l : is_digit c = true \/ c = 45 -> skip_space (c :: l) = c :: l.
Proof.
  intros Hc. assert (Hs : is_space c = false).
  { unfold is_digit, is_space in *. destruct Hc as [Hc| ->]; [blia|done]. }
  cbn. by rewrite Hs.
Qed.

Lemma read_number_stop acc rest : no_digit rest -> read_number acc rest = acc.
Proof. destruct rest as [|c rest]; [done|]. cbn. by intros ->. Qed.

Lemma read_show_rest n rest :
  0 <= n < 10 ^ 10 -> no_digit rest ->
  read_number 0 (show_digits show_fuel n ++ rest) = n.
Proof.
  intros Hn Hr. rewrite read_number_app by (apply show_digits_ok; lia).
  rewrite read_show by (unfold show_fuel; lia). by apply read_number_stop.
Qed.

Lemma atoi_show n rest : is_int n -> no_digit rest -> atoi (show_int n ++ rest) = Ok n.
Proof.
  intros Hn Hr. unfold atoi, show_int. unfold is_int in Hn. destruct (Z.ltb_spec n 0).
  - cbn [app]. rewrite skip_space_digit by by right.
    rewrite read_show_rest by (done || lia). rewrite Z.opp_involutive, s32_int by (unfold is_int; lia).
    by rewrite Z.eqb_refl.
  - pose proof (show_digits_head 9 n ltac:(lia)) as Hh.
    pose proof (read_show_rest n rest ltac:(lia) Hr) as Hs.
    change (show_digits 10 n) with (show_digits show_fuel n) in Hh.
    destruct (show_digits show_fuel n) as [|c l]; [done|]. cbn [app] in *.
    rewrite skip_space_digit by by left.
    assert (Hc : c <> 45 /\ c <> 43) by (unfold is_digit in Hh; blia).
    destruct Hc as [H45 H43].
    replace (match c :: l ++ rest with | 45 :: s' => - read_number 0 s' | 43 :: s' => read_number 0 s'
      | s' => read_number 0 s' end) with (read_number 0 (c :: l ++ rest)).
    + rewrite Hs, s32_int by (unfold is_int; lia). by rewrite Z.eqb_refl.
    + clear -H45 H43. destruct c as [|p|p]; [done| |done].
      do 6 (destruct p as [p|p|]; try done).
Qed.

Lemma show_int_inj a b : is_int a -> is_int b -> show_int a = show_int b -> a = b.
Proof.
  intros Ha Hb E. pose proof (atoi_show a [] Ha I) as H1. pose proof (atoi_show b [] Hb I) as H2.
  rewrite E, H2 in H1. by simplify_eq.
Qed.

(** ** The division of the connections *)

Definition sumZ (l : list Z) : Z := foldr Z.add 0 l.

Lemma set_concurs_spec n i con rem :
  0 <= i -> i + Z.of_nat n <= MAX_CPUS -> 0 <= con < 2 ^ 30 ->
  exists cs, set_concurs n i con rem = Ok cs /\ List.length cs = n /\
    sumZ cs = Z.of_nat n * con + Z.max 0 (Z.min (Z.of_nat n) rem) /\
    forall k, (k < n)%nat -> nth k cs 0 = con + (if Z.of_nat k <? rem then 1 else 0).
Proof.
  unfold MAX_CPUS. revert i rem. induction n as [|n IH]; intros i rem Hi Hn Hc.
  { exists []. split_and!; [done|done|cbn; lia|lia]. }
  cbn [set_concurs]. unfold MAX_CPUS. rewrite (proj2 (Z.leb_gt _ _)) by lia.
  set (c := if 0 <? rem then con + 1 else con).
  assert (Hcv : c = con + (if 0 <? rem then 1 else 0)) by (unfold c; case_match; lia).
  rewrite int_ok by (unfold is_int; rewrite Hcv; case_match; lia). cbn [obind].
  destruct (IH (i + 1) (rem - 1)) as (cs & -> & Hl & Hs & Hnth); [lia|lia|done|].
  cbn [obind]. exists (c :: cs). split_and!; [done|cbn; lia| |].
  - change (sumZ (c :: cs)) with (c + sumZ cs). rewrite Hs, Hcv.
    destruct (Z.ltb_spec 0 rem); lia.
  - intros [|k] Hk; [exact Hcv|]. cbn [nth]. rewrite Hnth by lia.
    destruct (Z.ltb_spec (Z.of_nat k) (rem - 1)), (Z.ltb_spec (Z.of_nat (S k)) rem); lia.
Qed.

(** Arguments that make sense: a number of threads the program has room for,
    and some connections. *)
Definition sensible (o : options) : Prop :=
  1 <= core_limit o <= MAX_CPUS /\ 1 <= total_concurrency o < 2 ^ 30.

(** The plan for sensible options, by its numbers. *)
Record planned (flows : Z) (o : options) (p : plan) (cs : list Z) : Prop := {
  planned_limit : p_core_limit p = Z.min (core_limit o) (total_concurrency o);
  planned_rem : 0 <= concurrency_remainder_cnt p < p_core_limit p;
  planned_total :
    p_core_limit p * concurrency p + concurrency_remainder_cnt p = total_concurrency o;
  planned_con : 1 <= concurrency p;
  planned_fds : max_fds p = concurrency p * 2;
  planned_flows : total_flows p = u64 (flows * total_concurrency o);
  planned_length : Z.of_nat (List.length cs) = p_core_limit p;
  planned_sum : sumZ cs = total_concurrency o;
  planned_nth k : 0 <= k < p_core_limit p ->
    nth (Z.to_nat k) cs 0 =
      concurrency p + (if k <? concurrency_remainder_cnt p then 1 else 0) }.

Lemma make_plan_run flows o :
  sensible o ->
  exists p cs, make_plan flows o = Ok p /\ concurs_of p = Ok cs /\ planned flows o p cs.
Proof.
  intros [Hcl Ht]. unfold MAX_CPUS in Hcl. unfold make_plan.
  assert (H64 : u64 (core_limit o) = core_limit o) by (apply u64_small; lia).
  assert (Hlim : (if total_concurrency o <? u64 (core_limit o) then s32 (total_concurrency o)
      else core_limit o) = Z.min (core_limit o) (total_concurrency o)).
  { rewrite H64. destruct (Z.ltb_spec (total_concurrency o) (core_limit o)); [|lia].
    rewrite s32_int by (unfold is_int; lia). lia. }
  rewrite Hlim. set (l := Z.min (core_limit o) (total_concurrency o)) in *.
  set (t := total_concurrency o) in *. assert (Hl : 1 <= l <= 16 /\ l <= t) by lia.
  rewrite (proj2 (Z.ltb_lt 0 t)), (u64_small l) by lia.
  rewrite (proj2 (Z.eqb_neq l 0)) by lia. cbn [obind].
  pose proof (Z.mod_pos_bound t l ltac:(lia)) as Hr. pose proof (Z.div_mod t l ltac:(lia)) as Hd.
  assert (Hq : 1 <= t / l <= t) by (split; [apply Z.div_le_lower_bound|apply Z.div_le_upper_bound]; nia).
  rewrite !s32_int by (unfold is_int; lia). rewrite int_ok by (unfold is_int; lia). cbn [obind].
  eexists. unfold concurs_of. cbn [p_core_limit concurrency concurrency_remainder_cnt].
  destruct (set_concurs_spec (Z.to_nat l) 0 (t / l) (t mod l)) as (cs & Hcs & Hlen & Hsum & Hnth);
    [lia|unfold MAX_CPUS; lia|lia|].
  exists cs. split_and!; [done|done|]. rewrite Z2Nat.id in Hsum by lia.
  split; cbn; [done|lia|lia|lia|done|done|lia|lia|].
  intros k Hk. rewrite Hnth by lia. by rewrite Z2Nat.id by lia.
Qed.

(** For sensible arguments the program gives each thread at least one
    connection, the threads' numbers differ by at most one, and they add up to
    the connections asked for. *)
Theorem connections_divided flows o :
  sensible o ->
  exists p cs, make_plan flows o = Ok p /\ concurs_of p = Ok cs /\
    Z.of_nat (List.length cs) = Z.min (core_limit o) (total_concurrency o) /\
    sumZ cs = total_concurrency o /\
    Forall (fun c => 1 <= c /\ concurrency p <= c <= concurrency p + 1) cs.
Proof.
  intros Ho. destruct (make_plan_run flows o Ho) as (p & cs & Hp & Hcs & []).
  exists p, cs. split_and!; [done|done|congruence|done|].
  apply Forall_lookup. intros k c Hk. pose proof (lookup_lt_Some _ _ _ Hk).
  pose proof (planned_nth0 (Z.of_nat k) ltac:(lia)) as Hn.
  rewrite Nat2Z.id in Hn. apply nth_lookup_Some with (d := 0) in Hk. case_match; lia.
Qed.

(** ** Identifiers *)

Lemma concurs_at_planned flows o p cs k :
  sensible o -> planned flows o p cs -> 0 <= k < p_core_limit p ->
  concurs_at cs k = Ok (concurrency p + (if k <? concurrency_remainder_cnt p then 1 else 0)).
Proof.
  intros [Ho _] [] Hk. unfold concurs_at, MAX_CPUS in *.
  rewrite (proj2 (Z.leb_le _ _)), (proj2 (Z.ltb_lt _ _)) by lia. cbn. by rewrite planned_nth0.
Qed.

(** The identifier, in closed form *)
Definition id_of (p : plan) (core k : Z) : Z :=
  if k <? concurrency p then core * concurrency p + k else p_core_limit p * concurrency p + core.

Lemma connection_id_eq flows o p cs core k :
  sensible o -> planned flows o p cs -> 0 <= core < p_core_limit p ->
  0 <= k < nth (Z.to_nat core) cs 0 ->
  connection_id p cs core k = Ok (id_of p core k) /\ 0 <= id_of p core k < total_concurrency o.
Proof.
  intros Ho Hp Hcore Hk. pose proof (concurs_at_planned _ _ _ _ core Ho Hp Hcore) as Hat.
  pose proof (concurs_at_planned _ _ _ _ (p_core_limit p - 1) Ho Hp ltac:(lia)) as Hlast.
  destruct Ho as [_ Ht]. destruct Hp. rewrite planned_nth0 in Hk by done.
  rewrite (proj2 (Z.ltb_ge _ _)), Z.add_0_r in Hlast by lia.
  assert (Hb : core * concurrency p + k <= total_concurrency o) by (case_match; nia).
  unfold connection_id, id_of. rewrite int_ok by (unfold is_int; nia). cbn [obind].
  destruct (Z.eqb_spec k (concurrency p)) as [->|Hne].
  - rewrite Hat, Hlast, Z.ltb_irrefl. cbn [obind].
    destruct (Z.ltb_spec core (concurrency_remainder_cnt p)); [|lia].
    rewrite (proj2 (Z.ltb_lt _ _)) by lia. rewrite int_ok by (unfold is_int; nia). split; [done|nia].
  - destruct (Z.ltb_spec k (concurrency p)); [|case_match; lia]. split; [done|].
    case_match; nia.
Qed.

Lemma id_of_inj p core1 k1 core2 k2 :
  0 <= core1 < p_core_limit p -> 0 <= core2 < p_core_limit p ->
  0 <= k1 <= concurrency p -> 0 <= k2 <= concurrency p ->
  id_of p core1 k1 = id_of p core2 k2 -> core1 = core2 /\ k1 = k2.
Proof.
  unfold id_of. intros H1 H2 Hk1 Hk2.
  set (c := concurrency p) in *. set (l := p_core_limit p) in *.
  assert (Hstep : forall a b, a < b -> a * c + c <= b * c) by (intros a b ?; nia).
  pose proof (Hstep core1 core2). pose proof (Hstep core2 core1).
  pose proof (Hstep core1 l). pose proof (Hstep core2 l).
  destruct (Z.ltb_spec k1 c), (Z.ltb_spec k2 c); intros E;
    destruct (Z.lt_trichotomy core1 core2) as [?|[?|?]]; subst; lia.
Qed.

(** C28: the identifiers the threads compute for their connections are the
    numbers from 0 to the number of connections, each taken once: also for the
    connections the first threads have beyond an equal share. *)
Theorem connection_ids_bijective flows o p cs :
  sensible o -> make_plan flows o = Ok p -> concurs_of p = Ok cs ->
  (forall core k, 0 <= core < p_core_limit p -> 0 <= k < nth (Z.to_nat core) cs 0 ->
     exists i, connection_id p cs core k = Ok i /\ 0 <= i < total_concurrency o) /\
  (forall i, 0 <= i < total_concurrency o ->
     exists core k, 0 <= core < p_core_limit p /\ 0 <= k < nth (Z.to_nat core) cs 0 /\
       connection_id p cs core k = Ok i) /\
  (forall core1 k1 core2 k2 i, 0 <= core1 < p_core_limit p -> 0 <= core2 < p_core_limit p ->
     0 <= k1 < nth (Z.to_nat core1) cs 0 -> 0 <= k2 < nth (Z.to_nat core2) cs 0 ->
     connection_id p cs core1 k1 = Ok i -> connection_id p cs core2 k2 = Ok i ->
     core1 = core2 /\ k1 = k2).
Proof.
  intros Ho Hmp Hcs. destruct (make_plan_run flows o Ho) as (p' & cs' & Hp' & Hcs' & Hpl).
  rewrite Hmp in Hp'. simplify_eq. rewrite Hcs in Hcs'. simplify_eq.
  pose proof (fun core k => connection_id_eq flows o _ _ core k Ho Hpl) as Hid.
  pose proof Hpl as []. split_and!.
  - intros core k Hc Hk. eexists. by apply Hid.
  - intros i Hi. destruct (Z.ltb_spec i (p_core_limit p' * concurrency p')) as [Hlt|Hge].
    + pose proof (Z.mod_pos_bound i (concurrency p') ltac:(lia)).
      pose proof (Z.div_mod i (concurrency p') ltac:(lia)).
      exists (i / concurrency p'), (i mod concurrency p').
      assert (Hq : 0 <= i / concurrency p' < p_core_limit p') by nia.
      assert (Hk : 0 <= i mod concurrency p' < nth (Z.to_nat (i / concurrency p')) cs' 0)
        by (rewrite planned_nth0 by done; case_match; lia).
      split_and!; [lia..|]. destruct (Hid _ _ Hq Hk) as [-> _]. f_equal. unfold id_of.
      rewrite (proj2 (Z.ltb_lt _ _)) by lia. lia.
    + set (core := i - p_core_limit p' * concurrency p').
      assert (Hq : 0 <= core < concurrency_remainder_cnt p') by lia.
      assert (Hk : 0 <= concurrency p' < nth (Z.to_nat core) cs' 0).
      { rewrite planned_nth0 by lia. rewrite (proj2 (Z.ltb_lt _ _)) by lia. lia. }
      exists core, (concurrency p'). split_and!; [lia..|].
      destruct (Hid core _ ltac:(lia) Hk) as [-> _]. f_equal. unfold id_of.
      rewrite Z.ltb_irrefl. lia.
  - intros core1 k1 core2 k2 i Hc1 Hc2 Hk1 Hk2 E1 E2.
    destruct (Hid _ _ Hc1 Hk1) as [E1' _], (Hid _ _ Hc2 Hk2) as [E2' _].
    rewrite planned_nth0 in Hk1, Hk2 by done.
    apply (id_of_inj p'); [done|done|destruct (_ <? _) in Hk1; lia|destruct (_ <? _) in Hk2; lia|].
    congruence.
Qed.

(** With [-u] two connections that have different identifiers have different
    topics, and in any case different client identifiers. *)
Theorem connection_names_distinct t c role i j s :
  is_int i -> is_int j ->
  connection_topic true t i = Ok s /\ connection_topic true t j = Ok s \/
  connection_client c role i = Ok s /\ connection_client c role j = Ok s -> i = j.
Proof.
  unfold connection_topic, connection_client, sprintf. intros Hi Hj [[H1 H2]|[H1 H2]];
    repeat case_match; simplify_eq; apply show_int_inj; [done|done| |done|done|];
    repeat match goal with H : _ ++ _ = _ ++ _ |- _ => apply app_inv_head in H end; congruence.
Qed.

(** ** The heap *)

Section heap.
Context {W K V : Type} `{Countable K} (get : W -> gmap K V) (put : gmap K V -> W -> W) (x : fault).

Lemma deref_eq k v w : get w !! k = Some v -> deref get x k w = Ok (v, w).
Proof. intros E. unfold deref, bind, gets. by rewrite E. Qed.
Lemma deref_fault k w : get w !! k = None -> deref get x k w = Fault x.
Proof. intros E. unfold deref, bind, gets. by rewrite E. Qed.
Lemma assign_eq k f v w :
  get w !! k = Some v -> assign get put x k f w = Ok (tt, put (<[k := f v]> (get w)) w).
Proof. intros E. unfold assign. by rewrite (bind_ok _ _ _ _ _ (deref_eq _ _ _ E)). Qed.
Lemma wp_deref k v Q E w : get w !! k = Some v -> Q v w -> wp (deref get x k) Q E w.
Proof. intros Hk HQ. eapply wp_ok; [by apply deref_eq|done]. Qed.
Lemma wp_assign k f v Q E w :
  get w !! k = Some v -> Q tt (put (<[k := f v]> (get w)) w) ->
  wp (assign get put x k f) Q E w.
Proof. intros Hk HQ. eapply wp_ok; [by apply assign_eq|done]. Qed.
End heap.
