(* ===== verification/EpsubFacts.v ===== *)
(** * epsub.c: the theorems

    Statistics, connections, and the events a thread handles. *)

From Stdlib Require Import String.
From S2P Require Import Prelude.
From S2P Require Import Bench.
From S2P Require Import BenchFacts.
From S2P Require Import Epsub.

(** ** Heap accesses *)

Lemma get_var_freed p w : w_vars w !! p = None -> get_var p w = Fault UseAfterFree.
Proof. apply deref_fault. Qed.
Lemma get_ctx_eq i c w : g_ctx w !! i = Some c -> get_ctx i w = Ok (c, w).
Proof. apply deref_eq. Qed.
Lemma on_stat_eq i f c w :
  g_ctx w !! i = Some c ->
  on_stat i f w = Ok (tt, w <| g_ctx := <[i := c <| stat := f (stat c) |>]> (g_ctx w) |>).
Proof. intros H. exact (assign_eq g_ctx _ _ i _ c w H). Qed.

(** ** Statistics: nothing is lost when they are printed *)

(** A counter over the whole program: what has been accumulated and what the
    threads hold. *)
Definition held (f : sub_stat -> Z) (cores : list nat) (w : world) : Z :=
  sumZ ((fun i => from_option (fun c => f (stat c)) 0 (g_ctx w !! i)) <$> cores).
Definition accounted (f : sub_stat -> Z) (cores : list nat) (w : world) : Z :=
  u64 (f (acc_stat w) + held f cores w).

(** The counters [PrintStats] accumulates *)
Definition accumulated (f : sub_stat -> Z) : Prop :=
  f sub_stat0 = 0 /\ forall st acc, f (add_acc st acc) = u64 (f acc + f st).

Lemma accumulated_counters : Forall accumulated [connects; rcv_msgs; completes; stat_errors].
Proof. by repeat constructor. Qed.

Lemma held_cons f i cores w :
  held f (i :: cores) w = from_option (fun c => f (stat c)) 0 (g_ctx w !! i) + held f cores w.
Proof. done. Qed.

Lemma held_insert_ne f cores i c w :
  i ∉ cores -> held f cores (w <| g_ctx := <[i := c]> (g_ctx w) |>) = held f cores w.
Proof.
  intros Hi. unfold held. f_equal. apply list_fmap_ext. intros k j Hj. cbn.
  rewrite lookup_insert_ne; [done|]. intros ->. by apply list_elem_of_lookup_2 in Hj.
Qed.

(** The answers of libmosquitto that are still to come *)
Definition answers (e : env) : list (list callback * Z) * list (Z * Z) * list (list callback * Z) :=
  (e_read e, e_request e, e_write e).

(** Only the clock moves, and numbers are printed. *)
Definition calm (e e' : env) : Prop :=
  e_connect e' = e_connect e /\ e_socket e' = e_socket e /\ answers e' = answers e /\
  exists l, e_trace e' = e_trace e ++ map Printed l.

#[export] Instance calm_preorder : PreOrder calm.
Proof.
  split.
  - intros e. split_and!; [done..|]. exists []. by rewrite app_nil_r.
  - intros e1 e2 e3 (? & ? & ? & l & Hl) (? & ? & ? & l' & Hl'). split_and!; try congruence.
    exists (l ++ l'). by rewrite Hl', Hl, map_app, app_assoc.
Qed.

(** Only statistics, the clock and the trace change. *)
Definition stats_only (w w' : world) : Prop :=
  dom (g_ctx w') = dom (g_ctx w) /\
  (forall i c, g_ctx w !! i = Some c -> exists st, g_ctx w' !! i = Some (c <| stat := st |>)) /\
  w_vars w' = w_vars w /\ w_threads w' = w_threads w /\ w_done w' = w_done w /\
  w_alloc w' = w_alloc w /\ calm (w_env w) (w_env w').

#[export] Instance stats_only_trans : Transitive stats_only.
Proof.
  intros w1 w2 w3 (? & Hc & ? & ? & ? & ? & He) (? & Hc' & ? & ? & ? & ? & He').
  split_and!; try congruence; [|by etransitivity]. intros i c Hi. destruct (Hc i c Hi) as [st Hst].
  destruct (Hc' i _ Hst) as [st' Hst']. eauto.
Qed.

Lemma stats_only_stat i f c w :
  g_ctx w !! i = Some c ->
  stats_only w (w <| g_ctx := <[i := c <| stat := f (stat c) |>]> (g_ctx w) |>).
Proof.
  intros Hi. split_and!; try done.
  - cbn. rewrite dom_insert_L. apply subseteq_union_1_L, singleton_subseteq_l.
    by apply elem_of_dom_2 in Hi.
  - intros j d Hj. cbn. destruct (decide (i = j)) as [<-|Hne].
    + rewrite lookup_insert_eq. simplify_eq. eauto.
    + rewrite lookup_insert_ne by done. rewrite Hj. exists (stat d). by destruct d.
Qed.

Lemma sum_stats_run cores total avg w :
  NoDup cores -> (forall i, i ∈ cores -> is_Some (g_ctx w !! i)) ->
  exists r w', sum_stats cores total avg w = Ok (r, w') /\ stats_only w w' /\
    w_env w' = w_env w /\ (forall i, i ∉ cores -> g_ctx w' !! i = g_ctx w !! i) /\
    forall f, accumulated f ->
      u64 (f (acc_stat w')) = accounted f cores w /\ held f cores w' = 0.
Proof.
  revert total avg w. induction cores as [|i cores IH]; intros total avg w Hnd Hc.
  { eexists _, w. split; [reflexivity|]. split_and!; try done.
    - split_and!; try done. intros i c Hi. exists (stat c). by destruct c.
    - intros f _. unfold accounted, held. cbn. by rewrite Z.add_0_r. }
  apply NoDup_cons in Hnd as [Hi Hnd]. destruct (Hc i) as [c Hic]; [by left|].
  cbn [sum_stats]. rewrite (bind_ok _ _ _ _ _ (get_ctx_eq _ _ _ Hic)).
  erewrite bind_ok by reflexivity.
  set (w1 := w <| acc_stat := add_acc (stat c) (acc_stat w) |>).
  rewrite (bind_ok _ _ _ _ _ (on_stat_eq i (fun _ => sub_stat0) c w1 Hic)).
  set (w2 := w1 <| g_ctx := _ |>).
  assert (Hs2 : stats_only w w2) by exact (stats_only_stat i (fun _ => sub_stat0) c w Hic).
  destruct (IH (add_total (stat c) total) (u64 (avg + avg_time (stat c))) w2) as
    (r & w' & Hrun & Hs & He & Hother & Hf); [done| |].
  { intros j Hj. apply elem_of_dom. rewrite (proj1 Hs2). apply elem_of_dom, Hc. by right. }
  exists r, w'. split; [exact Hrun|]. split_and!.
  - by etransitivity.
  - exact He.
  - intros j Hj. apply not_elem_of_cons in Hj as [Hji Hj]. rewrite (Hother j Hj). cbn.
    by rewrite lookup_insert_ne.
  - intros f Hacc. destruct (Hf f Hacc) as [E1 E2]. destruct Hacc as [Hf0 Hf1]. split.
    + rewrite E1. unfold accounted, w2. rewrite held_insert_ne by done.
      change (held f cores w1) with (held f cores w). rewrite held_cons, Hic.
      change (acc_stat (w1 <| g_ctx := _ |>)) with (add_acc (stat c) (acc_stat w)).
      rewrite Hf1, u64_add_l. cbn [from_option]. f_equal. lia.
    + rewrite held_cons, E2, (Hother i Hi). cbn. rewrite lookup_insert_eq. cbn. by rewrite Hf0.
Qed.

Lemma in_all_cores pl i : i ∈ all_cores pl <-> (i < Z.to_nat (p_core_limit pl))%nat.
Proof. unfold all_cores. rewrite elem_of_seq. lia. Qed.

(** Every thread has its context. *)
Definition contexts (pl : plan) (w : world) : Prop :=
  1 <= p_core_limit pl < 2 ^ 31 /\
  forall i, (i < Z.to_nat (p_core_limit pl))%nat -> is_Some (g_ctx w !! i).

Lemma PrintStats_run o pl w :
  contexts pl w ->
  exists w' numbers, PrintStats o pl w = Ok (tt, w') /\ stats_only w w' /\
    w_env w' = (w_env w) <| e_trace := e_trace (w_env w) ++ [Printed numbers] |> /\
    u64 (nth 3 numbers 0) = accounted rcv_msgs (all_cores pl) w /\
    Forall (fun f => accounted f (all_cores pl) w' = accounted f (all_cores pl) w /\
                     held f (all_cores pl) w' = 0) [connects; rcv_msgs; completes; stat_errors].
Proof.
  intros [Hl Hc]. destruct (sum_stats_run (all_cores pl) sub_stat0 0 w) as
    ([total avg] & w1 & Hrun & Hs & He & _ & Hf).
  { apply NoDup_seq. }
  { intros i Hi. apply Hc. by apply in_all_cores. }
  pose proof accumulated_counters as Hall. rewrite Forall_forall in Hall.
  eexists _, _. split; [|split_and!].
  - unfold PrintStats. rewrite (bind_ok _ _ _ _ _ Hrun). cbv beta iota.
    erewrite bind_ok by reflexivity. rewrite u64_small by lia.
    rewrite (proj2 (Z.eqb_neq _ _)) by lia. reflexivity.
  - etransitivity; [exact Hs|]. split_and!; try done.
    + intros i c Hi. exists (stat c). by destruct c.
    + split_and!; try done. by eexists [_].
  - cbn. by rewrite He.
  - apply Hf, Hall. set_solver.
  - rewrite Forall_forall. intros f Hin. destruct (Hf f (Hall f Hin)) as [E1 E2].
    split; [|exact E2]. rewrite <- E1. unfold accounted.
    change (held f (all_cores pl) (w1 <| w_env := ?e |>)) with (held f (all_cores pl) w1).
    change (acc_stat (w1 <| w_env := ?e |>)) with (acc_stat w1). by rewrite E2, Z.add_0_r.
Qed.

(** C31: printing the statistics, when every thread has its context, moves the
    threads' counters into the accumulated ones: none is lost, none counted
    twice, the threads' are zero after, and the number of messages printed as
    received in all is the number accounted for. *)
Theorem PrintStats_conserves o pl w :
  contexts pl w ->
  exists w' numbers, PrintStats o pl w = Ok (tt, w') /\
    e_trace (w_env w') = e_trace (w_env w) ++ [Printed numbers] /\
    u64 (nth 3 numbers 0) = accounted rcv_msgs (all_cores pl) w /\
    Forall (fun f => accounted f (all_cores pl) w' = accounted f (all_cores pl) w /\
                     held f (all_cores pl) w' = 0) [connects; rcv_msgs; completes; stat_errors].
Proof.
  intros Hc. destruct (PrintStats_run o pl w Hc) as (w' & numbers & Hrun & _ & He & H).
  destruct H as [Hn Hf]. exists w', numbers. split; [exact Hrun|].
  split; [by rewrite He|]. split; [exact Hn|exact Hf].
Qed.

(** ** Rules for the heap *)

Lemma wp_get_var p v Q E w : w_vars w !! p = Some v -> Q v w -> wp (get_var p) Q E w.
Proof. apply wp_deref. Qed.
Lemma wp_on_var p f v Q E w :
  w_vars w !! p = Some v -> Q tt (w <| w_vars := <[p := f v]> (w_vars w) |>) ->
  wp (on_var p f) Q E w.
Proof. intros H HQ. by eapply (wp_assign w_vars). Qed.
Lemma wp_get_ctx i c Q E w : g_ctx w !! i = Some c -> Q c w -> wp (get_ctx i) Q E w.
Proof. apply wp_deref. Qed.
Lemma wp_on_ctx i f c Q E w :
  g_ctx w !! i = Some c -> Q tt (w <| g_ctx := <[i := f c]> (g_ctx w) |>) ->
  wp (on_ctx i f) Q E w.
Proof. intros H HQ. by eapply (wp_assign g_ctx). Qed.
Lemma wp_on_stat i f c Q E w :
  g_ctx w !! i = Some c ->
  Q tt (w <| g_ctx := <[i := c <| stat := f (stat c) |>]> (g_ctx w) |>) ->
  wp (on_stat i f) Q E w.
Proof. intros H HQ. by eapply wp_on_ctx. Qed.

Lemma wp_with_env {A} (m : M env A) Q E w :
  wp m (fun a e => Q a (w <| w_env := e |>)) E (w_env w) -> wp (with_env m) Q E w.
Proof. apply wp_zoom. Qed.

(** Only the clock moves. *)
Definition ticked (e e' : env) : Prop := exists n q, e' = e <| e_now := n |> <| e_clock := q |>.

Lemma ticked_refl e : ticked e e.
Proof. exists (e_now e), (e_clock e). by destruct e. Qed.
Lemma ticked_trans e1 e2 e3 : ticked e1 e2 -> ticked e2 e3 -> ticked e1 e3.
Proof. intros (n & q & ->) (n' & q' & ->). by exists n', q'. Qed.

Lemma wp_gettimeofday Q E w :
  (forall t e, ticked (w_env w) e -> Q t (w <| w_env := e |>)) ->
  wp (with_env gettimeofday) Q E w.
Proof.
  intros HQ. apply wp_with_env. unfold gettimeofday. apply wp_bind, wp_gets.
  destruct (e_clock (w_env w)) eqn:Ec.
  - apply wp_gets, HQ, ticked_refl.
  - wp_run. apply HQ. eexists _, _. reflexivity.
Qed.

Lemma wp_record c Q E w :
  Q tt (w <| w_env := (w_env w) <| e_trace := e_trace (w_env w) ++ [c] |> |>) ->
  wp (with_env (record c)) Q E w.
Proof. intros HQ. apply wp_with_env. unfold record. by wp_run. Qed.

Lemma load_timeval_ok payload off :
  0 <= off -> off + timeval_size <= Z.of_nat (List.length payload) ->
  exists t, load_timeval payload off = Ok t.
Proof.
  unfold timeval_size. intros Ho Hl. unfold load_timeval, load_bytes, ptr_add, timeval_size.
  cbn [fmap option_fmap option_map]. rewrite length_drop, (proj2 (Z.ltb_ge _ _)) by lia. cbn. eauto.
Qed.

(** ** Messages *)

(** What a run of callbacks on connection [p], with context [i], leaves alone *)
Definition only (p : loc) (i : nat) (w w' : world) : Prop :=
  (forall q, q <> p -> w_vars w' !! q = w_vars w !! q) /\
  (forall j, j <> i -> g_ctx w' !! j = g_ctx w !! j) /\
  w_threads w' = w_threads w /\ w_done w' = w_done w /\ acc_stat w' = acc_stat w /\
  ticked (w_env w) (w_env w').

Lemma only_trans p i w1 w2 w3 : only p i w1 w2 -> only p i w2 w3 -> only p i w1 w3.
Proof.
  intros (Hv & Hc & ? & ? & ? & ?) (Hv' & Hc' & ? & ? & ? & ?).
  split_and!; try congruence; [| |by eapply ticked_trans].
  - intros q Hq. by rewrite Hv', Hv.
  - intros j Hj. by rewrite Hc', Hc.
Qed.

(** The connection and the context of its thread after [n] more messages *)
Definition received (flows n : Z) (v v' : mosquitto_var) (c c' : thread_context) : Prop :=
  msg_count v' = msg_count v + n /\ ctx v' = ctx v /\ fd v' = fd v /\
  (started c' = started c /\ target c' = target c /\ done c' = done c) /\
  u64 (rcv_msgs (stat c')) = u64 (rcv_msgs (stat c) + n) /\
  connects (stat c') = connects (stat c) /\ stat_errors (stat c') = stat_errors (stat c) /\
  if (0 <? n) && (msg_count v' =? flows)
  then mosq_state v' = will_disconnect /\ completes (stat c') = incr (completes (stat c))
  else mosq_state v' = mosq_state v /\ completes (stat c') = completes (stat c).

Lemma wp_message flows p payload v c w :
  w_vars w !! p = Some v -> g_ctx w !! ctx v = Some c ->
  2 * timeval_size <= Z.of_nat (List.length payload) ->
  0 <= msg_count v -> msg_count v + 1 < 2 ^ 32 ->
  wp (my_message_callback flows p payload)
     (fun _ w' => only p (ctx v) w w' /\ exists v' c', w_vars w' !! p = Some v' /\
        g_ctx w' !! ctx v = Some c' /\ received flows 1 v v' c c') no_fault w.
Proof.
  intros Hv Hc Hl H0 H1. unfold timeval_size in Hl.
  unfold my_message_callback. unfold timeval_size at 1. rewrite (proj2 (Z.ltb_lt _ _)) by lia.
  apply wp_bind.
  assert (Hmsg : wp (count_message p payload)
    (fun _ w' => only p (ctx v) w w' /\ exists v' c', w_vars w' !! p = Some v' /\
       g_ctx w' !! ctx v = Some c' /\ msg_count v' = msg_count v + 1 /\ ctx v' = ctx v /\
       fd v' = fd v /\ mosq_state v' = mosq_state v /\
       (started c' = started c /\ target c' = target c /\ done c' = done c) /\
       rcv_msgs (stat c') = u64 (rcv_msgs (stat c) + 1) /\ connects (stat c') = connects (stat c) /\
       stat_errors (stat c') = stat_errors (stat c) /\ completes (stat c') = completes (stat c))
    no_fault w).
  { unfold count_message. apply wp_bind. eapply wp_on_var; [exact Hv|].
    apply wp_bind. eapply wp_get_var; [cbn; apply lookup_insert_eq|].
    apply wp_bind. eapply wp_on_stat; [cbn; exact Hc|].
    apply wp_bind, wp_gettimeofday. intros cur e Htick.
    destruct (load_timeval_ok payload 0) as [t1 Ht1]; [lia|unfold timeval_size; lia|].
    destruct (load_timeval_ok payload timeval_size) as [t2 Ht2];
      [unfold timeval_size; lia..|].
    apply wp_bind. eapply wp_lift; [exact Ht1|].
    apply wp_bind. eapply wp_on_stat; [cbn; apply lookup_insert_eq|].
    destruct (is_recv_st _).
    - apply wp_bind. eapply wp_on_var; [cbn; apply lookup_insert_eq|].
      apply wp_bind. eapply wp_lift; [exact Ht2|].
      eapply wp_on_ctx; [cbn; apply lookup_insert_eq|]. split.
      + split_and!; try (exact Htick || done); intros k Hk; cbn; by rewrite !lookup_insert_ne.
      + eexists _, _. split_and!; [cbn; apply lookup_insert_eq|cbn; apply lookup_insert_eq|..]; try done.
        cbn. by rewrite u32_small by lia.
    - apply wp_ret. split.
      + split_and!; try (exact Htick || done); intros k Hk; cbn; by rewrite !lookup_insert_ne.
      + eexists _, _. split_and!; [cbn; apply lookup_insert_eq|cbn; apply lookup_insert_eq|..]; try done.
        cbn. by rewrite u32_small by lia. }
  eapply wp_conseq; [exact Hmsg| |done]. intros _ w1 (Ho & v1 & c1 & Hv1 & Hc1 & Hn & Hx & Hfd & Hs & (Hk1 & Hk2 & Hk3) & Hr & Hcn & He & Hcp).
  apply wp_bind. eapply wp_get_var; [exact Hv1|]. unfold received. cbn [Z.ltb].
  change (0 <? 1) with true. cbn [andb].
  destruct (msg_count v1 =? flows) eqn:Ef.
  - apply wp_bind. eapply wp_on_var; [exact Hv1|]. rewrite Hx.
    eapply wp_on_stat; [cbn; exact Hc1|]. split.
    + eapply only_trans; [exact Ho|]. split_and!; try (apply ticked_refl || done); intros k Hk; cbn; by rewrite lookup_insert_ne.
    + eexists _, _. split_and!; [cbn; apply lookup_insert_eq|cbn; apply lookup_insert_eq|..]; try done.
      * cbn. by rewrite Hr, u64_u64.
      * cbn. rewrite Ef. by rewrite Hcp.
  - apply wp_ret. split; [done|]. exists v1, c1. rewrite Ef. split_and!; try done. by rewrite Hr, u64_u64.
Qed.

(** Messages on a connection, each long enough for its two time stamps, are
    all counted, on the connection and in the statistics of its thread; the
    connection is marked to be closed, and counted as complete, exactly when
    their number reaches the number asked for; nothing of the other
    connections and threads changes. *)
Lemma messages_run flows p payloads v c w :
  w_vars w !! p = Some v -> g_ctx w !! ctx v = Some c ->
  Forall (fun l => 2 * timeval_size <= Z.of_nat (List.length l)) payloads ->
  0 <= msg_count v -> flows < 2 ^ 32 ->
  msg_count v + Z.of_nat (List.length payloads) <= flows ->
  exists w' v' c', iter (my_message_callback flows p) payloads w = Ok (tt, w') /\
    only p (ctx v) w w' /\ w_vars w' !! p = Some v' /\ g_ctx w' !! ctx v = Some c' /\
    received flows (Z.of_nat (List.length payloads)) v v' c c'.
Proof.
  intros Hv Hc Hl. revert v c w Hv Hc. induction Hl as [|payload payloads Hl _ IH];
    intros v c w Hv Hc H0 Hf Hn.
  { exists w, v, c. split; [done|]. split; [split_and!; try done; apply ticked_refl|].
    split_and!; [done|done|].
    unfold received. cbn. rewrite !Z.add_0_r. by split_and!. }
  cbn [List.length] in Hn. cbn [iter].
  destruct (wp_elim _ _ _ (wp_message flows p payload v c w Hv Hc Hl H0 ltac:(lia)))
    as ([] & w1 & Hrun & Ho & v1 & c1 & Hv1 & Hc1 & Hr1).
  rewrite (bind_ok _ _ _ _ _ Hrun). pose proof Hr1 as (Hm1 & Hx1 & Hfd1 & (Hst1 & Htg1 & Hdn1) & Hrc1 & Hcn1 & He1 & Hif1).
  destruct (IH v1 c1 w1) as (w' & v' & c' & Hrun' & Ho' & Hv' & Hc' & Hr');
    [done|by rewrite Hx1|lia|lia|lia|]. rewrite Hx1 in Ho', Hc'.
  exists w', v', c'. split_and!; [exact Hrun'|by eapply only_trans|done|done|].
  destruct Hr' as (Hm' & Hx' & Hfd' & (Hst' & Htg' & Hdn') & Hrc' & Hcn' & He' & Hif').
  unfold received. split_and!; [rewrite Hm', Hm1; cbn [List.length]; lia|congruence..| |congruence|congruence|].
  - rewrite Hrc', <- u64_add_l, Hrc1, u64_add_l. f_equal. cbn [List.length]. lia.
  - rewrite (proj2 (Z.ltb_lt 0 _)) by (cbn [List.length]; lia). cbn [andb] in *.
    destruct payloads as [|payload' payloads].
    + cbn in *. rewrite Z.add_0_r in Hm'. rewrite Hm'. destruct (msg_count v1 =? flows).
      * destruct Hif1, Hif'. split; congruence.
      * destruct Hif1, Hif'. split; congruence.
    + rewrite (proj2 (Z.ltb_lt 0 _)) in Hif' by (cbn [List.length]; lia). cbn [andb] in Hif'.
      rewrite (proj2 (Z.eqb_neq (msg_count v1) flows)) in Hif1 by (cbn [List.length] in Hn; lia).
      change ((0 <? 1) && false) with false in Hif1. destruct Hif1 as [E1 E2].
      rewrite E1, E2 in Hif'. exact Hif'.
Qed.

(** ** The configuration *)

Lemma configure_plan num_cores argv flows o pl cs :
  configure num_cores argv = Ok (Some (flows, o, pl, cs)) ->
  make_plan flows o = Ok pl /\ concurs_of pl = Ok cs.
Proof.
  intros Hconf.
  destruct argv as [|? [|? [|fl args]]]; try done. unfold configure in Hconf.
  destruct (atoi fl) as [f| |]; [|done|done]. cbn [obind] in Hconf.
  destruct (u64 f =? 0); [done|].
  destruct (options_loop _ _ _) as [[o'|]| |]; [|done..]. cbn [obind] in Hconf.
  destruct (topic o'); [|done].
  destruct (make_plan (u64 f) o') as [pl'| |] eqn:Hp; [|done..]. cbn [obind] in Hconf.
  destruct (concurs_of pl') as [cs'| |] eqn:Hcs; [|done..]. cbn [obind] in Hconf.
  by simplify_eq.
Qed.
