(* ===== verification/EpsubSpec.v ===== *)
(** * epsub.c: what a thread promises

    The abstract thread is the number of messages each of its connections still
    waits for.  The concrete thread implements it: a delivery of messages counts
    down, a connection that has its messages is closed and freed, and the thread
    ends when none is left. *)

From Stdlib Require Import String.
From S2P Require Import Prelude.
From S2P Require Import Bench.
From S2P Require Import BenchFacts.
From S2P Require Import Epsub.
From S2P Require Import EpsubFacts.

(** ** The abstract thread *)

Abbreviation remaining := (gmap loc Z).
(** The number of open connections *)
Definition open_ (r : remaining) : Z := Z.of_nat (base.size r).
Arguments open_ : simpl never.

(** What can happen to a connection: it gets messages from one call of
    [mosquitto_loop_read], which finds their payloads; the broker has accepted
    it; it can be written to, which makes the program subscribe. *)
Inductive delivery : Type :=
| Messages (p : loc) (payloads : list (list Z))
| Accepted (p : loc)
| Writable (p : loc).

Definition deliver1 (d : delivery) (r : remaining) : option remaining :=
  match d with
  | Messages p payloads =>
      k ← r !! p;
      let n := Z.of_nat (List.length payloads) in
      if n =? k then Some (delete p r)
      else if n <? k then Some (<[p := k - n]> r) else None
  | Accepted p | Writable p => _ ← r !! p; Some r
  end.
Fixpoint deliver (ds : list delivery) (r : remaining) : option remaining :=
  match ds with [] => Some r | d :: ds' => r' ← deliver1 d r; deliver ds' r' end.

(** What libmosquitto and epoll answer for them *)
Definition read1 (d : delivery) : list (list callback * Z) :=
  match d with
  | Messages _ payloads => [(map OnMessage payloads, MOSQ_ERR_SUCCESS)]
  | Accepted _ => [([OnConnect 0], MOSQ_ERR_SUCCESS)]
  | Writable _ => []
  end.
Definition reads (ds : list delivery) : list (list callback * Z) := ds ≫= read1.
Definition event1 (d : delivery) : loc * Z :=
  match d with
  | Messages p _ | Accepted p => (p, EPOLLIN)
  | Writable p => (p, EPOLLOUT)
  end.
Definition events_of (ds : list delivery) : list (loc * Z) := map event1 ds.

(** Payloads as eppub.c sends them: with room for two time stamps *)
Definition stamped (ds : list delivery) : Prop :=
  Forall (fun d => match d with
                   | Messages _ ps => Forall (fun l => 2 * timeval_size <= Z.of_nat (List.length l)) ps
                   | _ => True
                   end) ds.

(** libmosquitto reads [q], and does what it is asked to. *)
Definition serves (q : list (list callback * Z)) (e : env) : Prop :=
  e_read e = q /\ Forall (fun r => r.1 = MOSQ_ERR_SUCCESS) (e_request e) /\
  Forall (fun r => r = ([], MOSQ_ERR_SUCCESS)) (e_write e).

Lemma serves_same q e e' : answers e' = answers e -> serves q e -> serves q e'.
Proof. unfold serves. intros [= -> -> ->]. done. Qed.

(** ** The thread that implements it *)

Definition waits_for (flows : Z) (core_ : nat) (k : Z) (v : mosquitto_var) : Prop :=
  ctx v = core_ /\ mosq_state v <> will_disconnect /\ mosq_state v <> connecting /\ 0 <= msg_count v /\ 1 <= k /\
  msg_count v + k = flows.

Record serving (flows : Z) (core_ : nat) (r : remaining) (w : world) : Prop := {
  serving_ctx : exists c, g_ctx w !! core_ = Some c /\ started c = target c /\
    done c + open_ r = target c;
  serving_vars : forall p k, r !! p = Some k ->
    exists v, w_vars w !! p = Some v /\ waits_for flows core_ k v }.

(** What the thread leaves alone while it handles events, [r] being what its
    connections wait for before and [r'] after *)
Record served (core_ : nat) (r r' : remaining) (w w' : world) : Prop := {
  served_dom : dom r' ⊆ dom r;
  served_threads : w_threads w' = w_threads w;
  served_done : w_done w' = w_done w;
  served_acc : acc_stat w' = acc_stat w;
  served_vars q : q ∉ dom r -> w_vars w' !! q = w_vars w !! q;
  served_freed q : q ∈ dom r -> q ∉ dom r' -> w_vars w' !! q = None;
  served_ctx j : j <> core_ -> g_ctx w' !! j = g_ctx w !! j;
  served_completes c c' : g_ctx w !! core_ = Some c -> g_ctx w' !! core_ = Some c' ->
    u64 (completes (stat c')) =
    u64 (completes (stat c) + (open_ r - open_ r')) }.

Lemma served_trans core_ r1 r2 r3 w1 w2 w3 :
  is_Some (g_ctx w2 !! core_) ->
  served core_ r1 r2 w1 w2 -> served core_ r2 r3 w2 w3 -> served core_ r1 r3 w1 w3.
Proof.
  intros [c2 Hc2] [] []. split; [by etransitivity|congruence..| | | |].
  - intros q Hq. rewrite served_vars1; [by apply served_vars0|]. by intros ?%served_dom0.
  - intros q Hq Hq'. destruct (decide (q ∈ dom r2)) as [Hin|Hout]; [by apply served_freed1|].
    rewrite served_vars1 by done. by apply served_freed0.
  - intros j Hj. rewrite served_ctx1 by done. by apply served_ctx0.
  - intros c c' Hc Hc'. pose proof (served_completes1 _ _ Hc2 Hc') as E.
    pose proof (served_completes0 _ _ Hc Hc2) as E'.
    rewrite E, <- u64_add_l, E', u64_add_l. f_equal. lia.
Qed.

Lemma served_refl core_ r w : served core_ r r w w.
Proof.
  split; try done. intros c c' Hc Hc'. simplify_eq. f_equal. lia.
Qed.

Lemma size_delete_some (r : remaining) p k :
  r !! p = Some k -> open_ (delete p r) = open_ r - 1.
Proof.
  intros H. unfold open_. rewrite map_size_delete_Some by eauto.
  assert (base.size r <> 0%nat) by (intros E; apply map_size_empty_iff in E; set_solver). lia.
Qed.

Lemma wp_CloseConnection core_ p v c Q E w :
  w_vars w !! p = Some v -> g_ctx w !! core_ = Some c ->
  (forall w', w_vars w' = delete p (w_vars w) ->
     g_ctx w' = <[core_ := c <| done := done c + 1 |>]> (g_ctx w) ->
     w_threads w' = w_threads w -> w_done w' = w_done w -> acc_stat w' = acc_stat w ->
     answers (w_env w') = answers (w_env w) -> Q tt w') ->
  wp (CloseConnection core_ p) Q E w.
Proof.
  intros Hv Hc HQ. unfold CloseConnection.
  apply wp_bind. eapply wp_get_var; [exact Hv|].
  apply wp_bind, wp_record. apply wp_bind, wp_record.
  apply wp_bind. eapply wp_on_var; [exact Hv|].
  apply wp_bind, wp_modify. eapply wp_on_ctx; [exact Hc|]. apply HQ; try done.
  cbn. by rewrite delete_insert_eq.
Qed.

(** ** One delivery *)

Lemma wp_subscribe call q Q E w :
  serves q (w_env w) ->
  (forall mid e, serves q e -> Q (MOSQ_ERR_SUCCESS, mid) (w <| w_env := e |>)) ->
  wp (with_env (mosquitto_request call)) Q E w.
Proof.
  intros (He & Hreq & Hwr) HQ. apply wp_with_env. unfold mosquitto_request, record. wp_run. cbn.
  destruct (e_request (w_env w)) as [|[r mid] q'] eqn:Eq.
  - wp_run. apply HQ. split_and!; cbn; by rewrite ?Eq.
  - apply Forall_cons in Hreq as [Hr Hreq]. cbn in Hr. subst r. wp_run. apply HQ. by split_and!.
Qed.

Lemma wp_idle_write q Q E w :
  serves q (w_env w) ->
  (forall e, serves q e -> Q ([], MOSQ_ERR_SUCCESS) (w <| w_env := e |>)) ->
  wp (with_env mosquitto_loop_write) Q E w.
Proof.
  intros (He & Hreq & Hwr) HQ. apply wp_with_env. unfold mosquitto_loop_write. wp_run.
  destruct (e_write (w_env w)) as [|r q'] eqn:Eq.
  - wp_run. apply HQ. split_and!; by rewrite ?Eq.
  - apply Forall_cons in Hwr as [-> Hwr]. wp_run. apply HQ. by split_and!.
Qed.

Lemma iter_map {S A B} (f : B -> M S unit) (g : A -> B) l s :
  iter f (map g l) s = iter (fun a => f (g a)) l s.
Proof.
  revert s. induction l as [|a l IH]; intros s; [done|]. cbn [map iter].
  apply bind_eq; [done|]. intros [] s'. apply IH.
Qed.

(** What is not of connection [p] and thread [i] *)
Definition others_same (p : loc) (i : nat) (w w' : world) : Prop :=
  (forall q, q <> p -> w_vars w' !! q = w_vars w !! q) /\
  (forall j, j <> i -> g_ctx w' !! j = g_ctx w !! j) /\
  w_threads w' = w_threads w /\ w_done w' = w_done w /\ acc_stat w' = acc_stat w.

(** [mosquitto_loop_read] answers the messages: they are counted. *)
Lemma wp_read_messages flows core_ p k payloads q v c w Q E :
  w_vars w !! p = Some v -> g_ctx w !! core_ = Some c -> waits_for flows core_ k v ->
  flows < 2 ^ 32 -> Forall (fun l => 2 * timeval_size <= Z.of_nat (List.length l)) payloads ->
  Z.of_nat (List.length payloads) <= k ->
  serves ((map OnMessage payloads, MOSQ_ERR_SUCCESS) :: q) (w_env w) ->
  (forall w1 v1 c1, others_same p core_ w w1 -> w_vars w1 !! p = Some v1 -> g_ctx w1 !! core_ = Some c1 ->
     received flows (Z.of_nat (List.length payloads)) v v1 c c1 ->
     serves q (w_env w1) -> Q MOSQ_ERR_SUCCESS w1) ->
  wp (run_loop flows p mosquitto_loop_read) Q E w.
Proof.
  intros Hv Hc (Hx & Hs & Hs' & H0 & Hk & Hm) Hf Hl Hn (He & Hreq & Hwr) HQ. subst core_.
  unfold run_loop. apply wp_bind, wp_with_env. unfold mosquitto_loop_read.
  apply wp_bind, wp_gets. rewrite He. wp_run.
  set (w0 := w <| w_env := _ |>).
  destruct (messages_run flows p payloads v c w0 Hv Hc Hl H0 Hf ltac:(lia))
    as (w1 & v1 & c1 & Hrun & Ho & Hv1 & Hc1 & Hr).
  eapply wp_ok; [rewrite iter_map; exact Hrun|]. apply wp_ret.
  destruct Ho as (Ho1 & Ho2 & Ho3 & Ho4 & Ho5 & Htick).
  apply (HQ w1 v1 c1); try done.
  destruct Htick as (n & q' & E'). unfold serves. by rewrite E'.
Qed.

Lemma serving_keep flows core_ p k r v1 c1 w w1 :
  serving flows core_ r w -> others_same p core_ w w1 ->
  w_vars w1 !! p = Some v1 -> waits_for flows core_ k v1 -> g_ctx w1 !! core_ = Some c1 ->
  (forall c, g_ctx w !! core_ = Some c ->
     started c1 = started c /\ target c1 = target c /\ done c1 = done c) ->
  is_Some (r !! p) -> serving flows core_ (<[p := k]> r) w1.
Proof.
  intros [(c & Hc & Hst & Hdn) Hvars] (Ho1 & Ho2 & _) Hv1 Hw Hc1 Hkeep Hp.
  destruct (Hkeep c Hc) as (E1 & E2 & E3). split.
  - exists c1. split_and!; [done|congruence|].
    unfold open_ in *. rewrite map_size_insert_Some by done. congruence.
  - intros q j Hq. destruct (decide (p = q)) as [<-|Hne].
    + rewrite lookup_insert_eq in Hq. simplify_eq. eauto.
    + rewrite lookup_insert_ne in Hq by done. rewrite Ho1 by done. by apply Hvars.
Qed.

Lemma serving_close flows core_ p k r c1 w w1 w2 :
  serving flows core_ r w -> others_same p core_ w w1 -> r !! p = Some k ->
  g_ctx w1 !! core_ = Some c1 ->
  (forall c, g_ctx w !! core_ = Some c ->
     started c1 = started c /\ target c1 = target c /\ done c1 = done c) ->
  w_vars w2 = delete p (w_vars w1) ->
  g_ctx w2 = <[core_ := c1 <| done := done c1 + 1 |>]> (g_ctx w1) ->
  serving flows core_ (delete p r) w2.
Proof.
  intros [(c & Hc & Hst & Hdn) Hvars] (Ho1 & Ho2 & _) Hp Hc1 Hkeep Ev Ec.
  destruct (Hkeep c Hc) as (E1 & E2 & E3). split.
  - exists (c1 <| done := done c1 + 1 |>). rewrite Ec, lookup_insert_eq. split_and!; [done|cbn; congruence|].
    cbn. rewrite (size_delete_some r p k Hp). lia.
  - intros q j Hq. apply lookup_delete_Some in Hq as [Hne Hq].
    rewrite Ev, lookup_delete_ne by done. rewrite Ho1 by done. by apply Hvars.
Qed.

Lemma served_keep core_ p k r c1 w w1 :
  others_same p core_ w w1 -> is_Some (r !! p) -> g_ctx w1 !! core_ = Some c1 ->
  (forall c, g_ctx w !! core_ = Some c -> completes (stat c1) = completes (stat c)) ->
  served core_ r (<[p := k]> r) w w1.
Proof.
  intros (Ho1 & Ho2 & Ho3 & Ho4 & Ho5) Hp Hc1 Hcp.
  assert (Hdom : dom (<[p := k]> r) = dom r).
  { rewrite dom_insert_L. by apply subseteq_union_1_L, singleton_subseteq_l, elem_of_dom. }
  split; try assumption.
  - by rewrite Hdom.
  - intros q Hq. apply Ho1. intros ->. by apply Hq, elem_of_dom.
  - intros q Hq Hq'. by rewrite Hdom in Hq'.
  - intros c c' Hc Hc'. rewrite Hc1 in Hc'. injection Hc' as <-. rewrite (Hcp c Hc). f_equal.
    unfold open_. rewrite map_size_insert_Some by done. lia.
Qed.

Lemma served_close core_ p k r c1 w w1 w2 :
  others_same p core_ w w1 -> r !! p = Some k ->
  w_vars w2 = delete p (w_vars w1) ->
  g_ctx w2 = <[core_ := c1 <| done := done c1 + 1 |>]> (g_ctx w1) ->
  w_threads w2 = w_threads w1 -> w_done w2 = w_done w1 -> acc_stat w2 = acc_stat w1 ->
  (forall c, g_ctx w !! core_ = Some c -> completes (stat c1) = incr (completes (stat c))) ->
  served core_ r (delete p r) w w2.
Proof.
  intros (Ho1 & Ho2 & Ho3 & Ho4 & Ho5) Hp Ev Ec Et Ed Ea Hcp.
  split; try (etransitivity; eassumption).
  - rewrite dom_delete_L. by intros j [? _]%elem_of_difference.
  - intros q Hq. assert (q <> p) by (intros ->; by apply Hq, elem_of_dom).
    rewrite Ev, lookup_delete_ne by done. by apply Ho1.
  - intros q Hq Hq'. assert (q = p) as ->.
    { destruct (decide (q = p)) as [|Hne]; [done|]. exfalso. apply Hq'. apply elem_of_dom.
      rewrite lookup_delete_ne by done. by apply elem_of_dom. }
    by rewrite Ev, lookup_delete_eq.
  - intros j Hj. rewrite Ec, lookup_insert_ne by done. by apply Ho2.
  - intros c c' Hc Hc'. rewrite Ec, lookup_insert_eq in Hc'. injection Hc' as <-. cbn.
    rewrite (Hcp c Hc), (size_delete_some r p k Hp). unfold incr. rewrite u64_u64. f_equal. lia.
Qed.

(** What the handling of an event leads to *)
Definition delivered (flows : Z) (core_ : nat) (r r' : remaining) (q : list (list callback * Z))
    (w w' : world) : Prop :=
  serving flows core_ r' w' /\ served core_ r r' w w' /\ serves q (w_env w').

Lemma wp_messages flows core_ p payloads r r' q w :
  flows < 2 ^ 32 -> serving flows core_ r w -> deliver1 (Messages p payloads) r = Some r' ->
  Forall (fun l => 2 * timeval_size <= Z.of_nat (List.length l)) payloads ->
  serves (read1 (Messages p payloads) ++ q) (w_env w) ->
  wp (handle_event flows core_ (p, EPOLLIN))
     (fun _ w' => delivered flows core_ r r' q w w') no_fault w.
Proof.
  intros Hf Hs Hd Hst He. cbn [read1 app] in He. unfold deliver1 in Hd.
  destruct (r !! p) as [k|] eqn:Hk; [|done]. cbn in Hd.
  pose proof Hs as [(c & Hc & _) Hvars]. destruct (Hvars p k Hk) as (v & Hv & Hw).
  pose proof Hw as (Hx & Hms & Hms' & H0 & Hk1 & Hm).
  set (n := Z.of_nat (List.length payloads)) in *.
  assert (Hnk : n <= k) by (destruct (Z.eqb_spec n k), (Z.ltb_spec n k); simplify_eq; lia).
  unfold handle_event. change (negb (Z.land EPOLLIN EPOLLERR =? 0)) with false.
  change (negb (Z.land EPOLLIN EPOLLIN =? 0)) with true. cbv iota.
  unfold read_event. apply wp_bind. eapply wp_get_var; [exact Hv|].
  apply wp_bind. eapply wp_read_messages; [exact Hv|exact Hc|exact Hw|done|exact Hst|exact Hnk|exact He|].
  intros w1 v1 c1 Ho Hv1 Hc1 (Hm1 & Hx1 & Hfd1 & Hkeep & _ & _ & _ & Hif) Hq.
  cbn [Z.eqb negb MOSQ_ERR_SUCCESS]. apply wp_bind, wp_ret.
  apply wp_bind. eapply wp_get_var; [exact Hv1|].
  assert (Hkeep' : forall c0, g_ctx w !! core_ = Some c0 ->
    started c1 = started c0 /\ target c1 = target c0 /\ done c1 = done c0) by (intros; by simplify_eq).
  pose proof Ho as (Ho1 & Ho2 & Ho3 & Ho4 & Ho5). fold n in Hm1, Hif.
  destruct (Z.eqb_spec n k) as [Heq|Hne].
  - rewrite (proj2 (Z.ltb_lt 0 n)), (proj2 (Z.eqb_eq (msg_count v1) flows)) in Hif by lia.
    destruct Hif as [Hwd Hcp]. rewrite bool_decide_eq_true_2 by done. injection Hd as <-.
    apply wp_bind, wp_record. set (w1' := w1 <| w_env := _ |>).
    eapply (wp_CloseConnection core_ p v1 c1 _ _ w1'); [done|done|].
    intros w2 Ev Ec Et Ed Ea Er. split; [|split].
    + eapply serving_close; [exact Hs|exact Ho|exact Hk|exact Hc1|done|exact Ev|exact Ec].
    + eapply served_close; [exact Ho|exact Hk|exact Ev|exact Ec|exact Et|exact Ed|exact Ea|].
      intros c0 Hc0. simplify_eq. exact Hcp.
    + exact (serves_same q _ _ Er Hq).
  - destruct (Z.ltb_spec n k); [|done]. injection Hd as <-.
    rewrite (proj2 (Z.eqb_neq (msg_count v1) flows)), andb_false_r in Hif by lia.
    destruct Hif as [Hms1 Hcp]. rewrite bool_decide_eq_false_2 by congruence.
    apply wp_ret. split; [|split; [|exact Hq]].
    + eapply serving_keep; [exact Hs|exact Ho|exact Hv1| |exact Hc1|done|eauto].
      unfold waits_for. split_and!; [congruence|congruence|congruence|lia|lia|lia].
    + eapply served_keep; [exact Ho|by eauto|exact Hc1|]. intros c0 Hc0. by simplify_eq.
Qed.

(** An event after which the connection waits for as many messages as before *)
Lemma delivered_same flows core_ p k r v1 c1 q w w1 :
  serving flows core_ r w -> r !! p = Some k -> others_same p core_ w w1 ->
  w_vars w1 !! p = Some v1 -> waits_for flows core_ k v1 -> g_ctx w1 !! core_ = Some c1 ->
  (forall c, g_ctx w !! core_ = Some c -> started c1 = started c /\ target c1 = target c /\
     done c1 = done c /\ completes (stat c1) = completes (stat c)) ->
  serves q (w_env w1) -> delivered flows core_ r r q w w1.
Proof.
  intros Hs Hk Ho Hv1 Hw1 Hc1 Hkeep Hq. rewrite <- (insert_id r p k Hk) at 2. split; [|split].
  - eapply serving_keep; [exact Hs|exact Ho|exact Hv1|exact Hw1|exact Hc1| |eauto].
    intros c Hc. destruct (Hkeep c Hc) as (? & ? & ? & ?). done.
  - eapply served_keep; [exact Ho|eauto|exact Hc1|]. intros c Hc. by apply Hkeep.
  - exact Hq.
Qed.

Lemma wp_accepted flows core_ p k r q w :
  serving flows core_ r w -> r !! p = Some k -> serves (read1 (Accepted p) ++ q) (w_env w) ->
  wp (handle_event flows core_ (p, EPOLLIN))
     (fun _ w' => delivered flows core_ r r q w w') no_fault w.
Proof.
  intros Hs Hk (He & Hreq & Hwr). cbn [read1 app] in He.
  pose proof Hs as [(c & Hc & _) Hvars]. destruct (Hvars p k Hk) as (v & Hv & Hw).
  pose proof Hw as (Hx & Hms & Hms' & H0 & Hk1 & Hm).
  unfold handle_event. change (negb (Z.land EPOLLIN EPOLLERR =? 0)) with false.
  change (negb (Z.land EPOLLIN EPOLLIN =? 0)) with true. cbv iota.
  unfold read_event. apply wp_bind. eapply wp_get_var; [exact Hv|].
  apply wp_bind. unfold run_loop. apply wp_bind, wp_with_env. unfold mosquitto_loop_read.
  apply wp_bind, wp_gets. rewrite He. apply wp_bind, wp_modify, wp_ret. cbv beta iota.
  cbn [iter run_callback]. unfold my_connect_callback. change (0 =? 0) with true. cbv iota.
  apply wp_bind, wp_bind, wp_bind. eapply wp_on_var; [exact Hv|].
  apply wp_bind. eapply wp_get_var; [apply lookup_insert_eq|].
  change (ctx (v <| mosq_state := conacked |>)) with (ctx v). rewrite Hx.
  apply wp_bind. eapply wp_on_stat; [exact Hc|]. apply wp_record, wp_ret, wp_ret.
  cbn [Z.eqb negb MOSQ_ERR_SUCCESS]. apply wp_bind, wp_ret.
  apply wp_bind. eapply wp_get_var; [apply lookup_insert_eq|].
  change (mosq_state (v <| mosq_state := conacked |>)) with conacked.
  rewrite bool_decide_eq_false_2 by done. apply wp_ret.
  eapply (delivered_same flows core_ p k r _ _ q w _ Hs Hk);
    [|apply lookup_insert_eq| |apply lookup_insert_eq| |by split_and!].
  - split_and!; try done; intros j Hj; by apply lookup_insert_ne.
  - by split_and!.
  - intros c0 Hc0. rewrite Hc in Hc0. injection Hc0 as <-. by split_and!.
Qed.

Lemma wp_writable flows core_ p k r q w :
  serving flows core_ r w -> r !! p = Some k -> serves q (w_env w) ->
  wp (handle_event flows core_ (p, EPOLLOUT))
     (fun _ w' => delivered flows core_ r r q w w') no_fault w.
Proof.
  intros Hs Hk (He & Hreq & Hwr).
  pose proof Hs as [(c & Hc & _) Hvars]. destruct (Hvars p k Hk) as (v & Hv & Hw).
  pose proof Hw as (Hx & Hms & Hms' & H0 & Hk1 & Hm).
  unfold handle_event. change (negb (Z.land EPOLLOUT EPOLLERR =? 0)) with false.
  change (negb (Z.land EPOLLOUT EPOLLIN =? 0)) with false. change (EPOLLOUT =? EPOLLOUT) with true.
  cbv iota. unfold write_event. apply wp_bind. eapply wp_get_var; [exact Hv|].
  rewrite bool_decide_eq_false_2 by done. apply wp_bind.
  eapply (wp_subscribe _ q); [by split_and!|]. intros mid e1 Hq1. cbv beta iota.
  change (MOSQ_ERR_SUCCESS =? MOSQ_ERR_SUCCESS) with true. cbv iota. apply wp_bind, wp_bind.
  eapply wp_on_var; [exact Hv|]. unfold run_loop. apply wp_bind.
  eapply (wp_idle_write q); [exact Hq1|]. intros e2 Hq2. cbv beta iota. cbn [iter].
  apply wp_bind, wp_ret, wp_ret. cbn [Z.eqb negb MOSQ_ERR_SUCCESS].
  apply wp_bind. eapply wp_get_var; [apply lookup_insert_eq|]. apply wp_record.
  eapply (delivered_same flows core_ p k r _ c q w _ Hs Hk);
    [|apply lookup_insert_eq|exact Hw|exact Hc| |exact Hq2].
  - split_and!; try done. intros j Hj. by apply lookup_insert_ne.
  - intros c0 Hc0. by simplify_eq.
Qed.

Lemma wp_delivery flows core_ d r r' q w :
  flows < 2 ^ 32 -> serving flows core_ r w -> deliver1 d r = Some r' -> stamped [d] ->
  serves (read1 d ++ q) (w_env w) ->
  wp (handle_event flows core_ (event1 d))
     (fun _ w' => delivered flows core_ r r' q w w') no_fault w.
Proof.
  intros Hf Hs Hd Hst He. apply Forall_cons in Hst as [Hst _]. destruct d as [p payloads|p|p].
  - by apply (wp_messages flows core_ p payloads r r' q w).
  - cbn in Hd. destruct (r !! p) as [k|] eqn:Hk; [|done]. injection Hd as <-. by eapply wp_accepted.
  - cbn in Hd. destruct (r !! p) as [k|] eqn:Hk; [|done]. injection Hd as <-. by eapply wp_writable.
Qed.

Lemma stamped_cons d ds : stamped (d :: ds) -> stamped [d] /\ stamped ds.
Proof. intros [H1 H2]%Forall_cons. split; [by constructor|done]. Qed.

Lemma wp_deliveries flows core_ ds r r' q w :
  flows < 2 ^ 32 -> serving flows core_ r w -> deliver ds r = Some r' -> stamped ds ->
  serves (reads ds ++ q) (w_env w) ->
  wp (iter (handle_event flows core_) (events_of ds))
     (fun _ w' => serving flows core_ r' w' /\ served core_ r r' w w' /\ serves q (w_env w'))
     no_fault w.
Proof.
  intros Hf. revert r w. induction ds as [|d ds IH]; intros r w Hs Hd Hst He.
  { cbn in Hd. simplify_eq. apply wp_ret. split; [done|]. by split; [apply served_refl|]. }
  cbn [deliver] in Hd. destruct (deliver1 d r) as [r1|] eqn:Hd1; [|done]. cbn in Hd.
  apply stamped_cons in Hst as [Hst1 Hst]. unfold reads in He. rewrite bind_cons, <- app_assoc in He.
  cbn [events_of map iter]. apply wp_bind.
  eapply wp_conseq; [eapply (wp_delivery flows core_ d r r1 (reads ds ++ q)); done| |done].
  intros [] w1 (Hs1 & Hsv1 & He1). eapply wp_conseq; [by apply (IH r1)| |done].
  intros [] w2 (Hs2 & Hsv2 & He2). split; [done|split; [|done]].
  eapply served_trans; [|done..]. destruct Hs1 as [(c & Hc & _) _]. eauto.
Qed.

(** ** Rounds *)

Lemma contexts_dom pl w w' : dom (g_ctx w') = dom (g_ctx w) -> contexts pl w -> contexts pl w'.
Proof.
  intros Hd [Hl Hc]. split; [done|]. intros i Hi. apply elem_of_dom. rewrite Hd.
  by apply elem_of_dom, Hc.
Qed.

(** What a thread does before it handles events: no connection changes, and
    no statistics that have been printed or will be. *)
Record idle (pl : plan) (core_ : nat) (w w' : world) : Prop := {
  idle_dom : dom (g_ctx w') = dom (g_ctx w);
  idle_ctx i c : g_ctx w !! i = Some c -> exists st, g_ctx w' !! i = Some (c <| stat := st |>);
  idle_vars : w_vars w' = w_vars w;
  idle_threads j : j <> core_ -> w_threads w' !! j = w_threads w !! j;
  idle_done : w_done w' = w_done w;
  idle_alloc : w_alloc w' = w_alloc w;
  idle_env : calm (w_env w) (w_env w');
  idle_completes : accounted completes (all_cores pl) w' = accounted completes (all_cores pl) w }.

Lemma idle_stats pl core_ w w' :
  stats_only w w' ->
  accounted completes (all_cores pl) w' = accounted completes (all_cores pl) w ->
  idle pl core_ w w'.
Proof. intros (? & ? & ? & Ht & ? & ? & ?) ?. split; try done. intros j _. by rewrite Ht. Qed.

Lemma idle_trans pl core_ w1 w2 w3 : idle pl core_ w1 w2 -> idle pl core_ w2 w3 -> idle pl core_ w1 w3.
Proof.
  intros [] []. split; try (etransitivity; eassumption).
  - intros i c Hi. destruct (idle_ctx0 i c Hi) as [st Hst].
    destruct (idle_ctx1 i _ Hst) as [st' Hst']. eauto.
  - intros j Hj. rewrite idle_threads1 by done. by apply idle_threads0.
Qed.

Lemma idle_same pl core_ w w' :
  g_ctx w' = g_ctx w -> w_vars w' = w_vars w ->
  (forall j, j <> core_ -> w_threads w' !! j = w_threads w !! j) ->
  w_done w' = w_done w -> acc_stat w' = acc_stat w -> w_alloc w' = w_alloc w ->
  calm (w_env w) (w_env w') -> idle pl core_ w w'.
Proof.
  intros Ec Ev Et Ed Ea Eal Er. split; try done.
  - by rewrite Ec.
  - intros i c Hi. rewrite Ec. exists (stat c). by destruct c.
  - unfold accounted, held. by rewrite Ea, Ec.
Qed.

Lemma idle_serving flows pl core_ i r w w' :
  idle pl core_ w w' -> serving flows i r w -> serving flows i r w'.
Proof.
  intros [] [(c & Hi & Hst & Hdn) Hvars]. destruct (idle_ctx0 _ _ Hi) as [st Hst'].
  split; [by exists (c <| stat := st |>)|]. rewrite idle_vars0. exact Hvars.
Qed.

Lemma ticked_calm e e' : ticked e e' -> calm e e'.
Proof. intros (n & q & ->). split_and!; try done. exists []. cbn. by rewrite app_nil_r. Qed.

Lemma wp_print_every_second o pl core_ cur l w :
  contexts pl w -> wp (print_every_second o pl core_ cur l) (fun _ w' => idle pl core_ w w') no_fault w.
Proof.
  intros Hc. unfold print_every_second. destruct (_ && _); [|by apply wp_ret, idle_same].
  destruct (proj2 Hc 0%nat) as [c Hc0]; [destruct Hc; lia|].
  apply wp_bind. eapply wp_get_ctx; [exact Hc0|]. apply wp_bind.
  apply (wp_conseq _ (fun _ w1 => idle pl core_ w w1) _ no_fault); [|intros first w1 Hq1|done].
  - destruct (_ && _); [|by apply wp_gets, idle_same]. apply wp_bind, wp_gettimeofday.
    intros t e Ht. wp_run. apply idle_same; try done. by apply ticked_calm in Ht.
  - destruct (PrintStats_run o pl w1) as (w2 & numbers & Hrun & Hs & He & _ & Hf).
    { eapply contexts_dom; [|exact Hc]. apply Hq1. }
    apply wp_bind. eapply wp_ok; [exact Hrun|]. apply wp_ret.
    eapply idle_trans; [exact Hq1|]. apply idle_stats; [exact Hs|].
    rewrite Forall_forall in Hf. apply (Hf completes). set_solver.
Qed.

Lemma held_zero f cores w :
  f sub_stat0 = 0 -> (forall i c, g_ctx w !! i = Some c -> stat c = sub_stat0) -> held f cores w = 0.
Proof.
  intros Hf Hc. induction cores as [|i cores IH]; [done|]. rewrite held_cons, IH.
  destruct (g_ctx w !! i) as [c|] eqn:Hi; [|done]. cbn. by rewrite (Hc i c Hi), Hf.
Qed.

Lemma held_change f core_ cores c c' w w' :
  NoDup cores -> core_ ∈ cores -> g_ctx w !! core_ = Some c -> g_ctx w' !! core_ = Some c' ->
  (forall j, j <> core_ -> g_ctx w' !! j = g_ctx w !! j) ->
  held f cores w' = held f cores w + (f (stat c') - f (stat c)).
Proof.
  intros Hnd Hin Hc Hc' Ho. induction cores as [|i cores IH]; [by apply elem_of_nil in Hin|].
  apply NoDup_cons in Hnd as [Hi Hnd]. rewrite !held_cons.
  apply elem_of_cons in Hin as [->|Hin].
  - rewrite Hc, Hc'. cbn [from_option]. enough (held f cores w' = held f cores w) by lia.
    unfold held. f_equal. apply list_fmap_ext. intros k j Hj. cbn. rewrite Ho; [done|].
    intros ->. by apply list_elem_of_lookup_2 in Hj.
  - rewrite (IH Hnd Hin), Ho by (intros ->; done). lia.
Qed.

Lemma served_accounted pl core_ r r' w w' :
  (core_ < Z.to_nat (p_core_limit pl))%nat -> is_Some (g_ctx w !! core_) ->
  is_Some (g_ctx w' !! core_) -> served core_ r r' w w' ->
  accounted completes (all_cores pl) w' =
  u64 (accounted completes (all_cores pl) w + (open_ r - open_ r')).
Proof.
  intros Hl [c Hc] [c' Hc'] []. unfold accounted. rewrite served_acc0, u64_add_l.
  rewrite (held_change completes core_ (all_cores pl) c c' w w');
    [|apply NoDup_seq|by apply in_all_cores|done..].
  pose proof (served_completes0 c c' Hc Hc') as E.
  set (h := held _ _ _). set (a := completes (acc_stat w)).
  replace (a + (h + (completes (stat c') - completes (stat c))))
    with (completes (stat c') + (a + h - completes (stat c))) by lia.
  rewrite <- u64_add_l, E, u64_add_l. f_equal. lia.
Qed.

(** A thread that still runs as long as its connections wait for messages *)
Record runs (flows : Z) (pl : plan) (core_ : nat) (r : remaining) (w : world) : Prop := {
  runs_contexts : contexts pl w;
  runs_core : (core_ < Z.to_nat (p_core_limit pl))%nat;
  runs_serving : serving flows core_ r w;
  runs_thread : is_Some (w_threads w !! core_) <-> r <> ∅;
  runs_done : default false (w_done w !! core_) = false }.

(** The effect of a round of thread [core_] on what is not its own *)
Record round_effect (pl : plan) (core_ : nat) (r r' : remaining) (w w' : world) : Prop := {
  effect_dom : dom r' ⊆ dom r;
  effect_threads j : j <> core_ -> w_threads w' !! j = w_threads w !! j;
  effect_done : w_done w' = w_done w;
  effect_contexts : dom (g_ctx w') = dom (g_ctx w);
  effect_ctx j c : j <> core_ -> g_ctx w !! j = Some c ->
    exists st, g_ctx w' !! j = Some (c <| stat := st |>);
  effect_vars q : q ∉ dom r -> w_vars w' !! q = w_vars w !! q;
  effect_freed q : q ∈ dom r -> q ∉ dom r' -> w_vars w' !! q = None;
  effect_completes :
    accounted completes (all_cores pl) w' =
    u64 (accounted completes (all_cores pl) w + (open_ r - open_ r')) }.

Lemma open_0 r : open_ r <= 0 <-> r = ∅.
Proof.
  unfold open_. split; [|by intros ->]. intros H. apply map_size_empty_iff. lia.
Qed.

Lemma accounted_0 pl w : u64 (accounted completes (all_cores pl) w + 0) = accounted completes (all_cores pl) w.
Proof. unfold accounted. by rewrite Z.add_0_r, u64_u64. Qed.

Lemma idle_stat pl core_ c n w :
  (core_ < Z.to_nat (p_core_limit pl))%nat -> g_ctx w !! core_ = Some c ->
  idle pl core_ w (w <| g_ctx := <[core_ := c <| stat := (stat c) <| events := n |> |>]> (g_ctx w) |>).
Proof.
  intros Hl Hc. apply idle_stats; [by apply (stats_only_stat _ (fun s => s <| events := n |>))|].
  unfold accounted. f_equal. change (acc_stat (w <| g_ctx := _ |>)) with (acc_stat w). f_equal.
  rewrite (held_change completes core_ (all_cores pl) c (c <| stat := (stat c) <| events := n |> |>) w);
    [cbn; lia|apply NoDup_seq|by apply in_all_cores|done|apply lookup_insert_eq|].
  intros j Hj. by apply lookup_insert_ne.
Qed.

(** From the handling of events on *)
Lemma effect_of pl core_ r r' w w2 w3 w4 :
  (core_ < Z.to_nat (p_core_limit pl))%nat -> is_Some (g_ctx w2 !! core_) ->
  is_Some (g_ctx w3 !! core_) -> idle pl core_ w w2 -> served core_ r r' w2 w3 ->
  idle pl core_ w3 w4 -> round_effect pl core_ r r' w w4.
Proof.
  intros Hl Hc2 Hc3 Hi Hs Hi4. pose proof (served_accounted pl core_ r r' w2 w3 Hl Hc2 Hc3 Hs) as Ha.
  destruct Hi, Hs, Hi4. split; [done| |congruence| | | | |].
  - intros j Hj. rewrite idle_threads1, served_threads0 by done. by apply idle_threads0.
  - rewrite idle_dom1, <- idle_dom0. apply set_eq. intros j. rewrite !elem_of_dom.
    destruct (decide (j = core_)) as [->|Hne]; [done|]. by rewrite served_ctx0.
  - intros j c Hj Hc. destruct (idle_ctx0 j c Hc) as [st Hst]. rewrite <- (served_ctx0 j Hj) in Hst.
    destruct (idle_ctx1 j _ Hst) as [st' Hst']. eauto.
  - intros q Hq. rewrite idle_vars1, <- idle_vars0. by apply served_vars0.
  - intros q Hq Hq'. rewrite idle_vars1. by apply served_freed0.
  - by rewrite idle_completes1, Ha, idle_completes0.
Qed.

Lemma wp_thread_round flows o pl cs core_ r r' ds q w l :
  flows < 2 ^ 32 -> runs flows pl core_ r w -> w_threads w !! core_ = Some l ->
  deliver ds r = Some r' -> stamped ds -> serves (reads ds ++ q) (w_env w) ->
  wp (thread_round flows o pl cs core_ l (Some (events_of ds)))
     (fun _ w' => runs flows pl core_ r' w' /\ round_effect pl core_ r r' w w' /\
                  serves q (w_env w')) no_fault w.
Proof.
  intros Hf [Hctx Hcore Hsv Hth Hdn] Hl Hd Hst He.
  unfold thread_round. apply wp_bind, wp_gets. rewrite Hdn.
  apply wp_bind, wp_gettimeofday. intros cur e Htick.
  set (w0 := w <| w_env := e |>).
  assert (Hi0 : idle pl core_ w w0) by (apply idle_same; try done; by apply ticked_calm in Htick).
  apply wp_bind. eapply wp_conseq; [by apply (wp_print_every_second o pl core_ cur l w0)| |done].
  intros l' w1 Hi1. apply wp_bind, wp_modify. set (w1' := w1 <| w_threads := _ |>).
  assert (Hi1' : idle pl core_ w w1').
  { eapply idle_trans; [exact Hi0|]. eapply idle_trans; [exact Hi1|].
    apply idle_same; try done. intros j Hj. by apply lookup_insert_ne. }
  destruct (idle_serving flows _ _ _ r _ _ Hi1' Hsv) as [(c & Hc & Hstc & _) _].
  apply wp_bind. eapply wp_get_ctx; [exact Hc|].
  apply wp_bind. unfold connect_fuel. cbn [connect_loop].
  apply wp_bind. eapply wp_get_ctx; [exact Hc|].
  rewrite (proj2 (Z.ltb_ge _ _)) by lia. apply wp_ret.
  apply wp_bind. eapply wp_on_stat; [exact Hc|]. set (w2 := w1' <| g_ctx := _ |>).
  assert (Hi2 : idle pl core_ w w2).
  { eapply idle_trans; [exact Hi1'|]. by apply idle_stat. }
  pose proof (idle_serving flows _ _ _ r _ _ Hi2 Hsv) as Hs2.
  apply wp_bind. eapply wp_conseq; [apply (wp_deliveries flows core_ ds r r' q w2)| |done]; try done.
  { eapply serves_same; [|exact He]. apply (idle_env _ _ _ _ Hi2). }
  intros [] w3 (Hs3 & Hsv3 & He3). pose proof Hs3 as [(c3 & Hc3 & Hst3 & Hdn3) _].
  assert (Heff : forall w4, idle pl core_ w3 w4 -> round_effect pl core_ r r' w w4).
  { intros w4 Hi4. eapply effect_of; [exact Hcore| | |exact Hi2|exact Hsv3|exact Hi4].
    - destruct Hs2 as [(c2 & Hc2 & _) _]. eauto.
    - eauto. }
  assert (Hend : forall w4, idle pl core_ w3 w4 -> (is_Some (w_threads w4 !! core_) <-> r' <> ∅) ->
    runs flows pl core_ r' w4).
  { intros w4 Hi4 Ht4. pose proof (Heff w4 Hi4) as [].
    split; [by eapply contexts_dom|exact Hcore|by eapply idle_serving|exact Ht4|congruence]. }
  apply wp_bind. eapply wp_get_ctx; [exact Hc3|]. destruct (Z.leb_spec (target c3) (done c3)).
  - assert (Hr' : r' = ∅) by (apply open_0; lia).
    apply wp_modify. assert (Hi4 : idle pl core_ w3 (w3 <| w_threads := delete core_ (w_threads w3) |>)).
    { apply idle_same; try done. intros j Hj. by apply lookup_delete_ne. }
    split_and!; [apply Hend|by apply Heff|done]; [done|]. cbn. rewrite lookup_delete_eq, Hr'.
    split; [by intros [? ?]|done].
  - assert (Hr' : r' <> ∅) by (intros ->; change (open_ ∅) with 0 in Hdn3; lia).
    apply wp_ret. assert (Hi4 : idle pl core_ w3 w3) by by apply idle_same.
    split_and!; [apply Hend|by apply Heff|done]; [done|]. rewrite (served_threads _ _ _ _ _ Hsv3).
    cbn. rewrite lookup_insert_eq. split; [done|eauto].
Qed.
