(* ===== verification/EpsubLive.v ===== *)
(** * epsub.c: the program gets to its end

    The threads together: each opens its connections in its first round, and
    when every connection has had its messages, in whatever order and whichever
    rounds, every thread has ended, everything is freed and the statistics are
    printed. *)

From Stdlib Require Import String.
From S2P Require Import Prelude.
From S2P Require Import Bench.
From S2P Require Import BenchFacts.
From S2P Require Import Epsub.
From S2P Require Import EpsubFacts.
From S2P Require Import EpsubSpec.

(** ** The threads together *)

(** What the connections of each thread wait for *)
Abbreviation waits_of := (gmap nat (gmap loc Z)).

Definition owned (rs : waits_of) (p : loc) : Prop := map_Exists (fun _ r => p ∈ dom r) rs.
#[export] Instance owned_dec rs p : Decision (owned rs p).
Proof. unfold owned. apply _. Defined.

Record system (flows : Z) (pl : plan) (rs : waits_of) (w : world) : Prop := {
  system_contexts : contexts pl w;
  system_runs core_ r : rs !! core_ = Some r -> runs flows pl core_ r w;
  system_threads core_ : is_Some (w_threads w !! core_) -> is_Some (rs !! core_);
  system_disjoint i j ri rj p : rs !! i = Some ri -> rs !! j = Some rj ->
    p ∈ dom ri -> p ∈ dom rj -> i = j }.

(** A round of a thread, with the deliveries it gets *)
Definition round_of : Type := nat * list delivery.
Definition rounds (s : list round_of) : list action :=
  map (fun x => Round x.1 (Some (events_of x.2))) s.
Definition deliver_to (x : round_of) (rs : waits_of) : option waits_of :=
  r ← rs !! x.1; r' ← deliver x.2 r; Some (<[x.1 := r']> rs).
Fixpoint deliver_all (s : list round_of) (rs : waits_of) : option waits_of :=
  match s with [] => Some rs | x :: s' => rs' ← deliver_to x rs; deliver_all s' rs' end.

(** The number of connections that are open in all *)
Definition opens (pl : plan) (rs : waits_of) : Z :=
  sumZ ((fun i => from_option open_ 0 (rs !! i)) <$> all_cores pl).

Lemma opens_insert pl core_ r r' rs :
  (core_ < Z.to_nat (p_core_limit pl))%nat -> rs !! core_ = Some r ->
  opens pl (<[core_ := r']> rs) = opens pl rs + (open_ r' - open_ r).
Proof.
  intros Hl Hr. unfold opens. apply in_all_cores in Hl.
  assert (Hnd : NoDup (all_cores pl)) by apply NoDup_seq. revert Hl Hnd. generalize (all_cores pl).
  induction l as [|i l IH]; intros Hin Hnd; [by apply elem_of_nil in Hin|].
  apply NoDup_cons in Hnd as [Hi Hnd]. cbn. unfold sumZ in *. cbn in *.
  apply elem_of_cons in Hin as [<-|Hin].
  - rewrite lookup_insert_eq, Hr. cbn.
    enough ((fun i => from_option open_ 0 (<[core_:=r']> rs !! i)) <$> l =
            (fun i => from_option open_ 0 (rs !! i)) <$> l) as -> by lia.
    apply list_fmap_ext. intros k j Hj. rewrite lookup_insert_ne; [done|].
    intros ->. by apply list_elem_of_lookup_2 in Hj.
  - rewrite (IH Hin Hnd), lookup_insert_ne by (by intros ->). lia.
Qed.

(** What the rounds of the threads do to the program *)
Record progress (flows : Z) (pl : plan) (rs rs' : waits_of) (w w' : world) : Prop := {
  progress_system : system flows pl rs' w';
  progress_owned p : owned rs p -> ~ owned rs' p -> w_vars w' !! p = None;
  progress_vars p : ~ owned rs p -> w_vars w' !! p = w_vars w !! p;
  progress_less p : owned rs' p -> owned rs p;
  progress_completes :
    accounted completes (all_cores pl) w' =
    u64 (accounted completes (all_cores pl) w + (opens pl rs - opens pl rs')) }.

Lemma progress_refl flows pl rs w : system flows pl rs w -> progress flows pl rs rs w w.
Proof.
  intros H. split; [done|done|done|done|]. rewrite Z.sub_diag. symmetry. apply accounted_0.
Qed.

Lemma progress_trans flows pl rs1 rs2 rs3 w1 w2 w3 :
  progress flows pl rs1 rs2 w1 w2 -> progress flows pl rs2 rs3 w2 w3 ->
  progress flows pl rs1 rs3 w1 w3.
Proof.
  intros [_ Ho1 Hv1 Hl1 Hc1] [Hs2 Ho2 Hv2 Hl2 Hc2]. split; [done| | | |].
  - intros p Hp Hp'. destruct (decide (owned rs2 p)) as [H2|H2]; [by apply Ho2|].
    rewrite (Hv2 p H2). by apply Ho1.
  - intros p Hp. rewrite Hv2; [by apply Hv1|]. intros H. by apply Hp, Hl1.
  - intros p Hp. by apply Hl1, Hl2.
  - rewrite Hc2, Hc1, u64_add_l. f_equal. lia.
Qed.

Lemma owned_insert rs core_ r r' p :
  rs !! core_ = Some r -> dom r' ⊆ dom r -> owned (<[core_ := r']> rs) p -> owned rs p.
Proof.
  intros Hr Hd (i & s & Hi & Hp). destruct (decide (core_ = i)) as [<-|Hne].
  - rewrite lookup_insert_eq in Hi. injection Hi as <-. exists core_, r. split; [done|by apply Hd].
  - rewrite lookup_insert_ne in Hi by done. by exists i, s.
Qed.

Lemma runs_other flows pl core_ i r r' s w w' :
  round_effect pl core_ r r' w w' -> i <> core_ -> (forall p, p ∈ dom s -> p ∉ dom r) ->
  runs flows pl i s w -> runs flows pl i s w'.
Proof.
  intros Heff Hi Hdis [Hc Hl [(c & Hcx & Hst & Hdn) Hvars] Ht Hd]. destruct Heff.
  destruct (effect_ctx i c Hi Hcx) as [st Hst'].
  split; [by eapply contexts_dom|done| |by rewrite effect_threads|congruence].
  split; [by exists (c <| stat := st |>)|].
  intros p k Hp. rewrite effect_vars; [by apply Hvars|]. by apply Hdis, elem_of_dom.
Qed.

Lemma system_round flows pl core_ r r' rs w w' :
  system flows pl rs w -> rs !! core_ = Some r -> runs flows pl core_ r' w' ->
  round_effect pl core_ r r' w w' -> system flows pl (<[core_ := r']> rs) w'.
Proof.
  intros [_ Hs Ht Hdis] Hr Hrun Heff. split; [by eapply runs_contexts| | |].
  - intros i s Hi. destruct (decide (core_ = i)) as [<-|Hne].
    + rewrite lookup_insert_eq in Hi. by injection Hi as <-.
    + rewrite lookup_insert_ne in Hi by done. eapply runs_other; [exact Heff|done| |by apply Hs].
      intros p Hp Hp'. by apply Hne, (Hdis core_ i r s p).
  - intros i Hi. destruct (decide (core_ = i)) as [<-|Hne]; [rewrite lookup_insert_eq; eauto|].
    rewrite (effect_threads _ _ _ _ _ _ Heff) in Hi by done. rewrite lookup_insert_ne by done. by apply Ht.
  - pose proof (effect_dom _ _ _ _ _ _ Heff) as Hd.
    assert (Hsub : forall i s p, <[core_ := r']> rs !! i = Some s -> p ∈ dom s ->
      exists s', rs !! i = Some s' /\ p ∈ dom s').
    { intros i s p Hi Hp. destruct (decide (core_ = i)) as [<-|Hne].
      - rewrite lookup_insert_eq in Hi. injection Hi as <-. exists r. split; [done|by apply Hd].
      - rewrite lookup_insert_ne in Hi by done. eauto. }
    intros i j ri rj p Hi Hj Hpi Hpj. destruct (Hsub _ _ _ Hi Hpi) as (? & ? & ?).
    destruct (Hsub _ _ _ Hj Hpj) as (? & ? & ?). by eapply Hdis.
Qed.

Lemma progress_round flows pl core_ r r' rs w w' :
  system flows pl rs w -> rs !! core_ = Some r -> runs flows pl core_ r' w' ->
  round_effect pl core_ r r' w w' -> progress flows pl rs (<[core_ := r']> rs) w w'.
Proof.
  intros Hs Hr Hrun Heff. split; [by eapply system_round| | | |].
  - intros p (i & s & Hi & Hp) Hno. destruct (decide (core_ = i)) as [<-|Hne].
    + rewrite Hr in Hi. injection Hi as <-. eapply effect_freed; [done..|].
      intros Hp'. apply Hno. exists core_, r'. by rewrite lookup_insert_eq.
    + exfalso. apply Hno. exists i, s. by rewrite lookup_insert_ne.
  - intros p Hp. eapply effect_vars; [done|]. intros Hin. apply Hp. by exists core_, r.
  - intros p. eapply owned_insert; [done|by eapply effect_dom].
  - rewrite (effect_completes _ _ _ _ _ _ Heff), (opens_insert pl core_ r) by
      (done || by eapply runs_core). f_equal. lia.
Qed.

Lemma act_round flows o pl cs x rs rs' q w :
  flows < 2 ^ 32 -> system flows pl rs w -> deliver_to x rs = Some rs' -> stamped x.2 ->
  serves (reads x.2 ++ q) (w_env w) ->
  wp (act flows o pl cs (Round x.1 (Some (events_of x.2))))
     (fun _ w' => progress flows pl rs rs' w w' /\ serves q (w_env w')) no_fault w.
Proof.
  destruct x as [core_ ds]. cbn [fst snd]. intros Hf Hs Hd Hst He.
  unfold deliver_to in Hd. cbn [fst snd] in Hd.
  destruct (rs !! core_) as [r|] eqn:Hr; [|done]. cbn in Hd.
  destruct (deliver ds r) as [r'|] eqn:Hd'; [|done]. cbn in Hd. injection Hd as <-.
  pose proof (system_runs _ _ _ _ Hs _ _ Hr) as Hrun.
  unfold act. apply wp_bind, wp_gets. destruct (w_threads w !! core_) as [l|] eqn:Hl.
  - eapply wp_conseq; [by eapply wp_thread_round|intros [] w' (Hrun' & Heff & Hq)|done].
    split; [by eapply progress_round|done].
  - assert (r = ∅) as ->.
    { destruct (decide (r = ∅)) as [|Hne]; [done|]. apply (runs_thread _ _ _ _ _ Hrun) in Hne.
      rewrite Hl in Hne. by destruct Hne. }
    destruct ds as [|[] ds]; [|discriminate Hd'..].
    cbn in Hd'. injection Hd' as <-. apply wp_ret. rewrite insert_id by done.
    split; [by apply progress_refl|done].
Qed.

Lemma wp_rounds flows o pl cs s rs rs' q w :
  flows < 2 ^ 32 -> system flows pl rs w -> deliver_all s rs = Some rs' ->
  stamped (s ≫= snd) -> serves (reads (s ≫= snd) ++ q) (w_env w) ->
  wp (iter (act flows o pl cs) (rounds s))
     (fun _ w' => progress flows pl rs rs' w w' /\ serves q (w_env w')) no_fault w.
Proof.
  intros Hf. revert rs w. induction s as [|x s IH]; intros rs w Hs Hd Hst He.
  { cbn in Hd. injection Hd as <-. apply wp_ret. split; [by apply progress_refl|done]. }
  cbn [deliver_all] in Hd. destruct (deliver_to x rs) as [rs1|] eqn:Hd1; [|done]. cbn in Hd.
  rewrite bind_cons in Hst, He. apply Forall_app in Hst as [Hst1 Hst].
  unfold reads in He. rewrite bind_app, <- app_assoc in He.
  cbn [rounds map iter]. apply wp_bind. eapply wp_conseq; [by eapply act_round| |done].
  intros [] w1 [Hp1 He1]. eapply wp_conseq; [apply (IH rs1)| |done]; try done.
  { by eapply progress_system. }
  intros [] w2 [Hp2 He2]. split; [by eapply progress_trans|done].
Qed.

(** ** The end of the program *)

Lemma drained_runs flows pl rs w :
  system flows pl rs w -> map_Forall (fun _ r => r = ∅) rs -> w_threads w = ∅.
Proof.
  intros Hs Hall. apply map_empty. intros i. destruct (w_threads w !! i) as [l|] eqn:Hl; [|done].
  destruct (system_threads _ _ _ _ Hs i ltac:(eauto)) as [r Hr].
  pose proof (runs_thread _ _ _ _ _ (system_runs _ _ _ _ Hs i r Hr)) as [Ht _].
  exfalso. apply Ht; [eauto|]. by apply (Hall i).
Qed.

Lemma opens_drained pl rs : map_Forall (fun _ r => r = ∅) rs -> opens pl rs = 0.
Proof.
  intros Hall. unfold opens. induction (all_cores pl) as [|i l IH]; [done|]. cbn. unfold sumZ in *.
  cbn. rewrite IH. destruct (rs !! i) as [r|] eqn:Hi; [|done]. by rewrite (Hall i r Hi).
Qed.

(** The loops over the contexts: the last one frees them. *)
Lemma wp_sum_times f last cores acc w :
  NoDup cores -> (forall i, i ∈ cores -> is_Some (g_ctx w !! i)) ->
  (forall i s, exists s', last i s = Ok (tt, s') /\ acc_stat s' = acc_stat s /\
     w_vars s' = w_vars s /\ forall j, j <> i -> g_ctx s' !! j = g_ctx s !! j) ->
  wp (sum_times f last cores acc)
     (fun _ w' => acc_stat w' = acc_stat w /\ w_vars w' = w_vars w) no_fault w.
Proof.
  intros Hnd Hc Hlast. revert acc w Hc. induction cores as [|i cores IH]; intros acc w Hc.
  { by apply wp_ret. }
  apply NoDup_cons in Hnd as [Hi Hnd]. destruct (Hc i) as [c Hci]; [by left|].
  cbn [sum_times]. apply wp_bind. eapply wp_get_ctx; [exact Hci|].
  destruct (Hlast i w) as (w1 & Hrun & Ha & Hv & Hg). apply wp_bind. eapply wp_ok; [exact Hrun|].
  destruct acc as [[sum mn] mx], (f c) as [[s m] m']. cbv beta iota.
  eapply wp_conseq; [apply IH; [done|]|intros a w2 [E1 E2]; split; congruence|done].
  intros j Hj. rewrite Hg; [apply Hc; by right|]. by intros ->.
Qed.

Lemma sum_times_same f cores acc w :
  (forall i, i ∈ cores -> is_Some (g_ctx w !! i)) ->
  exists r, sum_times f (fun _ => ret tt) cores acc w = Ok (r, w).
Proof.
  revert acc. induction cores as [|i cores IH]; intros acc Hc; [by exists acc|].
  destruct (Hc i) as [c Hci]; [by left|]. cbn [sum_times].
  rewrite (bind_ok _ _ _ _ _ (get_ctx_eq _ _ _ Hci)). erewrite bind_ok by reflexivity.
  destruct acc as [[sum mn] mx], (f c) as [[s m] m']. cbv beta iota. apply IH.
  intros j Hj. apply Hc. by right.
Qed.

Lemma wp_finish o pl w :
  contexts pl w -> total_concurrency o <> 0 ->
  wp (finish o pl)
     (fun _ w' => u64 (completes (acc_stat w')) = accounted completes (all_cores pl) w /\
                  w_vars w' = w_vars w) no_fault w.
Proof.
  intros Hc Ht. destruct (PrintStats_run o pl w Hc) as (w1 & numbers & Hrun & Hs & _ & _ & Hf).
  rewrite Forall_forall in Hf. destruct (Hf completes ltac:(set_solver)) as [Hacc Hheld].
  pose proof (contexts_dom pl w w1 (proj1 Hs) Hc) as Hc1.
  unfold finish. apply wp_bind. eapply wp_ok; [exact Hrun|].
  apply wp_bind, wp_gettimeofday. intros t e _. set (w2 := w1 <| w_env := e |>).
  assert (Hcs : forall i, i ∈ all_cores pl -> is_Some (g_ctx w2 !! i)).
  { intros i Hi. apply Hc1. by apply in_all_cores. }
  unfold print_times. apply wp_bind, wp_bind.
  destruct (sum_times_same (fun c => (sum_con_time c, min_con_time c, max_con_time c))
    (all_cores pl) (0, 0, 0) w2 Hcs) as [[[s mn] mx] E1].
  eapply wp_ok; [exact E1|]. cbv beta iota. rewrite (proj2 (Z.eqb_neq _ _)) by done.
  apply wp_record, wp_bind. set (w3 := w2 <| w_env := _ |>).
  eapply wp_conseq; [apply (wp_sum_times _ _ _ _ w3); [apply NoDup_seq|exact Hcs|]|
    intros [[s' mn'] mx'] w4 [Ea Ev]; cbv beta iota; apply wp_record|done].
  - intros i u. eexists. split; [reflexivity|]. split_and!; [done|done|].
    intros j Hj. by apply lookup_delete_ne.
  - change (acc_stat (w4 <| w_env := _ |>)) with (acc_stat w4).
    change (w_vars (w4 <| w_env := _ |>)) with (w_vars w4). rewrite Ea, Ev.
    split; [|apply Hs]. rewrite <- Hacc. unfold accounted. by rewrite Hheld, Z.add_0_r.
Qed.

(** When messages arrive, spread over the connections, the reads and the
    rounds of the threads in any way that gives every connection as many as it
    waits for, every thread ends and the program prints its results and
    returns: every connection has been counted as complete, closed and freed,
    and nothing else in the heap has changed. *)
Lemma rounds_finish flows o pl cs s rs rs' q w :
  flows < 2 ^ 32 -> total_concurrency o <> 0 ->
  system flows pl rs w -> deliver_all s rs = Some rs' -> map_Forall (fun _ r => r = ∅) rs' ->
  stamped (s ≫= snd) -> serves (reads (s ≫= snd) ++ q) (w_env w) ->
  exists w1 w2, iter (act flows o pl cs) (rounds s) w = Ok (tt, w1) /\ w_threads w1 = ∅ /\
    finish o pl w1 = Ok (tt, w2) /\
    u64 (completes (acc_stat w2)) = u64 (accounted completes (all_cores pl) w + opens pl rs) /\
    forall p, w_vars w2 !! p = if decide (owned rs p) then None else w_vars w !! p.
Proof.
  intros Hf Ht Hs Hd Hall Hst He.
  destruct (wp_elim _ _ _ (wp_rounds flows o pl cs s rs rs' q w Hf Hs Hd Hst He))
    as ([] & w1 & Hrun & [Hs1 Ho Hv Hl Hc] & _).
  pose proof (system_contexts _ _ _ _ Hs1) as Hctx1.
  destruct (wp_elim _ _ _ (wp_finish o pl w1 Hctx1 Ht)) as ([] & w2 & Hfin & Hcp & Hvars).
  exists w1, w2. split_and!; [done|by eapply drained_runs|done| |].
  - rewrite Hcp, Hc. do 2 f_equal. rewrite (opens_drained pl rs' Hall). lia.
  - intros p. rewrite Hvars. case_decide as Hp; [|by apply Hv]. apply Ho; [done|].
    intros (i & r & Hi & Hin). rewrite (Hall i r Hi) in Hin. set_solver.
Qed.
