(* ===== verification/EpsubOpen.v ===== *)
(** * epsub.c: how the connections are opened

    In its first round each thread opens the connections that are its share;
    from then on the threads are a [system] in the sense of [EpsubLive]. *)

From Stdlib Require Import String.
From S2P Require Import Prelude.
From S2P Require Import Bench.
From S2P Require Import BenchFacts.
From S2P Require Import Epsub.
From S2P Require Import EpsubFacts.
From S2P Require Import EpsubSpec.
From S2P Require Import EpsubLive.

(** ** Names *)

Definition topic_name (o : options) (i : Z) : list Z :=
  if is_unique o then default [] (topic o) ++ show_int i else default [] (topic o).
Definition client_name (o : options) (i : Z) : list Z :=
  default (lit "subscriber") (client_id o) ++ lit "-" ++ show_int i.

(** Topic and client identifier leave room for the number of a connection. *)
Definition names_fit (o : options) : Prop :=
  (List.length (default [] (topic o)) <= 117 /\
   List.length (default (lit "subscriber") (client_id o)) <= 116)%nat.

Lemma show_digits_length fuel n : (List.length (show_digits fuel n) <= fuel)%nat.
Proof.
  revert n. induction fuel as [|fuel IH]; intros n; [done|]. cbn [show_digits].
  case_match; [cbn; lia|]. rewrite length_app. cbn. specialize (IH (n / 10)). lia.
Qed.

Lemma names_ok o i :
  names_fit o -> 0 <= i ->
  connection_topic (is_unique o) (default [] (topic o)) i = Ok (topic_name o i) /\
  connection_client (client_id o) (lit "subscriber") i = Ok (client_name o i).
Proof.
  intros [Ht Hc] Hi. pose proof (show_digits_length show_fuel i) as Hs.
  assert (Hl : (List.length (show_int i) <= 10)%nat).
  { unfold show_int. rewrite (proj2 (Z.ltb_ge i 0)) by done. exact Hs. }
  unfold connection_topic, connection_client, sprintf, buf_size, topic_name, client_name.
  split; rewrite (proj2 (Z.leb_le _ _)); try done.
  - destruct (is_unique o); rewrite ?length_app; lia.
  - rewrite !length_app. change (List.length (lit "-")) with 1%nat. lia.
Qed.

(** ** One connection *)

(** The calls of [mosquitto_connect] in a trace *)
Definition connect_calls (l : list call) : list (list Z * list Z) :=
  omap (fun c => match c with Connect a b => Some (a, b) | _ => None end) l.
Arguments connect_calls : simpl never.

Lemma connect_calls_app l1 l2 : connect_calls (l1 ++ l2) = connect_calls l1 ++ connect_calls l2.
Proof. apply omap_app. Qed.

(** The broker takes every connection. *)
Definition willing (e : env) : Prop :=
  Forall (fun r => r = MOSQ_ERR_SUCCESS) (e_connect e) /\ Forall (fun fd => 0 <= fd) (e_socket e).

Definition heap_ok (w : world) : Prop :=
  forall p, is_Some (w_vars w !! p) -> (p < al_next (w_alloc w))%nat.

(** The state of thread [i] when it has opened the connections [r], of the
    state [w0] in which it began to *)
Record opened (flows : Z) (o : options) (pl : plan) (cs : list Z) (i : nat) (r : remaining)
    (w0 w : world) : Prop := {
  opened_ctx : exists c0 c, g_ctx w0 !! i = Some c0 /\ g_ctx w !! i = Some c /\
    core c = Z.of_nat i /\ started c = open_ r /\ target c = nth i cs 0 /\ done c = 0 /\
    stat c = stat c0;
  opened_vars p k : r !! p = Some k ->
    k = flows /\ exists v, w_vars w !! p = Some v /\ waits_for flows i k v;
  opened_old q : q ∉ dom r -> w_vars w !! q = w_vars w0 !! q;
  opened_new q : q ∈ dom r -> (al_next (w_alloc w0) <= q < al_next (w_alloc w))%nat;
  opened_alloc : alloc_le (w_alloc w0) (w_alloc w);
  opened_others j : j <> i -> g_ctx w !! j = g_ctx w0 !! j;
  opened_threads : w_threads w = w_threads w0;
  opened_done : w_done w = w_done w0;
  opened_acc : acc_stat w = acc_stat w0;
  opened_read : answers (w_env w) = answers (w_env w0);
  opened_willing : willing (w_env w);
  opened_calls : connect_calls (e_trace (w_env w)) =
    connect_calls (e_trace (w_env w0)) ++
    map (fun k => (client_name o (id_of pl (Z.of_nat i) k), topic_name o (id_of pl (Z.of_nat i) k)))
      (seqZ 0 (open_ r)) }.

Lemma wp_mosquitto_connect a b Q E w :
  willing (w_env w) ->
  (forall e, willing e -> answers e = answers (w_env w) ->
     connect_calls (e_trace e) = connect_calls (e_trace (w_env w)) ++ [(a, b)] ->
     Q MOSQ_ERR_SUCCESS (w <| w_env := e |>)) ->
  wp (with_env (mosquitto_connect a b)) Q E w.
Proof.
  intros [Hc Hs] HQ. apply wp_with_env. unfold mosquitto_connect, record. wp_run.
  cbn. destruct (e_connect (w_env w)) as [|x q] eqn:Eq.
  - wp_run. apply HQ; [split; cbn; rewrite ?Eq; by auto|done|]. apply connect_calls_app.
  - apply Forall_cons in Hc as [-> Hc]. wp_run. apply HQ; [by split|done|]. apply connect_calls_app.
Qed.

Lemma wp_mosquitto_socket Q E w :
  willing (w_env w) ->
  (forall fd e, 0 <= fd -> willing e -> answers e = answers (w_env w) ->
     e_trace e = e_trace (w_env w) -> Q fd (w <| w_env := e |>)) ->
  wp (with_env mosquitto_socket) Q E w.
Proof.
  intros [Hc Hs] HQ. apply wp_with_env. unfold mosquitto_socket. wp_run.
  destruct (e_socket (w_env w)) as [|x q] eqn:Eq.
  - wp_run. apply HQ; [lia| |done|done]. split; rewrite ?Eq; by auto.
  - apply Forall_cons in Hs as [Hx Hs]. wp_run. by apply HQ.
Qed.

Lemma ticked_read e e' : ticked e e' -> answers e' = answers e.
Proof. by intros (n & q & ->). Qed.
Lemma ticked_trace e e' : ticked e e' -> e_trace e' = e_trace e.
Proof. by intros (n & q & ->). Qed.
Lemma willing_ticked e e' : ticked e e' -> willing e -> willing e'.
Proof. by intros (n & q & ->). Qed.

Lemma wp_malloc_ok Q E w :
  memory_available (w_alloc w) ->
  Q (Some (al_next (w_alloc w)))
    (w <| w_alloc := (w_alloc w) <| al_next := S (al_next (w_alloc w)) |> |>) ->
  wp (with_alloc malloc) Q E w.
Proof. intros Ha HQ. apply wp_zoom. eapply wp_ok; [by apply malloc_available|done]. Qed.

Lemma memory_bump a : memory_available a -> memory_available (a <| al_next := S (al_next a) |>).
Proof. intros Ha. apply memory_available_next; [done|lia]. Qed.

Section opening.
Context (flows : Z) (o : options) (pl : plan) (cs : list Z).
Context (Ho : sensible o) (Hpl : planned flows o pl cs) (Hnames : names_fit o).
Context (Hflows : 1 <= flows).

Lemma seqZ_snoc n : 0 <= n -> seqZ 0 (n + 1) = seqZ 0 n ++ [n].
Proof. intros Hn. rewrite seqZ_app by lia. done. Qed.

(** One connection more *)
Lemma opened_more i r c c' v w0 w w' :
  opened flows o pl cs i r w0 w -> g_ctx w !! i = Some c ->
  w_vars w' = <[al_next (w_alloc w) := v]> (w_vars w) -> waits_for flows i flows v ->
  g_ctx w' = <[i := c']> (g_ctx w) -> core c' = core c -> started c' = started c + 1 ->
  target c' = target c -> done c' = done c -> stat c' = stat c ->
  al_fail (w_alloc w') = al_fail (w_alloc w) -> (al_next (w_alloc w) < al_next (w_alloc w'))%nat ->
  w_threads w' = w_threads w -> w_done w' = w_done w -> acc_stat w' = acc_stat w ->
  answers (w_env w') = answers (w_env w) -> willing (w_env w') ->
  connect_calls (e_trace (w_env w')) = connect_calls (e_trace (w_env w)) ++
    [(client_name o (id_of pl (Z.of_nat i) (open_ r)), topic_name o (id_of pl (Z.of_nat i) (open_ r)))] ->
  opened flows o pl cs i (<[al_next (w_alloc w) := flows]> r) w0 w'.
Proof using.
  intros [(c0 & c1 & Hc0 & Hc & Hcore & Hst & Htg & Hdn & Hstat)] Hc' Ev Hwait Ec E1 E2 E3 E4 E5
    Ef En Et Ed Ea Er Hw Hcalls.
  rewrite Hc in Hc'. injection Hc' as ->. set (p := al_next (w_alloc w)) in *.
  assert (Hp : p ∉ dom r) by (intros Hin%opened_new0; unfold p in Hin; lia).
  assert (Hsize : open_ (<[p:=flows]> r) = open_ r + 1).
  { unfold open_. rewrite map_size_insert_None by by apply not_elem_of_dom. lia. }
  assert (Hr0 : 0 <= open_ r) by (unfold open_; lia).
  split; try congruence.
  - exists c0, c'. rewrite Ec, lookup_insert_eq. split_and!; congruence.
  - intros q k Hq. rewrite Ev. destruct (decide (p = q)) as [<-|Hne].
    + rewrite lookup_insert_eq in Hq. injection Hq as <-. split; [done|].
      exists v. by rewrite lookup_insert_eq.
    + rewrite lookup_insert_ne in Hq by done. rewrite lookup_insert_ne by done. by apply opened_vars0.
  - intros q Hq. rewrite dom_insert in Hq. apply not_elem_of_union in Hq as [Hq1 Hq].
    rewrite Ev, lookup_insert_ne by (intros <-; by apply Hq1, elem_of_singleton). by apply opened_old0.
  - intros q Hq. rewrite dom_insert in Hq. destruct opened_alloc0 as [_ Hle].
    apply elem_of_union in Hq as [->%elem_of_singleton|Hq]; [fold p in Hle; lia|].
    apply opened_new0 in Hq. lia.
  - destruct opened_alloc0. split; [congruence|lia].
  - intros j Hj. rewrite Ec, lookup_insert_ne by done. by apply opened_others0.
  - rewrite Hcalls, opened_calls0, Hsize, seqZ_snoc, map_app by done. by rewrite app_assoc.
Qed.

Lemma wp_CreateConnection i r w0 w :
  opened flows o pl cs i r w0 w -> (i < Z.to_nat (p_core_limit pl))%nat ->
  open_ r < nth i cs 0 -> memory_available (w_alloc w) ->
  wp (CreateConnection o pl cs i)
     (fun s w' => 0 <= s /\ exists p, r !! p = None /\
        opened flows o pl cs i (<[p := flows]> r) w0 w') no_fault w.
Proof using Ho Hpl Hnames Hflows.
  intros Hop Hi Hlt Ha. pose proof Hop as [(c0 & c & Hc0 & Hc & Hcore & Hst & Htg & Hdn & Hstat)].
  set (p := al_next (w_alloc w)). set (id := id_of pl (Z.of_nat i) (open_ r)).
  assert (Hr0 : 0 <= open_ r) by (unfold open_; lia).
  destruct (connection_id_eq flows o pl cs (Z.of_nat i) (open_ r) Ho Hpl) as [Hid Hidr];
    [lia|by rewrite Nat2Z.id|]. fold id in Hid, Hidr.
  destruct (names_ok o id Hnames ltac:(lia)) as [Htop Hcl].
  assert (Hp : r !! p = None).
  { destruct (r !! p) eqn:E; [|done]. assert (Hin : p ∈ dom r) by (apply elem_of_dom; eauto).
    apply opened_new0 in Hin. unfold p in Hin. lia. }
  unfold CreateConnection. apply wp_bind. unfold malloc_unchecked.
  apply wp_zoom. eapply wp_ok; [unfold bind; rewrite (malloc_available _ Ha); reflexivity|].
  set (w1 := w <| w_alloc := _ |>). apply wp_bind. eapply wp_get_ctx; [exact Hc|].
  rewrite Hcore, Hst. apply wp_bind. eapply wp_lift; [exact Hid|].
  apply wp_bind. eapply wp_lift; [exact Htop|].
  pose proof (memory_bump _ Ha) as Ha1. apply wp_bind, wp_malloc_ok; [exact Ha1|].
  set (w2 := w1 <| w_alloc := _ |>). apply wp_bind. eapply wp_lift; [exact Hcl|].
  pose proof (memory_bump _ Ha1) as Ha2. apply wp_bind, wp_malloc_ok; [exact Ha2|].
  set (w3 := w2 <| w_alloc := _ |>). apply wp_bind, wp_modify. set (w4 := w3 <| w_vars := _ |>).
  apply wp_bind, wp_gettimeofday. intros t1 e1 Ht1.
  apply wp_bind, wp_mosquitto_connect; [by eapply willing_ticked|].
  intros e2 Hw2 Hr2 Hk2. cbn [Z.eqb negb MOSQ_ERR_SUCCESS].
  apply wp_bind, wp_gettimeofday. intros t3 e3 Ht3.
  apply wp_bind. eapply wp_on_ctx; [exact Hc|].
  apply wp_bind. eapply wp_on_var; [cbn; apply lookup_insert_eq|].
  apply wp_bind. eapply wp_on_ctx; [cbn; apply lookup_insert_eq|].
  apply wp_bind, wp_mosquitto_socket; [by eapply willing_ticked|].
  intros fd e4 Hfd Hw4 Hr4 Hk4. rewrite (proj2 (Z.ltb_ge _ _)) by done.
  apply wp_bind. eapply wp_on_var; [cbn; apply lookup_insert_eq|].
  apply wp_bind, wp_record. apply wp_ret. split; [done|]. exists p. split; [exact Hp|].
  assert (Hcalls : connect_calls (e_trace e4) = connect_calls (e_trace (w_env w)) ++ [(client_name o id, topic_name o id)]).
  { rewrite Hk4. change (e_trace (w_env _)) with (e_trace e3) at 1.
    rewrite (ticked_trace e2 e3 Ht3). etransitivity; [exact Hk2|].
    by rewrite <- (ticked_trace (w_env w) e1 Ht1). }
  assert (Hreads : answers e4 = answers (w_env w)).
  { rewrite Hr4. etransitivity; [exact (ticked_read e2 e3 Ht3)|]. etransitivity; [exact Hr2|].
    exact (ticked_read _ _ Ht1). }
  match goal with |- opened _ _ _ _ _ _ _ ?u => set (wf := u) end.
  assert (Ev : exists v, w_vars wf = <[p := v]> (w_vars w) /\ waits_for flows i flows v).
  { eexists. split; [cbn; rewrite !insert_insert_eq; reflexivity|].
    unfold waits_for. cbn. split_and!; [done|done|done|lia|lia|lia]. }
  assert (Ec : exists c', g_ctx wf = <[i := c']> (g_ctx w) /\ core c' = core c /\
    started c' = started c + 1 /\ target c' = target c /\ done c' = done c /\ stat c' = stat c).
  { eexists. split; [cbn; rewrite !insert_insert_eq; reflexivity|]. by split_and!. }
  destruct Ev as (v & Ev & Hwait), Ec as (c' & Ec & E1 & E2 & E3 & E4 & E5).
  apply (opened_more i r c c' v w0 w wf Hop Hc Ev Hwait Ec E1 E2 E3 E4 E5); try done.
  - cbn. lia.
  - etransitivity; [|exact Hcalls]. etransitivity; [apply connect_calls_app|apply app_nil_r].
Qed.
Lemma opened_memory i r w0 w :
  opened flows o pl cs i r w0 w -> memory_available (w_alloc w0) -> memory_available (w_alloc w).
Proof using. intros Hop. eapply alloc_le_available, opened_alloc, Hop. Qed.

(** The loop of the first round, with the fuel it is given *)
Lemma wp_connect_loop fuel i r w0 w :
  opened flows o pl cs i r w0 w -> (i < Z.to_nat (p_core_limit pl))%nat ->
  open_ r <= nth i cs 0 -> Z.to_nat (nth i cs 0 - open_ r) = fuel ->
  memory_available (w_alloc w0) ->
  wp (connect_loop o pl cs (S fuel) i)
     (fun _ w' => exists r', open_ r' = nth i cs 0 /\ opened flows o pl cs i r' w0 w')
     no_fault w.
Proof using Ho Hpl Hnames Hflows.
  intros Hop Hi Hle Hfuel Ha. revert r w Hop Hle Hfuel.
  induction fuel as [|fuel IH]; intros r w Hop Hle Hfuel;
    pose proof (opened_ctx _ _ _ _ _ _ _ _ Hop) as (c0 & c & _ & Hc & _ & Hst & Htg & _);
    cbn [connect_loop]; apply wp_bind; (eapply wp_get_ctx; [exact Hc|]); rewrite Hst, Htg.
  - rewrite (proj2 (Z.ltb_ge _ _)) by lia. apply wp_ret. exists r. split; [lia|done].
  - rewrite (proj2 (Z.ltb_lt _ _)) by lia. apply wp_bind.
    eapply wp_conseq; [apply (wp_CreateConnection i r w0 w Hop Hi); [lia|by eapply opened_memory]| |done].
    intros s w1 (Hs & p & Hp & Hop1). rewrite (proj2 (Z.ltb_ge _ _)) by done.
    assert (Hsize : open_ (<[p:=flows]> r) = open_ r + 1).
    { unfold open_. rewrite map_size_insert_None by done. lia. }
    apply (IH (<[p:=flows]> r)); [done|lia|lia].
Qed.

(** ** The first round *)

(** A thread that has not opened its connections *)
Record fresh_thread (i : nat) (w : world) : Prop := {
  fresh_core : (i < Z.to_nat (p_core_limit pl))%nat;
  fresh_ctx : exists c, g_ctx w !! i = Some c /\ core c = Z.of_nat i /\ started c = 0 /\
    target c = nth i cs 0 /\ done c = 0;
  fresh_thread_runs : is_Some (w_threads w !! i);
  fresh_done : default false (w_done w !! i) = false }.

Lemma opened_none i w :
  fresh_thread i w -> willing (w_env w) -> opened flows o pl cs i ∅ w w.
Proof using.
  intros [_ (c & Hc & Hcore & Hst & Htg & Hdn) _ _] Hw. split; try done.
  - exists c, c. by split_and!.
  - change (open_ ∅) with 0. cbn. by rewrite app_nil_r.
Qed.

Lemma concurs_positive i :
  (i < Z.to_nat (p_core_limit pl))%nat -> 1 <= nth i cs 0.
Proof using Ho Hpl.
  intros Hi. pose proof (planned_nth _ _ _ _ Hpl (Z.of_nat i) ltac:(lia)) as Hn.
  rewrite Nat2Z.id in Hn. rewrite Hn. pose proof (planned_con _ _ _ _ Hpl). case_match; lia.
Qed.
(** The names of the connections of thread [i], in the order it opens them *)
Definition names_of (i : nat) : list (list Z * list Z) :=
  map (fun k => (client_name o (id_of pl (Z.of_nat i) k), topic_name o (id_of pl (Z.of_nat i) k)))
    (seqZ 0 (nth i cs 0)).

(** What the first round of thread [i] does, [r] being its connections after *)
Record first_effect (i : nat) (r : remaining) (w w' : world) : Prop := {
  first_runs : runs flows pl i r w';
  first_open : open_ r = nth i cs 0;
  first_all : map_Forall (fun _ k => k = flows) r;
  first_vars q : q ∉ dom r -> w_vars w' !! q = w_vars w !! q;
  first_new q : q ∈ dom r -> (al_next (w_alloc w) <= q < al_next (w_alloc w'))%nat;
  first_alloc : alloc_le (w_alloc w) (w_alloc w');
  first_contexts : dom (g_ctx w') = dom (g_ctx w);
  first_ctx j c : j <> i -> g_ctx w !! j = Some c ->
    exists st, g_ctx w' !! j = Some (c <| stat := st |>);
  first_threads j : j <> i -> w_threads w' !! j = w_threads w !! j;
  first_done : w_done w' = w_done w;
  first_completes :
    accounted completes (all_cores pl) w' = accounted completes (all_cores pl) w;
  first_read : answers (w_env w') = answers (w_env w);
  first_willing : willing (w_env w');
  first_calls : connect_calls (e_trace (w_env w')) =
    connect_calls (e_trace (w_env w)) ++ names_of i }.

Lemma connect_calls_calm e e' :
  calm e e' -> connect_calls (e_trace e') = connect_calls (e_trace e).
Proof using.
  intros (_ & _ & _ & l & ->). rewrite connect_calls_app.
  enough (connect_calls (map Printed l) = []) as -> by by rewrite app_nil_r.
  by induction l.
Qed.

Lemma willing_calm e e' : calm e e' -> willing e -> willing e'.
Proof using. intros (Hc & Hs & _) [H1 H2]. split; congruence. Qed.

Lemma idle_fresh i j w w' :
  idle pl i w w' -> is_Some (w_threads w' !! i) -> fresh_thread j w -> fresh_thread j w'.
Proof using.
  intros [] Ht [Hl (c & Hc & Hcore & Hst & Htg & Hdn) Hth Hd].
  destruct (idle_ctx j c Hc) as [st Hst']. split; [done| | |congruence].
  - by exists (c <| stat := st |>).
  - destruct (decide (j = i)) as [->|Hne]; [done|by rewrite idle_threads].
Qed.

Lemma opened_accounted i r w0 w :
  (i < Z.to_nat (p_core_limit pl))%nat -> opened flows o pl cs i r w0 w ->
  accounted completes (all_cores pl) w = accounted completes (all_cores pl) w0.
Proof using.
  intros Hi [(c0 & c & Hc0 & Hc & _ & _ & _ & _ & Hstat)]. unfold accounted. rewrite opened_acc0.
  do 2 f_equal. rewrite (held_change completes i (all_cores pl) c0 c w0 w);
    [rewrite Hstat; lia|apply NoDup_seq|by apply in_all_cores|done..].
Qed.

Lemma opened_dom i r w0 w : opened flows o pl cs i r w0 w -> dom (g_ctx w) = dom (g_ctx w0).
Proof using.
  intros [(c0 & c & Hc0 & Hc & _)]. apply set_eq. intros j. rewrite !elem_of_dom.
  destruct (decide (j = i)) as [->|Hne]; [rewrite Hc0, Hc; split; eauto|by rewrite opened_others0].
Qed.

(** The effect, when what comes before and after the loop changes nothing *)
Lemma first_of i r w w1 w2 w3 :
  (i < Z.to_nat (p_core_limit pl))%nat -> contexts pl w -> default false (w_done w !! i) = false ->
  idle pl i w w1 -> opened flows o pl cs i r w1 w2 -> idle pl i w2 w3 ->
  is_Some (w_threads w3 !! i) -> open_ r = nth i cs 0 -> first_effect i r w w3.
Proof using Ho Hpl.
  intros Hi Hctx Hdn Hi1 Hop Hi3 Hth Hr.
  pose proof (opened_accounted i r w1 w2 Hi Hop) as Hacc. pose proof (opened_dom i r w1 w2 Hop) as Hdom.
  pose proof (concurs_positive i Hi) as Hpos.
  pose proof (connect_calls_calm _ _ (idle_env _ _ _ _ Hi1)) as Hk1.
  pose proof (connect_calls_calm _ _ (idle_env _ _ _ _ Hi3)) as Hk3.
  pose proof (willing_calm _ _ (idle_env _ _ _ _ Hi3) (opened_willing _ _ _ _ _ _ _ _ Hop)) as Hw3.
  destruct (idle_env _ _ _ _ Hi1) as (_ & _ & Hr1 & _), (idle_env _ _ _ _ Hi3) as (_ & _ & Hr3 & _).
  assert (Hserv : serving flows i r w3).
  { eapply idle_serving; [exact Hi3|]. pose proof (opened_ctx _ _ _ _ _ _ _ _ Hop) as
      (c0 & c & _ & Hc & _ & Hst & Htg & Hd & _).
    split; [exists c; split_and!; [done|lia|lia]|].
    intros p k Hp. apply (opened_vars _ _ _ _ _ _ _ _ Hop p k Hp). }
  destruct Hi1, Hop, Hi3. split; try done; try congruence.
  - split; [eapply contexts_dom; [|exact Hctx]; congruence|done|done| |congruence].
    split; [|done]. intros _ ->. change (open_ ∅) with 0 in Hr. lia.
  - intros p k Hp. by apply opened_vars0 in Hp as [-> _].
  - intros q Hq. rewrite idle_vars0. rewrite opened_old0 by done. by rewrite idle_vars.
  - intros q Hq. apply opened_new0 in Hq. rewrite idle_alloc0, <- idle_alloc. done.
  - intros j c Hj Hc. destruct (idle_ctx j c Hc) as [st Hst]. rewrite <- (opened_others0 j Hj) in Hst.
    destruct (idle_ctx0 j _ Hst) as [st' Hst']. eauto.
  - intros j Hj. rewrite idle_threads0, opened_threads0 by done. by apply idle_threads.
  - by rewrite Hk3, opened_calls0, Hk1, Hr.
Qed.
Lemma wp_first_round i w :
  fresh_thread i w -> contexts pl w -> willing (w_env w) -> memory_available (w_alloc w) ->
  wp (act flows o pl cs (Round i (Some []))) (fun _ w' => exists r, first_effect i r w w') no_fault w.
Proof using Ho Hpl Hnames Hflows.
  intros Hfr Hctx Hw Ha. pose proof Hfr as [Hi _ [l Hl] Hdn].
  unfold act. apply wp_bind, wp_gets. rewrite Hl.
  unfold thread_round. apply wp_bind, wp_gets. rewrite Hdn.
  apply wp_bind, wp_gettimeofday. intros cur e Htick. apply ticked_calm in Htick.
  set (w0 := w <| w_env := e |>).
  assert (Hi0 : idle pl i w w0) by by apply idle_same.
  apply wp_bind. eapply wp_conseq; [by apply (wp_print_every_second o pl i cur l w0)| |done].
  intros l' w1 Hi1. apply wp_bind, wp_modify. set (w1' := w1 <| w_threads := _ |>).
  assert (Hi1' : idle pl i w w1').
  { eapply idle_trans; [exact Hi0|]. eapply idle_trans; [exact Hi1|].
    apply idle_same; try done. intros j Hj. by apply lookup_insert_ne. }
  assert (Hth : is_Some (w_threads w1' !! i)) by (cbn; rewrite lookup_insert_eq; eauto).
  pose proof (idle_fresh i i w w1' Hi1' Hth Hfr) as Hfr1.
  pose proof (opened_none i w1' Hfr1 (willing_calm _ _ (idle_env _ _ _ _ Hi1') Hw)) as Hop.
  pose proof (opened_ctx _ _ _ _ _ _ _ _ Hop) as (c0 & c & _ & Hc & _ & Hst & Htg & _).
  pose proof (concurs_positive i Hi) as Hpos. change (open_ ∅) with 0 in Hst.
  apply wp_bind. eapply wp_get_ctx; [exact Hc|]. apply wp_bind.
  eapply wp_conseq; [apply (wp_connect_loop _ i ∅ w1' w1' Hop Hi)| |done].
  { change (open_ ∅) with 0. lia. }
  { change (open_ ∅) with 0. by rewrite Htg, Hst. }
  { by rewrite (idle_alloc _ _ _ _ Hi1'). }
  intros [] w2 (r & Hr & Hop2).
  pose proof (opened_ctx _ _ _ _ _ _ _ _ Hop2) as (_ & c2 & _ & Hc2 & _ & _ & Htg2 & Hdn2 & _).
  apply wp_bind. eapply wp_on_stat; [exact Hc2|]. cbn [iter].
  apply wp_bind, wp_ret, wp_bind. eapply wp_get_ctx; [cbn; apply lookup_insert_eq|].
  cbn [target done]. rewrite (proj2 (Z.leb_gt _ _)) by (cbn; lia). apply wp_ret. exists r.
  eapply first_of; [done..|exact Hi1'|exact Hop2|by apply idle_stat| |done].
  cbn. by rewrite (opened_threads _ _ _ _ _ _ _ _ Hop2).
Qed.
End opening.
