(* ===== verification/EpsubRun.v ===== *)
(** * epsub.c: a run of the program from its start to its end *)

From Stdlib Require Import String.
From S2P Require Import Prelude.
From S2P Require Import Bench.
From S2P Require Import BenchFacts.
From S2P Require Import Epsub.
From S2P Require Import EpsubFacts.
From S2P Require Import EpsubSpec.
From S2P Require Import EpsubLive.
From S2P Require Import EpsubOpen.

Section run.
Context (flows : Z) (o : options) (pl : plan) (cs : list Z).
Context (Ho : sensible o) (Hpl : planned flows o pl cs) (Hnames : names_fit o).
Context (Hflows : 1 <= flows) (Hevents : 6 * total_concurrency o < 2 ^ 31).

Abbreviation limit := (Z.to_nat (p_core_limit pl)).

(** ** The threads are created *)

(** Threads below [j] have been created, by a program that began with [a]
    and [e]. *)
Record created (j : nat) (a : alloc) (e : env) (w : world) : Prop := {
  created_ctx i : (i < j)%nat -> exists c, g_ctx w !! i = Some c /\ core c = Z.of_nat i /\
    started c = 0 /\ target c = nth i cs 0 /\ done c = 0;
  created_stat i c : g_ctx w !! i = Some c -> stat c = sub_stat0;
  created_threads i : is_Some (w_threads w !! i) <-> (i < j)%nat;
  created_done i : default false (w_done w !! i) = false;
  created_vars : w_vars w = ∅;
  created_acc : acc_stat w = sub_stat0;
  created_alloc : alloc_le a (w_alloc w);
  created_env : calm e (w_env w) }.

Lemma wp_thread_start j a e w :
  (j < limit)%nat -> memory_available a -> created j a e w ->
  wp (thread_start pl cs j) (fun _ w' => created (S j) a e w') no_fault w.
Proof using Ho Hpl Hevents.
  intros Hj Ha []. pose proof (alloc_le_available _ _ created_alloc0 Ha) as Ha0.
  pose proof (concurs_positive flows o pl cs Ho Hpl j Hj) as Hpos.
  destruct Hpl. destruct Ho as [Hcl Ht]. unfold MAX_CPUS in Hcl.
  unfold thread_start, CreateContext. apply wp_bind, wp_bind, wp_malloc_ok; [done|]. apply wp_ret.
  set (w1 := w <| w_alloc := _ |>). apply wp_bind, wp_modify. set (w2 := w1 <| g_ctx := _ |>).
  apply wp_bind. apply (wp_lift _ (nth j cs 0)).
  { unfold concurs_at, MAX_CPUS. rewrite (proj2 (Z.leb_le _ _)), (proj2 (Z.ltb_lt _ _)) by lia.
    by rewrite Nat2Z.id. }
  rewrite (proj2 (Z.eqb_neq _ _)) by lia.
  apply wp_bind. eapply wp_on_ctx; [apply lookup_insert_eq|].
  apply wp_bind. eapply wp_lift; [apply int_ok; unfold is_int; nia|].
  apply wp_bind, wp_malloc_ok; [by apply memory_bump|].
  apply wp_bind. eapply wp_on_ctx; [cbn; apply lookup_insert_eq|].
  apply wp_bind, wp_gettimeofday. intros t e' Htick. apply ticked_calm in Htick.
  apply wp_modify. split; cbn; try done.
  - intros i Hi. destruct (decide (j = i)) as [<-|Hne].
    + eexists. split; [apply lookup_insert_eq|]. by split_and!.
    + rewrite !lookup_insert_ne by done. apply created_ctx0. lia.
  - intros i c Hc. destruct (decide (j = i)) as [<-|Hne].
    + rewrite lookup_insert_eq in Hc. by injection Hc as <-.
    + rewrite !lookup_insert_ne in Hc by done. by eapply created_stat0.
  - intros i. destruct (decide (j = i)) as [<-|Hne].
    + rewrite lookup_insert_eq. split; [lia|eauto].
    + rewrite lookup_insert_ne by done. rewrite created_threads0. lia.
  - destruct created_alloc0. split; cbn; [done|lia].
  - by etransitivity.
Qed.

Lemma wp_create j n a e w :
  (j + n <= limit)%nat -> memory_available a -> created j a e w ->
  wp (iter (fun i => if nth i cs 0 =? 0 then ret tt else thread_start pl cs i) (seq j n))
     (fun _ w' => created (j + n) a e w') no_fault w.
Proof using Ho Hpl Hevents.
  revert j w. induction n as [|n IH]; intros j w Hn Ha Hc.
  { apply wp_ret. by rewrite Nat.add_0_r. }
  pose proof (concurs_positive flows o pl cs Ho Hpl j ltac:(lia)) as Hpos.
  cbn [seq iter]. rewrite (proj2 (Z.eqb_neq _ _)) by lia. apply wp_bind.
  eapply wp_conseq; [apply (wp_thread_start j a e w); [lia|done|done]| |done].
  intros [] w1 Hc1. rewrite <- Nat.add_succ_comm. apply IH; [lia|done|done].
Qed.

Lemma wp_threads_start a e :
  memory_available a ->
  wp (threads_start pl cs) (fun _ w => created limit a e w) no_fault (world0 a e).
Proof using Ho Hpl Hevents.
  intros Ha. unfold threads_start. apply wp_bind.
  assert (Hd : forall l w, created 0 a e w ->
    wp (iter (fun i => set_done i false) l) (fun _ w' => created 0 a e w') no_fault w).
  { induction l as [|i l IH]; intros w Hw; [by apply wp_ret|]. cbn [iter].
    apply wp_bind, wp_modify, IH. destruct Hw. split; try done.
    intros k. cbn. destruct (decide (i = k)) as [<-|Hne]; [by rewrite lookup_insert_eq|].
    by rewrite lookup_insert_ne. }
  eapply wp_conseq; [apply Hd| |done].
  - split; try done; [lia|]. intros i. split; [by intros [? ?]|lia].
  - intros [] w Hw. by apply (wp_create 0 limit a e w).
Qed.

(** ** The first rounds *)

(** Threads below [j] have opened their connections, those in [rs]; the others
    have not run.  [e] is the environment the program began with. *)
Record ready (j : nat) (e : env) (rs : waits_of) (w : world) : Prop := {
  ready_contexts : contexts pl w;
  ready_runs i r : rs !! i = Some r ->
    runs flows pl i r w /\ open_ r = nth i cs 0 /\ map_Forall (fun _ k => k = flows) r;
  ready_dom i : is_Some (rs !! i) <-> (i < j)%nat;
  ready_fresh i : (j <= i < limit)%nat -> fresh_thread pl cs i w;
  ready_threads i : is_Some (w_threads w !! i) -> (i < limit)%nat;
  ready_disjoint i k ri rk p : rs !! i = Some ri -> rs !! k = Some rk ->
    p ∈ dom ri -> p ∈ dom rk -> i = k;
  ready_below p : owned rs p -> (p < al_next (w_alloc w))%nat;
  ready_vars p : ~ owned rs p -> w_vars w !! p = None;
  ready_memory : memory_available (w_alloc w);
  ready_willing : willing (w_env w);
  ready_completes : accounted completes (all_cores pl) w = 0;
  ready_read : answers (w_env w) = answers e;
  ready_calls : connect_calls (e_trace (w_env w)) =
    connect_calls (e_trace e) ++ (seq 0 j ≫= names_of o pl cs) }.

Lemma created_ready a e w :
  memory_available a -> willing e -> created limit a e w -> ready 0 e ∅ w.
Proof using Ho Hpl.
  intros Ha Hw []. pose proof (planned_limit _ _ _ _ Hpl) as Hlim.
  destruct Ho as [Hcl Ht]. unfold MAX_CPUS in Hcl.
  split; try done.
  - split; [lia|]. intros i Hi. destruct (created_ctx0 i Hi) as (c & Hc & _). eauto.
  - intros i. rewrite lookup_empty. split; [by intros [? ?]|lia].
  - intros i [_ Hi]. split; [done|by apply created_ctx0|by apply created_threads0|done].
  - intros i Hi. by apply created_threads0.
  - intros p (i & r & Hi & _). by rewrite lookup_empty in Hi.
  - intros p _. by rewrite created_vars0.
  - by eapply alloc_le_available.
  - by eapply willing_calm.
  - unfold accounted. rewrite created_acc0, held_zero by done. done.
  - apply created_env0.
  - cbn. rewrite app_nil_r. by apply connect_calls_calm.
Qed.

Lemma first_runs_other i k r s w w' :
  first_effect flows o pl cs i r w w' -> k <> i ->
  (forall p, p ∈ dom s -> (p < al_next (w_alloc w))%nat) ->
  runs flows pl k s w -> runs flows pl k s w'.
Proof using.
  intros [] Hk Hs [Hc Hl [(c & Hcx & Hst & Hdn) Hvars] Ht Hd].
  destruct (first_ctx k c Hk Hcx) as [st Hst'].
  split; [by eapply contexts_dom|done| |by rewrite first_threads|congruence].
  split; [by exists (c <| stat := st |>)|]. intros p n Hp.
  rewrite first_vars; [by apply Hvars|]. intros Hin%first_new.
  assert (p ∈ dom s) as Hp'%Hs by (apply elem_of_dom; eauto). lia.
Qed.

Lemma first_fresh_other i k r w w' :
  first_effect flows o pl cs i r w w' -> k <> i -> fresh_thread pl cs k w -> fresh_thread pl cs k w'.
Proof using.
  intros [] Hk [Hl (c & Hc & Hcore & Hst & Htg & Hdn) Hth Hd].
  destruct (first_ctx k c Hk Hc) as [st Hst'].
  split; [done|by exists (c <| stat := st |>)|by rewrite first_threads|congruence].
Qed.

Lemma ready_step j e rs r w w' :
  (j < limit)%nat -> ready j e rs w -> first_effect flows o pl cs j r w w' ->
  ready (S j) e (<[j := r]> rs) w'.
Proof using.
  intros Hj Hr Heff. pose proof Heff as []. destruct Hr.
  assert (Hno : rs !! j = None).
  { destruct (rs !! j) eqn:E; [|done]. assert (j < j)%nat as H by (apply ready_dom0; eauto). lia. }
  assert (Hlow : forall i ri p, rs !! i = Some ri -> p ∈ dom ri -> (p < al_next (w_alloc w))%nat).
  { intros i ri p Hi Hp. apply ready_below0. by exists i, ri. }
  assert (Hown : forall p, owned (<[j:=r]> rs) p <-> p ∈ dom r \/ owned rs p).
  { intros p. unfold owned. rewrite map_Exists_insert by done. done. }
  split; try congruence; try done.
  - by eapply contexts_dom.
  - intros i ri Hi. destruct (decide (j = i)) as [<-|Hne].
    + rewrite lookup_insert_eq in Hi. injection Hi as <-. by split_and!.
    + rewrite lookup_insert_ne in Hi by done. destruct (ready_runs0 i ri Hi) as (H1 & H2 & H3).
      split_and!; [|done|done]. eapply first_runs_other; [exact Heff|done| |done].
      intros p Hp. by eapply Hlow.
  - intros i. destruct (decide (j = i)) as [<-|Hne].
    + rewrite lookup_insert_eq. split; [lia|eauto].
    + rewrite lookup_insert_ne by done. rewrite ready_dom0. lia.
  - intros i Hi. eapply first_fresh_other; [exact Heff|lia|]. apply ready_fresh0. lia.
  - intros i Hi. destruct (decide (i = j)) as [->|Hne]; [done|].
    rewrite first_threads in Hi by done. by apply ready_threads0.
  - intros i k ri rk p Hi Hk Hpi Hpk.
    destruct (decide (j = i)) as [<-|Hni], (decide (j = k)) as [<-|Hnk]; [done|..].
    + rewrite lookup_insert_eq in Hi. injection Hi as <-. rewrite lookup_insert_ne in Hk by done.
      apply first_new in Hpi. pose proof (Hlow _ _ _ Hk Hpk). lia.
    + rewrite lookup_insert_eq in Hk. injection Hk as <-. rewrite lookup_insert_ne in Hi by done.
      apply first_new in Hpk. pose proof (Hlow _ _ _ Hi Hpi). lia.
    + rewrite lookup_insert_ne in Hi, Hk by done. by eapply ready_disjoint0.
  - intros p [Hp|Hp]%Hown; [by apply first_new|]. apply ready_below0 in Hp. destruct first_alloc. lia.
  - intros p Hp. rewrite Hown in Hp. rewrite first_vars by tauto. apply ready_vars0. tauto.
  - by eapply alloc_le_available.
  - rewrite first_calls, ready_calls0, seq_S, bind_app, <- app_assoc. cbn. by rewrite app_nil_r.
Qed.

Definition first_rounds : list action := map (fun i => Round i (Some [])) (all_cores pl).

Lemma wp_first_rounds j n e rs w :
  (j + n <= limit)%nat -> ready j e rs w ->
  wp (iter (act flows o pl cs) (map (fun i => Round i (Some [])) (seq j n)))
     (fun _ w' => exists rs', ready (j + n) e rs' w') no_fault w.
Proof using Ho Hpl Hnames Hflows.
  revert j rs w. induction n as [|n IH]; intros j rs w Hn Hr.
  { apply wp_ret. exists rs. by rewrite Nat.add_0_r. }
  cbn [seq map iter]. apply wp_bind. eapply wp_conseq;
    [apply (wp_first_round flows o pl cs Ho Hpl Hnames Hflows j w)| |done].
  - apply (ready_fresh _ _ _ _ Hr). lia.
  - apply Hr.
  - apply Hr.
  - apply Hr.
  - intros [] w1 (r & Heff). rewrite <- Nat.add_succ_comm.
    apply (IH (S j) (<[j := r]> rs)); [lia|]. apply (ready_step j e rs r w w1); [lia|done|done].
Qed.

Lemma ready_system e rs w : ready limit e rs w -> system flows pl rs w.
Proof using.
  intros []. split; [done| | |done].
  - intros i r Hi. by destruct (ready_runs0 i r Hi).
  - intros i Hi. apply ready_dom0. by apply ready_threads0.
Qed.

(** In all the connections are as many as were asked for. *)
Lemma ready_opens e rs w : ready limit e rs w -> opens pl rs = total_concurrency o.
Proof using Hpl.
  intros []. rewrite <- (planned_sum _ _ _ _ Hpl). unfold opens. f_equal.
  pose proof (planned_length _ _ _ _ Hpl) as Hlen.
  apply list_eq. intros i. rewrite list_lookup_fmap. unfold all_cores.
  destruct (decide (i < limit)%nat) as [Hi|Hi].
  - rewrite lookup_seq_lt by done. cbn.
    destruct (proj2 (ready_dom0 i) Hi) as [r Hr]. rewrite Hr. cbn.
    destruct (ready_runs0 i r Hr) as (_ & -> & _). symmetry.
    destruct (nth_lookup_or_length cs i 0); [done|lia].
  - rewrite lookup_seq_ge by lia. cbn. symmetry. apply lookup_ge_None. lia.
Qed.

Lemma wp_open a e :
  memory_available a -> willing e ->
  wp (threads_start pl cs ;;; iter (act flows o pl cs) first_rounds)
     (fun _ w => exists rs, ready limit e rs w) no_fault (world0 a e).
Proof using Ho Hpl Hnames Hflows Hevents.
  intros Ha Hw. apply wp_bind. eapply wp_conseq; [by apply wp_threads_start| |done].
  intros [] w Hc. apply (wp_first_rounds 0 limit e ∅); [lia|]. by eapply created_ready.
Qed.
End run.

(** C27: with memory and a broker that takes every connection, the threads open,
    in their first rounds, the connections asked for, each thread its share
    and under the names of its identifiers, and nothing else; from then on they
    are a [system] of threads that wait for their messages. *)
Theorem program_opens flows o pl cs a e :
  sensible o -> planned flows o pl cs -> names_fit o -> 1 <= flows ->
  6 * total_concurrency o < 2 ^ 31 -> memory_available a -> willing e ->
  exists w rs, (threads_start pl cs ;;; iter (act flows o pl cs) (first_rounds pl)) (world0 a e)
      = Ok (tt, w) /\
    system flows pl rs w /\
    (forall i r, rs !! i = Some r ->
       open_ r = nth i cs 0 /\ map_Forall (fun _ k => k = flows) r) /\
    opens pl rs = total_concurrency o /\
    connect_calls (e_trace (w_env w)) =
      connect_calls (e_trace e) ++ (all_cores pl ≫= names_of o pl cs).
Proof.
  intros Ho Hpl Hn Hf Hev Ha Hw.
  destruct (wp_elim _ _ _ (wp_open flows o pl cs Ho Hpl Hn Hf Hev a e Ha Hw))
    as ([] & w & Hrun & rs & Hr).
  exists w, rs. split_and!; [done|by eapply ready_system| |by eapply ready_opens|apply Hr].
  intros i r Hi. by destruct (ready_runs _ _ _ _ _ _ _ _ Hr i r Hi) as (_ & ? & ?).
Qed.

Lemma configure_planned num_cores argv flows o pl cs :
  configure num_cores argv = Ok (Some (flows, o, pl, cs)) -> sensible o -> planned flows o pl cs.
Proof.
  intros Hconf Ho. destruct (configure_plan _ _ _ _ _ _ Hconf) as [Hp Hcs].
  destruct (make_plan_run flows o Ho) as (p' & cs' & Hp' & Hcs' & Hpl). congruence.
Qed.

(** C14: a run of epsub, from its arguments to its end.  The options are sensible
    (1 to MAX_CPUS threads, at least one connection, six times their number fits
    an int, at least one message for each and fewer than 2^32), the names fit
    their buffers, [malloc] does not fail, and the broker takes every
    connection.  First every thread opens its connections, one thread
    after the other, in a round without events; then come rounds of the
    threads in any order, in which the connections are reported accepted or
    writable any number of times, and get, in reads of any number of messages,
    as many messages as were asked for in all, each with a payload of at least
    32 bytes, as eppub sends them; and libmosquitto does what it is asked to.
    Then the program returns with every connection closed and freed, and all of
    them counted as complete.  (With a shorter payload a message is not counted
    or is read past its end: [short_message_faults].  A round of a thread is one
    step here, so that no thread counts while another is in [PrintStats].) *)
Theorem main_completes num_cores argv flows o pl cs a e :
  configure num_cores argv = Ok (Some (flows, o, pl, cs)) ->
  sensible o -> names_fit o -> 1 <= flows < 2 ^ 32 ->
  6 * total_concurrency o < 2 ^ 31 -> memory_available a -> willing e ->
  exists rs : waits_of, opens pl rs = total_concurrency o /\
    (forall i r, rs !! i = Some r ->
       open_ r = nth i cs 0 /\ map_Forall (fun _ k => k = flows) r) /\
    forall s rs' q, deliver_all s rs = Some rs' -> map_Forall (fun _ r => r = ∅) rs' ->
      stamped (s ≫= snd) -> serves (reads (s ≫= snd) ++ q) e ->
      exists w, main num_cores argv (first_rounds pl ++ rounds s) (world0 a e) = Ok (tt, w) /\
        w_vars w = ∅ /\ u64 (completes (acc_stat w)) = total_concurrency o.
Proof.
  intros Hconf Ho Hn Hf Hev Ha Hw. pose proof (configure_planned _ _ _ _ _ _ Hconf Ho) as Hpl.
  assert (Hf1 : 1 <= flows) by lia.
  destruct (wp_elim _ _ _ (wp_open flows o pl cs Ho Hpl Hn Hf1 Hev a e Ha Hw))
    as ([] & w & Hrun & rs & Hr).
  pose proof (ready_opens _ _ _ _ Hpl _ _ _ Hr) as Hopens. exists rs. split_and!; [done| |].
  { intros i r Hi. by destruct (ready_runs _ _ _ _ _ _ _ _ Hr i r Hi) as (_ & ? & ?). }
  intros s rs' q Hd Hall Hst He. pose proof (ready_system _ _ _ _ _ _ _ Hr) as Hs.
  destruct Ho as [_ Ht].
  apply (serves_same _ _ _ (ready_read _ _ _ _ _ _ _ _ Hr)) in He.
  destruct (rounds_finish flows o pl cs s rs rs' q w) as
    (w1 & w2 & Hrun1 & Hth & Hfin & Hcp & Hvars); [lia|lia|done..|].
  exists w2. split_and!.
  - unfold main. rewrite (bind_ok _ _ _ (Some (flows, o, pl, cs)) (world0 a e)) by (cbn; by rewrite Hconf).
    unfold run. unfold bind in Hrun at 1. unfold bind at 1.
    destruct (threads_start pl cs (world0 a e)) as [[[] w0]| |]; [|done|done].
    rewrite (bind_ok _ _ _ tt w1) by (rewrite iter_app; by rewrite (bind_ok _ _ _ _ _ Hrun)).
    erewrite bind_ok by reflexivity. by rewrite bool_decide_eq_true_2.
  - apply map_empty. intros p. rewrite Hvars. case_decide as Hp; [done|].
    by apply (ready_vars _ _ _ _ _ _ _ _ Hr).
  - rewrite Hcp, (ready_completes _ _ _ _ _ _ _ _ Hr), Hopens. apply u64_small. lia.
Qed.
