(* ===== verification/EpsubErrors.v ===== *)
(** * epsub.c: what goes wrong *)

From Stdlib Require Import String.
From S2P Require Import Prelude.
From S2P Require Import Bench.
From S2P Require Import BenchFacts.
From S2P Require Import Epsub.
From S2P Require Import EpsubFacts.
From S2P Require Import EpsubSpec.

Lemma wp_get_freed p Q (E : fault -> Prop) w :
  w_vars w !! p = None -> E UseAfterFree -> wp (get_var p) Q E w.
Proof. intros Hp HE. unfold wp. by rewrite (get_var_freed p w Hp). Qed.

Lemma wp_count_error core_ c Q E w :
  g_ctx w !! core_ = Some c ->
  (forall c' w', w' = w <| g_ctx := <[core_ := c']> (g_ctx w) |> -> Q tt w') ->
  wp (count_error core_) Q E w.
Proof. intros Hc HQ. eapply wp_on_stat; [exact Hc|]. by eapply HQ. Qed.

(** Closing frees the connection. *)
Lemma wp_close_freed core_ p v c Q E w :
  w_vars w !! p = Some v -> g_ctx w !! core_ = Some c ->
  (forall w', w_vars w' !! p = None -> Q tt w') -> wp (CloseConnection core_ p) Q E w.
Proof.
  intros Hv Hc HQ. eapply wp_CloseConnection; [exact Hv|exact Hc|].
  intros w' Ev _ _ _ _ _. apply HQ. by rewrite Ev, lookup_delete_eq.
Qed.

(** C34: an error on a connection that is open ends in an access to its memory
    after it has been freed: epoll reports one, or a read fails; the thread
    does not get to count it as closed. *)
Theorem failed_connection_faults flows core_ p v c r q w mask :
  w_vars w !! p = Some v -> g_ctx w !! core_ = Some c ->
  Z.land mask EPOLLERR <> 0 \/
  (Z.land mask EPOLLERR = 0 /\ Z.land mask EPOLLIN <> 0 /\ r <> MOSQ_ERR_SUCCESS /\
   e_read (w_env w) = ([], r) :: q) ->
  handle_event flows core_ (p, mask) w = Fault UseAfterFree.
Proof.
  intros Hv Hc H. apply wp_fault. unfold handle_event.
  destruct H as [Herr|(Herr & Hin & Hr & He)].
  - rewrite (proj2 (Z.eqb_neq _ _) Herr). cbn [negb]. unfold error_event.
    apply wp_bind. eapply wp_get_var; [exact Hv|].
    apply wp_bind. eapply wp_count_error; [exact Hc|]. intros c1 w1 ->.
    apply wp_bind. eapply wp_on_ctx; [apply lookup_insert_eq|].
    apply wp_bind. eapply wp_close_freed; [exact Hv|cbn; apply lookup_insert_eq|].
    intros w2 Hw2. apply wp_bind. by apply wp_get_freed.
  - rewrite Herr, (proj2 (Z.eqb_neq _ _) Hin). cbn [negb Z.eqb]. unfold read_event.
    apply wp_bind. eapply wp_get_var; [exact Hv|].
    apply wp_bind. unfold run_loop. apply wp_bind, wp_with_env. unfold mosquitto_loop_read.
    apply wp_bind, wp_gets. rewrite He. apply wp_bind, wp_modify, wp_ret. cbv beta iota. cbn [iter].
    apply wp_bind, wp_ret, wp_ret.
    rewrite (proj2 (Z.eqb_neq _ _) Hr). cbn [negb]. apply wp_bind, wp_bind.
    eapply wp_count_error; [exact Hc|]. intros c1 w1 ->.
    eapply wp_close_freed; [exact Hv|cbn; apply lookup_insert_eq|].
    intros w2 Hw2. apply wp_bind. by apply wp_get_freed.
Qed.

(** The first message on a connection, when it has room for one time stamp
    and a part of the other, is read out of its bounds. *)
Theorem short_message_faults flows p v c payload w :
  w_vars w !! p = Some v -> g_ctx w !! ctx v = Some c -> is_recv_st v = true ->
  timeval_size < Z.of_nat (List.length payload) < 2 * timeval_size ->
  my_message_callback flows p payload w = Fault OutOfBounds.
Proof.
  intros Hv Hc Hst [Hl1 Hl2]. apply wp_fault. unfold my_message_callback.
  rewrite (proj2 (Z.ltb_lt _ _)) by done. apply wp_bind. unfold count_message.
  apply wp_bind. eapply wp_on_var; [exact Hv|].
  apply wp_bind. eapply wp_get_var; [cbn; apply lookup_insert_eq|].
  apply wp_bind. eapply wp_on_stat; [cbn; exact Hc|].
  apply wp_bind, wp_gettimeofday. intros cur e _.
  destruct (load_timeval_ok payload 0) as [t1 Ht1]; [lia|unfold timeval_size in *; lia|].
  apply wp_bind. eapply wp_lift; [exact Ht1|].
  apply wp_bind. eapply wp_on_stat; [cbn; apply lookup_insert_eq|].
  cbn [is_recv_st]. rewrite Hst.
  apply wp_bind. eapply wp_on_var; [cbn; apply lookup_insert_eq|]. apply wp_bind.
  enough (load_timeval payload timeval_size = Fault OutOfBounds) as E by (unfold wp, lift; by rewrite E).
  unfold load_timeval, load_bytes, ptr_add, timeval_size in *.
  cbn [fmap option_fmap option_map]. rewrite length_drop, (proj2 (Z.ltb_lt _ _)) by lia. done.
Qed.

Lemma make_plan_nothing flows o pl :
  make_plan flows o = Ok pl -> is_int (core_limit o) -> total_concurrency o = 0 ->
  p_core_limit pl = 0.
Proof.
  unfold make_plan, is_int. intros Hp Hi Ht. rewrite Ht in Hp. change (0 <? 0) with false in Hp.
  cbn in Hp. injection Hp as <-. cbn. change (s32 0) with 0.
  destruct (Z.ltb_spec 0 (u64 (core_limit o))) as [|Hle]; [done|].
  unfold u64, wrap in Hle. destruct (Z.ltb_spec (core_limit o) 0).
  - rewrite <- (Z.mod_add _ 1) in Hle by lia. rewrite Z.mod_small in Hle by lia. lia.
  - rewrite Z.mod_small in Hle by lia. lia.
Qed.

Lemma idle_schedule flows o pl cs schedule w :
  p_core_limit pl = 0 -> w_threads w = ∅ -> iter (act flows o pl cs) schedule w = Ok (tt, w).
Proof.
  intros Hl Hth. induction schedule as [|a schedule IH]; [done|]. cbn [iter].
  erewrite bind_ok; [exact IH|]. destruct a as [i wait|]; cbn.
  - by rewrite Hth, lookup_empty.
  - unfold SignalHandler, all_cores. by rewrite Hl.
Qed.

(** Without connections, which is what the program assumes unless it is
    told, it has no threads, whatever happens then, and divides by their
    number. *)
Theorem no_connections_faults num_cores argv flows o pl cs schedule a e :
  configure num_cores argv = Ok (Some (flows, o, pl, cs)) -> is_int (core_limit o) ->
  total_concurrency o = 0 ->
  main num_cores argv schedule (world0 a e) = Fault DivByZero.
Proof.
  intros Hconf Hi Ht. destruct (configure_plan _ _ _ _ _ _ Hconf) as [Hp _].
  pose proof (make_plan_nothing _ _ _ Hp Hi Ht) as Hl.
  unfold main. rewrite (bind_ok _ _ _ (Some (flows, o, pl, cs)) (world0 a e)) by (cbn; by rewrite Hconf).
  assert (Hcores : all_cores pl = []) by (unfold all_cores; by rewrite Hl).
  unfold run. rewrite (bind_ok _ _ _ tt (world0 a e)) by (unfold threads_start; by rewrite Hcores).
  rewrite (bind_ok _ _ _ _ _ (idle_schedule flows o pl cs schedule (world0 a e) Hl eq_refl)).
  cbn. unfold finish, PrintStats. rewrite Hcores. cbn. by rewrite Hl.
Qed.
