(* ===== verification/Eppub.v ===== *)
(** * eppub.c: the publishing load generator

    Each thread opens its connections and, whenever one can be written to,
    publishes a message with two time stamps on it, until each connection has
    sent [flows_per_con] of them.  The model is that of epsub.c: a heap of
    connections, contexts, and threads whose rounds interleave. *)

From Stdlib Require Import String.
From S2P Require Import Prelude.
From S2P Require Import Bench.

(** ** Data *)

Record pub_stat : Type := {
  waits : Z; events : Z; connects : Z; snd_msgs : Z; completes : Z; stat_errors : Z;
  timedout : Z }.
#[export] Instance eta_pub_stat : Eta pub_stat := fun s =>
  Build_pub_stat (waits s) (events s) (connects s) (snd_msgs s) (completes s) (stat_errors s)
    (timedout s).
Definition pub_stat0 : pub_stat := {|
  waits := 0; events := 0; connects := 0; snd_msgs := 0; completes := 0; stat_errors := 0;
  timedout := 0 |}.

(** [payload] is [None] while the pointer is NULL. *)
Record thread_context : Type := {
  core : Z; target : Z; started : Z; errors : Z; incompletes : Z; done : Z;
  payload : option raw; stat : pub_stat;
  sum_con_time : Z; min_con_time : Z; max_con_time : Z }.
#[export] Instance eta_thread_context : Eta thread_context := fun c =>
  Build_thread_context (core c) (target c) (started c) (errors c) (incompletes c) (done c)
    (payload c) (stat c) (sum_con_time c) (min_con_time c) (max_con_time c).
Definition thread_context0 : thread_context := {|
  core := 0; target := 0; started := 0; errors := 0; incompletes := 0; done := 0;
  payload := None; stat := pub_stat0; sum_con_time := 0; min_con_time := 0;
  max_con_time := 0 |}.

(** [ctx] is the core of the thread; the field [client_id] is never set. *)
Record mosquitto_var : Type := {
  mosq : option loc; ctx : nat; fd : Z; mosq_state : mosquitto_state; msg_count : Z;
  var_topic : option (list Z); connect_time : timeval; is_publish_st : bool }.
#[export] Instance eta_mosquitto_var : Eta mosquitto_var := fun v =>
  Build_mosquitto_var (mosq v) (ctx v) (fd v) (mosq_state v) (msg_count v) (var_topic v)
    (connect_time v) (is_publish_st v).

(** The statics of the program, the heap, and the threads that run, each with
    its [prev_tv]. *)
Record world : Type := {
  w_alloc : alloc;
  w_vars : gmap loc mosquitto_var;
  g_ctx : gmap nat thread_context;
  w_done : gmap nat bool;
  acc_stat : pub_stat;
  exec_stv : timeval;
  message : raw;
  w_threads : gmap nat timeval;
  w_env : env }.
#[export] Instance eta_world : Eta world := fun w =>
  Build_world (w_alloc w) (w_vars w) (g_ctx w) (w_done w) (acc_stat w) (exec_stv w)
    (message w) (w_threads w) (w_env w).

Definition with_alloc {A} (m : M alloc A) : M world A :=
  zoom w_alloc (fun a w => w <| w_alloc := a |>) m.
Definition with_env {A} (m : M env A) : M world A :=
  zoom w_env (fun e w => w <| w_env := e |>) m.

(** Dereferencing a [struct mosquitto_var *] and a [thread_context_t] *)
Definition get_var (p : loc) : M world mosquitto_var := deref w_vars UseAfterFree p.
Definition on_var (p : loc) (f : mosquitto_var -> mosquitto_var) : M world unit :=
  assign w_vars (fun m w => w <| w_vars := m |>) UseAfterFree p f.
Definition get_ctx (core : nat) : M world thread_context := deref g_ctx NullDeref core.
Definition on_ctx (core : nat) (f : thread_context -> thread_context) : M world unit :=
  assign g_ctx (fun m w => w <| g_ctx := m |>) NullDeref core f.
Definition on_stat (core : nat) (f : pub_stat -> pub_stat) : M world unit :=
  on_ctx core (fun c => c <| stat := f (stat c) |>).

(** [x++] on a [uint64_t] *)
Definition incr (x : Z) : Z := u64 (x + 1).

(** ** Callbacks *)

Definition my_connect_callback (p : loc) (result : Z) : M world unit :=
  if result =? 0 then
    on_var p (fun v => v <| mosq_state := conacked |>) ;;;
    let* v := get_var p in
    on_stat (ctx v) (fun s => s <| connects := incr (connects s) |>) ;;;
    with_env (record (EpollCtlMod (fd v) (Z.lor EPOLLOUT EPOLLIN)))
  else ret tt.

Definition my_publish_callback (flows_per_con : Z) (p : loc) : M world unit :=
  on_var p (fun v => v <| msg_count := u32 (msg_count v + 1) |>) ;;;
  let* v := get_var p in
  on_stat (ctx v) (fun s => s <| snd_msgs := incr (snd_msgs s) |>) ;;;
  if msg_count v <? flows_per_con then
    with_env (record (EpollCtlMod (fd v) (Z.lor EPOLLOUT EPOLLIN)))
  else
    on_var p (fun v => v <| mosq_state := will_disconnect |>) ;;;
    on_stat (ctx v) (fun s => s <| completes := incr (completes s) |>).

(** What libmosquitto calls back; no callback is set for messages. *)
Definition run_callback (flows_per_con : Z) (p : loc) (c : callback) : M world unit :=
  match c with
  | OnConnect result => my_connect_callback p result
  | OnMessage _ => ret tt
  | OnPublish _ => my_publish_callback flows_per_con p
  end.

(** ** Contexts and connections *)

Definition CreateContext (core_ : nat) : M world (option thread_context) :=
  let* p := with_alloc malloc in
  ret (match p with
       | None => None
       | Some _ => Some (thread_context0 <| core := Z.of_nat core_ |>)
       end).

Definition DestroyContext (core_ : nat) : M world unit :=
  let* _ := get_ctx core_ in
  modify (fun w => w <| g_ctx := delete core_ (g_ctx w) |>).

Section program.
Context (flows_per_con : Z) (o : options) (pl : plan) (concurs : list Z).

(** The times of [mosquitto_connect] *)
Definition count_con_time (t : Z) (c : thread_context) : thread_context :=
  c <| min_con_time := take_min (min_con_time c) t |>
    <| max_con_time := take_max (max_con_time c) t |>
    <| sum_con_time := u64 (sum_con_time c + t) |>.

(** [CreateConnection(ctx)]: -1 or the socket. *)
Definition CreateConnection (core_ : nat) : M world Z :=
  let* p := with_alloc malloc_unchecked in
  let* c := get_ctx core_ in
  let* i := lift (connection_id pl concurs (core c) (started c)) in
  let* top := lift (connection_topic (is_unique o) (default [] (topic o)) i) in
  let* t := with_alloc malloc in
  let* c_id := lift (connection_client (client_id o) (lit "publisher") i) in
  let* m := with_alloc malloc in
  modify (fun w => w <| w_vars := <[p := {|
    mosq := m; ctx := core_; fd := 0; mosq_state := closed; msg_count := 0;
    var_topic := match t with Some _ => Some top | None => None end;
    connect_time := {| tv_sec := 0; tv_usec := 0 |}; is_publish_st := false |}]> (w_vars w) |>) ;;;
  let* str_con_tv := with_env gettimeofday in
  let* r := match m with Some _ => with_env (mosquitto_connect c_id top) | None => ret 3 end in
  if negb (r =? MOSQ_ERR_SUCCESS) then ret (-1)
  else
    let* end_con_tv := with_env gettimeofday in
    on_ctx core_ (count_con_time (time_between str_con_tv end_con_tv)) ;;;
    on_var p (fun v => v <| connect_time := str_con_tv |> <| is_publish_st := true |>
                         <| mosq_state := connected |>) ;;;
    on_ctx core_ (fun c => c <| started := started c + 1 |>) ;;;
    let* sockid := with_env mosquitto_socket in
    if sockid <? 0 then ret (-1)
    else
      on_var p (fun v => v <| fd := sockid |>) ;;;
      with_env (record (EpollCtlAdd sockid EPOLLIN)) ;;;
      ret sockid.

(** [CloseConnection(ctx, mosq_var)] *)
Definition CloseConnection (core_ : nat) (p : loc) : M world unit :=
  let* v := get_var p in
  with_env (record (EpollCtlDel (fd v))) ;;;
  with_env (record (Destroy (default O (mosq v)))) ;;;
  on_var p (fun v => v <| mosq_state := closed |>) ;;;
  modify (fun w => w <| w_vars := delete p (w_vars w) |>) ;;;
  on_ctx core_ (fun c => c <| done := done c + 1 |>).

(** ** Statistics *)

(** The sums of one round of the loop in [PrintStats], on [total] and on
    [acc_stat] *)
Definition add_total (st total : pub_stat) : pub_stat :=
  total <| waits := u64 (waits total + waits st) |>
    <| events := u64 (events total + events st) |>
    <| snd_msgs := u64 (snd_msgs total + snd_msgs st) |>
    <| stat_errors := u64 (stat_errors total + stat_errors st) |>.
Definition add_acc (st acc : pub_stat) : pub_stat :=
  acc <| connects := u64 (connects acc + connects st) |>
    <| snd_msgs := u64 (snd_msgs acc + snd_msgs st) |>
    <| completes := u64 (completes acc + completes st) |>
    <| stat_errors := u64 (stat_errors acc + stat_errors st) |>.

(** [for (i = 0; i < core_limit; i++) { ... }] *)
Fixpoint sum_stats (cores : list nat) (total : pub_stat) : M world pub_stat :=
  match cores with
  | [] => ret total
  | i :: cores' =>
      let* c := get_ctx i in
      let st := stat c in
      modify (fun w => w <| acc_stat := add_acc st (acc_stat w) |>) ;;;
      on_stat i (fun _ => pub_stat0) ;;;
      sum_stats cores' (add_total st total)
  end.

Definition all_cores : list nat := seq 0 (Z.to_nat (p_core_limit pl)).

(** [PrintStats()], with the numbers it prints *)
Definition PrintStats : M world unit :=
  let* total := sum_stats all_cores pub_stat0 in
  let* acc := gets acc_stat in
  with_env (record (Printed
    [connects acc; total_concurrency o; snd_msgs total; snd_msgs acc; total_flows pl;
     completes acc; stat_errors acc; total_concurrency o])).

(** ** [RunMain] *)

Definition is_done (core_ : nat) : M world bool := gets (fun w => default false (w_done w !! core_)).
Definition set_done (core_ : nat) (b : bool) : M world unit :=
  modify (fun w => w <| w_done := <[core_ := b]> (w_done w) |>).

(** [if (size > 0) { ... }]: the payload is allocated, and what it holds, which
    nobody has written, is copied over the message. *)
Definition make_payload (core_ : nat) : M world unit :=
  if 0 <? size o then
    let* p := with_alloc malloc in
    match p with
    | None => fail NullDeref
    | Some _ =>
        let m := replicate (Z.to_nat (size o)) None in
        on_ctx core_ (fun c => c <| payload := Some m |>) ;;;
        modify (fun w => w <| message := m ++ drop (Z.to_nat (size o)) (message w) |>)
    end
  else ret tt.

(** [RunMain] before its loop, [concurs[core]] being positive; [epoll_create]
    succeeds.  Without memory for the context the thread ends, without memory
    for the events the program does. *)
Definition thread_start (core_ : nat) : M world unit :=
  let* c := CreateContext core_ in
  match c with
  | None => ret tt
  | Some c =>
      modify (fun w => w <| g_ctx := <[core_ := c]> (g_ctx w) |>) ;;;
      let* n := lift (concurs_at concurs (Z.of_nat core_)) in
      if n =? 0 then ret tt
      else
        on_ctx core_ (fun c => c <| target := n |>) ;;;
        make_payload core_ ;;;
        let* _ := lift (int (max_fds pl * 3)) in
        let* events := with_alloc malloc in
        match events with
        | None => fail Aborted
        | Some _ =>
            on_ctx core_ (fun c => c <| started := 0 |> <| done := 0 |> <| errors := 0 |>
                                     <| incompletes := 0 |>) ;;;
            let* cur_tv := with_env gettimeofday in
            modify (fun w => w <| exec_stv := cur_tv |>
                               <| w_threads := <[core_ := cur_tv]> (w_threads w) |>)
        end
  end.

(** [if (core == 0 && cur_tv.tv_sec > prev_tv.tv_sec) { ... }]: the new
    [prev_tv]. *)
Definition print_every_second (core_ : nat) (cur_tv prev_tv : timeval) : M world timeval :=
  if bool_decide (core_ = O) && (tv_sec prev_tv <? tv_sec cur_tv) then
    PrintStats ;;; ret cur_tv
  else ret prev_tv.

(** [while (ctx->started < ctx->target) { ... }], with fuel *)
Fixpoint connect_loop (fuel : nat) (core_ : nat) : M world unit :=
  match fuel with
  | O => fun _ => NoFuel
  | S fuel' =>
      let* c := get_ctx core_ in
      if started c <? target c then
        let* s := CreateConnection core_ in
        if s <? 0 then set_done core_ true else connect_loop fuel' core_
      else ret tt
  end.
(** Each round but the last starts a connection. *)
Definition connect_fuel (c : thread_context) : nat := S (Z.to_nat (target c - started c)).

(** A result of [mosquitto_loop_read] or [mosquitto_loop_write] on [p] *)
Definition run_loop (p : loc) (m : M env (list callback * Z)) : M world Z :=
  let* (cs, r) := with_env m in
  iter (run_callback flows_per_con p) cs ;;; ret r.

Definition count_error (core_ : nat) : M world unit :=
  on_stat core_ (fun s => s <| stat_errors := incr (stat_errors s) |>).

(** The branch for EPOLLERR *)
Definition error_event (core_ : nat) (p : loc) : M world unit :=
  let* _ := get_var p in
  count_error core_ ;;;
  on_ctx core_ (fun c => c <| errors := errors c + 1 |>) ;;;
  CloseConnection core_ p.

(** The branch for EPOLLIN *)
Definition read_event (core_ : nat) (p : loc) : M world unit :=
  let* _ := get_var p in
  let* r := run_loop p mosquitto_loop_read in
  if negb (r =? MOSQ_ERR_SUCCESS) then count_error core_ ;;; CloseConnection core_ p
  else ret tt.

(** Put the time stamps into the payload: the current time, and on the first
    message of a connection the time it was opened. *)
Definition stamp (core_ : nat) (p : loc) : M world unit :=
  let* cur_tv := with_env gettimeofday in
  let* c := get_ctx core_ in
  let* m := lift (store_timeval (payload c) 0 cur_tv) in
  on_ctx core_ (fun c => c <| payload := m |>) ;;;
  let* v := get_var p in
  if is_publish_st v then
    on_var p (fun v => v <| is_publish_st := false |>) ;;;
    let* c := get_ctx core_ in
    let* m := lift (store_timeval (payload c) timeval_size (connect_time v)) in
    on_ctx core_ (fun c => c <| payload := m |>)
  else ret tt.

(** The branch for EPOLLOUT alone *)
Definition write_event (core_ : nat) (p : loc) : M world unit :=
  let* v := get_var p in
  if bool_decide (mosq_state v = connecting) then ret tt
  else
    stamp core_ p ;;;
    let* c := get_ctx core_ in
    let* (r, _) := with_env (mosquitto_request
      (Publish (default O (mosq v)) (default [] (var_topic v)) (payload c))) in
    let* r := if r =? MOSQ_ERR_SUCCESS then run_loop p mosquitto_loop_write else ret r in
    if negb (r =? MOSQ_ERR_SUCCESS) then count_error core_ ;;; CloseConnection core_ p
    else
      let* v := get_var p in
      if bool_decide (mosq_state v = will_disconnect) then
        with_env (record (Disconnect (default O (mosq v)))) ;;; CloseConnection (ctx v) p
      else ret tt.

(** The body of the loop over the events *)
Definition handle_event (core_ : nat) (ev : loc * Z) : M world unit :=
  let '(p, mask) := ev in
  if negb (Z.land mask EPOLLERR =? 0) then error_event core_ p
  else if negb (Z.land mask EPOLLIN =? 0) then read_event core_ p
  else if mask =? EPOLLOUT then write_event core_ p
  else fail Aborted.

Definition thread_end (core_ : nat) : M world unit :=
  modify (fun w => w <| w_threads := delete core_ (w_threads w) |>).

(** One evaluation of [while (!done[core]) { ... }]; [epoll_wait] answers
    [wait], [None] being -1. *)
Definition thread_round (core_ : nat) (prev_tv : timeval) (wait : option (list (loc * Z)))
    : M world unit :=
  let* d := is_done core_ in
  if (d : bool) then thread_end core_
  else
    let* cur_tv := with_env gettimeofday in
    let* prev_tv := print_every_second core_ cur_tv prev_tv in
    modify (fun w => w <| w_threads := <[core_ := prev_tv]> (w_threads w) |>) ;;;
    let* c := get_ctx core_ in
    connect_loop (connect_fuel c) core_ ;;;
    on_stat core_ (fun s => s <| waits := incr (waits s) |>) ;;;
    match wait with
    | None => set_done core_ true ;;; thread_end core_
    | Some evs =>
        on_stat core_ (fun s => s <| events := u64 (events s + Z.of_nat (List.length evs)) |>) ;;;
        iter (handle_event core_) evs ;;;
        let* c := get_ctx core_ in
        if target c <=? done c then thread_end core_ else ret tt
    end.

(** What can happen next: a round of a thread that runs, or SIGINT, on which
    [SignalHandler] sets [done[i]] for every thread. *)
Inductive action : Type :=
| Round (core_ : nat) (wait : option (list (loc * Z)))
| Interrupt.

Definition SignalHandler : M world unit := iter (fun i => set_done i true) all_cores.

Definition act (a : action) : M world unit :=
  match a with
  | Round core_ wait =>
      let* ts := gets w_threads in
      match ts !! core_ with Some t => thread_round core_ t wait | None => ret tt end
  | Interrupt => SignalHandler
  end.

(** ** [main] *)

Definition threads_start : M world unit :=
  iter (fun i => set_done i false) all_cores ;;;
  iter (fun i => if nth i concurs 0 =? 0 then ret tt else thread_start i) all_cores.

(** [sum_time], [min_time], [max_time] over the contexts, which are freed *)
Fixpoint sum_times (cores : list nat) (acc : Z * Z * Z) : M world (Z * Z * Z) :=
  match cores with
  | [] => ret acc
  | i :: cores' =>
      let* c := get_ctx i in
      DestroyContext i ;;;
      let '(sum, min, max) := acc in
      sum_times cores' (u64 (sum + sum_con_time c), take_min min (min_con_time c),
                        take_max max (max_con_time c))
  end.

(** After the threads have been joined *)
Definition finish : M world unit :=
  PrintStats ;;;
  let* _ := with_env gettimeofday in
  let* (sum, min, max) := sum_times all_cores (0, 0, 0) in
  if total_concurrency o =? 0 then fail DivByZero
  else with_env (record (Printed [sum / total_concurrency o; min; max])).

(** The program on a schedule; [pthread_join] waits for every thread, so a
    schedule that leaves one running does not get to the end of [main]. *)
Definition run (schedule : list action) : M world unit :=
  threads_start ;;;
  iter act schedule ;;;
  let* ts := gets w_threads in
  if bool_decide (ts = ∅) then finish else ret tt.
End program.

Definition world0 (a : alloc) (e : env) : world := {|
  w_alloc := a; w_vars := ∅; g_ctx := ∅; w_done := ∅; acc_stat := pub_stat0;
  exec_stv := {| tv_sec := 0; tv_usec := 0 |}; message := []; w_threads := ∅; w_env := e |}.

(** The loop over the arguments has two flags more than that of epsub.c. *)
Definition pub_option_step (num_cores : Z) (flag value : list Z) (o : options)
    : outcome (option options) :=
  if bool_decide (flag = lit "-s") then
    let? n := atoi value in Ok (Some (o <| size := n |>))
  else if bool_decide (flag = lit "-i") then Ok (Some o)
  else option_step num_cores flag value o.

(** The arguments, [argv[0]] included: [None] when [main] returns for an error
    in them; whether there is a topic is looked at later. *)
Definition parse_args (num_cores : Z) (argv : list (list Z))
    : outcome (option (Z * options)) :=
  match argv with
  | _ :: _ :: flows :: args =>
      let? f := atoi flows in
      let flows_per_con := u64 f in
      if flows_per_con =? 0 then Ok None
      else
        let? r := options_loop (pub_option_step num_cores) args {|
          core_limit := num_cores; total_concurrency := 0; topic := None; is_unique := false;
          client_id := None; size := 32; fio := false; outfile := [] |} in
        Ok (match r with None => None | Some o => Some (flows_per_con, o) end)
  | _ => Ok None
  end.

(** The message of [size] bytes: room for a time stamp, then random
    characters; [rand] are the answers of [rand()]. *)
Definition make_message (rand : nat -> Z) (n : Z) : raw :=
  map (fun i => Some (if Z.of_nat i <? timeval_size then 0
                      else rand (i - Z.to_nat timeval_size)%nat mod 73 + 48)) (seq 0 (Z.to_nat n)).

(** [malloc(size)] and [memset]: the size is converted to a [size_t], so that
    a negative one is more than there is. *)
Definition generate (rand : nat -> Z) (o : options) : M world unit :=
  if size o <? 0 then fail NullDeref
  else
    let* _ := with_alloc malloc_unchecked in
    modify (fun w => w <| message := make_message rand (size o) |>).

(** [main(argc, argv)] *)
Definition main (num_cores : Z) (rand : nat -> Z) (argv : list (list Z)) (schedule : list action)
    : M world unit :=
  let* r := lift (parse_args num_cores argv) in
  match r with
  | None => ret tt
  | Some (flows_per_con, o) =>
      generate rand o ;;;
      match topic o with
      | None => ret tt
      | Some _ =>
          let* pl := lift (make_plan flows_per_con o) in
          let* cs := lift (concurs_of pl) in
          run flows_per_con o pl cs schedule
      end
  end.
