(* ===== verification/EppubFacts.v ===== *)
(** * eppub.c: the theorems

    The time stamps, what is published, and the events a thread handles. *)

From Stdlib Require Import String.
From S2P Require Import Prelude.
From S2P Require Import Bench.
From S2P Require Import BenchFacts.
From S2P Require Import Eppub.

(** ** Time stamps *)

Lemma to_little_endian_length n z : List.length (to_little_endian n z) = n.
Proof. revert z. induction n as [|n IH]; intros z; [done|]. cbn. by rewrite IH. Qed.

Lemma little_endian_inv n z :
  0 <= z < 256 ^ Z.of_nat n -> little_endian (to_little_endian n z) = z.
Proof.
  revert z. induction n as [|n IH]; intros z Hz; [change (256 ^ Z.of_nat 0) with 1 in Hz; cbn; lia|].
  cbn [to_little_endian little_endian]. rewrite IH.
  - pose proof (Z.div_mod z 256 ltac:(lia)). lia.
  - rewrite Nat2Z.inj_succ, Z.pow_succ_r in Hz by lia.
    split; [apply Z.div_pos; lia|apply Z.div_lt_upper_bound; lia].
Qed.

(** The fields are [long]s. *)
Definition is_timeval (t : timeval) : Prop :=
  - 2 ^ 63 <= tv_sec t < 2 ^ 63 /\ - 2 ^ 63 <= tv_usec t < 2 ^ 63.

Lemma s64_u64 z : - 2 ^ 63 <= z < 2 ^ 63 -> s64 (u64 z) = z.
Proof.
  intros Hz. unfold s64, u64, wrap, signed. change (2 ^ (64 - 1)) with (2 ^ 63).
  rewrite Z.add_mod_idemp_l by lia. rewrite Z.mod_small by lia. lia.
Qed.

Lemma timeval_bytes_length t : List.length (timeval_bytes t) = 16%nat.
Proof. unfold timeval_bytes. by rewrite length_app, !to_little_endian_length. Qed.

(** What arrives for bytes of which some are not known *)
Definition arrives (m : raw) (l : list Z) : Prop :=
  Forall2 (fun x b => forall y, x = Some y -> b = y) m l.

Lemma arrives_known l1 l2 : arrives (map Some l1) l2 -> l2 = l1.
Proof.
  revert l2. induction l1 as [|x l1 IH]; intros l2 H; inversion H as [|? b ? l2' Hb Hl]; [done|].
  subst. rewrite (Hb x eq_refl). f_equal. by apply IH.
Qed.

Lemma load_arrived t m1 m2 l off :
  is_timeval t -> List.length m1 = Z.to_nat off -> 0 <= off ->
  arrives (m1 ++ map Some (timeval_bytes t) ++ m2) l -> load_timeval l off = Ok t.
Proof.
  intros [Hs Hu] Hlen Hoff H. unfold arrives in H.
  apply Forall2_app_inv_l in H as (l1 & l' & H1 & H' & ->).
  apply Forall2_app_inv_l in H' as (l2 & l3 & H2 & H3 & ->).
  apply Forall2_length in H1. rewrite Hlen in H1. apply arrives_known in H2 as ->.
  unfold load_timeval, load_bytes, ptr_add, timeval_size. cbn [fmap option_fmap option_map].
  rewrite H1, drop_app_length. rewrite length_app, timeval_bytes_length.
  rewrite (proj2 (Z.ltb_ge _ _)) by lia. cbn [obind].
  change (Z.to_nat 16) with 16%nat. rewrite <- (timeval_bytes_length t), take_app_length.
  unfold timeval_bytes. remember (to_little_endian 8 (u64 (tv_sec t))) as s eqn:Es.
  remember (to_little_endian 8 (u64 (tv_usec t))) as u eqn:Eu.
  assert (Hls : List.length s = 8%nat) by (subst s; apply to_little_endian_length).
  change (16 <=? 0) with false. cbn [obind]. rewrite (take_app_length' s u 8), (drop_app_length' s u 8) by done. subst s u.
  rewrite !little_endian_inv by apply u64_range. rewrite !s64_u64 by done. by destruct t.
Qed.

Lemma store_timeval_ok m off t :
  0 <= off -> off + timeval_size <= Z.of_nat (List.length m) ->
  exists m', store_timeval (Some m) off t = Ok (Some m') /\ List.length m' = List.length m /\
    m' = take (Z.to_nat off) m ++ map Some (timeval_bytes t) ++ drop (Z.to_nat (off + timeval_size)) m.
Proof.
  intros Ho Hl. unfold store_timeval. rewrite (proj2 (Z.ltb_ge _ _)) by lia.
  eexists. split; [reflexivity|]. split; [|done]. unfold timeval_size in *.
  rewrite !length_app, length_take, length_drop, length_map, timeval_bytes_length. lia.
Qed.

(** ** Rules for the heap *)

Lemma pub_wp_get_var p v Q E w : w_vars w !! p = Some v -> Q v w -> wp (get_var p) Q E w.
Proof. apply wp_deref. Qed.
Lemma pub_wp_on_var p f v Q E w :
  w_vars w !! p = Some v -> Q tt (w <| w_vars := <[p := f v]> (w_vars w) |>) ->
  wp (on_var p f) Q E w.
Proof. intros H HQ. by eapply (wp_assign w_vars). Qed.
Lemma pub_wp_get_ctx i c Q E w : g_ctx w !! i = Some c -> Q c w -> wp (get_ctx i) Q E w.
Proof. apply wp_deref. Qed.
Lemma pub_wp_on_ctx i f c Q E w :
  g_ctx w !! i = Some c -> Q tt (w <| g_ctx := <[i := f c]> (g_ctx w) |>) ->
  wp (on_ctx i f) Q E w.
Proof. intros H HQ. by eapply (wp_assign g_ctx). Qed.
Lemma pub_wp_on_stat i f c Q E w :
  g_ctx w !! i = Some c ->
  Q tt (w <| g_ctx := <[i := c <| stat := f (stat c) |>]> (g_ctx w) |>) ->
  wp (on_stat i f) Q E w.
Proof. intros H HQ. by eapply pub_wp_on_ctx. Qed.
Lemma pub_wp_with_env {A} (m : M env A) Q E w :
  wp m (fun a e => Q a (w <| w_env := e |>)) E (w_env w) -> wp (with_env m) Q E w.
Proof. apply wp_zoom. Qed.
Lemma pub_wp_record c Q E w :
  Q tt (w <| w_env := (w_env w) <| e_trace := e_trace (w_env w) ++ [c] |> |>) ->
  wp (with_env (record c)) Q E w.
Proof. intros HQ. apply pub_wp_with_env. unfold record. by wp_run. Qed.

(** The time the clock tells next *)
Definition now (e : env) : timeval := match e_clock e with [] => e_now e | t :: _ => t end.
Definition tick (e : env) : env :=
  match e_clock e with [] => e | t :: q => e <| e_clock := q |> <| e_now := t |> end.

Lemma pub_wp_gettimeofday Q E w :
  Q (now (w_env w)) (w <| w_env := tick (w_env w) |>) -> wp (with_env gettimeofday) Q E w.
Proof.
  intros HQ. apply pub_wp_with_env. unfold gettimeofday. apply wp_bind, wp_gets. unfold now, tick in HQ.
  destruct (e_clock (w_env w)); by wp_run.
Qed.

(** ** The time stamps arrive *)

Definition has_room (c : thread_context) (m : raw) : Prop :=
  payload c = Some m /\ 2 * timeval_size <= Z.of_nat (List.length m).

(** The payload after the time stamps have been written *)
Definition stamped_with (t : timeval) (first : option timeval) (m : raw) : raw :=
  map Some (timeval_bytes t) ++
  match first with
  | Some t' => map Some (timeval_bytes t') ++ drop 32 m
  | None => drop 16 m
  end.

Lemma store_first t m :
  timeval_size <= Z.of_nat (List.length m) ->
  store_timeval (Some m) 0 t = Ok (Some (stamped_with t None m)).
Proof.
  intros Hl. unfold store_timeval, stamped_with. rewrite (proj2 (Z.ltb_ge _ _)) by lia. done.
Qed.

Lemma store_second t t' m :
  2 * timeval_size <= Z.of_nat (List.length m) ->
  store_timeval (Some (stamped_with t None m)) timeval_size t' =
  Ok (Some (stamped_with t (Some t') m)).
Proof.
  unfold timeval_size. intros Hl. unfold store_timeval, stamped_with, timeval_size.
  pose proof (timeval_bytes_length t) as Ht. rewrite length_app, length_drop, length_map, Ht.
  rewrite (proj2 (Z.ltb_ge _ _)) by lia. change (Z.to_nat 16) with 16%nat.
  change (Z.to_nat (16 + 16)) with 32%nat. do 2 f_equal.
  rewrite take_app_length' by (by rewrite length_map). f_equal. f_equal.
  rewrite drop_app_ge by (rewrite length_map, Ht; lia). rewrite length_map, Ht, drop_drop. done.
Qed.

Lemma stamped_length t first m :
  2 * timeval_size <= Z.of_nat (List.length m) ->
  List.length (stamped_with t first m) = List.length m.
Proof.
  unfold timeval_size, stamped_with. intros Hl.
  destruct first; rewrite !length_app, ?length_app, !length_map, length_drop, !timeval_bytes_length; lia.
Qed.

(** All but the parts of the state that the stamps are written to *)
Definition rest_same (w w' : world) : Prop :=
  w_done w' = w_done w /\ w_threads w' = w_threads w /\ acc_stat w' = acc_stat w /\
  w_alloc w' = w_alloc w.

Lemma rest_same_trans w1 w2 w3 : rest_same w1 w2 -> rest_same w2 w3 -> rest_same w1 w3.
Proof. intros (? & ? & ? & ?) (? & ? & ? & ?). split_and!; congruence. Qed.

Lemma wp_stamp core_ p v c m Q E w :
  w_vars w !! p = Some v -> g_ctx w !! core_ = Some c -> has_room c m ->
  (forall w', w_vars w' = <[p := v <| is_publish_st := false |>]> (w_vars w) ->
     g_ctx w' = <[core_ := c <| payload := Some (stamped_with (now (w_env w))
       (if is_publish_st v then Some (connect_time v) else None) m) |>]> (g_ctx w) ->
     w_env w' = tick (w_env w) -> rest_same w w' -> Q tt w') ->
  wp (stamp core_ p) Q E w.
Proof.
  intros Hv Hc [Hp Hl] HQ. pose proof Hl as Hl'. unfold timeval_size in Hl'.
  unfold stamp. apply wp_bind, pub_wp_gettimeofday. set (t := now (w_env w)).
  apply wp_bind. eapply pub_wp_get_ctx; [exact Hc|]. rewrite Hp.
  apply wp_bind. eapply wp_lift; [apply store_first; unfold timeval_size; lia|].
  apply wp_bind. eapply pub_wp_on_ctx; [exact Hc|].
  apply wp_bind. eapply pub_wp_get_var; [exact Hv|]. destruct (is_publish_st v) eqn:Hst.
  - apply wp_bind. eapply pub_wp_on_var; [exact Hv|].
    apply wp_bind. eapply pub_wp_get_ctx; [cbn; apply lookup_insert_eq|]. cbn [payload].
    apply wp_bind. eapply wp_lift; [by apply store_second|].
    eapply pub_wp_on_ctx; [cbn; apply lookup_insert_eq|].
    apply HQ; [done| |done|done]. cbn. by rewrite insert_insert_eq.
  - apply wp_ret. apply HQ; [|done|done|done]. symmetry. apply insert_id.
    etransitivity; [exact Hv|]. f_equal. destruct v; cbn in *; by subst.
Qed.

(** C30: the first message a connection publishes carries the time it is
    published and the time the connection was opened, where epsub.c looks for
    them: whatever the bytes that were never written arrive as, both are read
    back. *)
Theorem stamps_read_back core_ p v c m w :
  w_vars w !! p = Some v -> g_ctx w !! core_ = Some c -> has_room c m ->
  is_publish_st v = true -> is_timeval (now (w_env w)) -> is_timeval (connect_time v) ->
  exists w' c' m', stamp core_ p w = Ok (tt, w') /\ g_ctx w' !! core_ = Some c' /\
    payload c' = Some m' /\ List.length m' = List.length m /\
    forall l, arrives m' l ->
      load_timeval l 0 = Ok (now (w_env w)) /\ load_timeval l timeval_size = Ok (connect_time v).
Proof.
  intros Hv Hc Hroom Hst Ht Ht'.
  destruct (wp_elim _ _ _ (wp_stamp core_ p v c m
    (fun _ w' => g_ctx w' = <[core_ := c <| payload := Some (stamped_with (now (w_env w))
       (if is_publish_st v then Some (connect_time v) else None) m) |>]> (g_ctx w)) no_fault w
    Hv Hc Hroom (fun w' _ Hg _ _ => Hg))) as ([] & w' & Hrun & Hg). rewrite Hst in Hg.
  exists w'. do 2 eexists. split; [exact Hrun|]. split; [rewrite Hg; apply lookup_insert_eq|].
  split; [reflexivity|]. split; [apply stamped_length, Hroom|]. intros l Hl. unfold stamped_with in Hl.
  split; [eapply (load_arrived _ [] _ l 0 Ht); [done|done|exact Hl]|].
  apply (load_arrived _ (map Some (timeval_bytes (now (w_env w)))) (drop 32 m) _ timeval_size Ht');
    [by rewrite length_map, timeval_bytes_length|done|exact Hl].
Qed.

(** A payload without room for both time stamps is written out of its bounds
    by the first message of a connection, and one without room for the first by
    every message; without any, there is nothing to write to. *)
Theorem small_payload_faults flows core_ p v c w :
  w_vars w !! p = Some v -> g_ctx w !! core_ = Some c -> mosq_state v <> connecting ->
  is_publish_st v = true ->
  match payload c with Some m => Z.of_nat (List.length m) < 2 * timeval_size | None => True end ->
  handle_event flows core_ (p, EPOLLOUT) w =
  Fault (match payload c with Some _ => OutOfBounds | None => NullDeref end).
Proof.
  intros Hv Hc Hms Hst Hm. apply wp_fault. unfold handle_event, write_event, stamp.
  change (negb (Z.land EPOLLOUT EPOLLERR =? 0)) with false.
  change (negb (Z.land EPOLLOUT EPOLLIN =? 0)) with false. change (EPOLLOUT =? EPOLLOUT) with true.
  cbv iota. apply wp_bind. eapply pub_wp_get_var; [exact Hv|]. rewrite bool_decide_eq_false_2 by done.
  apply wp_bind, wp_bind, pub_wp_gettimeofday. apply wp_bind. eapply pub_wp_get_ctx; [exact Hc|].
  destruct (payload c) as [m|]; [|done]. apply wp_bind.
  destruct (Z.ltb_spec (Z.of_nat (List.length m)) timeval_size) as [Hlt|Hge].
  { unfold wp, lift, store_timeval. rewrite (proj2 (Z.ltb_lt _ _)) by lia. done. }
  eapply wp_lift; [by apply store_first|].
  apply wp_bind. eapply pub_wp_on_ctx; [exact Hc|].
  apply wp_bind. eapply pub_wp_get_var; [exact Hv|]. rewrite Hst.
  apply wp_bind. eapply pub_wp_on_var; [exact Hv|].
  apply wp_bind. eapply pub_wp_get_ctx; [apply lookup_insert_eq|]. apply wp_bind.
  match goal with |- context [payload ?u] =>
    change (payload u) with (Some (stamped_with (now (w_env w)) None m)) end.
  unfold wp, lift, store_timeval, stamped_with.
  rewrite length_app, length_drop, length_map, timeval_bytes_length.
  unfold timeval_size in *. by rewrite (proj2 (Z.ltb_lt _ _)) by lia.
Qed.

(** ** Connections that fail *)

Lemma pub_wp_CloseConnection core_ p v c Q E w :
  w_vars w !! p = Some v -> g_ctx w !! core_ = Some c ->
  (forall w', w_vars w' = delete p (w_vars w) ->
     g_ctx w' = <[core_ := c <| done := done c + 1 |>]> (g_ctx w) -> rest_same w w' ->
     e_trace (w_env w') =
       e_trace (w_env w) ++ [EpollCtlDel (fd v); Destroy (default O (mosq v))] ->
     e_write (w_env w') = e_write (w_env w) -> Q tt w') ->
  wp (CloseConnection core_ p) Q E w.
Proof.
  intros Hv Hc HQ. unfold CloseConnection.
  apply wp_bind. eapply pub_wp_get_var; [exact Hv|].
  apply wp_bind, pub_wp_record. apply wp_bind, pub_wp_record.
  apply wp_bind. eapply pub_wp_on_var; [exact Hv|].
  apply wp_bind, wp_modify. eapply pub_wp_on_ctx; [exact Hc|]. apply HQ; [|done|done| |done].
  - cbn. by rewrite delete_insert_eq.
  - cbn. by rewrite <- app_assoc.
Qed.

(** C35: a connection that fails, because epoll reports an error or a read fails,
    is closed, freed and counted as done and as an error, and the other
    connections and threads are left as they were. *)
Theorem failed_connection_closed flows core_ p v c r q w mask :
  w_vars w !! p = Some v -> g_ctx w !! core_ = Some c ->
  Z.land mask EPOLLERR <> 0 \/
  (Z.land mask EPOLLERR = 0 /\ Z.land mask EPOLLIN <> 0 /\ r <> MOSQ_ERR_SUCCESS /\
   e_read (w_env w) = ([], r) :: q) ->
  exists w' c', handle_event flows core_ (p, mask) w = Ok (tt, w') /\
    w_vars w' = delete p (w_vars w) /\ g_ctx w' = <[core_ := c']> (g_ctx w) /\
    done c' = done c + 1 /\ stat c' = (stat c) <| stat_errors := incr (stat_errors (stat c)) |> /\
    payload c' = payload c /\ started c' = started c /\ target c' = target c /\ rest_same w w'.
Proof.
  intros Hv Hc H. enough (Hwp : wp (handle_event flows core_ (p, mask)) (fun _ w' =>
    exists c', w_vars w' = delete p (w_vars w) /\ g_ctx w' = <[core_ := c']> (g_ctx w) /\
    done c' = done c + 1 /\ stat c' = (stat c) <| stat_errors := incr (stat_errors (stat c)) |> /\
    payload c' = payload c /\ started c' = started c /\ target c' = target c /\ rest_same w w')
    no_fault w).
  { destruct (wp_elim _ _ _ Hwp) as ([] & w' & Hrun & c' & Hw'). by exists w', c'. }
  unfold handle_event. destruct H as [Herr|(Herr & Hin & Hr & He)].
  - rewrite (proj2 (Z.eqb_neq _ _) Herr). cbn [negb]. unfold error_event, count_error.
    apply wp_bind. eapply pub_wp_get_var; [exact Hv|].
    apply wp_bind. eapply pub_wp_on_stat; [exact Hc|].
    apply wp_bind. eapply pub_wp_on_ctx; [apply lookup_insert_eq|].
    eapply pub_wp_CloseConnection; [exact Hv|apply lookup_insert_eq|].
    intros w' Ev Ec Hrest _ _. eexists. split; [exact Ev|].
    split; [rewrite Ec; cbn; by rewrite !insert_insert_eq|]. by split_and!.
  - rewrite Herr, (proj2 (Z.eqb_neq _ _) Hin). cbn [negb Z.eqb]. unfold read_event, count_error.
    apply wp_bind. eapply pub_wp_get_var; [exact Hv|].
    apply wp_bind. unfold run_loop. apply wp_bind, pub_wp_with_env. unfold mosquitto_loop_read.
    apply wp_bind, wp_gets. rewrite He. apply wp_bind, wp_modify, wp_ret. cbv beta iota.
    cbn [iter]. apply wp_bind, wp_ret, wp_ret.
    rewrite (proj2 (Z.eqb_neq _ _) Hr). cbn [negb]. apply wp_bind. eapply pub_wp_on_stat; [exact Hc|].
    eapply pub_wp_CloseConnection; [exact Hv|apply lookup_insert_eq|].
    intros w' Ev Ec Hrest _ _. eexists. split; [exact Ev|].
    split; [rewrite Ec; cbn; by rewrite !insert_insert_eq|]. by split_and!.
Qed.

(** ** What a connection publishes *)

Definition publishes (l : list call) : list (loc * list Z) :=
  omap (fun c => match c with Publish m t _ => Some (m, t) | _ => None end) l.
Arguments publishes : simpl never.

Lemma publishes_app l1 l2 : publishes (l1 ++ l2) = publishes l1 ++ publishes l2.
Proof. apply omap_app. Qed.

Definition accepted (e : env) : Prop := Forall (fun r => r.1 = MOSQ_ERR_SUCCESS) (e_request e).
(** [mosquitto_loop_write] sends the message and calls back. *)
Definition sent (mid : Z) : list callback * Z := ([OnPublish mid], MOSQ_ERR_SUCCESS).

Definition message_of (v : mosquitto_var) : loc * list Z :=
  (default O (mosq v), default [] (var_topic v)).

(** A connection that publishes, and its thread *)
Record publishing (flows : Z) (core_ : nat) (p : loc) (v : mosquitto_var) (c : thread_context)
    (w : world) : Prop := {
  publishing_var : w_vars w !! p = Some v;
  publishing_ctx : g_ctx w !! core_ = Some c;
  publishing_core : ctx v = core_;
  publishing_state : mosq_state v <> connecting /\ mosq_state v <> will_disconnect;
  publishing_count : 0 <= msg_count v < flows /\ flows < 2 ^ 32;
  publishing_room : exists m, has_room c m;
  publishing_accepted : accepted (w_env w) }.

Lemma wp_request call Q E w :
  accepted (w_env w) ->
  (forall mid e, accepted e -> e_write e = e_write (w_env w) ->
     e_trace e = e_trace (w_env w) ++ [call] ->
     Q (MOSQ_ERR_SUCCESS, mid) (w <| w_env := e |>)) ->
  wp (with_env (mosquitto_request call)) Q E w.
Proof.
  intros Ha HQ. apply pub_wp_with_env. unfold mosquitto_request, record. wp_run. cbn.
  unfold accepted in Ha. destruct (e_request (w_env w)) as [|[r mid] q] eqn:Eq.
  - wp_run. apply HQ; [unfold accepted; cbn; rewrite ?Eq; by constructor|done|done].
  - apply Forall_cons in Ha as [Hr Ha]. cbn in Hr. subst r. wp_run. by apply HQ.
Qed.

Lemma tick_same e :
  e_write (tick e) = e_write e /\ e_request (tick e) = e_request e /\ e_trace (tick e) = e_trace e.
Proof. unfold tick. by destruct (e_clock e). Qed.

(** One message more, after which the connection is still open *)
Definition sent_one (flows : Z) (core_ : nat) (p : loc) (v : mosquitto_var) (c : thread_context)
    (w w' : world) : Prop :=
  publishes (e_trace (w_env w')) = publishes (e_trace (w_env w)) ++ [message_of v] /\
  rest_same w w' /\ exists c', g_ctx w' = <[core_ := c']> (g_ctx w) /\
    snd_msgs (stat c') = incr (snd_msgs (stat c)) /\ stat_errors (stat c') = stat_errors (stat c) /\
    if msg_count v + 1 <? flows then
      done c' = done c /\ completes (stat c') = completes (stat c) /\
      exists v', w_vars w' = <[p := v']> (w_vars w) /\ publishing flows core_ p v' c' w' /\
        msg_count v' = msg_count v + 1 /\ message_of v' = message_of v
    else
      done c' = done c + 1 /\ completes (stat c') = incr (completes (stat c)) /\
      w_vars w' = delete p (w_vars w).

Lemma wp_publish_callback flows core_ p v c Q E w :
  w_vars w !! p = Some v -> g_ctx w !! core_ = Some c -> ctx v = core_ ->
  0 <= msg_count v -> msg_count v + 1 < 2 ^ 32 ->
  (forall v' c' w', w_vars w' = <[p := v']> (w_vars w) -> g_ctx w' = <[core_ := c']> (g_ctx w) ->
     rest_same w w' -> publishes (e_trace (w_env w')) = publishes (e_trace (w_env w)) ->
     e_request (w_env w') = e_request (w_env w) -> e_write (w_env w') = e_write (w_env w) ->
     msg_count v' = msg_count v + 1 -> ctx v' = ctx v -> message_of v' = message_of v ->
     payload c' = payload c -> done c' = done c ->
     snd_msgs (stat c') = incr (snd_msgs (stat c)) -> stat_errors (stat c') = stat_errors (stat c) ->
     (if msg_count v + 1 <? flows
      then mosq_state v' = mosq_state v /\ completes (stat c') = completes (stat c)
      else mosq_state v' = will_disconnect /\ completes (stat c') = incr (completes (stat c))) ->
     Q tt w') ->
  wp (my_publish_callback flows p) Q E w.
Proof.
  intros Hv Hc <- H0 H1 HQ. unfold my_publish_callback.
  apply wp_bind. eapply pub_wp_on_var; [exact Hv|].
  apply wp_bind. eapply pub_wp_get_var; [apply lookup_insert_eq|].
  apply wp_bind. eapply pub_wp_on_stat; [exact Hc|].
  change (msg_count (v <| msg_count := ?n |>)) with n. rewrite u32_small by lia.
  destruct (msg_count v + 1 <? flows) eqn:Ef.
  - apply pub_wp_record. eapply HQ; try done. cbn. rewrite publishes_app. apply app_nil_r.
  - apply wp_bind. eapply pub_wp_on_var; [apply lookup_insert_eq|].
    eapply pub_wp_on_stat; [apply lookup_insert_eq|].
    eapply HQ; [cbn; by rewrite insert_insert_eq|cbn; by rewrite insert_insert_eq|..]; done.
Qed.

Lemma wp_write flows core_ p v c mid q w :
  publishing flows core_ p v c w -> e_write (w_env w) = sent mid :: q ->
  wp (handle_event flows core_ (p, EPOLLOUT))
     (fun _ w' => sent_one flows core_ p v c w w' /\ e_write (w_env w') = q) no_fault w.
Proof.
  intros [Hv Hc Hcore [Hnc Hnw] [Hn Hf] [m Hroom] Hacc] Hq.
  destruct (tick_same (w_env w)) as (Tw & Tr & Tt).
  unfold handle_event, write_event.
  change (negb (Z.land EPOLLOUT EPOLLERR =? 0)) with false.
  change (negb (Z.land EPOLLOUT EPOLLIN =? 0)) with false. change (EPOLLOUT =? EPOLLOUT) with true.
  cbv iota. apply wp_bind. eapply pub_wp_get_var; [exact Hv|]. rewrite bool_decide_eq_false_2 by done.
  apply wp_bind. eapply wp_stamp; [exact Hv|exact Hc|exact Hroom|].
  intros w1 Ev1 Ec1 Ee1 Hr1. set (v1 := v <| is_publish_st := false |>) in *.
  match type of Ec1 with _ = <[_ := ?u]> _ => set (c1 := u) in * end.
  assert (Hv1 : w_vars w1 !! p = Some v1) by (rewrite Ev1; apply lookup_insert_eq).
  assert (Hc1 : g_ctx w1 !! core_ = Some c1) by (rewrite Ec1; apply lookup_insert_eq).
  apply wp_bind. eapply pub_wp_get_ctx; [exact Hc1|].
  apply wp_bind, wp_request; [unfold accepted; by rewrite Ee1, Tr|].
  intros mid' e Hacc' Hw' Ht'. cbv beta iota. cbn [Z.eqb MOSQ_ERR_SUCCESS].
  apply wp_bind. unfold run_loop. apply wp_bind, pub_wp_with_env. unfold mosquitto_loop_write.
  apply wp_bind, wp_gets. change (w_env (w1 <| w_env := e |>)) with e.
  rewrite Hw', Ee1, Tw, Hq. apply wp_bind, wp_modify, wp_ret. cbv beta iota.
  cbn [iter sent]. apply wp_bind, wp_bind.
  eapply (wp_publish_callback flows core_ p v1 c1); [exact Hv1|exact Hc1|exact Hcore|cbn; lia|cbn; lia|].
  intros v2 c2 w2 Ev2 Ec2 Hr2 Hpub2 Hreq2 Hwr2 Hm2 Hx2 Hmsg2 Hpl2 Hd2 Hs2 He2 Hif.
  assert (Hv2 : w_vars w2 !! p = Some v2) by (rewrite Ev2; apply lookup_insert_eq).
  assert (Hc2 : g_ctx w2 !! core_ = Some c2) by (rewrite Ec2; apply lookup_insert_eq).
  apply wp_ret, wp_ret. cbn [negb Z.eqb MOSQ_ERR_SUCCESS].
  apply wp_bind. eapply pub_wp_get_var; [exact Hv2|].
  assert (Ev : w_vars w2 = <[p := v2]> (w_vars w)) by (rewrite Ev2; cbn; by rewrite Ev1, insert_insert_eq).
  assert (Ec : g_ctx w2 = <[core_ := c2]> (g_ctx w)) by (rewrite Ec2; cbn; by rewrite Ec1, insert_insert_eq).
  assert (Hr : rest_same w w2) by (eapply rest_same_trans; [exact Hr1|exact Hr2]).
  assert (Hpub : publishes (e_trace (w_env w2)) = publishes (e_trace (w_env w)) ++ [message_of v]).
  { rewrite Hpub2. change (e_trace (w_env _)) with (e_trace e) at 1.
    by rewrite Ht', publishes_app, Ee1, Tt. }
  change (msg_count v1) with (msg_count v) in *. change (mosq_state v1) with (mosq_state v) in *.
  change (stat c1) with (stat c) in *. change (done c1) with (done c) in *.
  destruct (msg_count v + 1 <? flows) eqn:Ef; destruct Hif as [Hs Hcp].
  - rewrite bool_decide_eq_false_2 by (rewrite Hs; done). apply wp_ret. split; [|exact Hwr2].
    split; [exact Hpub|]. split; [exact Hr|]. exists c2. rewrite Ef.
    split; [exact Ec|]. split_and!; [exact Hs2|exact He2|exact Hd2|exact Hcp|].
    exists v2. split; [exact Ev|]. split_and!; [|exact Hm2|exact Hmsg2].
    split; [exact Hv2|exact Hc2|by rewrite Hx2|rewrite Hs; done|lia| |].
    + eexists. split; [rewrite Hpl2; reflexivity|]. rewrite stamped_length; apply Hroom.
    + unfold accepted. by rewrite Hreq2.
  - rewrite bool_decide_eq_true_2 by done. apply wp_bind, pub_wp_record. rewrite Hx2.
    change (ctx v1) with (ctx v). rewrite Hcore.
    eapply pub_wp_CloseConnection; [exact Hv2|exact Hc2|]. intros w3 Ev3 Ec3 Hr3 Ht3 Hw3.
    split; [|by rewrite Hw3].
    split; [|split; [by eapply rest_same_trans|]].
    + rewrite Ht3. cbn. rewrite !publishes_app, Hpub. change (publishes [_]) with (@nil (loc * list Z)).
      change (publishes [_; _]) with (@nil (loc * list Z)). by rewrite !app_nil_r.
    + eexists. split; [rewrite Ec3; cbn; rewrite Ec; by rewrite insert_insert_eq|]. rewrite Ef.
      split_and!; [exact Hs2|exact He2|cbn; by rewrite Hd2|exact Hcp|].
      rewrite Ev3. cbn. rewrite Ev. by rewrite delete_insert_eq.
Qed.

Lemma write_loop flows core_ p mids v c q w :
  publishing flows core_ p v c w ->
  msg_count v + Z.of_nat (List.length mids) = flows ->
  e_write (w_env w) = map sent mids ++ q ->
  wp (iter (handle_event flows core_) (map (fun _ => (p, EPOLLOUT)) mids))
     (fun _ w' => exists c', w_vars w' = delete p (w_vars w) /\ g_ctx w' = <[core_ := c']> (g_ctx w) /\
        done c' = done c + 1 /\ completes (stat c') = incr (completes (stat c)) /\
        u64 (snd_msgs (stat c')) = u64 (snd_msgs (stat c) + Z.of_nat (List.length mids)) /\
        stat_errors (stat c') = stat_errors (stat c) /\
        publishes (e_trace (w_env w')) =
          publishes (e_trace (w_env w)) ++ map (fun _ => message_of v) mids /\
        rest_same w w' /\ e_write (w_env w') = q) no_fault w.
Proof.
  revert v c w. induction mids as [|mid mids IH]; intros v c w Hp Hn Hq.
  { exfalso. pose proof (publishing_count _ _ _ _ _ _ Hp). cbn in Hn. lia. }
  cbn [map app] in Hq. cbn [map iter]. apply wp_bind.
  eapply wp_conseq; [by eapply wp_write| |done].
  intros [] w1 [(Hpub & Hr & c1 & Ec & Hs & He & Hif) Hq1]. cbn [List.length] in Hn.
  destruct mids as [|mid' mids].
  - rewrite (proj2 (Z.ltb_ge _ _)) in Hif by (cbn in Hn; lia). destruct Hif as (Hd & Hcp & Ev).
    apply wp_ret. exists c1. split_and!; try done. rewrite Hs. unfold incr. by rewrite u64_u64.
  - rewrite (proj2 (Z.ltb_lt _ _)) in Hif by (cbn in Hn; lia).
    destruct Hif as (Hd & Hcp & v1 & Ev & Hp1 & Hm1 & Hmsg).
    eapply wp_conseq; [apply (IH v1 c1 w1 Hp1); [lia|exact Hq1]| |done].
    intros [] w2 (c2 & Ev2 & Ec2 & Hd2 & Hcp2 & Hs2 & He2 & Hpub2 & Hr2 & Hq2). exists c2.
    split; [rewrite Ev2, Ev; by rewrite delete_insert_eq|].
    split; [rewrite Ec2, Ec; by rewrite insert_insert_eq|].
    split; [congruence|]. split; [congruence|].
    split; [rewrite Hs2, Hs; unfold incr; rewrite u64_add_l; f_equal; cbn [List.length]; lia|].
    split; [congruence|]. split; [rewrite Hpub2, Hpub, Hmsg, <- app_assoc; done|].
    split; [by eapply rest_same_trans|exact Hq2].
Qed.

(** C29: a connection that can be written to, as often as it has messages to send,
    publishes exactly as many as were asked for, all on its topic, counts them,
    and is then closed, freed and counted as complete. *)
Theorem publishes_exactly flows core_ p mids v c q w :
  publishing flows core_ p v c w ->
  msg_count v + Z.of_nat (List.length mids) = flows ->
  e_write (w_env w) = map sent mids ++ q ->
  exists w' c', iter (handle_event flows core_) (map (fun _ => (p, EPOLLOUT)) mids) w = Ok (tt, w') /\
    w_vars w' = delete p (w_vars w) /\ g_ctx w' = <[core_ := c']> (g_ctx w) /\
    done c' = done c + 1 /\ completes (stat c') = incr (completes (stat c)) /\
    u64 (snd_msgs (stat c')) = u64 (snd_msgs (stat c) + Z.of_nat (List.length mids)) /\
    stat_errors (stat c') = stat_errors (stat c) /\
    publishes (e_trace (w_env w')) =
      publishes (e_trace (w_env w)) ++ map (fun _ => message_of v) mids.
Proof.
  intros Hp Hn Hq. destruct (wp_elim _ _ _ (write_loop flows core_ p mids v c q w Hp Hn Hq))
    as ([] & w' & Hrun & c' & H). exists w', c'. tauto.
Qed.
