(* ===== verification/EppubMessage.v ===== *)
(** * eppub.c: the message that is never sent

    The program makes a message of random characters, and each thread then
    copies its payload, which it has just allocated, over the message instead of
    the message into the payload. *)

From Stdlib Require Import String.
From S2P Require Import Prelude.
From S2P Require Import Bench.
From S2P Require Import BenchFacts.
From S2P Require Import Eppub.
From S2P Require Import EppubFacts.

(** A payload of [n] bytes of which only the time stamps can be known *)
Definition blank (n : Z) (m : raw) : Prop :=
  Z.of_nat (List.length m) = n /\
  forall k, (Z.to_nat (2 * timeval_size) <= k < Z.to_nat n)%nat -> m !! k = Some None.

Definition blank_ptr (n : Z) (p : option raw) : Prop := forall m, p = Some m -> blank n m.

Definition payloads (l : list call) : list (option raw) :=
  omap (fun c => match c with Publish _ _ m => Some m | _ => None end) l.
Arguments payloads : simpl never.

(** No thread has anything else to send, and none has sent anything else. *)
Definition never_sends (n : Z) (w : world) : Prop :=
  map_Forall (fun _ c => blank_ptr n (payload c)) (g_ctx w) /\
  Forall (blank_ptr n) (payloads (e_trace (w_env w))).

Lemma blank_replicate n : 0 <= n -> blank n (replicate (Z.to_nat n) None).
Proof.
  intros Hn. split; [rewrite length_replicate; lia|]. intros k Hk. apply lookup_replicate. split; [done|lia].
Qed.

Lemma blank_store n p off t p' :
  blank_ptr n p -> 0 <= off <= timeval_size -> store_timeval p off t = Ok p' -> blank_ptr n p'.
Proof.
  intros Hp Hoff H. destruct p as [m|]; [|done]. destruct (Hp m eq_refl) as [Hlen Hblank].
  destruct (Z.ltb_spec (Z.of_nat (List.length m)) (off + timeval_size)) as [Hlt|Hl].
  { unfold store_timeval in H. by rewrite (proj2 (Z.ltb_lt _ _)) in H by lia. }
  destruct (store_timeval_ok m off t) as (m1 & E & Hlen1 & Hm1); [lia|lia|].
  assert (Ep : Ok p' = Ok (Some m1)) by (etransitivity; [symmetry; exact H|exact E]).
  injection Ep as ->. intros m2 Hm2. injection Hm2 as <-.
  pose proof (timeval_bytes_length t) as Ht. split; [congruence|].
  intros k Hk. unfold timeval_size in *.
  rewrite Hm1, lookup_app_r by (rewrite length_take; lia).
  rewrite lookup_app_r by (rewrite length_take, length_map, Ht; lia).
  rewrite lookup_drop, length_take, length_map, Ht. rewrite <- (Hblank k) by lia. f_equal. lia.
Qed.

Section never.
Context (flows : Z) (o : options) (pl : plan) (cs : list Z).
Abbreviation keeps m := (preserves (never_sends (size o)) m).

(** ** The parts *)

Lemma keeps_alloc {A} (m : M alloc A) : keeps (with_alloc m).
Proof using. by apply preserves_zoom. Qed.

(** What a call does to the trace: nothing, or it records a call that is
    allowed. *)
Lemma keeps_env {A} (m : M env A) :
  (forall e a e', m e = Ok (a, e') -> exists l, e_trace e' = e_trace e ++ l /\
     Forall (blank_ptr (size o)) (payloads l)) -> keeps (with_env m).
Proof using.
  intros Hm w a w' [Hc Ht]. unfold with_env, zoom. destruct (m (w_env w)) as [[b e]| |] eqn:E; [|done..].
  intros [= _ <-]. split; [exact Hc|]. cbn. destruct (Hm _ _ _ E) as (l & -> & Hl).
  unfold payloads in *. rewrite omap_app. by apply Forall_app.
Qed.

Lemma keeps_record c : Forall (blank_ptr (size o)) (payloads [c]) -> keeps (with_env (record c)).
Proof using. intros Hc. apply keeps_env. intros e a e' [= _ <-]. by exists [c]. Qed.

Lemma keeps_silent {A} (m : M env A) :
  (forall e a e', m e = Ok (a, e') -> e_trace e' = e_trace e) -> keeps (with_env m).
Proof using.
  intros Hm. apply keeps_env. intros e a e' H. exists []. rewrite app_nil_r. split; [by eapply Hm|done].
Qed.

Lemma keeps_vars (f : world -> gmap loc mosquitto_var) : keeps (modify (fun w => w <| w_vars := f w |>)).
Proof using. by apply preserves_modify. Qed.

Lemma keeps_on_var p f : keeps (on_var p f).
Proof using. apply preserves_bind; [|by intros v; apply preserves_modify]. apply preserves_bind; [apply preserves_gets|].
  intros m. case_match; [apply preserves_ret|apply preserves_fail]. Qed.
Lemma keeps_get_var p : keeps (get_var p).
Proof using. apply preserves_bind; [apply preserves_gets|]. intros m.
  case_match; [apply preserves_ret|apply preserves_fail]. Qed.
Lemma keeps_get_ctx i : keeps (get_ctx i).
Proof using. apply preserves_bind; [apply preserves_gets|]. intros m.
  case_match; [apply preserves_ret|apply preserves_fail]. Qed.

Lemma got_blank i w c w' :
  never_sends (size o) w -> get_ctx i w = Ok (c, w') -> blank_ptr (size o) (payload c).
Proof using.
  intros [Hc _]. unfold get_ctx, deref, bind, gets. destruct (g_ctx w !! i) eqn:E; [|done].
  intros [= <- <-]. exact (Hc i _ E).
Qed.

Lemma never_insert i c w :
  never_sends (size o) w -> blank_ptr (size o) (payload c) ->
  never_sends (size o) (w <| g_ctx := <[i := c]> (g_ctx w) |>).
Proof using. intros [Hc Ht] Hp. split; [|exact Ht]. by apply map_Forall_insert_2. Qed.

Lemma keeps_on_ctx i f :
  (forall c, blank_ptr (size o) (payload c) -> blank_ptr (size o) (payload (f c))) -> keeps (on_ctx i f).
Proof using.
  intros Hf. unfold on_ctx, assign.
  apply (preserves_bind_in _ (fun c => blank_ptr (size o) (payload c))).
  - apply keeps_get_ctx.
  - intros w c w'. apply got_blank.
  - intros c Hc. apply preserves_modify. intros w Hw. apply never_insert; [done|by apply Hf].
Qed.
Lemma keeps_on_stat i f : keeps (on_stat i f).
Proof using. by apply keeps_on_ctx. Qed.
#[local] Hint Resolve keeps_alloc keeps_vars keeps_on_var keeps_get_var keeps_get_ctx keeps_on_stat : mumq.

(** ** Calls *)

Lemma keeps_gettimeofday : keeps (with_env gettimeofday).
Proof using.
  apply keeps_silent. intros e a e'. unfold gettimeofday, bind, gets, modify, ret.
  destruct (e_clock e); by intros [= _ <-].
Qed.
Lemma keeps_connect a b : keeps (with_env (mosquitto_connect a b)).
Proof using.
  apply keeps_env. intros e r e'. unfold mosquitto_connect, record, bind, gets, modify, ret. cbn.
  destruct (e_connect e); intros [= _ <-]; by exists [Connect a b].
Qed.
Lemma keeps_socket : keeps (with_env mosquitto_socket).
Proof using.
  apply keeps_silent. intros e a e'. unfold mosquitto_socket, bind, gets, modify, ret.
  destruct (e_socket e); by intros [= _ <-].
Qed.
Lemma keeps_loop_read : keeps (with_env mosquitto_loop_read).
Proof using.
  apply keeps_silent. intros e a e'. unfold mosquitto_loop_read, bind, gets, modify, ret.
  destruct (e_read e); by intros [= _ <-].
Qed.
Lemma keeps_loop_write : keeps (with_env mosquitto_loop_write).
Proof using.
  apply keeps_silent. intros e a e'. unfold mosquitto_loop_write, bind, gets, modify, ret.
  destruct (e_write e); by intros [= _ <-].
Qed.
Lemma keeps_publish m t p : blank_ptr (size o) p -> keeps (with_env (mosquitto_request (Publish m t p))).
Proof using.
  intros Hp. apply keeps_env. intros e r e'. unfold mosquitto_request, record, bind, gets, modify, ret.
  cbn. destruct (e_request e); intros [= _ <-]; exists [Publish m t p]; (split; [done|]); by constructor.
Qed.
Lemma keeps_mod fd ev : keeps (with_env (record (EpollCtlMod fd ev))).
Proof using. by apply keeps_record. Qed.
Lemma keeps_add fd ev : keeps (with_env (record (EpollCtlAdd fd ev))).
Proof using. by apply keeps_record. Qed.
Lemma keeps_del fd : keeps (with_env (record (EpollCtlDel fd))).
Proof using. by apply keeps_record. Qed.
Lemma keeps_destroy m : keeps (with_env (record (Destroy m))).
Proof using. by apply keeps_record. Qed.
Lemma keeps_disconnect m : keeps (with_env (record (Disconnect m))).
Proof using. by apply keeps_record. Qed.
Lemma keeps_printed l : keeps (with_env (record (Printed l))).
Proof using. by apply keeps_record. Qed.
#[local] Hint Resolve keeps_gettimeofday keeps_connect keeps_socket keeps_loop_read keeps_loop_write
  keeps_mod keeps_add keeps_del keeps_destroy keeps_disconnect keeps_printed : mumq.

(** ** Operations *)

Lemma keeps_callback p c : keeps (run_callback flows p c).
Proof using.
  destruct c; cbn [run_callback]; unfold my_connect_callback, my_publish_callback; preserves_tac.
Qed.
#[local] Hint Resolve keeps_callback : mumq.

Lemma keeps_CreateConnection i : keeps (CreateConnection o pl cs i).
Proof using.
  unfold CreateConnection. preserves_tac; try apply keeps_vars; by apply keeps_on_ctx.
Qed.
Lemma keeps_CloseConnection i p : keeps (CloseConnection i p).
Proof using. unfold CloseConnection. preserves_tac; try apply keeps_vars; by apply keeps_on_ctx. Qed.
#[local] Hint Resolve keeps_CreateConnection keeps_CloseConnection : mumq.

Lemma keeps_sum_stats cores total : keeps (sum_stats cores total).
Proof using.
  revert total. induction cores as [|i cores IH]; intros total; cbn [sum_stats]; preserves_tac.
  by apply preserves_modify.
Qed.
#[local] Hint Resolve keeps_sum_stats : mumq.
Lemma keeps_PrintStats : keeps (PrintStats o pl).
Proof using. unfold PrintStats. preserves_tac. Qed.
#[local] Hint Resolve keeps_PrintStats : mumq.

Lemma keeps_make_payload i : keeps (make_payload o i).
Proof using.
  unfold make_payload. destruct (Z.ltb_spec 0 (size o)); [|apply preserves_ret].
  preserves_tac; [|by apply preserves_modify]. apply keeps_on_ctx.
  intros c _ m [= <-]. apply blank_replicate. lia.
Qed.
#[local] Hint Resolve keeps_make_payload : mumq.

Lemma keeps_thread_start i : keeps (thread_start o pl cs i).
Proof using.
  unfold thread_start, CreateContext.
  apply (preserves_bind_in _ (fun c => blank_ptr (size o) (from_option payload None c))).
  - preserves_tac.
  - intros w c w' _. unfold bind. destruct (with_alloc malloc w) as [[p w1]| |]; [|done..].
    intros [= <- _]. by destruct p.
  - intros [c|] Hc; preserves_tac; try (by apply preserves_modify); try by apply keeps_on_ctx.
    apply preserves_modify. intros w Hw. by apply never_insert.
Qed.
#[local] Hint Resolve keeps_thread_start : mumq.

Lemma keeps_connect_loop fuel i : keeps (connect_loop o pl cs fuel i).
Proof using.
  induction fuel as [|fuel IH]; [by intros w a w' _|]. cbn [connect_loop]. preserves_tac.
  by apply preserves_modify.
Qed.
#[local] Hint Resolve keeps_connect_loop : mumq.

Lemma keeps_run_loop p m : keeps (with_env m) -> keeps (run_loop flows p m).
Proof using. intros Hm. unfold run_loop. preserves_tac. apply preserves_iter. auto with mumq. Qed.

Lemma keeps_stamp i p : keeps (stamp i p).
Proof using.
  assert (Hstore : forall off t, 0 <= off <= timeval_size ->
    keeps (let* c := get_ctx i in let* m := lift (store_timeval (payload c) off t) in
           on_ctx i (fun c => c <| payload := m |>))).
  { intros off t Hoff. apply (preserves_bind_in _ (fun c => blank_ptr (size o) (payload c)));
      [apply keeps_get_ctx|intros w c w'; apply got_blank|]. intros c Hc.
    apply (preserves_bind_with _ (blank_ptr (size o))); [apply preserves_lift| |].
    - intros w m w' H. unfold lift in H. destruct (store_timeval (payload c) off t) eqn:E; [|done..].
      injection H as <- _. by eapply blank_store.
    - intros m Hm. by apply keeps_on_ctx. }
  unfold stamp. apply preserves_bind; [auto with mumq|]. intros t.
  assert (Hsecond : keeps (let* v := get_var p in
    if is_publish_st v then
      on_var p (fun v => v <| is_publish_st := false |>) ;;;
      let* c := get_ctx i in
      let* m := lift (store_timeval (payload c) timeval_size (connect_time v)) in
      on_ctx i (fun c => c <| payload := m |>)
    else ret tt)).
  { apply preserves_bind; [auto with mumq|]. intros v. case_match; [|apply preserves_ret].
    apply preserves_bind; [auto with mumq|]. intros _. apply Hstore. unfold timeval_size. lia. }
  intros w a w' Hw Hrun. unfold timeval_size in Hstore.
  specialize (Hstore 0 t ltac:(lia)).
  unfold bind in Hrun. destruct (get_ctx i w) as [[c w1]| |] eqn:E1; [|done..].
  destruct (lift (store_timeval (payload c) 0 t) w1) as [[m w2]| |] eqn:E2; [|done..].
  destruct (on_ctx i (fun c => c <| payload := m |>) w2) as [[u w3]| |] eqn:E3; [|done..].
  eapply Hsecond; [|exact Hrun]. eapply (Hstore w u w3 Hw). unfold bind. by rewrite E1, E2.
Qed.
#[local] Hint Resolve keeps_stamp : mumq.

Lemma keeps_count_error i : keeps (count_error i).
Proof using. apply keeps_on_stat. Qed.
#[local] Hint Resolve keeps_count_error : mumq.

Lemma keeps_write_event i p : keeps (write_event flows i p).
Proof using.
  unfold write_event. apply preserves_bind; [auto with mumq|]. intros v.
  case_match; [apply preserves_ret|]. apply preserves_bind; [auto with mumq|]. intros _.
  apply (preserves_bind_in _ (fun c => blank_ptr (size o) (payload c)));
    [apply keeps_get_ctx|intros w c w'; apply got_blank|]. intros c Hc.
  apply preserves_bind; [by apply keeps_publish|]. intros [r mid].
  preserves_tac. apply keeps_run_loop. auto with mumq.
Qed.
#[local] Hint Resolve keeps_write_event : mumq.

Lemma keeps_handle_event i ev : keeps (handle_event flows i ev).
Proof using.
  destruct ev as [p mask]. unfold handle_event, error_event, read_event.
  preserves_tac; try (by apply keeps_on_ctx); try (by apply keeps_run_loop; auto with mumq).
Qed.
#[local] Hint Resolve keeps_handle_event : mumq.

Lemma keeps_act a : keeps (act flows o pl cs a).
Proof using.
  destruct a as [i wait|]; cbn [act].
  - apply preserves_bind; [apply preserves_gets|]. intros ts. case_match; [|apply preserves_ret].
    unfold thread_round, is_done, print_every_second, set_done, thread_end.
    preserves_tac; try (by apply preserves_modify).
    apply preserves_iter. auto with mumq.
  - apply preserves_iter. intros i. by apply preserves_modify.
Qed.
#[local] Hint Resolve keeps_act : mumq.

Lemma keeps_finish : keeps (finish o pl).
Proof using.
  assert (Hsum : forall cores acc, keeps (sum_times cores acc)).
  { induction cores as [|i cores IH]; intros acc; cbn [sum_times]; [apply preserves_ret|].
    unfold DestroyContext. preserves_tac. apply preserves_modify. intros w [Hc Ht].
    split; [|exact Ht]. by apply map_Forall_delete. }
  unfold finish. preserves_tac.
Qed.
#[local] Hint Resolve keeps_finish : mumq.

Lemma keeps_run schedule : keeps (run flows o pl cs schedule).
Proof using.
  unfold run, threads_start, set_done. preserves_tac;
    try (apply preserves_iter; intros i; preserves_tac; by apply preserves_modify).
Qed.
End never.

(** C26: whatever happens while the program runs, every payload it publishes has
    the size asked for, and of its bytes past the time stamps none has ever
    been written: the message that was generated is never sent. *)
Theorem message_never_sent num_cores rand argv flows o schedule a e w :
  parse_args num_cores argv = Ok (Some (flows, o)) -> payloads (e_trace e) = [] ->
  main num_cores rand argv schedule (world0 a e) = Ok (tt, w) ->
  Forall (fun p => forall m, p = Some m -> Z.of_nat (List.length m) = size o /\
    forall k, (32 <= k < Z.to_nat (size o))%nat -> m !! k = Some None)
    (payloads (e_trace (w_env w))).
Proof.
  intros Hargs He Hrun. enough (never_sends (size o) w) as [_ H] by exact H.
  assert (H0 : never_sends (size o) (world0 a e)) by (split; [done|]; cbn; by rewrite He).
  unfold main in Hrun. rewrite (bind_ok _ _ _ (Some (flows, o)) (world0 a e)) in Hrun
    by (cbn; by rewrite Hargs).
  revert Hrun. apply (fun H : preserves (never_sends (size o)) _ => H _ tt w H0).
  unfold generate. preserves_tac; try apply keeps_alloc; try apply keeps_run.
  by apply preserves_modify.
Qed.
