(* ===== verification/Printing.v ===== *)
(** * What the program prints: utility.c, mqtt.c, substree.c

    [write_log] and [print_hex], the dump of a message, and the printing of
    the subscription tree.  The state is what has been printed so far. *)

From Stdlib Require Import Ascii String.
From S2P Require Import Prelude.
From S2P Require Import Bench.
From S2P Require Import Mqtt.
From S2P Require Import Substree.

Definition stdout : Type := list Z.
Definition put (text : list Z) : M stdout unit := modify (fun out => out ++ text).
Definition newline : list Z := [10].

Definition hex_digit (d : Z) : Z := if d <? 10 then 48 + d else 87 + d.
(** What the conversion [%02x] prints of a byte. *)
Definition show_hex (b : Z) : list Z := [hex_digit (b / 16); hex_digit (b mod 16)].

(** ** utility.c *)

Inductive log_level : Type := ll_error | ll_info | ll_verbose.

(** [char buffer[1048*1048]], in [write_log] and in [print_hex] *)
Definition log_size : Z := 1048 * 1048.

(** [vsprintf] of a format without arguments: a conversion has none to read. *)
Fixpoint format_plain (desc : list Z) : outcome (list Z) :=
  match desc with
  | [] => Ok []
  | 37 :: desc' =>
      match desc' with
      | 37 :: desc'' => let? text := format_plain desc'' in Ok (37 :: text)
      | _ => Fault Uninitialised
      end
  | c :: desc' => let? text := format_plain desc' in Ok (c :: text)
  end.

(** [write_log(ll, desc, ...)], [text] being what [vsprintf] makes of [desc]
    and its arguments *)
Definition write_log (ll : log_level) (text : outcome (list Z)) : M stdout unit :=
  let* buffer := lift text in
  if Z.of_nat (length buffer) + 1 <=? log_size then
    match ll with
    | ll_info => put (lit "info: " ++ buffer ++ newline)
    | ll_verbose => put (lit "debug: " ++ buffer ++ newline)
    | ll_error => put (lit "error: " ++ buffer ++ newline)
    end
  else fail OutOfBounds.

(** [sprintf(ch, " [%d]%02x", i, msg[i])] *)
Definition hex_entry (i b : Z) : list Z := lit " [" ++ show_int i ++ lit "]" ++ show_hex b.

(** The loop of [print_hex], for [n] bytes from [i] on: [strcat] does not
    check that [buff] has room. *)
Fixpoint hex_loop (n : nat) (i : Z) (msg : ptr) (buff : list Z) : outcome (list Z) :=
  match n with
  | O => Ok buff
  | S n' =>
      let? b := load msg i in
      let ch := hex_entry i b in
      if Z.of_nat (length ch) + 1 <=? 32 then
        if Z.of_nat (length (buff ++ ch)) + 1 <=? log_size
        then hex_loop n' (i + 1) msg (buff ++ ch)
        else Fault OutOfBounds
      else Fault OutOfBounds
  end.

(** [print_hex(is_received, msg, msg_len)]; [buff] is the format of the log. *)
Definition print_hex (is_received : bool) (msg : ptr) (msg_len : Z) : M stdout unit :=
  let buff := if is_received then lit "received <<<" else lit "sent >>>" in
  let* buff := lift (hex_loop (Z.to_nat msg_len) 0 msg buff) in
  write_log ll_verbose (format_plain buff).

(** ** mqtt.c *)

(** [for (int i=0;i<buffer->length;++i) { ... }] over the [n] bytes from [i] *)
Fixpoint dump_loop (show : Z -> list Z) (n : nat) (i : Z) (data : ptr) : M stdout unit :=
  match n with
  | O => ret tt
  | S n' =>
      let* b := lift (load data i) in
      put (show b) ;;; dump_loop show n' (i + 1) data
  end.

Definition mqtt_buffer_dump_ascii (buffer : mqtt_buffer) : M stdout unit :=
  dump_loop (fun b => [b]) (Z.to_nat (b_length buffer)) 0 (b_data buffer).
Definition mqtt_buffer_dump_hex (buffer : mqtt_buffer) : M stdout unit :=
  dump_loop (fun b => show_hex b ++ lit " ") (Z.to_nat (b_length buffer)) 0 (b_data buffer).

(** [hex] after the loop that looks for a byte outside 0x20..0x7e *)
Fixpoint needs_hex (n : nat) (i : Z) (data : ptr) : outcome bool :=
  match n with
  | O => Ok false
  | S n' =>
      let? b := load data i in
      if (b <? 0x20) || (0x7e <? b) then Ok true else needs_hex n' (i + 1) data
  end.

Definition mqtt_buffer_dump (buffer : mqtt_buffer) : M stdout unit :=
  put (lit "[" ++ show_int (s32 (b_length buffer)) ++ lit "] ") ;;;
  let* hex := lift (needs_hex (Z.to_nat (b_length buffer)) 0 (b_data buffer)) in
  if hex then mqtt_buffer_dump_hex buffer else mqtt_buffer_dump_ascii buffer.

(** The lines [printf("  name: %d\n", v)] and [printf("  name: %s\n", ...)] *)
Definition put_int (name : list Z) (v : Z) : M stdout unit :=
  put (name ++ show_int v ++ newline).
Definition put_bool (name : list Z) (v : Z) : M stdout unit :=
  put (name ++ (if v =? 0 then lit "false" else lit "true") ++ newline).
Definition put_buffer (name : list Z) (b : mqtt_buffer) : M stdout unit :=
  put name ;;; mqtt_buffer_dump b ;;; put newline.

Definition mqtt_message_dump (message : mqtt_message) : M stdout unit :=
  put (lit "message" ++ newline) ;;;
  put_int (lit "  type:              ") (type message) ;;;
  put_int (lit "  qos:               ") (qos message) ;;;
  put_bool (lit "  dup:               ") (dup message) ;;;
  put_bool (lit "  retain:            ") (retain message) ;;;
  if type message =? MQTT_TYPE_CONNECT then
    let c := connect message in
    put_buffer (lit "  protocol name:     ") (protocol_name c) ;;;
    put_int (lit "  protocol version:  ") (protocol_version c) ;;;
    put_bool (lit "  has username:      ") (username_follows (flags c)) ;;;
    put_bool (lit "  has password:      ") (password_follows (flags c)) ;;;
    put_bool (lit "  has will:          ") (will (flags c)) ;;;
    put_int (lit "  will qos:          ") (will_qos (flags c)) ;;;
    put_bool (lit "  retains will:      ") (will_retain (flags c)) ;;;
    put_bool (lit "  clean session:     ") (clean_session (flags c)) ;;;
    put_int (lit "  keep alive:        ") (keep_alive c) ;;;
    put_buffer (lit "  client id:         ") (client_id c) ;;;
    put_buffer (lit "  will topic:        ") (will_topic c) ;;;
    put_buffer (lit "  will message:      ") (will_message c) ;;;
    put_buffer (lit "  username:          ") (username c) ;;;
    put_buffer (lit "  password:          ") (password c)
  else ret tt.

(** ** substree.c *)

Section tree.
Context {C : Type} `{ClientStore C}.

(** [printf(" (%s, %d)", leaf->context->id, leaf->qos)]; a leaf has a client. *)
Definition show_leaf (cl : C) (leaf : subleaf) : list Z :=
  lit " (" ++ cs_id cl (sl_context leaf) ++ lit ", " ++ show_int (sl_qos leaf) ++ lit ")".

(** [mqtt3_sub_tree_print(root, level)]; [root->retained] is always NULL. *)
Fixpoint mqtt3_sub_tree_print (cl : C) (root : subhier) (level : nat) {struct root} :
    M stdout unit :=
  let 'Subhier _ topic subs children := root in
  iter (fun _ => put (lit " ")) (seq 0 (level * 2)) ;;;
  put topic ;;;
  iter (fun leaf => put (show_leaf cl leaf)) subs ;;;
  put newline ;;;
  (fix print_children (cs : list subhier) : M stdout unit :=
     match cs with
     | [] => ret tt
     | branch :: cs' => mqtt3_sub_tree_print cl branch (S level) ;;; print_children cs'
     end) children.
End tree.

(** [mqtt_error_string(error)], [None] for the null pointer *)
Definition mqtt_error_string (error : mqtt_error) : option (list Z) :=
  match error with
  | MQTT_ERROR_NONE => None
  | MQTT_ERROR_PARSER_INVALID_STATE => Some (lit "[parser] left in an invalid state")
  | MQTT_ERROR_PARSER_INVALID_REMAINING_LENGTH =>
      Some (lit "[parser] remaining length field was invalid")
  | MQTT_ERROR_PARSER_INVALID_MESSAGE_ID => Some (lit "[parser] message id was invalid")
  | MQTT_ERROR_SERIALISER_INVALID_MESSAGE_ID => Some (lit "[serialiser] message if was invalid")
  end.
