(* ===== verification/PrintingFacts.v ===== *)
(** * What the program prints: the theorems

    The printing of the tree shows every node once, the dump of a parsed
    message reads inside the payload, and [print_hex] overflows its buffer
    above a certain length. *)

From Stdlib Require Import Ascii String.
From S2P Require Import Prelude.
From S2P Require Import Bench.
From S2P Require Import BenchFacts.
From S2P Require Import Mqtt.
From S2P Require Import Parser.
From S2P Require Import ParserFacts.
From S2P Require Import ParserTyped.
From S2P Require Import SerialiserFacts.
From S2P Require Import Substree.
From S2P Require Import SubstreeFacts.
From S2P Require Import Printing.

(** What a computation prints, whatever has been printed before *)
Definition prints (m : M stdout unit) (text : list Z) : Prop :=
  forall out, m out = Ok (tt, out ++ text).

Lemma prints_put text : prints (put text) text.
Proof. done. Qed.

Lemma prints_nil : prints (ret tt) [].
Proof. intros out. by rewrite app_nil_r. Qed.

Lemma prints_bind m k t1 t2 : prints m t1 -> prints k t2 -> prints (m ;;; k) (t1 ++ t2).
Proof. intros H1 H2 out. erewrite bind_ok by apply H1. by rewrite H2, app_assoc. Qed.

Lemma prints_iter {A} (f : A -> M stdout unit) (g : A -> list Z) l :
  (forall x, prints (f x) (g x)) -> prints (iter f l) (concat (g <$> l)).
Proof.
  intros H. induction l as [|x l IH]; [apply prints_nil|]. by apply prints_bind.
Qed.

Lemma prints_eq m t1 t2 : prints m t1 -> t1 = t2 -> prints m t2.
Proof. by intros H <-. Qed.

#[local] Hint Resolve prints_put prints_nil prints_bind : core.

(** ** The tree *)

Section tree.
Context {C : Type} `{ClientStore C}.

(** The nodes below [h] and [h] itself with their levels, in the order of a
    walk that takes a node before its children *)
Fixpoint nodes (h : subhier) (level : nat) : list (nat * subhier) :=
  (level, h) :: flat_map (fun b => nodes b (S level)) (sh_children h).

Definition line (cl : C) (x : nat * subhier) : list Z :=
  replicate (x.1 * 2) 32 ++ sh_topic x.2 ++ concat (show_leaf cl <$> sh_subs x.2) ++ newline.

Lemma blanks k i : concat ((fun _ => [32]) <$> seq i k) = replicate k 32.
Proof using. revert i. induction k as [|k IH]; intros i; [done|]. cbn. f_equal. apply IH. Qed.

Lemma prints_tree cl h level :
  prints (mqtt3_sub_tree_print cl h level) (concat (line cl <$> nodes h level)).
Proof.
  revert level. induction h as [a t ls cs IH] using subhier_ind'. intros level.
  cbn [mqtt3_sub_tree_print nodes sh_children fmap list_fmap concat line]. unfold line at 1.
  cbn [fst snd sh_topic sh_subs]. rewrite <- !app_assoc.
  apply prints_bind.
  { eapply prints_eq; [by apply (prints_iter _ (fun _ => [32]))|apply blanks]. }
  apply prints_bind; [done|]. apply prints_bind; [by apply prints_iter|].
  apply prints_bind; [done|].
  induction IH as [|b cs Hb _ IHcs]; [apply prints_nil|].
  cbn [flat_map]. rewrite fmap_app, concat_app. by apply prints_bind.
Qed.

(** The printing of the tree returns, and shows one line for each node, a
    node before its children, with two blanks per level, the name of the node
    and the client and the QoS of each of its leaves. *)
Theorem mqtt3_sub_tree_print_correct cl h level out :
  mqtt3_sub_tree_print cl h level out = Ok (tt, out ++ concat (line cl <$> nodes h level)).
Proof. apply prints_tree. Qed.

(** A node is printed: what is stored under a path is on the line of a node as
    deep as the path is long. *)
Lemma leaves_printed h p level :
  leaves h p <> [] ->
  exists b, (level + length p, b)%nat ∈ nodes h level /\ sh_subs b = leaves h p.
Proof.
  revert h level. induction p as [|t p IH]; intros h level Hne.
  - exists h. split; [|done]. rewrite Nat.add_0_r. destruct h. by left.
  - cbn [leaves] in *. destruct (branch t (sh_children h)) as [b|] eqn:Eb; [|done].
    destruct (IH b (S level) Hne) as (b' & Hb' & Hl). exists b'. split; [|done].
    assert (Hin : b ∈ sh_children h).
    { clear -Eb. induction (sh_children h) as [|c cs IHcs]; [done|]. cbn in Eb.
      case_bool_decide; [injection Eb as ->; by left|right; by apply IHcs]. }
    destruct h. cbn [nodes]. right. rewrite list_elem_of_In, in_flat_map. exists b.
    rewrite <- !list_elem_of_In. split; [done|]. cbn [length]. by rewrite Nat.add_succ_r.
Qed.
End tree.

(** ** The dump of a message *)

Definition printable (b : Z) : bool := negb ((b <? 0x20) || (0x7e <? b)).

(** [[length] ] and the bytes, as characters when all are printable *)
Definition buffer_text (b : mqtt_buffer) : list Z :=
  lit "[" ++ show_int (b_length b) ++ lit "] " ++
  if forallb printable (buffer_bytes b) then buffer_bytes b
  else concat ((fun x => show_hex x ++ lit " ") <$> buffer_bytes b).

Lemma load_at mem i :
  (i < length mem)%nat -> exists b, load (Some mem) (Z.of_nat i) = Ok b /\ mem !! i = Some b.
Proof.
  intros Hi. destruct (lookup_lt_is_Some_2 mem i Hi) as [b Hb]. exists b. split; [|done].
  unfold load. rewrite (proj2 (Z.ltb_ge _ _)) by lia. by rewrite Nat2Z.id, Hb.
Qed.

Lemma prints_dump_loop show mem n i :
  (i + n <= length mem)%nat ->
  prints (dump_loop show n (Z.of_nat i) (Some mem)) (concat (show <$> take n (drop i mem))).
Proof.
  revert i. induction n as [|n IH]; intros i Hn; [rewrite take_0; apply prints_nil|].
  destruct (load_at mem i ltac:(lia)) as (b & Hl & Hb). intros out. cbn [dump_loop].
  erewrite bind_ok by (unfold lift; rewrite Hl; reflexivity).
  rewrite (drop_S _ _ _ Hb). cbn [take fmap list_fmap concat].
  replace (Z.of_nat i + 1) with (Z.of_nat (S i)) by lia.
  apply prints_bind; [done|apply IH; lia].
Qed.

Lemma needs_hex_run mem n i :
  (i + n <= length mem)%nat ->
  needs_hex n (Z.of_nat i) (Some mem) = Ok (negb (forallb printable (take n (drop i mem)))).
Proof.
  revert i. induction n as [|n IH]; intros i Hn; [by rewrite take_0|].
  destruct (load_at mem i ltac:(lia)) as (b & Hl & Hb). cbn [needs_hex]. rewrite Hl. cbn [obind].
  rewrite (drop_S _ _ _ Hb). cbn [take forallb]. unfold printable at 1.
  destruct (_ || _); [done|]. cbn [negb andb].
  replace (Z.of_nat i + 1) with (Z.of_nat (S i)) by lia. apply IH. lia.
Qed.

Lemma prints_buffer b :
  valid_buffer b -> b_length b < 2 ^ 31 -> prints (mqtt_buffer_dump b) (buffer_text b).
Proof.
  intros (Hlen & _ & Hload) Hsmall. unfold mqtt_buffer_dump, buffer_text.
  assert (Hs : s32 (b_length b) = b_length b).
  { unfold s32. apply signed_small; change (2 ^ (32 - 1)) with (2 ^ 31); lia. }
  rewrite Hs, !app_assoc, <- (app_assoc _ (show_int _)).
  apply prints_bind; [done|]. unfold mqtt_buffer_dump_hex, mqtt_buffer_dump_ascii.
  remember (buffer_bytes b) as l eqn:El. clear El Hs. unfold load_bytes in Hload.
  destruct (Z.leb_spec (b_length b) 0) as [H0|H0].
  { injection Hload as <-. replace (Z.to_nat (b_length b)) with 0%nat by lia.
    intros out. by rewrite app_nil_r. }
  destruct (b_data b) as [mem|]; [|done]. destruct (Z.ltb_spec (Z.of_nat (length mem)) (b_length b)); [done|].
  injection Hload as <-. set (n := Z.to_nat (b_length b)).
  pose proof (needs_hex_run mem n 0 ltac:(lia)) as Hhex.
  assert (Hloop : forall show, prints (dump_loop show n 0 (Some mem)) (concat (show <$> take n mem))).
  { intros show. pose proof (prints_dump_loop show mem n 0 ltac:(lia)) as Hp. by rewrite drop_0 in Hp. }
  rewrite drop_0 in Hhex. change (Z.of_nat 0) with 0 in Hhex. intros out.
  erewrite bind_ok; [|unfold lift; by rewrite Hhex].
  destruct (forallb printable (take n mem)); cbn [negb]; [|by apply Hloop].
  rewrite Hloop. do 3 f_equal. generalize (take n mem). intros l.
  induction l as [|x l IH]; [done|]. cbn. by f_equal.
Qed.

(** The text of a message *)
Definition int_line (name : list Z) (v : Z) : list Z := name ++ show_int v ++ newline.
Definition bool_line (name : list Z) (v : Z) : list Z :=
  name ++ (if v =? 0 then lit "false" else lit "true") ++ newline.
Definition buffer_line (name : list Z) (b : mqtt_buffer) : list Z :=
  name ++ buffer_text b ++ newline.

Definition connect_text (c : connect_msg) : list Z :=
  buffer_line (lit "  protocol name:     ") (protocol_name c) ++
  int_line (lit "  protocol version:  ") (protocol_version c) ++
  bool_line (lit "  has username:      ") (username_follows (flags c)) ++
  bool_line (lit "  has password:      ") (password_follows (flags c)) ++
  bool_line (lit "  has will:          ") (will (flags c)) ++
  int_line (lit "  will qos:          ") (will_qos (flags c)) ++
  bool_line (lit "  retains will:      ") (will_retain (flags c)) ++
  bool_line (lit "  clean session:     ") (clean_session (flags c)) ++
  int_line (lit "  keep alive:        ") (keep_alive c) ++
  buffer_line (lit "  client id:         ") (client_id c) ++
  buffer_line (lit "  will topic:        ") (will_topic c) ++
  buffer_line (lit "  will message:      ") (will_message c) ++
  buffer_line (lit "  username:          ") (username c) ++
  buffer_line (lit "  password:          ") (password c).

Definition message_text (m : mqtt_message) : list Z :=
  (lit "message" ++ newline) ++
  int_line (lit "  type:              ") (type m) ++
  int_line (lit "  qos:               ") (qos m) ++
  bool_line (lit "  dup:               ") (dup m) ++
  bool_line (lit "  retain:            ") (retain m) ++
  (if type m =? MQTT_TYPE_CONNECT then connect_text (connect m) else []).

(** What the dump needs of a buffer *)
Definition dumpable (b : mqtt_buffer) : Prop := valid_buffer b /\ b_length b < 2 ^ 31.

Lemma prints_put_buffer name b : dumpable b -> prints (put_buffer name b) (buffer_line name b).
Proof. intros []. by apply prints_bind, prints_bind; [..|apply prints_buffer|]. Qed.
Lemma prints_put_int name v : prints (put_int name v) (int_line name v).
Proof. done. Qed.
Lemma prints_put_bool name v : prints (put_bool name v) (bool_line name v).
Proof. done. Qed.

#[local] Hint Resolve prints_put_buffer prints_put_int prints_put_bool : core.

Lemma prints_message m :
  Forall dumpable [protocol_name (connect m); client_id (connect m); will_topic (connect m);
                   will_message (connect m); username (connect m); password (connect m)] ->
  prints (mqtt_message_dump m) (message_text m).
Proof.
  intros H. rewrite !Forall_cons in H. destruct_and! H. unfold mqtt_message_dump, message_text.
  repeat (apply prints_bind; [by auto|]). destruct (type m =? MQTT_TYPE_CONNECT); [|apply prints_nil].
  unfold connect_text. cbv zeta. repeat first [by auto | apply prints_bind; [by auto|]].
Qed.

Lemma field_dumpable data len b :
  block data len -> len < 2 ^ 31 -> field data len b -> dumpable b.
Proof.
  intros Hd Hlen Hf. split; [eapply field_valid; [done| |done]; lia|].
  destruct Hf as [->|(off & ? & ? & ? & _)]; cbn; lia.
Qed.

(** The dump of a message that the parser has left, whatever the payload
    and however the parser ended, reads inside the payload and prints the
    fields of the message, with a buffer in hexadecimal when one of its bytes
    cannot be printed. *)
Theorem parsed_message_dumped data len s rc s' out :
  block data len -> len < 2 ^ 31 ->
  p_state (ps_parser s) = MQTT_PARSER_STATE_INITIAL -> ps_nread s = 0 -> header_only (ps_message s) ->
  mqtt_parser_execute data len s = Ok (rc, s') ->
  mqtt_message_dump (ps_message s') out = Ok (tt, out ++ message_text (ps_message s')).
Proof.
  intros Hd Hlen Hst Hn Hh Hrun. apply prints_message.
  assert (Hr : in_range len s) by (unfold in_range; rewrite Hn; destruct data; cbn in Hd; lia).
  assert (Hts : tstate data len s) by (split; [done|by apply header_only_typed|by rewrite Hst]).
  destruct (typed_loop data len Hd ltac:(lia) parser_fuel s rc s' Hts Hrun) as [[Hc _ _ _] _].
  eapply Forall_impl; [apply Hc|]. intros b. by apply field_dumpable.
Qed.

(** ** [print_hex] *)

(** The numbers of [d + 1] digits *)
Lemma show_digits_count d fuel n :
  (d = 0%nat /\ 0 <= n < 10) \/ 10 ^ Z.of_nat d <= n < 10 ^ Z.of_nat (S d) ->
  (d < fuel)%nat -> length (show_digits fuel n) = S d.
Proof.
  revert fuel n. induction d as [|d IH]; intros [|fuel] n Hn Hf; [lia| |lia|].
  - destruct Hn as [[_ Hn]|Hn]; cbn in Hn |- *; by rewrite (proj2 (Z.ltb_lt n 10)) by lia.
  - destruct Hn as [[? _]|Hn]; [done|]. cbn [show_digits].
    assert (Hp : 0 < 10 ^ Z.of_nat d) by (apply Z.pow_pos_nonneg; lia).
    rewrite !Nat2Z.inj_succ, !Z.pow_succ_r in Hn by lia.
    rewrite (proj2 (Z.ltb_ge n 10)) by lia.
    rewrite length_app, (IH fuel (n / 10)); [cbn; lia| |lia]. right.
    rewrite Nat2Z.inj_succ, Z.pow_succ_r by lia.
    split; [apply Z.div_le_lower_bound; lia|apply Z.div_lt_upper_bound; lia].
Qed.

(** The number of digits of the numbers below a million *)
Definition width (i : Z) : Z :=
  if i <? 10 then 1 else if i <? 100 then 2 else if i <? 1000 then 3
  else if i <? 10000 then 4 else if i <? 100000 then 5 else 6.

#[local] Ltac show_lia := unfold show_fuel; cbn [Z.of_nat]; lia.

Lemma show_int_width i : 0 <= i < 1000000 -> Z.of_nat (length (show_int i)) = width i.
Proof.
  intros Hi. unfold show_int. rewrite (proj2 (Z.ltb_ge i 0)) by lia. unfold width.
  destruct (Z.ltb_spec i 10); [by rewrite (show_digits_count 0) by show_lia|].
  destruct (Z.ltb_spec i 100); [by rewrite (show_digits_count 1) by show_lia|].
  destruct (Z.ltb_spec i 1000); [by rewrite (show_digits_count 2) by show_lia|].
  destruct (Z.ltb_spec i 10000); [by rewrite (show_digits_count 3) by show_lia|].
  destruct (Z.ltb_spec i 100000); [by rewrite (show_digits_count 4) by show_lia|].
  by rewrite (show_digits_count 5) by show_lia.
Qed.

(** The entries of the bytes [bs], the first of which is the [i]th *)
Fixpoint hex_text (i : Z) (bs : list Z) : list Z :=
  match bs with
  | [] => []
  | b :: bs' => hex_entry i b ++ hex_text (i + 1) bs'
  end.

(** The length of the first [i] entries *)
Definition text_size (i : Z) : Z :=
  6 * i + Z.max 0 (i - 10) + Z.max 0 (i - 100) + Z.max 0 (i - 1000) + Z.max 0 (i - 10000) +
  Z.max 0 (i - 100000).

Lemma hex_entry_size i b :
  0 <= i < 1000000 -> Z.of_nat (length (hex_entry i b)) = text_size (i + 1) - text_size i.
Proof.
  intros Hi. unfold hex_entry. rewrite !length_app, !Nat2Z.inj_add, show_int_width by done.
  cbn [length lit show_hex map list_ascii_of_string]. unfold width, text_size.
  repeat case_match; blia.
Qed.

Definition head_text (is_received : bool) : list Z :=
  if is_received then lit "received <<<" else lit "sent >>>".

(** The most bytes that [print_hex] can show: the text of one more does not fit. *)
Definition hex_limit : Z := 109945.

Lemma hex_loop_run n i mem buff r :
  (i + n <= length mem)%nat -> Z.of_nat i <= hex_limit ->
  Z.of_nat (length buff) = Z.of_nat (length (head_text r)) + text_size (Z.of_nat i) ->
  hex_loop n (Z.of_nat i) (Some mem) buff =
  if Z.of_nat (i + n) <=? hex_limit then Ok (buff ++ hex_text (Z.of_nat i) (take n (drop i mem)))
  else Fault OutOfBounds.
Proof.
  assert (Hhead : 8 <= Z.of_nat (length (head_text r)) <= 12) by by destruct r.
  unfold hex_limit. revert i buff. induction n as [|n IH]; intros i buff Hn Hi Hb.
  { rewrite (proj2 (Z.leb_le _ _)) by lia. cbn. by rewrite app_nil_r. }
  destruct (load_at mem i ltac:(lia)) as (b & Hl & Hm). cbn [hex_loop]. rewrite Hl. cbn [obind].
  rewrite (drop_S _ _ _ Hm). cbn [take hex_text].
  pose proof (hex_entry_size (Z.of_nat i) b ltac:(lia)) as He.
  assert (Hlt : Z.of_nat (length (hex_entry (Z.of_nat i) b)) <= 11) by (rewrite He; unfold text_size; lia).
  rewrite (proj2 (Z.leb_le _ 32)) by lia. rewrite length_app, Nat2Z.inj_add, Hb, He.
  unfold log_size. destruct (Z.leb_spec (Z.of_nat (length (head_text r)) + text_size (Z.of_nat i) +
    (text_size (Z.of_nat i + 1) - text_size (Z.of_nat i)) + 1) (1048 * 1048)) as [Hfit|Hfit].
  - replace (Z.of_nat i + 1) with (Z.of_nat (S i)) in * by lia.
    rewrite IH; [by rewrite app_assoc, Nat.add_succ_r|lia|unfold text_size in Hfit; lia|].
    rewrite length_app. lia.
  - rewrite (proj2 (Z.leb_gt _ _)); [done|]. unfold text_size in Hfit. lia.
Qed.

(** No percent sign, so nothing that the log takes for a conversion *)
Abbreviation plain l := (Forall (fun c => c <> 37) l) (only parsing).

Lemma format_plain_ok text : plain text -> format_plain text = Ok text.
Proof.
  induction 1 as [|c text Hc _ IH]; [done|]. cbn [format_plain]. rewrite IH.
  repeat (case_match; try done).
Qed.

Lemma show_int_plain i : 0 <= i -> plain (show_int i).
Proof.
  intros Hi. unfold show_int. rewrite (proj2 (Z.ltb_ge i 0)) by lia.
  eapply Forall_impl; [by apply show_digits_ok|]. intros c Hc ->. done.
Qed.

Lemma hex_digit_plain d : 0 <= d < 16 -> hex_digit d <> 37.
Proof. intros Hd. unfold hex_digit. case_match; blia. Qed.

Lemma hex_text_plain i bs : 0 <= i -> bytes bs -> plain (hex_text i bs).
Proof.
  intros Hi Hb. revert i Hi. induction Hb as [|b bs Hb _ IH]; intros i Hi; [constructor|].
  unfold is_byte in Hb. cbn [hex_text]. apply Forall_app. split; [|apply IH; lia].
  unfold hex_entry. rewrite !Forall_app. split_and!; [by repeat constructor|by apply show_int_plain|
    by repeat constructor|].
  repeat constructor; apply hex_digit_plain;
    [split; [apply Z.div_pos|apply Z.div_lt_upper_bound]|apply Z.mod_pos_bound]; lia.
Qed.

Lemma hex_text_size i bs :
  0 <= i -> i + Z.of_nat (length bs) <= hex_limit ->
  Z.of_nat (length (hex_text i bs)) = text_size (i + Z.of_nat (length bs)) - text_size i.
Proof.
  unfold hex_limit. revert i. induction bs as [|b bs IH]; intros i Hi Hl; cbn [hex_text length] in *.
  { rewrite Z.add_0_r. lia. }
  rewrite length_app, Nat2Z.inj_add, hex_entry_size, IH by lia.
  replace (i + 1 + Z.of_nat (length bs)) with (i + Z.of_nat (S (length bs))) by lia. lia.
Qed.

(** [print_hex] prints the bytes of a message with their places, as one
    line of the log, when there are at most 109945 of them; the text of a longer
    one overflows the buffer on the stack. *)
Theorem print_hex_limit is_received mem n out :
  bytes mem -> 0 <= n <= Z.of_nat (length mem) ->
  print_hex is_received (Some mem) n out =
  if n <=? hex_limit
  then Ok (tt, out ++ lit "debug: " ++ head_text is_received ++ hex_text 0 (take (Z.to_nat n) mem) ++ newline)
  else Fault OutOfBounds.
Proof.
  intros Hb Hn.
  assert (Hhead : 8 <= Z.of_nat (length (head_text is_received)) <= 12) by by destruct is_received.
  unfold print_hex. change (if is_received then lit "received <<<" else _) with (head_text is_received).
  cbv zeta. pose proof (hex_loop_run (Z.to_nat n) 0 mem (head_text is_received) is_received
    ltac:(lia) ltac:(unfold hex_limit; lia) ltac:(unfold text_size; lia)) as Hrun.
  rewrite drop_0 in Hrun. change (Z.of_nat 0) with 0 in Hrun. cbn [Nat.add] in Hrun.
  rewrite Z2Nat.id in Hrun by lia. destruct (Z.leb_spec n hex_limit) as [Hl|Hl].
  - erewrite bind_ok by (unfold lift; rewrite Hrun; reflexivity).
    unfold write_log. rewrite format_plain_ok; cycle 1.
    { apply Forall_app. split; [destruct is_received; by repeat constructor|].
      by apply hex_text_plain, Forall_take. }
    erewrite bind_ok by reflexivity. rewrite (proj2 (Z.leb_le _ _)); [by rewrite <- !app_assoc|].
    unfold hex_limit in Hl. rewrite length_app, Nat2Z.inj_add, hex_text_size; [|lia|]; cycle 1.
    { unfold hex_limit. rewrite length_take. lia. }
    rewrite length_take, Nat.min_l, Z2Nat.id by lia. unfold log_size, text_size. lia.
  - unfold bind, lift. by rewrite Hrun.
Qed.
