(* ===== verification/Probes.v ===== *)
(** * getsockop.c, cpu.c: two probes of the machine

    A program that prints the options of a new socket, and the functions with
    which the load generators count the processors and bind a thread to one. *)

From Stdlib Require Import String.
From S2P Require Import Prelude.
#[local] Open Scope string_scope.
#[local] Open Scope list_scope.
#[local] Open Scope Z_scope.

(** ** getsockop.c *)

Definition SOL_SOCKET : Z := 1.
Definition SO_SNDBUF : Z := 7.
Definition SO_RCVBUF : Z := 8.
Definition TCP_NODELAY : Z := 1.
Definition TCP_CORK : Z := 3.

(** What is printed: a text, or a line with a number *)
Inductive printed : Type :=
| Text (s : string)
| Number (s : string) (n : Z).

(** The variable [sendbuff], [None] before anything is stored in it, and the
    output *)
Record probe : Type := { sendbuff : option Z; pr_out : list printed }.
#[export] Instance eta_probe : Eta probe := fun p => Build_probe (sendbuff p) (pr_out p).
Definition probe0 : probe := {| sendbuff := None; pr_out := [] |}.

Definition print (x : printed) : M probe unit := modify (fun p => p <| pr_out := pr_out p ++ [x] |>).

Section getsockop.
(** What [socket] answers, and what the kernel knows of that socket: the value
    of an option at a level, if there is one *)
Context (socket : Z) (options : Z -> Z -> option Z).

(** [getsockopt(sockfd, level, name, &sendbuff, &optlen)]: 0, or -1 and
    [sendbuff] as it was *)
Definition getsockopt (sockfd level name : Z) : M probe Z :=
  match (if sockfd =? -1 then None else options level name) with
  | Some v => modify (fun p => p <| sendbuff := Some v |>) ;;; ret 0
  | None => ret (-1)
  end.

(** [printf(s, sendbuff)] *)
Definition print_sendbuff (s : string) : M probe unit :=
  let* v := gets sendbuff in
  match v with Some n => print (Number s n) | None => fail Uninitialised end.

Definition main : M probe Z :=
  let sockfd := socket in
  (if sockfd =? -1 then print (Text "Error") else ret tt) ;;;
  let* res := getsockopt sockfd SOL_SOCKET SO_SNDBUF in
  print_sendbuff "snd buffer size" ;;;
  let* res := getsockopt sockfd SOL_SOCKET SO_RCVBUF in
  print_sendbuff "rcv buffer size" ;;;
  let* res := getsockopt sockfd SOL_SOCKET TCP_NODELAY in
  print_sendbuff "TCP NO DELAY" ;;;
  let* res := getsockopt sockfd SOL_SOCKET TCP_CORK in
  print_sendbuff "TCP CROK" ;;;
  ret 0.
End getsockop.

(** The value that is printed for an option: its own, or the one printed before *)
Definition or_before (v : option Z) (before : Z) : Z := default before v.

(** With a socket whose send buffer is known, four lines; an option that cannot
    be read shows the line before. *)
Theorem main_prints socket options snd :
  socket <> -1 -> options SOL_SOCKET SO_SNDBUF = Some snd ->
  let rcv := or_before (options SOL_SOCKET SO_RCVBUF) snd in
  let nodelay := or_before (options SOL_SOCKET TCP_NODELAY) rcv in
  let cork := or_before (options SOL_SOCKET TCP_CORK) nodelay in
  main socket options probe0 = Ok (0, {| sendbuff := Some cork;
    pr_out := [Number "snd buffer size" snd; Number "rcv buffer size" rcv;
               Number "TCP NO DELAY" nodelay; Number "TCP CROK" cork] |}).
Proof.
  intros Hs H1. cbv zeta. unfold main, getsockopt. rewrite (proj2 (Z.eqb_neq _ _) Hs), H1.
  destruct (options SOL_SOCKET SO_RCVBUF), (options SOL_SOCKET TCP_NODELAY), (options SOL_SOCKET TCP_CORK);
    reflexivity.
Qed.

(** Without a socket it says so, and prints what it has never read. *)
Theorem main_without_socket options : main (-1) options probe0 = Fault Uninitialised.
Proof. reflexivity. Qed.

(** Only options of the level [SOL_SOCKET] matter: those of TCP, which the last
    two lines are named after, have no influence on what is printed. *)
Theorem main_socket_level socket options options' p :
  (forall name, options SOL_SOCKET name = options' SOL_SOCKET name) ->
  main socket options p = main socket options' p.
Proof. intros H. unfold main, getsockopt. by rewrite !H. Qed.

(** ** cpu.c *)

(** What the thread does: messages for invalid arguments, and the system call
    with the bytes of the mask *)
Inductive corecall : Type :=
| InvalidCpu (core : Z)
| NoMask (n : Z)
| SetAffinity (size : Z) (mask : list Z).

Record cpu_host : Type := { co_alloc : alloc; co_calls : list corecall }.
#[export] Instance eta_cpu_host : Eta cpu_host := fun h => Build_cpu_host (co_alloc h) (co_calls h).

Definition call (c : corecall) : M cpu_host unit := modify (fun h => h <| co_calls := co_calls h ++ [c] |>).

(** Sets of processors as <sched.h> has them: words of 64 bits, here as bytes,
    [None] for one that has not been written.  The sizes of [CPU_ZERO_S] and
    [CPU_SET_S] are in bytes. *)
Abbreviation cpu_set := (list (option Z)) (only parsing).

Definition CPU_ALLOC_SIZE (count : Z) : Z := (count + 63) / 64 * 8.
Definition CPU_ALLOC (count : Z) : cpu_set := replicate (Z.to_nat (CPU_ALLOC_SIZE count)) None.
Definition CPU_ZERO_S (size : Z) (set : cpu_set) : outcome cpu_set :=
  let n := Z.to_nat size in
  if Nat.leb n (length set) then Ok (replicate n (Some 0) ++ drop n set) else Fault OutOfBounds.
Definition CPU_SET_S (cpu size : Z) (set : cpu_set) : outcome cpu_set :=
  if cpu / 8 <? size then
    let i := Z.to_nat (cpu / 8) in
    match set !! i with
    | Some b => Ok (<[i := (fun x => Z.lor x (Z.shiftl 1 (cpu mod 8))) <$> b]> set)
    | None => Fault OutOfBounds
    end
  else Ok set.

Section cpu.
(** What [sysconf(_SC_NPROCESSORS_ONLN)] and [sched_setaffinity] answer *)
Context (nprocs answer : Z).

Definition GetNumCPUCores : Z := s32 nprocs.

(** The bytes that [sched_setaffinity(0, size, mask)] reads *)
Definition sched_setaffinity (size : Z) (mask : cpu_set) : M cpu_host Z :=
  let* bs := lift (if Nat.leb (Z.to_nat size) (length mask)
                   then match mapM id (take (Z.to_nat size) mask) with
                        | Some l => Ok l
                        | None => Fault Uninitialised
                        end
                   else Fault OutOfBounds) in
  call (SetAffinity size bs) ;;; ret answer.

Definition AffinitizeThreadToCore (core : Z) : M cpu_host Z :=
  let n := s32 nprocs in
  if (core <? 0) || (n <=? core) then call (InvalidCpu core) ;;; ret (-1)
  else
    let* cmask := zoom co_alloc (fun a h => h <| co_alloc := a |>) malloc in
    match cmask with
    | None => call (NoMask n) ;;; ret (-1)
    | Some _ =>
        let* mask := lift (CPU_ZERO_S n (CPU_ALLOC n)) in
        let* mask := lift (CPU_SET_S core n mask) in
        sched_setaffinity n mask
    end.
End cpu.

Lemma alloc_size_small n : 0 < n <= 8 -> CPU_ALLOC_SIZE n = 8.
Proof. intros Hn. unfold CPU_ALLOC_SIZE. rewrite <- (Z.div_unique (n + 63) 64 1 (n - 1)); lia. Qed.

Lemma alloc_size_big n : 8 < n -> CPU_ALLOC_SIZE n < n.
Proof.
  intros Hn. unfold CPU_ALLOC_SIZE. pose proof (Z.div_mod (n + 63) 64 ltac:(lia)).
  pose proof (Z.mod_pos_bound (n + 63) 64 ltac:(lia)). lia.
Qed.

Lemma set_one core n :
  0 <= core < n -> n <= 8 ->
  CPU_SET_S core n (replicate (Z.to_nat n) (Some 0) ++ replicate (8 - Z.to_nat n) None) =
  Ok (Some (Z.shiftl 1 core) :: replicate (Z.to_nat n - 1) (Some 0) ++ replicate (8 - Z.to_nat n) None).
Proof.
  intros Hc Hn. unfold CPU_SET_S. rewrite Z.div_small, Z.mod_small, (proj2 (Z.ltb_lt _ _)) by lia.
  destruct (Z.to_nat n) as [|m] eqn:E; [lia|]. cbn. by rewrite Nat.sub_0_r.
Qed.

Lemma mapM_some (l : list Z) : mapM id (map Some l) = Some l.
Proof. induction l as [|x l IH]; [done|]. cbn. by rewrite IH. Qed.

(** The size of the set is taken for a number of bytes: on up to eight
    processors the thread asks to run on just the one it is given, on more the
    set is cleared past its end. *)
Theorem AffinitizeThreadToCore_correct nprocs answer core h :
  let n := s32 nprocs in
  memory_available (co_alloc h) ->
  (core < 0 \/ n <= core ->
     AffinitizeThreadToCore nprocs answer core h =
       Ok (-1, h <| co_calls := co_calls h ++ [InvalidCpu core] |>)) /\
  (0 <= core < n -> n <= 8 ->
     exists h', AffinitizeThreadToCore nprocs answer core h = Ok (answer, h') /\
       co_calls h' = co_calls h ++ [SetAffinity n (Z.shiftl 1 core :: replicate (Z.to_nat n - 1) 0)]) /\
  (0 <= core < n -> 8 < n ->
     AffinitizeThreadToCore nprocs answer core h = Fault OutOfBounds).
Proof.
  intros n Ha. unfold AffinitizeThreadToCore. fold n.
  assert (Hguard : 0 <= core < n -> (core <? 0) || (n <=? core) = false) by (intros; blia).
  assert (Hm : exists l, malloc (co_alloc h) =
    Ok (Some l, (co_alloc h) <| al_next := S (al_next (co_alloc h)) |>)) by (eexists; by apply malloc_available).
  destruct Hm as [l Hm].
  split_and!.
  - intros Hc. assert (E : (core <? 0) || (n <=? core) = true) by (rewrite orb_true_iff; blia).
    by rewrite E.
  - intros Hc Hn. rewrite (Hguard Hc). unfold CPU_ALLOC. rewrite alloc_size_small by lia.
    assert (Hlen : exists m, Z.to_nat n = S m) by (exists (pred (Z.to_nat n)); lia).
    destruct Hlen as [m E]. eexists. unfold CPU_ZERO_S. rewrite length_replicate, (proj2 (Nat.leb_le _ _)) by lia.
    rewrite drop_replicate. change (Z.to_nat 8) with 8%nat. split.
    + erewrite bind_ok by (unfold zoom; rewrite Hm; reflexivity). cbv beta iota.
      erewrite bind_ok by reflexivity. rewrite set_one by lia.
      erewrite bind_ok by reflexivity. unfold sched_setaffinity.
      erewrite bind_ok; [reflexivity|]. unfold lift.
      rewrite length_cons, length_app, !length_replicate, (proj2 (Nat.leb_le _ _)) by lia.
      rewrite E, Nat.sub_1_r. cbn [Nat.pred take].
      rewrite take_app_length' by (by rewrite length_replicate).
      rewrite <- (fmap_replicate Some m 0). change (Some (Z.shiftl 1 core) :: (Some <$> replicate m 0))
        with (map Some (Z.shiftl 1 core :: replicate m 0)). rewrite mapM_some. reflexivity.
    + cbn. by rewrite E, Nat.sub_1_r.
  - intros Hc Hn. rewrite (Hguard Hc). erewrite bind_ok by (unfold zoom; rewrite Hm; reflexivity).
    unfold CPU_ALLOC, CPU_ZERO_S. pose proof (alloc_size_big n Hn).
    by rewrite length_replicate, (proj2 (Nat.leb_gt _ _)) by lia.
Qed.

(** ** On concrete machines *)

(** A new socket on Linux with [TCP_CORK] set: what is printed for it is
    [SO_TYPE], 1 for [SOCK_STREAM] whatever the option is. *)
Definition linux_options (level name : Z) : option Z :=
  if level =? SOL_SOCKET then
    if name =? SO_SNDBUF then Some 16384 else if name =? SO_RCVBUF then Some 131072
    else if name =? 1 then Some 0 else if name =? 3 then Some 1 else None
  else if (level =? 6) && (name =? TCP_CORK) then Some 1 else None.

Example main_on_linux :
  (let? r := main 3 linux_options probe0 in Ok (r.1, pr_out r.2)) =
  Ok (0, [Number "snd buffer size" 16384; Number "rcv buffer size" 131072;
          Number "TCP NO DELAY" 0; Number "TCP CROK" 1]).
Proof. reflexivity. Qed.

Lemma AffinitizeThreadToCore_correct_witness :
  let h := {| co_alloc := {| al_next := 0; al_fail := fun _ => false |}; co_calls := [] |} in
  (exists h', AffinitizeThreadToCore 4 0 2 h = Ok (0, h') /\ co_calls h' = [SetAffinity 4 [4; 0; 0; 0]]) /\
  AffinitizeThreadToCore 16 0 2 h = Fault OutOfBounds.
Proof.
  intros h. assert (Ha : memory_available (co_alloc h)) by (intros n _; reflexivity). split.
  - apply (AffinitizeThreadToCore_correct 4 0 2 h Ha); [split; [discriminate|reflexivity]|discriminate].
  - apply (AffinitizeThreadToCore_correct 16 0 2 h Ha); [split; [discriminate|reflexivity]|reflexivity].
Defined.
