(* ===== verification/Samples.v ===== *)
(** * Concrete inputs

    Strings, messages, trees, clients and worlds on which the files of
    witnesses apply the theorems that have hypotheses. *)

From S2P Require Import Prelude.
From S2P Require Import Topic.
From S2P Require Import Utility.
From S2P Require Import Mqtt.
From S2P Require Import Parser.
From S2P Require Import ParserFacts.
From S2P Require Import Serialiser.
From S2P Require Import SerialiserFacts.
From S2P Require Import ParserSpec.
From S2P Require Import RoundTrip.
From S2P Require Import Substree.
From S2P Require Import Tokenise.
From S2P Require Import SubstreeFacts.
From S2P Require Import SubAddFacts.
From S2P Require Import SubTheorems.
From S2P Require Import UtHash.
From S2P Require Import Broker.
From S2P Require Import Handler.
From S2P Require Import EventIO.
From S2P Require Import BrokerInv.
From S2P Require Import OutputFacts.
From S2P Require Import OutputSpec.
From S2P Require Import InputFacts.
From S2P Require Import InputSpec.
From S2P Require Import HandlerFacts.
From S2P Require Import HandlerSpec.
From S2P Require Import LoopSpec.
From S2P Require Import EventSpec.
From S2P Require Import Scenarios.

Lemma plenty_available : memory_available plenty.
Proof. intros n _. reflexivity. Qed.

Lemma small_bytes l : forallb (fun b => (0 <=? b) && (b <? 256)) l = true -> bytes l.
Proof.
  intros H. apply Forall_forall. intros b Hb. rewrite forallb_forall in H.
  apply list_elem_of_In, H in Hb. unfold is_byte. blia.
Qed.

Lemma small_no_nul l : forallb (fun b => negb (b =? 0)) l = true -> no_nul l.
Proof.
  intros H. apply Forall_forall. intros b Hb. rewrite forallb_forall in H.
  apply list_elem_of_In, H in Hb. by rewrite negb_true_iff, Z.eqb_neq in Hb.
Qed.

Ltac easy_bytes := apply small_bytes; reflexivity.
Ltac easy_nul := apply small_no_nul; reflexivity.

(** The mTCP build on two cores *)
Definition mtcp_platform : Platform := {| MTCP := true; EPOLLIN := 1; EPOLLERR := 8 |}.
Definition mtcp_build : Build := {| platform := mtcp_platform; g_core_limit := 2 |}.
Lemma mtcp_build_ok : BuildOk mtcp_build.
Proof. by repeat split. Qed.

(** ** Worlds and brokers *)

(** The first loop of a build has the table of clients from its beginning. *)
Lemma base0_ok `{BuildOk} : base_ok 0.
Proof. unfold base_ok. pose proof max_fd_range. lia. Qed.

(** Client 5 is subscribed to "a". *)
Definition roots1 : list subhier :=
  [Subhier 2%nat [] [] [Subhier 4%nat [] [] [Subhier 6%nat [97] [{| sl_context := 5%nat; sl_qos := 0 |}] []]]].

Lemma roots1_ok : tree_ok roots1.
Proof.
  split; [split_and!|].
  - apply NoDup_singleton.
  - repeat first [apply NoDup_nil_2|constructor]; try done; set_solver.
  - by repeat constructor.
  - by repeat constructor.
Qed.

Definition client5 (m : option mqtt_message) : client :=
  client0 <| sock := 5 |> <| id := 120 :: replicate 23 0 |> <| state := cs_connected |>
    <| is_subscribe := true |> <| in_packet := m |>.

Definition broker1 (m : option mqtt_message) : broker :=
  {| ss_alloc := plenty; ss_roots := roots1; ss_locked := false;
     ss_clients := <[5%nat := client5 m]> ∅ |}.

Definition world1 (q : list tx) (u : ut_hash) (c : client) : world := {|
  w_broker := {| ss_alloc := plenty; ss_roots := roots1; ss_locked := false;
                 ss_clients := <[5%nat := c]> ∅ |};
  w_ep := {| l_sock := 3; base_sock := 0; th_id := 0; contexts_by_ptr := u |};
  w_os := {| os_rx := ∅; os_tx := q; os_accept := [7]; os_errno := EOTHER; os_trace := [] |} |}.

Definition buf (l rest : list Z) : mqtt_buffer :=
  {| b_length := Z.of_nat (length l); b_data := Some (l ++ rest) |}.

Definition publish_m : mqtt_message :=
  message0 <| type := MQTT_TYPE_PUBLISH |>
    <| publish := {| topic_name := buf [97] [0; 1]; pub_message_id := 0; content := buf [0; 1] [] |} |>.
Definition subscribe_m : mqtt_message :=
  message0 <| type := MQTT_TYPE_SUBSCRIBE |>
    <| subscribe := {| sub_message_id := 7;
         topics := Some {| tp_name := Some (buf [98; 47; 43] [0; 0]); tp_qos := Some 0 |} |} |>.
Definition connect_m : mqtt_message :=
  message0 <| type := MQTT_TYPE_CONNECT |>
    <| connect := connect0 <| client_id := buf [120; 121] [] |> |>.

Definition packet1 : packet := {| send_buf := [208; 0]; wcur := 0; wlen := 2 |}.
Definition sending5 : client :=
  (client5 None) <| sending_packet := [packet1; packet1] |> <| num_sending_pack := 2 |>.

Lemma packet1_ok : packet_ok packet1.
Proof. unfold packet_ok. cbn. lia. Qed.

Lemma clients_one_ok c : client_ok c -> clients_ok (<[5%nat := c]> ∅).
Proof. intros Hc. apply clients_ok_insert; [|done]. intros n. apply client0_ok. Qed.

Lemma client5_ok m : client_ok (client5 m).
Proof. split; [done|split_and!; try done; constructor]. Qed.
Lemma sending5_ok : client_ok sending5.
Proof.
  split; [done|split; [|split; [done|cbn; lia]]].
  by repeat (constructor; [apply packet1_ok|]).
Qed.

Definition table1 : ut_hash := HASH_ADD_PTR 5 ut_empty.
Lemma table1_represents : represents table1 [5%nat].
Proof. apply (HASH_ADD_run_correct ut_empty []); [apply represents_empty|set_solver|cbn; lia]. Qed.
