(* ===== verification/CodecWitnesses.v ===== *)
(** * Topics, parser and serialiser: the theorems on concrete inputs

    For each theorem with hypotheses, an input at which they hold. *)

From S2P Require Import Prelude.
From S2P Require Import Topic.
From S2P Require Import Utility.
From S2P Require Import Mqtt.
From S2P Require Import Parser.
From S2P Require Import ParserFacts.
From S2P Require Import Serialiser.
From S2P Require Import SerialiserFacts.
From S2P Require Import ParserSpec.
From S2P Require Import ParserTyped.
From S2P Require Import RoundTrip.
From S2P Require Import Substree.
From S2P Require Import Tokenise.
From S2P Require Import SubstreeFacts.
From S2P Require Import SubAddFacts.
From S2P Require Import SubTheorems.
From S2P Require Import UtHash.
From S2P Require Import Broker.
From S2P Require Import Handler.
From S2P Require Import EventIO.
From S2P Require Import BrokerInv.
From S2P Require Import OutputFacts.
From S2P Require Import OutputSpec.
From S2P Require Import InputFacts.
From S2P Require Import InputSpec.
From S2P Require Import HandlerFacts.
From S2P Require Import HandlerSpec.
From S2P Require Import LoopSpec.
From S2P Require Import EventSpec.
From S2P Require Import Scenarios.
From S2P Require Import Samples.

(** ** Topics *)

Lemma tokenise_correct_witness :
  exists a', _sub_topic_tokenise [97; 47; 43] plenty = Ok (Some [[]; [97]; [43]], a') /\
    alloc_le plenty a'.
Proof. apply (tokenise_correct [97; 47; 43] plenty); [easy_nul|apply plenty_available]. Defined.


Lemma pub_topic_valid_correct_witness : pub_topic_valid (Some [97; 47; 98; 0; 35]) = Ok true.
Proof.
  change [97; 47; 98; 0; 35] with ([97; 47; 98] ++ 0 :: [35]).
  rewrite pub_topic_valid_correct by easy_nul. reflexivity.
Defined.

(** ** Parser *)

Definition parse0 : pstate :=
  start (message0 <| type := MQTT_TYPE_SUBSCRIBE |>) MQTT_ERROR_NONE plenty.

Lemma parser_safe_witness :
  wp (mqtt_parser_execute (Some [0; 7; 0; 1; 97; 0]) 6)
     (fun rc s' => 0 <= ps_nread s' <= 6 /\ type (ps_message s') = type (ps_message parse0) /\
        final_rc rc)
     (subscribe_fault parse0) parse0.
Proof.
  refine (parser_safe (Some [0; 7; 0; 1; 97; 0]) 6 parse0 _ _ _ _).
  - split; [reflexivity|easy_bytes].
  - lia.
  - reflexivity.
  - reflexivity.
Defined.

Ltac easy_str := unfold str_ok; cbn; lia.

Definition publish_in : mqtt_message := message0 <| type := MQTT_TYPE_PUBLISH |> <| m_length := 5 |>.

Lemma parser_publish_witness :
  mqtt_parser_execute (Some [0; 1; 97; 9; 8]) 5 (start publish_in MQTT_ERROR_NONE plenty) =
  Ok (MQTT_PARSER_RC_DONE,
      done_with (published publish_in [97] [9; 8] 0 [9; 8]) MQTT_ERROR_NONE 5 plenty).
Proof.
  apply (parser_publish publish_in MQTT_ERROR_NONE plenty [97] eq_refl ltac:(easy_str) [9; 8]);
    [reflexivity|reflexivity|reflexivity|cbn; lia].
Defined.

Definition publish_in1 : mqtt_message := publish_in <| qos := 1 |>.

Lemma parser_publish_qos_witness :
  mqtt_parser_execute (Some [0; 1; 97; 3; 8]) 5 (start publish_in1 MQTT_ERROR_NONE plenty) =
  Ok (MQTT_PARSER_RC_DONE,
      done_with (published publish_in1 [97] [3; 8] 776 []) MQTT_ERROR_NONE 5 plenty).
Proof.
  apply (parser_publish_qos publish_in1 MQTT_ERROR_NONE plenty [97] eq_refl ltac:(easy_str) 776 []);
    [reflexivity|reflexivity|reflexivity|lia].
Defined.

Definition subscribe_in : mqtt_message := message0 <| type := MQTT_TYPE_SUBSCRIBE |>.

Lemma parser_subscribe_witness :
  mqtt_parser_execute (Some [0; 7; 0; 1; 97; 1; 66]) 7 (start subscribe_in MQTT_ERROR_NONE plenty) =
  Ok (MQTT_PARSER_RC_DONE,
      done_with (subscribed subscribe_in 7 [97] [66] 1) MQTT_ERROR_NONE 6
        (plenty <| al_next := 1%nat |>)).
Proof.
  apply (parser_subscribe subscribe_in MQTT_ERROR_NONE plenty 7 [97] eq_refl eq_refl
    ltac:(lia) ltac:(easy_str) plenty_available 1 [66]). reflexivity.
Defined.

Lemma parser_subscribe_overread_witness :
  mqtt_parser_execute (Some [0; 7; 0; 1; 97]) 5 (start subscribe_in MQTT_ERROR_NONE plenty) =
  Fault OutOfBounds.
Proof.
  apply (parser_subscribe_overread subscribe_in MQTT_ERROR_NONE plenty 7 [97] eq_refl eq_refl
    ltac:(lia) ltac:(easy_str) plenty_available). reflexivity.
Defined.

Definition fields1 : connect_fields := {|
  cf_protocol_name := [77; 81; 84; 84]; cf_version := 4; cf_flags := 198; cf_keep_alive := 60;
  cf_client_id := [120]; cf_will_topic := [97]; cf_will_message := [98; 99];
  cf_username := [117]; cf_password := [112; 119] |}.
Definition connect_in : mqtt_message := message0 <| type := MQTT_TYPE_CONNECT |> <| connect := connect0 |>.

Lemma parser_connect_witness :
  exists c, connect_holds c fields1 /\
    mqtt_parser_execute (Some (enc_connect fields1)) 27 (start connect_in MQTT_ERROR_NONE plenty) =
    Ok (MQTT_PARSER_RC_DONE,
        done_with (connect_in <| connect := c |>) MQTT_ERROR_NONE 27 plenty).
Proof.
  apply (parser_connect connect_in MQTT_ERROR_NONE plenty fields1);
    [reflexivity|reflexivity| |reflexivity].
  split; [repeat constructor; easy_str|cbn; lia].
Defined.

(** ** Serialiser *)

Lemma buf_valid l rest : bytes l -> valid_buffer (buf l rest).
Proof.
  intros Hl. assert (E : load_bytes (Some (l ++ rest)) (Z.of_nat (length l)) = Ok l)
    by by apply load_bytes_app.
  unfold valid_buffer, buffer_bytes, buf. cbn [b_data b_length]. by rewrite E.
Qed.
Ltac easy_buf := apply buf_valid; easy_bytes.

Definition publish_out : mqtt_message :=
  publish_m <| m_length := 5 |>.

Lemma publish_out_ok : message_ok publish_out.
Proof.
  split; [cbn; lia|split; [|split; [discriminate|reflexivity]]].
  intros _. split; easy_buf.
Qed.

Lemma serialiser_write_correct_witness :
  mqtt_serialiser_write publish_out (replicate 7 170) (mqtt_serialiser_size publish_out) =
  Ok (MQTT_SERIALISER_RC_SUCCESS, [48; 5; 0; 1; 97; 0; 1]).
Proof.
  rewrite (serialiser_write_correct publish_out (replicate 7 170));
    [reflexivity|apply publish_out_ok|reflexivity].
Defined.

Lemma WRITE_STRING_prefix_witness :
  writes (WRITE_STRING (buf (replicate 255 97) [])) tt ([1; 255] ++ replicate 255 97) /\
  ([1; 255] = enc16 255 <-> 255 / 256 + 255 mod 256 < 255).
Proof.
  apply (WRITE_STRING_prefix (buf (replicate 255 97) [])); [easy_buf|reflexivity].
Defined.

(** ** Round trips *)

Definition flags1 : connect_flags := {|
  username_follows := 1; password_follows := 0; will_retain := 0; will_qos := 1; will := 1;
  clean_session := 1 |}.

Lemma flags1_ok : flags_ok flags1.
Proof. unfold flags_ok, bit. cbn. lia. Qed.

Lemma connect_flags_roundtrip_witness :
  flags_of_byte (u8 (write_flags flags1)) = flags1 <| will_qos := 0 |>.
Proof. apply (connect_flags_roundtrip flags1), flags1_ok. Defined.

Definition connect_out : connect_msg := {|
  protocol_name := buf [77; 81; 84; 84] []; protocol_version := 4; flags := flags1;
  keep_alive := 60; client_id := buf [120] []; will_topic := buf [97] []; will_message := buf [98] [];
  username := buf [117] []; password := buf [] [] |}.

Lemma connect_out_ok : connect_ok connect_out.
Proof.
  split; [|split; [cbn; lia|apply flags1_ok]].
  repeat constructor; first [easy_buf|cbn; lia].
Qed.

Lemma connect_roundtrip_witness :
  exists c', mqtt_parser_execute (Some (encode_connect connect_out)) 22
      (start connect_in MQTT_ERROR_NONE plenty) =
    Ok (MQTT_PARSER_RC_DONE,
        done_with (connect_in <| connect := c' |>) MQTT_ERROR_NONE 22 plenty) /\
    connect_holds c' (fields_of connect_out) /\ flags c' = flags1 <| will_qos := 0 |>.
Proof.
  apply (connect_roundtrip connect_out connect_in MQTT_ERROR_NONE plenty);
    [apply connect_out_ok|reflexivity|reflexivity|reflexivity].
Defined.

Lemma publish_roundtrip_witness :
  exists m', mqtt_parser_execute (Some [0; 1; 97; 9; 8]) 5 (start publish_in MQTT_ERROR_NONE plenty) =
    Ok (MQTT_PARSER_RC_DONE, done_with m' MQTT_ERROR_NONE 5 plenty) /\
    buffer_bytes (topic_name (publish m')) = [97] /\
    buffer_bytes (content (publish m')) = [9; 8].
Proof.
  apply (publish_roundtrip (buf [97] []) (buf [9; 8] []) publish_in MQTT_ERROR_NONE plenty).
  - split; [easy_buf|cbn; lia].
  - easy_buf.
  - cbn. lia.
  - reflexivity.
  - reflexivity.
  - reflexivity.
  - reflexivity.
Defined.

(** A SUBSCRIBE to the filter "a" *)
Lemma parser_typed_witness :
  exists s', mqtt_parser_execute (Some [0; 7; 0; 1; 97; 0]) 6 parse0 = Ok (MQTT_PARSER_RC_DONE, s') /\
    typed (Some [0; 7; 0; 1; 97; 0]) 6 (ps_message s') /\ message_complete 6 (ps_message s').
Proof.
  assert (H : wp (mqtt_parser_execute (Some [0; 7; 0; 1; 97; 0]) 6)
    (fun rc s' => typed (Some [0; 7; 0; 1; 97; 0]) 6 (ps_message s') /\ final_rc rc /\
       type (ps_message s') = type (ps_message parse0) /\
       (rc = MQTT_PARSER_RC_DONE -> message_complete 6 (ps_message s')))
    (subscribe_fault parse0) parse0).
  { refine (parser_typed (Some [0; 7; 0; 1; 97; 0]) 6 parse0 _ _ _ _ _).
    - split; [reflexivity|easy_bytes].
    - lia.
    - reflexivity.
    - reflexivity.
    - by split_and!. }
  unfold wp in H. destruct (mqtt_parser_execute (Some [0; 7; 0; 1; 97; 0]) 6 parse0) as [[rc s']|f|] eqn:E.
  - assert (rc = MQTT_PARSER_RC_DONE) as -> by (vm_compute in E; injection E as <- _; reflexivity).
    exists s'. destruct H as (Ht & _ & _ & Hc). split_and!; [done|done|by apply Hc].
  - exfalso. vm_compute in E. discriminate E.
  - destruct H.
Defined.
