(* ===== verification/TreeWitnesses.v ===== *)
(** * The subscription tree and the clients' table: the theorems on concrete inputs

    For each theorem with hypotheses, an input at which they hold. *)

From S2P Require Import Prelude.
From S2P Require Import Topic.
From S2P Require Import Utility.
From S2P Require Import Mqtt.
From S2P Require Import Parser.
From S2P Require Import ParserFacts.
From S2P Require Import Serialiser.
From S2P Require Import SerialiserFacts.
From S2P Require Import ParserSpec.
From S2P Require Import RoundTrip.
From S2P Require Import Substree.
From S2P Require Import Tokenise.
From S2P Require Import SubstreeFacts.
From S2P Require Import SubAddFacts.
From S2P Require Import SubTheorems.
From S2P Require Import UtHash.
From S2P Require Import Broker.
From S2P Require Import Handler.
From S2P Require Import EventIO.
From S2P Require Import BrokerInv.
From S2P Require Import OutputFacts.
From S2P Require Import OutputSpec.
From S2P Require Import InputFacts.
From S2P Require Import InputSpec.
From S2P Require Import HandlerFacts.
From S2P Require Import HandlerSpec.
From S2P Require Import LoopSpec.
From S2P Require Import EventSpec.
From S2P Require Import Scenarios.
From S2P Require Import Samples.

(** ** Subscribing *)

Lemma mqtt3_sub_add_correct_witness :
  exists s', mqtt3_sub_add 5 [98] 1 (broker1 None) = Ok (0, s') /\ ss_locked s' = false /\
    added 5 [98] 1 (broker1 None) s' /\
    subs_written 5 (ss_clients (broker1 None)) (ss_clients s').
Proof.
  apply (mqtt3_sub_add_correct 5 [98] 1 (broker1 None));
    [easy_nul|reflexivity|apply plenty_available].
Defined.

Lemma mqtt3_sub_add_tree_ok_witness :
  match mqtt3_sub_add 5 [97; 47; 35] 1 (broker1 None) with
  | Ok (_, s') => tree_ok (ss_roots s')
  | _ => False
  end.
Proof.
  destruct (mqtt3_sub_add 5 [97; 47; 35] 1 (broker1 None)) as [[rc s']|f|] eqn:E;
    [|vm_compute in E; discriminate E|vm_compute in E; discriminate E].
  eapply (mqtt3_sub_add_tree_ok 5 [97; 47; 35] 1 (broker1 None));
    [easy_nul|reflexivity|reflexivity|apply roots1_ok|exact E].
Defined.

(** Only [k] more allocations succeed. *)
Definition broker_scarce (k : nat) : broker :=
  (broker1 None) <| ss_alloc := {| al_next := 0; al_fail := fun n => Nat.leb k n |} |>.

Lemma mqtt3_sub_add_failure_witness :
  exists s', mqtt3_sub_add 5 [98] 1 (broker_scarce 4) = Ok (-2, s') /\ unchanged (broker_scarce 4) s'.
Proof.
  destruct (mqtt3_sub_add 5 [98] 1 (broker_scarce 4)) as [[rc s']|f|] eqn:E;
    [|vm_compute in E; discriminate E|vm_compute in E; discriminate E].
  assert (Hrc : rc = -2) by (vm_compute in E; congruence). subst rc.
  exists s'. split; [reflexivity|].
  eapply (mqtt3_sub_add_failure 5 [98] 1 (broker_scarce 4)); [easy_nul|reflexivity|exact E|discriminate].
Defined.

Lemma mqtt3_sub_add_lock_leak_witness :
  exists s', mqtt3_sub_add 5 [36; 120] 1 (broker_scarce 2) = Ok (-2, s') /\
    forall context' sub' qos' t' ts' a',
      _sub_topic_tokenise sub' (ss_alloc s') = Ok (Some (t' :: ts'), a') ->
      mqtt3_sub_add context' sub' qos' s' = Fault Deadlock.
Proof.
  eapply (mqtt3_sub_add_lock_leak 5 [36; 120] 1 (broker_scarce 2));
    [reflexivity|vm_compute; reflexivity|reflexivity|reflexivity].
Defined.

(** ** Publishing *)

Definition publish_a : nat -> M broker unit := publish_msg [97] [9; 8; 0] 2.

Lemma publish_delivers_witness :
  exists fs a, alloc_le plenty a /\
    mqtt3_sub_tree_process publish_a [97] (broker1 None) =
      (iter (process_leaf publish_a) (flat_map (filter_leaves roots1) fs) ;;; ret 0)
        ((broker1 None) <| ss_alloc := a |>) /\
    [[]; [97]] ∈ fs.
Proof.
  destruct (publish_delivers publish_a [97] (broker1 None)) as (fs & a & [_ Hfs] & Ha & Hrun);
    [easy_nul|reflexivity|apply plenty_available|apply roots1_ok|].
  exists fs, a. split; [exact Ha|split; [exact Hrun|]]. apply Hfs.
  split; [discriminate|reflexivity].
Defined.

(** The search calls back for the new subscriber, who is client 5 under "+" now,
    and for the leaf under "a" that was there. *)
Lemma subscribe_then_publish_witness :
  exists s' leaves a, mqtt3_sub_add 5 [43] 1 (broker1 None) = Ok (0, s') /\
    mqtt3_sub_tree_process publish_a [97] s' =
      (iter (process_leaf publish_a) leaves ;;; ret 0) (s' <| ss_alloc := a |>) /\
    {| sl_context := 5; sl_qos := 0 |} ∈ leaves /\ exists x, x ∈ leaves /\ sl_qos x = 1.
Proof.
  destruct (subscribe_then_publish publish_a 5 [43] 1 (broker1 None) [97])
    as (s' & leaves & a & Hrun & Hsearch & (x & Hx & _ & Hq) & Hkeep & _);
    [easy_nul|reflexivity|reflexivity|apply plenty_available|apply roots1_ok|easy_nul|reflexivity|reflexivity|].
  exists s', leaves, a. split; [exact Hrun|split; [exact Hsearch|]]. split; [|by exists x].
  apply (Hkeep [[]; [97]]); [discriminate| |reflexivity]. constructor.
Defined.

(** The client's nodes "a", and "#" that has a child. *)
Definition hash_node : subhier :=
  Subhier 7%nat [35] [{| sl_context := 5%nat; sl_qos := 0 |}] [Subhier 9%nat [120] [] []].

Lemma hash_child_silences_witness :
  _sub_search publish_a (Subhier 4%nat [] [] [hash_node]) [[97]] (broker1 None) =
  Ok (tt, broker1 None).
Proof.
  etrans; [apply (hash_child_silences publish_a 4%nat [] [] [] hash_node [] [[97]])|].
  - reflexivity.
  - discriminate.
  - repeat constructor. discriminate.
  - reflexivity.
Defined.

(** ** The table *)

Lemma HASH_ADD_PTR_correct_witness : represents (HASH_ADD_PTR 8 table1) [5%nat; 8%nat].
Proof.
  apply (HASH_ADD_PTR_correct table1 [5%nat] 8); [apply table1_represents| |cbn; lia].
  rewrite list_elem_of_singleton. discriminate.
Defined.

Definition table3 : ut_hash := HASH_ADD_PTR 9 (HASH_ADD_PTR 8 table1).
Lemma table3_represents : represents table3 [5%nat; 8%nat; 9%nat].
Proof.
  apply (HASH_ADD_run_correct _ [5%nat; 8%nat]); [|set_solver|cbn; lia].
  apply (HASH_ADD_run_correct _ [5%nat]); [apply table1_represents|set_solver|cbn; lia].
Qed.

Lemma HASH_DEL_correct_witness :
  exists u', HASH_DEL 8 table3 = Ok u' /\ represents u' [5%nat; 9%nat].
Proof.
  apply (HASH_DEL_correct table3 [5%nat] 8 [9%nat]); [apply table3_represents|cbn; lia].
Defined.
