(* ===== verification/BrokerWitnesses.v ===== *)
(** * Handler, input, output and loop: the theorems on concrete inputs

    For each theorem with hypotheses, an input at which they hold. *)

From S2P Require Import Prelude.
From S2P Require Import Topic.
From S2P Require Import Utility.
From S2P Require Import Mqtt.
From S2P Require Import Parser.
From S2P Require Import ParserFacts.
From S2P Require Import Serialiser.
From S2P Require Import SerialiserFacts.
From S2P Require Import ParserSpec.
From S2P Require Import RoundTrip.
From S2P Require Import Substree.
From S2P Require Import Tokenise.
From S2P Require Import SubstreeFacts.
From S2P Require Import SubAddFacts.
From S2P Require Import SubTheorems.
From S2P Require Import UtHash.
From S2P Require Import Broker.
From S2P Require Import Handler.
From S2P Require Import EventIO.
From S2P Require Import BrokerInv.
From S2P Require Import OutputFacts.
From S2P Require Import OutputSpec.
From S2P Require Import InputFacts.
From S2P Require Import InputSpec.
From S2P Require Import HandlerFacts.
From S2P Require Import HandlerSpec.
From S2P Require Import LoopSpec.
From S2P Require Import HandlerSafe.
From S2P Require Import ReaderSafe.
From S2P Require Import LoopSafe.
From S2P Require Import Delivery.
From S2P Require Import EventSpec.
From S2P Require Import Scenarios.
From S2P Require Import Samples.

(** ** Input and output *)

Definition cut_subscribe : list rx :=
  [Segment 48 []; RxError EAGAIN; Segment 5 [0; 1]; RxError EAGAIN; Segment 97 [0; 1; 192]].

Lemma packet_read_any_cut_witness :
  exists j rlen q' e', (j <= 2)%nat /\ 0 < rlen /\ cuts q' /\ bytes_of q' = [192] /\
    polls 5 5 j (at_ 5 5 (start_world ∅ [] []) client0 cut_subscribe EOTHER plenty) =
    process_packet 5 rlen
      (at_ 5 5 (start_world ∅ [] []) (packet_read 48 [5] [0; 1; 97; 0; 1] client0) q' e'
        (alloc_for [0; 1; 97; 0; 1] (bump plenty))).
Proof.
  destruct (packet_read_any_cut 5 5 (start_world ∅ [] []) client0 plenty 48 [5] [0; 1; 97; 0; 1] [192]
    cut_subscribe EOTHER) as (j & rlen & q' & e' & Hj & Hr & Hq & Hb & Hrun);
    [by split_and!|apply plenty_available|discriminate|by split; [|cbn; lia]|reflexivity
    |repeat constructor|reflexivity|].
  exists j, rlen, q', e'. split; [exact Hj|]. by split_and!.
Defined.

Definition connack_m : mqtt_message :=
  message0 <| type := MQTT_TYPE_CONNACK |> <| m_length := 2 |>
    <| connack := {| ca_unused := 0; ca_return_code := 1 |} |>.
Definition cut_connack : list rx := [Segment 32 [2]; RxError EAGAIN; Segment 0 [1]].

Lemma serialised_packet_read_witness :
  exists j rlen q' e', (j <= 1)%nat /\ 0 < rlen /\ bytes_of q' = [] /\
    polls 5 5 j (at_ 5 5 (start_world ∅ [] []) client0 cut_connack EOTHER plenty) =
    process_packet 5 rlen
      (at_ 5 5 (start_world ∅ [] [])
        (packet_read (u8 (header_byte connack_m)) (encode_length (m_length connack_m))
           (encode_body connack_m) client0) q' e'
        (alloc_for (encode_body connack_m) (bump plenty))).
Proof.
  destruct (serialised_packet_read 5 5 (start_world ∅ [] []) client0 plenty connack_m []
    cut_connack EOTHER) as (j & rlen & q' & e' & Hj & Hr & Hb & Hrun);
    [by split_and!|apply plenty_available
    |split; [cbn; lia|split; [discriminate|split; [discriminate|reflexivity]]]
    |reflexivity|vm_compute; discriminate|repeat constructor|reflexivity|].
  exists j, rlen, q', e'. split; [exact Hj|]. by split_and!.
Defined.

Lemma long_length_refused_witness :
  exists w', loop_read 5 5 EPOLLIN (at_ 5 5 (start_world ∅ [] []) client0
    [Segment 48 [255; 255; 255; 255]; Segment 127 []] EOTHER plenty) = Ok (-1, w').
Proof.
  apply (long_length_refused 5 5 (start_world ∅ [] []) client0 plenty 48 255 255 255 255 127 []
    [Segment 48 [255; 255; 255; 255]; Segment 127 []] EOTHER).
  - by split_and!.
  - apply plenty_available.
  - discriminate.
  - repeat constructor; discriminate.
  - repeat constructor.
  - reflexivity.
  - reflexivity.
Defined.

Lemma send_client_safe_witness :
  exists w', send_client 5 (world1 [TxError EAGAIN; Takes 0] table1 sending5) = Ok (tt, w') /\
    broker_ok (w_broker w').
Proof.
  destruct (send_client_safe 5 (world1 [TxError EAGAIN; Takes 0] table1 sending5))
    as (w' & Hrun & Hok & _).
  - apply clients_one_ok, sending5_ok.
  - exists w'. split; [exact Hrun|assumption].
Defined.

Lemma send_client_fifo_witness :
  exists w' tr, send_client 5 (world1 [Takes 0; Takes 5] table1 sending5) = Ok (tt, w') /\
    os_trace (w_os w') = tr /\ sent_bytes 5 tr = [208; 0; 208; 0].
Proof.
  destruct (send_client_fifo 5 (world1 [Takes 0; Takes 5] table1 sending5) sending5)
    as (w' & tr & Hrun & Htr & Hs & _).
  - reflexivity.
  - reflexivity.
  - reflexivity.
  - repeat constructor; cbn; lia.
  - repeat constructor.
  - exists w', tr. split; [exact Hrun|split; [|exact Hs]]. by rewrite Htr.
Defined.

Lemma send_blocked_drops_witness :
  exists w', send_one 5 (world1 [TxError EAGAIN] table1 sending5) = Ok (false, w') /\
    os_trace (w_os w') = [].
Proof.
  destruct (send_blocked_drops 5 (world1 [TxError EAGAIN] table1 sending5) sending5 packet1
    [packet1] EAGAIN eq_refl eq_refl eq_refl) with (q := @nil tx) as (w' & Hrun & Htr & _).
  - split; [apply packet1_ok|done].
  - reflexivity.
  - exists w'. split; [exact Hrun|assumption].
Defined.

Lemma send_blocked_repeats_witness :
  exists w', send_one 5 (world1 [Takes 0; TxError EAGAIN] table1 sending5) = Ok (false, w') /\
    os_trace (w_os w') = [Sent 5 [208]; Sent 5 [208; 0]].
Proof.
  apply (send_blocked_repeats 5 (world1 [Takes 0; TxError EAGAIN] table1 sending5) sending5 packet1
    [packet1] EAGAIN eq_refl eq_refl eq_refl) with (k := O).
  - split; [apply packet1_ok|done].
  - cbn. lia.
  - reflexivity.
Defined.


(** The run of [good_run]: two connections, a subscription, a publication. *)
Definition good_waits : list (option (list (Z * Z))) :=
  [Some [(3, 1)]; Some [(3, 1)]; Some [(5, 1)]; Some [(5, 1); (6, 1)]; Some [(5, 1)]; Some [(6, 1)]].
Definition good_world : world :=
  start_world
    (<[5 := [Segment 16 []; RxError EAGAIN; seg (drop 1 (connect_bytes [120])); seg (subscribe_bytes [97; 47; 35; 0])]]>
    (<[6 := [seg (connect_bytes [121] ++ publish_bytes0 ab [1; 2])]]> ∅)) [5; 6] [].

Lemma good_world_good : good [] good_world.
Proof.
  apply good_start; [by intros n _| |apply base0_ok|done]. intros fd. unfold good_world, start_world. cbn.
  destruct (decide (fd = 5)) as [->|H5]; [by vm_compute; repeat constructor|].
  rewrite lookup_total_insert_ne by done.
  destruct (decide (fd = 6)) as [->|H6]; [by vm_compute; repeat constructor|].
  rewrite lookup_total_insert_ne by done. rewrite lookup_total_empty. constructor.
Qed.

Lemma good_possible : possible_b good_waits (entered good_world) = true.
Proof. vm_compute. reflexivity. Qed.

Lemma good_room : run_overfull good_waits (entered good_world) = false.
Proof. vm_compute. reflexivity. Qed.


Lemma loop_run_ok_witness : exists w', good_run = Ok (tt, w') /\ broker_ok (w_broker w').
Proof.
  destruct good_run as [[[] w']| |] eqn:E.
  - exists w'. split; [reflexivity|]. eapply loop_run_ok; [|exact E]. intros n. apply client0_ok.
  - exfalso. vm_compute in E. discriminate E.
  - exfalso. vm_compute in E. discriminate E.
Defined.

(** ** A publication *)

(** Client 5 has two packets to be sent and is subscribed to "a"; client 6 has
    sent a publication on "a", in two pieces; [send] takes a byte, then three. *)
Definition relay_world : world := {|
  w_broker := {| ss_alloc := plenty; ss_roots := roots1; ss_locked := false;
                 ss_clients := <[5%nat := sending5]> (<[6%nat := client0 <| sock := 6 |>]> ∅) |};
  w_ep := {| l_sock := 3; base_sock := 0; th_id := 0; contexts_by_ptr := HASH_ADD_PTR 6 table1 |};
  w_os := {| os_rx := <[6 := [seg [48; 6; 0]; seg [1; 97; 0; 1; 2]]]> ∅; os_tx := [Takes 0; Takes 2];
             os_accept := []; os_errno := EOTHER; os_trace := [] |} |}.

Lemma relay_request : publish_request 48 [6] [97] [0; 1; 2].
Proof.
  split; [reflexivity|reflexivity|split; [reflexivity|cbn; lia]|reflexivity| |
    split; [easy_bytes|cbn; lia]|exists true; reflexivity].
  split; [easy_bytes|split; [easy_nul|split; [reflexivity|cbn; lia]]].
Qed.

Lemma relay_incoming : incoming 48 [6] [97] [0; 1; 2] 6 relay_world.
Proof.
  split.
  - apply relay_request.
  - apply roots1_ok.
  - apply plenty_available.
  - apply base0_ok.
  - split; [split; [lia|reflexivity]|discriminate].
  - split; [eexists; reflexivity|repeat split; reflexivity].
  - eexists _, []. split; [reflexivity|]. split; [repeat constructor|split; reflexivity].
Qed.

Lemma relay_publishing : publishing 48 [6] [97] [0; 1; 2] 6 [5%nat; 6%nat] relay_world.
Proof.
  split.
  - apply relay_incoming.
  - apply (HASH_ADD_run_correct table1 [5%nat]); [apply table1_represents|set_solver|cbn; lia].
  - intros k Hk. rewrite !elem_of_cons in Hk. destruct Hk as [->|[->|Hk]].
    + split; [split; [reflexivity|reflexivity|]|reflexivity].
      by repeat (constructor; [split; [apply packet1_ok|reflexivity]|]).
    + split; [split; [reflexivity|reflexivity|constructor]|reflexivity].
    + by apply elem_of_nil in Hk.
  - repeat constructor.
Qed.

Lemma publication_delivered_witness :
  exists w' tr fs, loop_round [(6, EPOLLIN)] relay_world = Ok (tt, w') /\ os_trace (w_os w') = tr /\
    [[]; [97]] ∈ fs /\
    sent_bytes 5 tr = [208; 0; 208; 0] ++
      concat (replicate (multiplicity 5 (recipients (w_broker relay_world) fs))
        (publish_bytes [97] [0; 1; 2])).
Proof.
  destruct (publication_delivered 48 [6] [97] [0; 1; 2] 6 [5%nat; 6%nat] relay_world relay_publishing)
    as (w' & tr & fs & Hrun & Htr & [_ Hfs] & Hs).
  exists w', tr, fs. split; [exact Hrun|split; [exact Htr|split]].
  - apply Hfs. split; [discriminate|reflexivity].
  - apply (Hs 5%nat).
Defined.

(** ** Commands *)

Lemma handle_publish_correct_witness :
  exists s' fs, handle_mqtt_command 0 5 (broker1 (Some publish_m)) = Ok (0, s') /\
    [[]; [97]] ∈ fs /\
    ss_clients s' !!! 5%nat =
      enqueue_times (multiplicity 5 (recipients (broker1 (Some publish_m)) fs))
        (publication [97] [0; 1]) ((client5 (Some publish_m)) <| in_packet := None |>).
Proof.
  destruct (handle_publish_correct 0 5 publish_m [97] [0; 1] [0; 1] [] true (broker1 (Some publish_m)))
    as (s' & fs & Hrun & [_ Hfs] & _ & _ & Hc);
    [reflexivity|reflexivity|reflexivity|reflexivity|reflexivity|reflexivity
    |split; [easy_bytes|split; [easy_bytes|cbn; lia]]|easy_nul|reflexivity|apply roots1_ok
    |apply plenty_available|].
  exists s', fs. split; [exact Hrun|split; [|rewrite Hc; reflexivity]].
  apply Hfs. split; [discriminate|reflexivity].
Defined.

Lemma handle_subscribe_correct_witness :
  exists s' l, handle_mqtt_command 0 5 (broker1 (Some subscribe_m)) = Ok (0, s') /\
    filter_leaves (ss_roots s') [[]; [98]; [43]] = [{| sl_context := 5%nat; sl_qos := 0 |}] /\
    ss_clients s' !!! 5%nat =
      (enqueue (raw_packet (suback_bytes 7 0))
         ((client5 (Some subscribe_m)) <| last_mid := 7 |> <| subs := l |> <| is_subscribe := true |>))
        <| in_packet := None |>.
Proof.
  destruct (handle_subscribe_correct 0 5 subscribe_m (broker1 (Some subscribe_m)) [98; 47; 43] [0; 0]
    (buf [98; 47; 43] [0; 0]) 0 eq_refl eq_refl eq_refl eq_refl (ex_intro _ true eq_refl)
    plenty_available) as (s' & l & Hrun & [_ Hf _ Hc]);
    [easy_nul|reflexivity|reflexivity|].
  exists s', l. split; [exact Hrun|split; [rewrite Hf; reflexivity|exact Hc]].
Defined.

(** A client that has not connected. *)
Definition broker_new (m : mqtt_message) : broker :=
  (broker1 None) <| ss_clients := <[6%nat := client0 <| sock := 6 |> <| in_packet := Some m |>]> ∅ |>.

Lemma handle_subscribe_refused_witness :
  exists s', handle_mqtt_command 0 6 (broker_new subscribe_m) = Ok (128, s') /\
    sending_packet (ss_clients s' !!! 6%nat) = [raw_packet (suback_bytes 0 128)].
Proof.
  destruct (handle_subscribe_refused 0 6 subscribe_m (broker_new subscribe_m) [98; 47; 43] [0; 0]
    (buf [98; 47; 43] [0; 0]) 0 eq_refl eq_refl eq_refl eq_refl (ex_intro _ true eq_refl)
    plenty_available) as (s' & Hrun & _ & Hc); [discriminate|].
  exists s'. split; [exact Hrun|]. rewrite Hc. reflexivity.
Defined.

Lemma handle_connect_correct_witness :
  exists s', handle_mqtt_command 0 6 (broker_new connect_m) = Ok (0, s') /\
    others_same 6 (broker_new connect_m) s' /\
    ss_clients s' !!! 6%nat =
      (enqueue (raw_packet [32; 2; 0; 0])
         (connect_client [120; 121] (ss_clients (broker_new connect_m) !!! 6%nat)))
        <| in_packet := None |>.
Proof.
  apply (handle_connect_correct 0 6 connect_m [120; 121] [] (broker_new connect_m));
    [reflexivity|reflexivity|reflexivity|reflexivity|apply plenty_available].
Defined.

Definition pingreq_m : mqtt_message := message0 <| type := MQTT_TYPE_PINGREQ |>.

Lemma handle_other_correct_witness :
  exists s', handle_mqtt_command 0 6 (broker_new pingreq_m) = Ok (0, s') /\
    sending_packet (ss_clients s' !!! 6%nat) = [raw_packet [208; 0]].
Proof.
  destruct (handle_other_correct 0 6 pingreq_m (broker_new pingreq_m)) as (s' & Hrun & _ & Hc);
    [reflexivity|discriminate|discriminate|discriminate|apply plenty_available|].
  exists s'. split; [exact Hrun|]. rewrite Hc. reflexivity.
Defined.

(** ** Connections *)

Lemma remove_client_correct_witness :
  exists w', remove_client 5 (world1 [] table1 sending5) = Ok (tt, w') /\
    represents (contexts_by_ptr (w_ep w')) [] /\
    ss_clients (w_broker w') !!! 5%nat = client0 <| sending_packet := [packet1; packet1] |> /\
    os_trace (w_os w') = [EpollDel 5; Close 5].
Proof.
  destruct (remove_client_correct 5 5 [] [] (world1 [] table1 sending5))
    as (w' & Hrun & Hr & Hq & _ & _ & Htr);
    [reflexivity|apply table1_represents|cbn; lia|].
  exists w'. split; [exact Hrun|split; [exact Hr|split; [exact Hq|exact Htr]]].
Defined.

Lemma handle_accept_correct_witness :
  exists w', handle_event (3, EPOLLIN) (world1 [] table1 sending5) = Ok (tt, w') /\
    represents (contexts_by_ptr (w_ep w')) [5%nat; 7%nat] /\
    os_trace (w_os w') = [EpollAdd 7].
Proof.
  destruct (handle_accept_correct (world1 [] table1 sending5) EPOLLIN 7 [] [5%nat]
    eq_refl base0_ok table1_represents) as (w' & Hrun & Hr & _ & _ & Htr);
    [split; reflexivity|change (slot _ 7) with 7%nat; rewrite list_elem_of_singleton; discriminate
    |reflexivity|].
  exists w'. split; [exact Hrun|split; [exact Hr|exact Htr]].
Defined.

(** A full table, with the clients 4, 5, ... *)
Definition add_clients (l : list nat) (u : ut_hash) : ut_hash :=
  fold_left (fun u n => HASH_ADD_PTR n u) l u.

Lemma add_foreign u l n m :
  represents u l -> m ∉ l ++ [n] -> n ∉ l -> hh_of (HASH_ADD_PTR n u) m = hh_of u m.
Proof.
  intros (_ & Hh & Ht & _) Hm Hn. rewrite not_elem_of_app, list_elem_of_singleton in Hm.
  destruct Hm as [Hml Hmn]. destruct (snoc_cases l) as [->|(l' & t & ->)].
  - rewrite hh_of_add_first by done. by rewrite decide_False.
  - destruct Ht as [Ht _]; [by destruct l'|]. rewrite last_or_snoc in Ht.
    rewrite not_elem_of_app, list_elem_of_singleton in Hml, Hn.
    destruct (first_or (l' ++ [t]) None) as [h|] eqn:E; [|by destruct l'].
    rewrite (hh_of_add u h t); [|congruence|congruence|by intros ->; tauto].
    by rewrite !decide_False by tauto.
Qed.

Lemma add_clients_run l : forall l0 u,
  represents u l0 -> NoDup (l0 ++ l) -> Z.of_nat (length (l0 ++ l)) < 2 ^ 32 ->
  represents (add_clients l u) (l0 ++ l) /\
  forall m, m ∉ l0 ++ l -> hh_of (add_clients l u) m = hh_of u m.
Proof.
  induction l as [|n l IH]; intros l0 u Hr Hnd Hlen; cbn [add_clients fold_left].
  - by rewrite app_nil_r.
  - rewrite cons_middle, app_assoc in Hnd, Hlen |- *.
    assert (Hn : n ∉ l0).
    { apply NoDup_app in Hnd as [Hnd _]. apply NoDup_app in Hnd as (_ & Hd & _).
      intros Hn. apply (Hd n Hn). by left. }
    destruct (IH (l0 ++ [n]) (HASH_ADD_PTR n u)) as [Hr' Hm]; [|done|done|].
    { apply HASH_ADD_run_correct; [done|done|]. rewrite !length_app in Hlen. cbn [length] in Hlen. lia. }
    split; [done|]. intros m Hml. etrans; [by apply Hm|].
    apply not_elem_of_app in Hml as [Hml _]. by eapply add_foreign.
Qed.

Definition full_list : list nat := seq 4 (Z.to_nat MAX_FD_PER_LOOP).

Lemma full_length : Z.of_nat (length full_list) = MAX_FD_PER_LOOP.
Proof. unfold full_list. rewrite length_seq. by apply Z2Nat.id. Qed.

Lemma full_run :
  represents (add_clients full_list ut_empty) full_list /\
  forall m, m ∉ full_list -> hh_of (add_clients full_list ut_empty) m = hh0.
Proof.
  destruct (add_clients_run full_list [] ut_empty) as [Hr Hm];
    [apply represents_empty|apply NoDup_seq| |by split].
  change ([] ++ full_list) with full_list. by rewrite full_length.
Qed.

Lemma handle_accept_full_witness :
  exists w', handle_event (3, EPOLLIN) (world1 [] (add_clients full_list ut_empty) sending5) =
      Ok (tt, w') /\
    represents (contexts_by_ptr (w_ep w')) [] /\ os_trace (w_os w') = [EpollDel 3; Close 3].
Proof.
  destruct full_run as [Hr Hm].
  destruct (handle_accept_full (world1 [] (add_clients full_list ut_empty) sending5) EPOLLIN 7 []
    full_list eq_refl base0_ok Hr) with (lsock_n := 3%nat) as (w' & Hrun & Hr' & Htr & _).
  - split; reflexivity.
  - rewrite full_length. unfold MAX_FD_PER_LOOP. lia.
  - reflexivity.
  - apply Hm. unfold full_list. rewrite elem_of_seq. lia.
  - exists w'. split; [exact Hrun|split; [exact Hr'|exact Htr]].
Defined.

(** After that client 5 hangs up. *)
Lemma full_table_crashes_witness :
  iter handle_event [(3, EPOLLIN); (5, EPOLLERR)] (world1 [] (add_clients full_list ut_empty) sending5) =
    Fault NullDeref.
Proof.
  destruct full_run as [Hr Hm].
  apply (full_table_crashes (world1 [] (add_clients full_list ut_empty) sending5) EPOLLIN 7 []
    full_list 3%nat 5 EPOLLERR).
  - reflexivity.
  - exact base0_ok.
  - exact Hr.
  - split; reflexivity.
  - rewrite full_length. unfold MAX_FD_PER_LOOP. lia.
  - reflexivity.
  - apply Hm. unfold full_list. rewrite elem_of_seq. lia.
  - split; [discriminate|reflexivity].
  - discriminate.
  - discriminate.
Defined.
