(* ===== verification/SubWitnesses.v ===== *)
(** * Witnesses: epsub.c on concrete arguments *)

From Stdlib Require Import String.
From S2P Require Import Prelude.
From S2P Require Import Bench.
From S2P Require Import BenchFacts.
From S2P Require Import Epsub.
From S2P Require Import EpsubFacts.
From S2P Require Import EpsubSpec.
From S2P Require Import EpsubLive.
From S2P Require Import EpsubOpen.
From S2P Require Import EpsubRun.
From S2P Require Import EpsubErrors.

(** ** Arguments *)

Definition five : options := {|
  core_limit := 2; total_concurrency := 5; topic := Some (lit "a/b"); is_unique := true;
  client_id := None; size := 0; fio := false; outfile := [] |}.
Definition plan5 : plan := {|
  p_core_limit := 2; concurrency := 2; concurrency_remainder_cnt := 1; max_fds := 4;
  total_flows := 10 |}.

Lemma five_sensible : sensible five.
Proof. split; cbn; unfold MAX_CPUS; lia. Qed.

Lemma connections_divided_witness :
  exists p cs, make_plan 2 five = Ok p /\ concurs_of p = Ok cs /\
    Z.of_nat (List.length cs) = 2 /\ sumZ cs = 5 /\
    Forall (fun c => 1 <= c /\ concurrency p <= c <= concurrency p + 1) cs.
Proof. exact (connections_divided 2 five five_sensible). Defined.

Lemma connection_ids_bijective_witness :
  make_plan 2 five = Ok plan5 /\ concurs_of plan5 = Ok [3; 2] /\
  forall i, 0 <= i < 5 ->
    exists core k, 0 <= core < 2 /\ 0 <= k < nth (Z.to_nat core) [3; 2] 0 /\
      connection_id plan5 [3; 2] core k = Ok i.
Proof.
  split; [reflexivity|split; [reflexivity|]].
  destruct (connection_ids_bijective 2 five plan5 [3; 2] five_sensible eq_refl eq_refl) as (_ & H & _).
  exact H.
Defined.

Lemma connection_names_distinct_witness :
  connection_topic true (lit "a/b") 7 = Ok (lit "a/b7") /\ 7 = 7.
Proof.
  split; [reflexivity|].
  apply (connection_names_distinct (lit "a/b") None (lit "subscriber") 7 7 (lit "a/b7"));
    [unfold is_int; lia|unfold is_int; lia|].
  left. split; reflexivity.
Defined.

(** ** States *)

Definition memory : alloc := {| al_next := 0; al_fail := fun _ => false |}.
Lemma memory_ok : memory_available memory.
Proof. intros n _. reflexivity. Qed.

Definition env_of (reads : list (list callback * Z)) : env := {|
  e_now := {| tv_sec := 7; tv_usec := 0 |}; e_clock := []; e_connect := []; e_socket := [];
  e_request := []; e_read := reads; e_write := []; e_trace := [] |}.

Lemma env_willing reads : willing (env_of reads).
Proof. split; constructor. Qed.

Definition var5 : mosquitto_var := {|
  mosq := Some 6%nat; ctx := 0; fd := 3; mosq_state := connected; msg_count := 0;
  var_topic := Some (lit "a/b"); id := 0; is_recv_st := true |}.
Definition ctx5 : thread_context :=
  thread_context0 <| target := 1 |> <| started := 1 |> <| stat := sub_stat0 <| rcv_msgs := 4 |> |>.
Definition world5 (reads : list (list callback * Z)) : world :=
  (world0 memory (env_of reads)) <| w_vars := {[ 4%nat := var5 ]} |> <| g_ctx := {[ 0%nat := ctx5 ]} |>
    <| acc_stat := sub_stat0 <| rcv_msgs := 2 |> |>.
Definition plan1 : plan := {|
  p_core_limit := 1; concurrency := 1; concurrency_remainder_cnt := 0; max_fds := 2;
  total_flows := 2 |}.

Lemma PrintStats_conserves_witness :
  exists w' numbers, PrintStats five plan1 (world5 []) = Ok (tt, w') /\
    e_trace (w_env w') = [Printed numbers] /\ u64 (nth 3 numbers 0) = 6 /\
    Forall (fun f => accounted f (all_cores plan1) w' = accounted f (all_cores plan1) (world5 []) /\
                     held f (all_cores plan1) w' = 0) [connects; rcv_msgs; completes; stat_errors].
Proof.
  refine (PrintStats_conserves five plan1 (world5 []) _). split; [cbn; lia|].
  intros i Hi. exists ctx5. destruct i as [|i]; [reflexivity|cbn in Hi; lia].
Defined.

Lemma failed_connection_faults_witness :
  handle_event 2 0%nat (4%nat, EPOLLERR) (world5 []) = Fault UseAfterFree /\
  handle_event 2 0%nat (4%nat, EPOLLIN) (world5 [([], 7)]) = Fault UseAfterFree.
Proof.
  split.
  - apply (failed_connection_faults 2 0%nat 4%nat var5 ctx5 0 [] (world5 []) EPOLLERR eq_refl eq_refl).
    left. discriminate.
  - apply (failed_connection_faults 2 0%nat 4%nat var5 ctx5 7 [] (world5 [([], 7)]) EPOLLIN eq_refl eq_refl).
    right. split; [reflexivity|split; [discriminate|split; [discriminate|reflexivity]]].
Defined.

Lemma short_message_faults_witness :
  my_message_callback 2 4%nat (replicate 20 1) (world5 []) = Fault OutOfBounds.
Proof.
  refine (short_message_faults 2 4%nat var5 ctx5 (replicate 20 1) (world5 []) eq_refl eq_refl eq_refl _).
  unfold timeval_size. rewrite length_replicate. lia.
Defined.

(** ** The program *)

Definition args (s : list string) : list (list Z) := map lit s.

Definition argv0 : list (list Z) := args ["./epsub"; "127.0.0.1"; "2"; "-t"; "a/b"; ""]%string.
Definition options0 : options := {|
  core_limit := 4; total_concurrency := 0; topic := Some (lit "a/b"); is_unique := false;
  client_id := None; size := 0; fio := false; outfile := [] |}.
Definition plan0 : plan := {|
  p_core_limit := 0; concurrency := 1; concurrency_remainder_cnt := 0; max_fds := 2;
  total_flows := 0 |}.

Lemma no_connections_faults_witness :
  configure 4 argv0 = Ok (Some (2, options0, plan0, [])) /\
  main 4 argv0 [Round 0 None; Interrupt] (world0 memory (env_of [])) = Fault DivByZero.
Proof.
  split; [vm_compute; reflexivity|].
  refine (no_connections_faults 4 argv0 2 options0 plan0 [] _ memory (env_of []) _ _ eq_refl).
  - vm_compute. reflexivity.
  - unfold is_int. cbn. lia.
Defined.

Definition argv1 : list (list Z) :=
  args ["./epsub"; "127.0.0.1"; "2"; "-p"; "1"; "-u"; "-t"; "a/b"]%string.
Definition options1 : options := {|
  core_limit := 4; total_concurrency := 1; topic := Some (lit "a/b"); is_unique := true;
  client_id := None; size := 0; fio := false; outfile := [] |}.

Lemma options1_sensible : sensible options1.
Proof. split; cbn; unfold MAX_CPUS; lia. Qed.

Lemma options1_planned : planned 2 options1 plan1 [1].
Proof.
  destruct (make_plan_run 2 options1 options1_sensible) as (p & cs & Hp & Hcs & H).
  assert (p = plan1) as -> by (vm_compute in Hp; injection Hp as <-; reflexivity).
  assert (cs = [1]) as -> by (vm_compute in Hcs; injection Hcs as <-; reflexivity). exact H.
Qed.

Lemma options1_names : names_fit options1.
Proof. split; vm_compute; lia. Qed.

Lemma program_opens_witness :
  exists w rs, (threads_start plan1 [1] ;;; iter (act 2 options1 plan1 [1]) (first_rounds plan1))
      (world0 memory (env_of [])) = Ok (tt, w) /\ system 2 plan1 rs w /\ opens plan1 rs = 1 /\
    connect_calls (e_trace (w_env w)) = [(lit "subscriber-0", lit "a/b0")].
Proof.
  destruct (program_opens 2 options1 plan1 [1] memory (env_of []) options1_sensible options1_planned
    options1_names) as (w & rs & Hrun & Hs & _ & Ho & Hc).
  - lia.
  - cbn. lia.
  - exact memory_ok.
  - apply env_willing.
  - exists w, rs. split; [exact Hrun|split; [exact Hs|split; [exact Ho|rewrite Hc; reflexivity]]].
Defined.

(** The connection is accepted, subscribes, and gets its two messages in one
    read. *)
Definition two_messages : list (list Z) := [replicate 32 1; replicate 32 2].
Definition schedule1 (p : loc) : list round_of :=
  [(0%nat, [Accepted p]); (0%nat, [Writable p]); (0%nat, [Messages p two_messages])].
Definition env1 : env :=
  env_of [([OnConnect 0], 0); (map OnMessage two_messages, 0)].

Lemma open_one (r : gmap loc Z) : open_ r = 1 -> exists p k, r = {[ p := k ]}.
Proof.
  intros Hr. assert (Hne : r <> ∅) by (intros ->; change (open_ ∅) with 0 in Hr; lia).
  apply map_choose in Hne as (p & k & Hp). exists p, k.
  pose proof (size_delete_some r p k Hp) as Hd.
  assert (delete p r = ∅) as Hem by (apply open_0; lia).
  by rewrite <- (insert_delete_id r p k Hp), Hem.
Qed.

Lemma one_connection (rs : waits_of) :
  opens plan1 rs = 1 -> exists r, rs !! 0%nat = Some r /\ open_ r = 1.
Proof.
  change (opens plan1 rs) with (from_option open_ 0 (rs !! 0%nat) + 0).
  destruct (rs !! 0%nat) as [r|]; cbn [from_option]; [|lia]. intros Hr. exists r. split; [done|lia].
Qed.

Lemma deliver_to_eq i ds (rs : waits_of) r r' :
  rs !! i = Some r -> deliver ds r = Some r' -> deliver_to (i, ds) rs = Some (<[i := r']> rs).
Proof. intros Hr Hd. unfold deliver_to. cbn. rewrite Hr. cbn. by rewrite Hd. Qed.

Lemma schedule1_drains (rs : waits_of) p :
  rs !! 0%nat = Some {[ p := 2 ]} ->
  deliver_all (schedule1 p) rs = Some (<[0%nat := ∅]> rs).
Proof.
  intros H0.
  assert (Hid : <[0%nat := {[ p := 2 ]}]> rs = rs) by by apply insert_id.
  assert (Hsame : forall d, deliver1 d {[ p := 2 ]} = Some {[ p := 2 ]} ->
    deliver_to (0%nat, [d]) rs = Some rs).
  { intros d Hd. rewrite <- Hid at 2. apply (deliver_to_eq _ _ _ _ _ H0). cbn [deliver]. by rewrite Hd. }
  assert (H1 : {[ p := 2 ]} !! p = Some 2) by apply lookup_singleton_eq.
  unfold schedule1, deliver_all. rewrite (Hsame (Accepted p)) by (cbn; by rewrite H1).
  cbn [mbind option_bind]. rewrite (Hsame (Writable p)) by (cbn; by rewrite H1).
  cbn [mbind option_bind]. rewrite (deliver_to_eq _ _ rs _ ∅ H0); [done|].
  cbn. rewrite H1. cbn. by rewrite delete_singleton_eq.
Qed.

Lemma main_completes_witness :
  exists p w, main 4 argv1 (first_rounds plan1 ++ rounds (schedule1 p)) (world0 memory env1) = Ok (tt, w) /\
    w_vars w = ∅ /\ u64 (completes (acc_stat w)) = 1.
Proof.
  destruct (main_completes 4 argv1 2 options1 plan1 [1] memory env1) as (rs & Hopen & Hr & Hrun).
  - vm_compute. reflexivity.
  - exact options1_sensible.
  - exact options1_names.
  - lia.
  - cbn. lia.
  - exact memory_ok.
  - apply env_willing.
  - destruct (one_connection rs Hopen) as (r & H0 & Hr1). destruct (open_one r Hr1) as (p & k & ->).
    destruct (Hr _ _ H0) as [_ Hk]. apply map_Forall_singleton in Hk. subst k.
    exists p. apply (Hrun (schedule1 p) (<[0%nat := ∅]> rs) []).
    + by apply schedule1_drains.
    + intros i r Hi. destruct (decide (0%nat = i)) as [<-|Hne].
      * rewrite lookup_insert_eq in Hi. by injection Hi as <-.
      * rewrite lookup_insert_ne in Hi by done. destruct (Hr _ _ Hi) as [Ho _].
        apply open_0. rewrite Ho. destruct i as [|[|i]]; cbn; lia.
    + repeat constructor; vm_compute; discriminate.
    + split; [reflexivity|split; constructor].
Defined.
