(* ===== verification/PubWitnesses.v ===== *)
(** * Witnesses: eppub.c on concrete inputs *)

From Stdlib Require Import String.
From S2P Require Import Prelude.
From S2P Require Import Bench.
From S2P Require Import BenchFacts.
From S2P Require Import Eppub.
From S2P Require Import EppubFacts.
From S2P Require Import EppubMessage.

Definition memory : alloc := {| al_next := 0; al_fail := fun _ => false |}.

Definition env0 (reads writes : list (list callback * Z)) : env := {|
  e_now := {| tv_sec := 7; tv_usec := 8 |}; e_clock := [{| tv_sec := 9; tv_usec := 10 |}];
  e_connect := []; e_socket := []; e_request := []; e_read := reads; e_write := writes;
  e_trace := [] |}.

(** A connection that publishes, in a thread with a payload of [n] bytes *)
Definition var1 : mosquitto_var := {|
  mosq := Some 6%nat; ctx := 0; fd := 3; mosq_state := conacked; msg_count := 0;
  var_topic := Some (lit "a/b"); connect_time := {| tv_sec := 5; tv_usec := 6 |};
  is_publish_st := true |}.
Definition ctx1 (n : nat) : thread_context :=
  thread_context0 <| target := 1 |> <| started := 1 |> <| payload := Some (replicate n None) |>.
Definition world1 (n : nat) (reads writes : list (list callback * Z)) : world :=
  (world0 memory (env0 reads writes)) <| w_vars := {[ 4%nat := var1 ]} |>
    <| g_ctx := {[ 0%nat := ctx1 n ]} |>.

Lemma stamps_read_back_witness :
  exists w' c' m', stamp 0%nat 4%nat (world1 40 [] []) = Ok (tt, w') /\ g_ctx w' !! 0%nat = Some c' /\
    payload c' = Some m' /\ List.length m' = 40%nat /\
    forall l, arrives m' l ->
      load_timeval l 0 = Ok {| tv_sec := 9; tv_usec := 10 |} /\
      load_timeval l timeval_size = Ok {| tv_sec := 5; tv_usec := 6 |}.
Proof.
  refine (stamps_read_back 0%nat 4%nat var1 (ctx1 40) (replicate 40 None) (world1 40 [] []) eq_refl eq_refl
    _ eq_refl _ _).
  - split; [reflexivity|vm_compute; discriminate].
  - split; cbn; lia.
  - split; cbn; lia.
Defined.

Lemma small_payload_faults_witness :
  handle_event 2 0%nat (4%nat, EPOLLOUT) (world1 20 [] []) = Fault OutOfBounds.
Proof.
  refine (small_payload_faults 2 0%nat 4%nat var1 (ctx1 20) (world1 20 [] []) eq_refl eq_refl _ eq_refl _).
  - discriminate.
  - vm_compute. reflexivity.
Defined.

Lemma failed_connection_closed_witness :
  (exists w' c', handle_event 2 0%nat (4%nat, EPOLLERR) (world1 32 [] []) = Ok (tt, w') /\
     w_vars w' = delete 4%nat {[ 4%nat := var1 ]} /\ g_ctx w' = <[0%nat := c']> {[ 0%nat := ctx1 32 ]} /\
     done c' = 1) /\
  (exists w' c', handle_event 2 0%nat (4%nat, EPOLLIN) (world1 32 [([], 7)] []) = Ok (tt, w') /\
     w_vars w' = delete 4%nat {[ 4%nat := var1 ]} /\ g_ctx w' = <[0%nat := c']> {[ 0%nat := ctx1 32 ]} /\
     done c' = 1).
Proof.
  split.
  - destruct (failed_connection_closed 2 0%nat 4%nat var1 (ctx1 32) 0 [] (world1 32 [] []) EPOLLERR
      eq_refl eq_refl) as (w' & c' & Hrun & Hv & Hc & Hd & _); [left; discriminate|].
    exists w', c'. split; [exact Hrun|split; [exact Hv|split; [exact Hc|exact Hd]]].
  - destruct (failed_connection_closed 2 0%nat 4%nat var1 (ctx1 32) 7 [] (world1 32 [([], 7)] []) EPOLLIN
      eq_refl eq_refl) as (w' & c' & Hrun & Hv & Hc & Hd & _).
    + right. split; [reflexivity|split; [discriminate|split; [discriminate|reflexivity]]].
    + exists w', c'. split; [exact Hrun|split; [exact Hv|split; [exact Hc|exact Hd]]].
Defined.

Lemma publishes_exactly_witness :
  exists w' c', iter (handle_event 2 0%nat) [(4%nat, EPOLLOUT); (4%nat, EPOLLOUT)]
      (world1 32 [] [sent 1; sent 2]) = Ok (tt, w') /\
    w_vars w' = delete 4%nat {[ 4%nat := var1 ]} /\ done c' = 1 /\
    publishes (e_trace (w_env w')) = [(6%nat, lit "a/b"); (6%nat, lit "a/b")].
Proof.
  destruct (publishes_exactly 2 0%nat 4%nat [1; 2] var1 (ctx1 32) [] (world1 32 [] [sent 1; sent 2]))
    as (w' & c' & Hrun & Hv & _ & Hd & _ & _ & _ & Hp).
  - split; [reflexivity|reflexivity|reflexivity|split; discriminate|cbn; lia| |constructor].
    exists (replicate 32 None). split; [reflexivity|vm_compute; discriminate].
  - reflexivity.
  - reflexivity.
  - exists w', c'. split; [exact Hrun|split; [exact Hv|split; [exact Hd|exact Hp]]].
Defined.

(** The program with one connection and a payload of 40 bytes, up to the first
    message *)
Definition argv1 : list (list Z) :=
  map lit ["./eppub"; "127.0.0.1"; "2"; "-p"; "1"; "-s"; "40"; "-t"; "a/b"]%string.
Definition options1 : options := {|
  core_limit := 4; total_concurrency := 1; topic := Some (lit "a/b"); is_unique := false;
  client_id := None; size := 40; fio := false; outfile := [] |}.
Definition schedule1 : list action :=
  [Round 0%nat (Some []); Round 0%nat (Some [(4%nat, EPOLLIN)]); Round 0%nat (Some [(4%nat, EPOLLOUT)])].
Definition env1 : env := env0 [([OnConnect 0], 0)] [sent 1].
Definition final1 : world :=
  match main 4 (fun n => Z.of_nat n) argv1 schedule1 (world0 memory env1) with
  | Ok (_, w) => w
  | _ => world0 memory env1
  end.

Lemma message_never_sent_witness :
  main 4 (fun n => Z.of_nat n) argv1 schedule1 (world0 memory env1) = Ok (tt, final1) /\
  exists m, payloads (e_trace (w_env final1)) = [Some m] /\ Z.of_nat (List.length m) = 40 /\
    forall k, (32 <= k < 40)%nat -> m !! k = Some None.
Proof.
  assert (Hrun : main 4 (fun n => Z.of_nat n) argv1 schedule1 (world0 memory env1) = Ok (tt, final1))
    by (vm_compute; reflexivity).
  assert (Hargs : parse_args 4 argv1 = Ok (Some (2, options1))) by (vm_compute; reflexivity).
  pose proof (message_never_sent 4 (fun n => Z.of_nat n) argv1 2 options1 schedule1 memory env1 final1
    Hargs eq_refl Hrun) as H.
  split; [exact Hrun|].
  assert (Hp : exists m, payloads (e_trace (w_env final1)) = [Some m])
    by (vm_compute; eexists; reflexivity).
  destruct Hp as [m Hm]. exists m. rewrite Hm in H. apply Forall_cons in H as [H _].
  split; [exact Hm|]. exact (H m eq_refl).
Defined.
