(* ===== verification/StartWitnesses.v ===== *)
(** * Witnesses: the start of the broker on concrete answers *)

From S2P Require Import Prelude.
From S2P Require Import Broker.
From S2P Require Import Startup.
From S2P Require Import Samples.

Definition memory : alloc := {| al_next := 0; al_fail := fun _ => false |}.

Definition host1 (answers : list Z) : host := {|
  h_alloc := memory; h_answers := answers; h_calls := []; h_replies := []; h_cores := 0 |}.

Lemma clients_for_sixteen : Z.of_nat (clients_for 16) = 515200.
Proof. unfold clients_for. rewrite Z2Nat.id; [reflexivity|discriminate]. Qed.

#[local] Opaque all_locks clients_for.

(** On the kernel 16 threads, the third of which cannot be created in the second
    run, and the second lock of the first client cannot be initialised in the
    third; with mTCP on 40 processors 16 threads *)
Lemma main_threads_witness :
  let locks := all_locks 4 in
  (exists h', main 2 (host1 []) = Ok (0, h') /\
     h_calls h' = locks ++ creates 16 ++ joins 16 ++ [LockDestroy client_id_lock]) /\
  (exists h', main 2 (host1 (replicate (length locks) 0 ++ [0; 0; 11])) = Ok (0, h') /\
     h_calls h' = locks ++ [ThreadCreate 0; ThreadCreate 1; ThreadCreate 2; LockDestroy client_id_lock]) /\
  (exists h', main 2 (host1 [0; 12]) = Ok (-1, h') /\ h_calls h' = take 2 locks) /\
  (exists h', @main mtcp_platform 2 (host1 [40; 0; 0; 0; 0]) = Ok (0, h') /\
     h_calls h' = [GetNumCPUs; MtcpGetConf; MtcpSetConf 16; MtcpInit; MtcpRegisterSignal] ++
       @all_locks mtcp_platform 40 ++ creates 16 ++ joins 16 ++ [LockDestroy client_id_lock; MtcpDestroy]).
Proof.
  assert (Ha : memory_available memory) by (intros n _; reflexivity). cbv zeta. split_and!.
  - destruct (proj1 (main_threads 4 (host1 []) Ha)) as (h' & Hrun & Hc); [reflexivity|].
    exists h'. split; [exact Hrun|]. rewrite Hc. reflexivity.
  - destruct (proj1 (proj2 (main_threads 4 (host1 (replicate (length (all_locks 4)) 0 ++ [0; 0; 11])) Ha))
      2%nat 11 []) as (h' & Hrun & Hc).
    + vm_compute. lia.
    + discriminate.
    + reflexivity.
    + exists h'. split; [exact Hrun|]. rewrite Hc. reflexivity.
  - destruct (proj2 (proj2 (main_threads 4 (host1 [0; 12]) Ha)) 1%nat 12 []) as (h' & Hrun & Hc).
    + rewrite length_all_locks. change (cores 4) with 16. pose proof clients_for_sixteen. lia.
    + discriminate.
    + reflexivity.
    + exists h'. split; [exact Hrun|]. rewrite Hc.
      change (h_calls _) with (@nil oscall). change (prologue 4) with (@nil oscall). by rewrite !app_nil_l.
  - destruct (proj1 (@main_threads mtcp_platform 40 (host1 [40; 0; 0; 0; 0]) Ha)) as (h' & Hrun & Hc);
      [reflexivity|]. exists h'. split; [exact Hrun|]. etrans; [exact Hc|].
    change (h_calls _) with (@nil oscall). rewrite app_nil_l.
    apply (f_equal2 app); [reflexivity|]. apply (f_equal2 app); reflexivity.
Defined.

(** The numbers of the locks *)
Example locks_of_clients :
  client_locks 0 2 =
    [LockInit (sending_lock 0); LockInit (self_lock 0); LockInit (sending_lock 1); LockInit (self_lock 1)].
Proof. reflexivity. Qed.

(** A socket of the kernel that cannot be bound is closed. *)
Example bind_fails :
  (let? r := get_listen_sock 1883 (host1 [7; 0; -1]) in Ok (r.1, zip (h_calls r.2) (h_replies r.2))) =
  Ok (-1, [(Socket, 7); (SetSockOpt 7 SO_REUSEPORT 1, 0); (Bind 7 1883, -1); (CloseFd 7, 0)]).
Proof. reflexivity. Qed.

(** A socket of mTCP that cannot listen: its number goes to [close]. *)
Example mtcp_listen_fails :
  (let? r := @get_listen_sock mtcp_platform 1883 (host1 [7; 0; 0; -1]) in Ok (r.1, h_calls r.2)) =
  Ok (-1, [MtcpSocket; MtcpNonblock 7; MtcpBind 7 1883; MtcpListen 7 ACCEPT_QUEUES; CloseFd 7]).
Proof. reflexivity. Qed.

(** With [EPOLL_CTL_DEL] mTCP is given events that were never written; *)
Example mtcp_del_events :
  (let? r := @disconnect_sock mtcp_platform 4 7 (host1 []) in Ok (h_calls r.2)) =
  Ok [MtcpEpollCtl 4 EPOLL_CTL_DEL 7 None; MtcpCloseFd 7].
Proof. reflexivity. Qed.

(** a descriptor of epoll that is negative, but not -1, is taken for one. *)
Example mtcp_epoll_fails :
  (let? r := @run mtcp_platform 1883 0 (host1 [0; 1; -2; 7]) in Ok (r.1)) = Ok (Some (-2, 7)).
Proof. reflexivity. Qed.

Lemma run_correct_witness :
  exists h' flag, @run mtcp_platform 1883 1 (host1 []) = Ok (Some (4, 3), h') /\
    h_calls h' = @opened mtcp_platform 1 4 ++ @listening mtcp_platform 3 1883 ++ @watched mtcp_platform 4 3 flag.
Proof.
  destruct (@run_correct mtcp_platform 1883 1 (host1 [])) as (r & h' & log & Hrun & Hc & Hr);
    [discriminate|intros n _; reflexivity|].
  assert (E : (let? r := @run mtcp_platform 1883 1 (host1 []) in Ok (r.1)) = Ok (Some (4, 3))) by reflexivity.
  rewrite Hrun in E. injection E as ->. destruct Hr as (_ & flag & ->). by exists h', flag.
Defined.
