(* ===== verification/TableWitnesses.v ===== *)
(** * The whole table of uthash.h: the theorems on concrete inputs

    A table of three elements, built by the operations; and what becomes of a
    table whose keys are set after the elements were added, as the broker
    does it.  The operations that the broker does not use are run on the same
    table. *)

From stdpp Require Import sorting.
From S2P Require Import Prelude.
From S2P Require Import UtHash.
From S2P Require Import UtTable.
From S2P Require Import UtTableFacts.
From S2P Require Import UtTableSpec.
From S2P Require Import UtSort.
From S2P Require Import UtSortFacts.
From S2P Require Import UtSortSpec.

(** The empty table of a process that never runs out of memory, with the
    addresses that the elements have in their key fields. *)
Definition empty_table (keys : gmap nat (list Z)) : htable := {|
  t_alloc := {| al_next := 0; al_fail := fun _ => false |}; t_itself := keys; t_head := None;
  t_hh := ∅;
  t_tbl := {| buckets := []; num_buckets := 0; log2_num_buckets := 0; num_items := 0; tail := None;
    ideal_chain_maxlen := 0; nonideal_items := 0; ineff_expands := 0; noexpand := 0 |} |}.

Lemma empty_table_ok keys : table_ok (empty_table keys) [].
Proof.
  split; [|done|by intros n ?%elem_of_nil]. by split_and!; [constructor|..].
Qed.

Definition address (k : Z) : list Z := [0; k; 0; 0; 195; 127; 0; 0].

(** The table after the elements were added, one after the other *)
Fixpoint add_all (ns : list nat) (t : htable) : outcome htable :=
  match ns with
  | [] => Ok t
  | n :: ns' => let? r := HASH_ADD_PTR n t in add_all ns' r.2
  end.

Definition keys3 : gmap nat (list Z) :=
  {[ 1%nat := address 16; 2%nat := address 32; 3%nat := address 48 ]}.
Definition table_of_adds (ns : list nat) : htable :=
  match add_all ns (empty_table keys3) with Ok t => t | _ => empty_table keys3 end.

Lemma plenty_left (a : alloc) : (forall n, al_fail a n = false) -> memory_available a.
Proof. intros H n _. apply H. Qed.

(** Adding to a table built that way, with the computed room and memory *)
Lemma add_step n t l t' :
  table_ok t l -> n ∉ l -> zlen l + 1 < 2 ^ 32 -> roomy t -> memory_available (t_alloc t) ->
  HASH_ADD_PTR n t = Ok (true, t') -> added n t l t'.
Proof.
  intros Hok Hnew Hlen Hroom Ha E.
  destruct (HASH_ADD_PTR_run n t l Hok Hnew Hlen (fun _ => Hroom) Ha) as (t2 & E2 & Had).
  rewrite E in E2. by injection E2 as <-.
Qed.

Definition table1 : htable := table_of_adds [1%nat].
Definition table2 : htable := table_of_adds [1%nat; 2%nat].
Definition table3 : htable := table_of_adds [1%nat; 2%nat; 3%nat].

Lemma table2_ok : table_ok table2 [1%nat; 2%nat].
Proof.
  assert (H1 : added 1 (empty_table keys3) [] table1).
  { apply add_step; [apply empty_table_ok|by intros ?%elem_of_nil|done|left; by vm_compute|
      by apply plenty_left|by vm_compute]. }
  assert (H2 : added 2 table1 [1%nat] table2).
  { apply add_step; [apply H1|set_solver|done|left; by vm_compute|by apply plenty_left|by vm_compute]. }
  apply H2.
Qed.

Lemma table3_ok : table_ok table3 [1%nat; 2%nat; 3%nat].
Proof.
  assert (H3 : added 3 table2 [1%nat; 2%nat] table3).
  { apply add_step; [apply table2_ok|set_solver|done|left; by vm_compute|by apply plenty_left|by vm_compute]. }
  apply H3.
Qed.

Lemma HASH_ADD_PTR_refines_witness :
  exists t', HASH_ADD_PTR 3 table2 = Ok (true, t') /\
    app_view t' ≡ UtHash.HASH_ADD_PTR 3 (app_view table2) /\ table_ok t' [1%nat; 2%nat; 3%nat] /\
    t_itself t' = t_itself table2 /\ settled t' 3 /\
    forall m, m ∈ [1%nat; 2%nat] -> settled table2 m -> settled t' m.
Proof.
  apply (HASH_ADD_PTR_refines 3 table2 [1%nat; 2%nat]);
    [apply table2_ok|set_solver|reflexivity|intros _; left; by vm_compute|by apply plenty_left].
Defined.

Lemma HASH_DEL_refines_witness :
  exists t' u, HASH_DEL 2 table3 = Ok (tt, t') /\
    UtHash.HASH_DEL 2 (app_view table3) = Ok u /\ app_view t' ≡ u /\ table_ok t' [1%nat; 3%nat] /\
    t_itself t' = t_itself table3 /\
    forall m, m ∈ [1%nat; 3%nat] -> settled table3 m -> settled t' m.
Proof. apply (HASH_DEL_refines 2 table3 [1%nat] [3%nat]); [apply table3_ok|reflexivity]. Defined.

Lemma HASH_FIND_PTR_correct_witness :
  exists r, HASH_FIND_PTR (address 32) table3 = Ok (r, table3) /\
    finds table3 [1%nat; 2%nat; 3%nat] (address 32) r.
Proof.
  apply (HASH_FIND_PTR_correct table3 [1%nat; 2%nat; 3%nat] (address 32));
    [apply table3_ok| |reflexivity].
  intros n Hn. repeat (apply elem_of_cons in Hn as [->|Hn]; [by vm_compute|]).
  by apply elem_of_nil in Hn.
Defined.

(** It is the second element that is found. *)
Example found : HASH_FIND_PTR (address 32) table3 = Ok (Some 2%nat, table3).
Proof. by vm_compute. Qed.

Lemma HASH_FSCK_passes_witness : HASH_FSCK 4 table3 = Ok (true, table3).
Proof. apply (HASH_FSCK_passes 4 table3 [1%nat; 2%nat; 3%nat]); [apply table3_ok|reflexivity|cbn; lia]. Defined.

(** The check is not passed by a table in which a bucket counts an element too many. *)
Example fsck_refuses :
  let bad := table3 <| t_tbl := (t_tbl table3) <| buckets :=
    map (fun b => b <| count := count b + 1 |>) (buckets (t_tbl table3)) |> |> in
  HASH_FSCK 4 bad = Ok (false, bad).
Proof. by vm_compute. Qed.

(** ** Keys set after the adding

    event_io.c adds a client when its connection is accepted; its [itself] is
    set by [add_client], when its CONNECT has come. *)

Definition null_table (k : nat) : htable :=
  match add_all (seq 0 k) (empty_table ∅) with Ok t => t | _ => empty_table ∅ end.
Definition set_itself (n : nat) (a : list Z) (t : htable) : htable :=
  t <| t_itself := <[n := a]> (t_itself t) |>.

(** A client whose key is set after it was added is in the table, but is not
    found by that key. *)
Theorem late_key_lost :
  let t := set_itself 0 (address 16) (null_table 1) in
  itself_of 0 t = address 16 /\ UtTable.HASH_COUNT t = 1 /\
  HASH_FIND_PTR (address 16) t = Ok (None, t).
Proof. by vm_compute. Qed.

(** Clients added before they have a key all go into one bucket, whatever the
    number of buckets, which is doubled twice and no more. *)
Theorem null_keys_one_bucket :
  let tbl := t_tbl (null_table 300) in
  num_buckets tbl = 128 /\ noexpand tbl = 1 /\
  List.filter (fun c => negb (c =? 0)) (map count (buckets tbl)) = [300].
Proof. by vm_compute. Qed.

(** ** Sorting, replacing, iterating and selecting *)

Definition after {A} (m : M htable A) (t : htable) : htable :=
  match m t with Ok (_, t') => t' | _ => empty_table ∅ end.

(** The elements of a small table in their order *)
Fixpoint walk_from (k : nat) (p : option nat) (t : htable) : list nat :=
  match k, p with
  | S k', Some n => n :: walk_from k' (next (t_hh t !!! n)) t
  | _, _ => []
  end.
Definition walk (t : htable) : list nat := walk_from 9 (t_head t) t.

(** Even elements before odd ones: a comparison with elements of equal rank *)
Definition parity (a b : nat) : Z := Z.of_nat (a mod 2) - Z.of_nat (b mod 2).

#[export] Instance parity_trans : Transitive (before parity).
Proof. intros a b c. unfold before, parity. lia. Qed.
#[export] Instance parity_total : Total (before parity).
Proof. intros a b. unfold before, parity. lia. Qed.

Lemma HASH_SRT_correct_witness :
  exists t' l', HASH_SRT parity table3 = Ok (tt, t') /\ table_ok t' l' /\ l' ≡ₚ [1%nat; 2%nat; 3%nat] /\
    Sorted (before parity) l' /\
    (forall x, filter (same_rank parity x) l' = filter (same_rank parity x) [1%nat; 2%nat; 3%nat]) /\
    buckets (t_tbl t') = buckets (t_tbl table3) /\ t_itself t' = t_itself table3 /\
    forall n, settled table3 n -> settled t' n.
Proof.
  apply (HASH_SRT_correct parity table3 [1%nat; 2%nat; 3%nat]);
    [apply parity_trans|apply parity_total|apply table3_ok|reflexivity].
Defined.

(** 1 stays before 3, and is now behind 2. *)
Example sorted_by_parity : walk (after (HASH_SRT parity) table3) = [2%nat; 1%nat; 3%nat].
Proof. by vm_compute. Qed.

(** The element 5, which has the key of 2, replaces it, at the end. *)
Example second_replaced :
  let t := set_itself 5 (address 32) table3 in
  (let? r := HASH_REPLACE_PTR 5 t in Ok r.1) = Ok (true, Some 2%nat) /\
  walk (after (HASH_REPLACE_PTR 5) t) = [1%nat; 3%nat; 5%nat].
Proof. by vm_compute. Qed.

(** 3 handles, 32 buckets, and the table *)
Example overhead3 : HASH_OVERHEAD table3 = 3 * 56 + 32 * 16 + 64.
Proof. by vm_compute. Qed.

Example emptied_by_iteration :
  walk (after (HASH_ITER 3 HASH_DEL) table3) = [] /\ walk (after HASH_CLEAR table3) = [].
Proof. by vm_compute. Qed.

(** The first and the third element are selected into a second table.  The last
    of its order is 1, but the table's [tail] is still 3, its first: an
    element that is added afterwards is linked behind 3, and 1 is lost from
    the order, though it is counted, and found. *)
Theorem select_keeps_first_tail :
  let odd n := negb (Nat.eqb n 2) in
  let t := after (HASH_SELECT table3 odd) (empty_table keys3) in
  walk t = [3%nat; 1%nat] /\ tail (t_tbl t) = Some 3%nat /\
  (let t' := after (HASH_ADD_PTR 4) t in
   walk t' = [3%nat; 4%nat] /\ UtTable.HASH_COUNT t' = 3 /\
   HASH_FIND_PTR (address 16) t' = Ok (Some 1%nat, t') /\ HASH_FSCK 9 t' = Ok (false, t')).
Proof. by vm_compute. Qed.

(** Published values of the hash functions FNV-1a and one-at-a-time, and those of
    the others that are easily found by hand *)
Example hash_values :
  HASH_FNV [97] = 0xe40c292c /\ HASH_FNV [102; 111; 111; 98; 97; 114] = 0xbf9cf968 /\
  HASH_OAT [97] = 0xca2e9442 /\ HASH_BER [97; 98] = 97 * 33 + 98 /\ HASH_SAX [97] = 97.
Proof. by vm_compute. Qed.
