(* ===== verification/PrintWitnesses.v ===== *)
(** * What the program prints: the theorems on concrete inputs *)

From Stdlib Require Import Ascii String.
From S2P Require Import Prelude.
From S2P Require Import Bench.
From S2P Require Import Mqtt.
From S2P Require Import Parser.
From S2P Require Import ParserFacts.
From S2P Require Import ParserTyped.
From S2P Require Import ParserSpec.
From S2P Require Import RoundTrip.
From S2P Require Import Substree.
From S2P Require Import Broker.
From S2P Require Import Scenarios.
From S2P Require Import Samples.
From S2P Require Import Printing.
From S2P Require Import PrintingFacts.

(** The tree of one client with the filter [a] *)
Example tree_printed :
  exists h, roots1 = [h] /\
  mqtt3_sub_tree_print (ss_clients (broker1 None)) h 0 [] =
  Ok (tt, newline ++ lit "  " ++ newline ++ lit "    a (x, 0)" ++ newline).
Proof. eexists. split; [reflexivity|]. vm_compute. reflexivity. Qed.

Lemma print_hex_limit_witness :
  print_hex true (Some [255; 0; 13]) 3 [] =
  Ok (tt, lit "debug: received <<< [0]ff [1]00 [2]0d" ++ newline).
Proof.
  rewrite (print_hex_limit true [255; 0; 13] 3 []); [vm_compute; reflexivity|easy_bytes|cbn; lia].
Defined.

(** A CONNECT whose client identifier has a byte that cannot be printed *)
Definition connect_bytes : list Z :=
  [0; 4; 77; 81; 84; 84; 4; 2; 0; 60; 0; 2; 97; 7].
Definition parsing : pstate :=
  start (message0 <| type := MQTT_TYPE_CONNECT |>) MQTT_ERROR_NONE plenty.

Lemma parsed_message_dumped_witness :
  exists s', mqtt_parser_execute (Some connect_bytes) 14 parsing = Ok (MQTT_PARSER_RC_DONE, s') /\
    mqtt_message_dump (ps_message s') [] = Ok (tt, message_text (ps_message s')) /\
    buffer_text (client_id (connect (ps_message s'))) = lit "[2] 61 07 ".
Proof.
  destruct (mqtt_parser_execute (Some connect_bytes) 14 parsing) as [[rc s']|f|] eqn:E;
    [|vm_compute in E; discriminate E|vm_compute in E; discriminate E].
  pose proof (parsed_message_dumped (Some connect_bytes) 14 parsing rc s' []
    ltac:(split; [reflexivity|easy_bytes]) ltac:(lia) eq_refl eq_refl ltac:(by split_and!) E) as H.
  vm_compute in E. injection E as <- <-. eexists. split; [reflexivity|].
  split; [exact H|vm_compute; reflexivity].
Defined.
