(* ===== verification/SystemWitnesses.v ===== *)
(** * Several event loops: the theorems on concrete systems

    Two threads: client 6, of the first, publishes on "a"; client 5, of the
    second, is subscribed to "a" and has two packets waiting. *)

From S2P Require Import Prelude.
From S2P Require Import Mqtt.
From S2P Require Import Serialiser.
From S2P Require Import Parser.
From S2P Require Import Topic.
From S2P Require Import Substree.
From S2P Require Import SubstreeFacts.
From S2P Require Import SubAddFacts.
From S2P Require Import UtHash.
From S2P Require Import Broker.
From S2P Require Import Handler.
From S2P Require Import EventIO.
From S2P Require Import BrokerInv.
From S2P Require Import HandlerFacts.
From S2P Require Import HandlerSpec.
From S2P Require Import HandlerSafe.
From S2P Require Import InputFacts.
From S2P Require Import InputSpec.
From S2P Require Import ReaderSafe.
From S2P Require Import OutputFacts.
From S2P Require Import OutputSpec.
From S2P Require Import LoopSafe.
From S2P Require Import Delivery.
From S2P Require Import System.
From S2P Require Import Relay.
From S2P Require Import Atomic.
From S2P Require Import Scenarios.
From S2P Require Import Samples.

(** ** A publisher and a subscriber *)

Definition table_with (n : nat) : ut_hash := HASH_ADD_PTR n ut_empty.
Lemma table_with_represents n : represents (table_with n) [n].
Proof. apply (HASH_ADD_run_correct ut_empty []); [apply represents_empty|set_solver|cbn; lia]. Qed.

(** Client [n] is subscribed to "a". *)
Definition roots_of (n : nat) : list subhier :=
  [Subhier 2%nat [] [] [Subhier 4%nat [] [] [Subhier 6%nat [97] [{| sl_context := n; sl_qos := 0 |}] []]]].

Lemma roots_of_ok n : tree_ok (roots_of n).
Proof.
  split; [split_and!|].
  - apply NoDup_singleton.
  - repeat first [apply NoDup_nil_2|constructor]; try done; set_solver.
  - by repeat constructor.
  - by repeat constructor.
Qed.

Lemma fd_of_slot `{Build} base fd : base_ok base -> 0 <= fd -> fd_of base (Z.to_nat (base + fd)) = fd.
Proof. intros [? _] ?. unfold fd_of. lia. Qed.

Lemma pair_request : publish_request 48 [6] [97] [0; 1; 2].
Proof.
  split; [reflexivity|reflexivity|split; [reflexivity|cbn; lia]|reflexivity| |
    split; [easy_bytes|cbn; lia]|exists true; reflexivity].
  split; [easy_bytes|split; [easy_nul|split; [reflexivity|cbn; lia]]].
Qed.

Section pair.
Context {bd : Build} {bd_ok : BuildOk bd} (p : Z).

(** The clients behind the socket [p] of the first thread and the socket 5 of
    the second *)
Definition kp : nat := Z.to_nat (base_of 0 + p).
Definition k5 : nat := Z.to_nat (base_of 1 + 5).

Hypothesis Hcores : 1 < g_core_limit.
Hypothesis Hp : 4 < p < 7.

Definition publisher : thread := {|
  t_ep := {| l_sock := 3; base_sock := base_of 0; th_id := 0; contexts_by_ptr := table_with kp |};
  t_os := {| os_rx := <[p := [seg [48; 6; 0]; seg [1; 97; 0; 1; 2]]]> ∅; os_tx := [];
             os_accept := []; os_errno := EOTHER; os_trace := [] |};
  t_phase := Handling [(p, EPOLLIN)] |}.

Definition subscriber : thread := {|
  t_ep := {| l_sock := 4; base_sock := base_of 1; th_id := 1; contexts_by_ptr := table_with k5 |};
  t_os := {| os_rx := ∅; os_tx := [Takes 0; Takes 2]; os_accept := []; os_errno := EOTHER;
             os_trace := [] |};
  t_phase := Waiting |}.

Definition shared : broker := {|
  ss_alloc := plenty; ss_roots := roots_of k5; ss_locked := false;
  ss_clients := <[k5 := sending5]> (<[kp := client0 <| sock := p |>]> ∅) |}.

Definition pair : system := {| sy_broker := shared; sy_threads := [publisher; subscriber] |}.

Lemma shared_client k :
  client_ok (ss_clients shared !!! k) /\ reader_ok (ss_clients shared !!! k) /\
  0 <= sock (ss_clients shared !!! k) < max_fd.
Proof using bd_ok Hp.
  pose proof max_fd_range as Hmax. unfold MAX_FD_PER_LOOP in Hmax.
  assert (H0 : forall x, 0 <= x < 7 -> client_ok (client0 <| sock := x |>) /\
    reader_ok (client0 <| sock := x |>) /\ 0 <= x < max_fd).
  { intros x Hx. split_and!; [by apply client0_ok|apply reader_ok_client0|lia..]. }
  unfold shared. cbn [ss_clients].
  destruct (decide (k = k5)) as [->|H5].
  { rewrite lookup_total_insert_eq. split_and!; [apply sending5_ok|apply reader_ok_client0|cbn; lia..]. }
  rewrite lookup_total_insert_ne by done. destruct (decide (k = kp)) as [->|H6].
  { rewrite lookup_total_insert_eq. apply (H0 p). lia. }
  rewrite lookup_total_insert_ne, lookup_total_empty by done. by apply (H0 0).
Qed.

Lemma pair_good e o n :
  contexts_by_ptr e = table_with n -> base_ok (base_sock e) ->
  (exists fd, 0 <= fd < max_fd /\ n = Z.to_nat (base_sock e + fd)) ->
  scripts_ok o -> good [n] {| w_broker := shared; w_ep := e; w_os := o |}.
Proof using bd_ok Hp.
  intros He Hb Hn Ho. split; [|intros k _; apply shared_client| |done|done| |done|].
  - intros k. apply shared_client.
  - split; [apply plenty_available|done|]. intros k. apply shared_client.
  - cbn. rewrite He. apply table_with_represents.
  - by intros k ->%list_elem_of_singleton.
Qed.

Lemma sockets_fit x : 4 < x < 7 -> 0 <= x < max_fd.
Proof using bd_ok. intros Hx. pose proof max_fd_range. unfold MAX_FD_PER_LOOP in *. lia. Qed.

Lemma bases_ok : base_ok (base_of 0) /\ base_ok (base_of 1).
Proof using bd_ok Hcores. split; apply base_of_ok; lia. Qed.

Hypothesis Hapart : kp <> k5.

Lemma pair_ok : system_ok pair.
Proof using bd_ok Hcores Hp Hapart.
  pose proof bases_ok as [Hb0 Hb1]. split.
  - intros [|[|i]] t [= <-]; (split; [lia|done]).
  - intros [|[|i]] t [= <-]; split; try exact I.
    + apply pair_good; [done|done|exists p; by split; [apply sockets_fit|]|]. intros fd. cbn.
      destruct (decide (fd = p)) as [->|Hne].
      * rewrite lookup_total_insert_eq. vm_compute. by repeat constructor.
      * rewrite lookup_total_insert_ne, lookup_total_empty by done. constructor.
    + split; [apply NoDup_singleton| |].
      * cbn. intros k Hk. apply list_elem_of_singleton in Hk. subst k. intros _.
        split; [by apply sockets_fit|by left].
      * cbn. intros Hk. apply list_elem_of_singleton in Hk. lia.
    + apply pair_good; [done|done|exists 5; by split; [apply sockets_fit|]|]. intros fd. cbn.
      rewrite lookup_total_empty. constructor.
  - intros [|[|i]] [|[|j]] t u n [= <-] [= <-] Hn Hu; try done;
      change (members publisher) with [kp] in *; change (members subscriber) with [k5] in *;
      apply list_elem_of_singleton in Hn, Hu; congruence.
Qed.

Lemma pair_flows : flows 1 k5 pair.
Proof using bd_ok Hcores Hp Hapart.
  pose proof bases_ok as [Hb0 Hb1]. split.
  - apply pair_ok.
  - intros [|[|i]] t [= <-] m Hm; apply list_elem_of_singleton in Hm as ->; cbn.
    + rewrite lookup_total_insert_ne, lookup_total_insert_eq by done. unfold kp. cbn.
      by rewrite fd_of_slot by (done || lia).
    + rewrite lookup_total_insert_eq. unfold k5. cbn. by rewrite fd_of_slot by (done || lia).
  - cbn. rewrite lookup_total_insert_eq. split; [reflexivity|reflexivity|].
    by repeat (constructor; [split; [apply packet1_ok|reflexivity]|]).
  - exists subscriber. split_and!; [done|by left|repeat constructor].
Qed.

Lemma pair_incoming : incoming 48 [6] [97] [0; 1; 2] p (view shared publisher).
Proof using bd_ok Hcores Hp Hapart.
  split.
  - apply pair_request.
  - apply roots_of_ok.
  - apply plenty_available.
  - apply bases_ok.
  - split; [by apply sockets_fit|cbn; lia].
  - change (slot _ p) with kp. cbn. split.
    + rewrite lookup_insert_ne, lookup_insert_eq by done. by eexists.
    + rewrite lookup_total_insert_ne, lookup_total_insert_eq by done. repeat split; reflexivity.
  - eexists _, []. split; [apply lookup_insert_eq|]. split; [repeat constructor|split; reflexivity].
Qed.

(** The publication, when the first thread has read it, reaches the socket of
    the subscriber in the second. *)
Definition crossing : Prop :=
  exists s1 s2 s3 fs v later, step_thread 0 pair = Ok s1 /\ quiet k5 s1 s2 /\
    step_thread 1 s2 = Ok s3 /\ sy_threads s3 !! 1%nat = Some v /\ [[]; [97]] ∈ fs /\
    sent_bytes 5 (os_trace (t_os v)) = [208; 0; 208; 0] ++
      concat (replicate (multiplicity k5 (recipients shared fs)) (publish_bytes [97] [0; 1; 2])) ++ later.
End pair.


(** A round of the first thread, step by step *)
Lemma uninterrupted_round_witness :
  exists k w', steps k 0 (wake 0 [(6, EPOLLIN)] (pair 6)) = Ok (put_thread 0 Waiting w' (pair 6)).
Proof.
  pose proof (uninterrupted_round 0 (publisher 6) [(6, EPOLLIN)] (pair 6) eq_refl) as H.
  destruct (loop_round [(6, EPOLLIN)] (view (sy_broker (pair 6)) (publisher 6))) as [[[] w']|f|] eqn:E.
  - destruct H as [k Hk]. exists k, w'. exact Hk.
  - exfalso. vm_compute in E. discriminate E.
  - exfalso. vm_compute in E. discriminate E.
Defined.

(** ** Two threads as they are started *)

(** Both are about to be given a connection. *)
Section fresh.
Context {bd : Build} {bd_ok : BuildOk bd} (p q : Z).

Definition fresh_thread (i ls : Z) (conns : list Z) : thread := {|
  t_ep := {| l_sock := ls; base_sock := base_of i; th_id := i; contexts_by_ptr := ut_empty |};
  t_os := {| os_rx := ∅; os_tx := []; os_accept := conns; os_errno := EOTHER; os_trace := [] |};
  t_phase := Waiting |}.

Definition fresh_pair : list thread := [fresh_thread 0 3 [p]; fresh_thread 1 4 [q]].
Definition fresh_system : system := {| sy_broker := broker_init roots1 plenty; sy_threads := fresh_pair |}.

Lemma fresh_pair_started : 1 < g_core_limit -> started fresh_pair.
Proof using.
  intros Hc. split; [cbn; lia| |].
  - by intros [|[|i]] t [= <-].
  - intros t Ht. unfold fresh_pair in Ht. rewrite elem_of_cons, list_elem_of_singleton in Ht.
    by destruct Ht as [->| ->]; split_and!; try done; intros fd; cbn; rewrite lookup_total_empty.
Qed.

(** The first has taken its connection, the second has been told of one. *)
Definition first_taken : outcome system :=
  let? s := step_thread 0 (wake 0 [(3, EPOLLIN)] fresh_system) in Ok (wake 1 [(4, EPOLLIN)] s).

Lemma first_taken_moves n :
  1 < g_core_limit -> 0 < p < max_fd -> 0 < q < max_fd ->
  (let? s := first_taken in Ok (members <$> sy_threads s)) = Ok [[n]; []] ->
  (MTCP = false -> Z.to_nat (base_of 1 + q) <> n) ->
  exists s1, first_taken = Ok s1 /\ reach fresh_system s1 /\ roomy s1 1 /\ move s1 1 (step_thread 1 s1).
Proof using.
  intros Hc Hp Hq Hm Hne. unfold first_taken in *. set (s0 := wake 0 _ fresh_system) in *.
  assert (Hm0 : move fresh_system 0 (Ok s0)).
  { apply (move_wake fresh_system 0 (fresh_thread 0 3 [p])); [reflexivity|reflexivity|].
    split; cbn; [apply NoDup_singleton| |].
    - intros fd Hfd. apply list_elem_of_singleton in Hfd. congruence.
    - intros _ _. apply not_elem_of_nil. }
  destruct (step_thread 0 s0) as [s1|f|] eqn:E; [|discriminate Hm..]. cbn in Hm. injection Hm as Hm.
  pose proof (step_other 0 1 s0 s1 E ltac:(discriminate)) as H1.
  change (sy_threads s0 !! 1%nat) with (Some (fresh_thread 1 4 [q])) in H1.
  assert (Hm1 : move s0 0 (Ok s1)).
  { rewrite <- E. eapply move_step; [reflexivity|discriminate|]. intros _ _ k _ u Hu. cbn in Hu.
    rewrite elem_of_cons, list_elem_of_singleton in Hu.
    destruct Hu as [->| ->]; cbn; apply not_elem_of_nil. }
  set (s2 := wake 1 _ s1) in *. exists s2. split; [done|].
  assert (Hm2 : move s1 1 (Ok s2)).
  { apply (move_wake s1 1 (fresh_thread 1 4 [q])); [exact H1|reflexivity|].
    split; cbn; [apply NoDup_singleton| |].
    - intros fd Hfd. apply list_elem_of_singleton in Hfd. congruence.
    - intros _ _. apply not_elem_of_nil. }
  assert (Hroom : forall s i, (forall t, sy_threads s !! i = Some t -> members t = [] \/ t_phase t = Waiting) ->
    roomy s i).
  { intros s i Hs t Ht. destruct (Hs t Ht) as [Hmt| ->]; [|done]. destruct (t_phase t) as [|[|ev l]|]; try done.
    rewrite Hmt. unfold overfull, crowded. destruct (os_accept _); rewrite ?andb_false_r; done. }
  assert (H2 : forall t, sy_threads s2 !! 1%nat = Some t -> members t = []).
  { unfold s2, wake. rewrite H1. intros t Ht. cbn in Ht.
    rewrite list_lookup_insert_eq in Ht by (by eapply lookup_lt_Some). by injection Ht as <-. }
  split; [|split].
  { refine (reach_move _ _ _ _ (reach_move _ _ _ _ (reach_move _ _ _ _ (reach_refl _) _ Hm0) _ Hm1) _ Hm2).
    - apply Hroom. intros t [= <-]. by right.
    - apply Hroom. intros t [= <-]. by left.
    - apply Hroom. intros t Ht. rewrite H1 in Ht. injection Ht as <-. by right. }
  { apply Hroom. intros t Ht. left. by apply H2. }
  eapply move_step.
  - unfold s2, wake. rewrite H1. cbn. apply list_lookup_insert_eq. by eapply lookup_lt_Some.
  - discriminate.
  - intros Hk _ k (conn & l & [= <- <-] & _ & ->) u Hu Hin.
    assert (Hall : members u ∈ [[n]; []]).
    { rewrite <- Hm. apply list_elem_of_fmap. by exists u. }
    rewrite elem_of_cons, list_elem_of_singleton in Hall.
    destruct Hall as [Hall|Hall]; rewrite Hall in Hin; [|by apply elem_of_nil in Hin].
    apply list_elem_of_singleton in Hin. by apply (Hne Hk).
Qed.
End fresh.


(** Another thread queues a packet for client 5 after its count was read. *)
Lemma sending_is_atomic_witness :
  exists sched w', others sched = [(5%nat, packet1)] /\ hd_error sched = Some (Queue 5 packet1) /\
    send_client 5 (view (shared 6) subscriber) = Ok (tt, w') /\
    interleaved 5 (Own :: sched) Counting (view (shared 6) subscriber) =
      Ok (Passed, all_queued [(5%nat, packet1)] w').
Proof.
  destruct (sending_is_atomic 5 (view (shared 6) subscriber)) as (enough & w' & Hrun & H).
  - intros k. by apply shared_client.
  - destruct (owns_alone enough) as [Ho Hq]. exists (Queue 5 packet1 :: replicate enough Own), w'.
    split_and!; [cbn; by rewrite Hq|reflexivity|exact Hrun|].
    rewrite H; cbn [owns others]; rewrite ?Ho, ?Hq; [reflexivity|lia|].
    apply Forall_singleton, packet1_ok.
Defined.
